(** * wiretap/file_wrappers.c: the seekable, auto-detecting decompressing reader

    A shallow embedding of the reader half of [wiretap/file_wrappers.c]
    (buffer pair, format detector, decoder drivers, fast-seek index and the
    public byte-stream API), followed by the properties of the reader that
    the specification states.  The gzip writer of the same file
    (gzwfile_open to gzwfile_geterr) is embedded in the module [Writer], with its properties
    at the end.

    Build configuration modelled: HAVE_ZLIB, Z_BLOCK, HAVE_INFLATEPRIME,
    HAVE_ZSTD and USE_LZ4 are all defined (the full-featured build that
    the specification describes).

    Integer conventions.  [guint] values are kept in [Z] and every
    unsigned operation that can wrap is written with [guint] (reduction
    modulo 2^32).  [gint64] values are kept in [Z]; signed overflow is
    undefined behaviour in C and is not modelled.  A pointer into a buffer
    is the offset from the buffer's base. *)

From Stdlib Require Import ZArith List Ascii Bool Lia.
From Stdlib.Strings Require Import Byte.
From Stdlib Require String.
Import String.StringSyntax.
Delimit Scope string_scope with string.
Import ListNotations.
Local Open Scope list_scope.
Local Open Scope Z_scope.

Set Implicit Arguments.

(** ** Machine integers and raw memory *)

Definition guint (x : Z) : Z := x mod 2 ^ 32.
Definition guint16 (x : Z) : Z := x mod 2 ^ 16.
Definition guint8 (x : Z) : Z := x mod 2 ^ 8.

(** A C [(int)] cast of a [guint]. *)
Definition to_int (x : Z) : Z := if x <? 2 ^ 31 then x else x - 2 ^ 32.

Definition G_MAXINT64 : Z := 2 ^ 63 - 1.

Definition byte_val (b : byte) : Z := Z.of_N (Byte.to_N b).

(** [p[i]] for [p] the base of the memory block [l]. *)
Definition byte_at (l : list byte) (i : Z) : Z :=
  byte_val (nth (Z.to_nat i) l x00).

(** The [n] bytes at offset [off]; what lies beyond the end of the block
    reads as zero bytes, so that [n] bytes are always delivered. *)
Definition slice (l : list byte) (off n : Z) : list byte :=
  firstn (Z.to_nat n) (skipn (Z.to_nat off) l ++ repeat x00 (Z.to_nat n)).

(** [memcpy(l + off, data, length data)]. *)
Definition memcpy_at (l : list byte) (off : Z) (data : list byte) : list byte :=
  firstn (Z.to_nat off) l
    ++ repeat x00 (Z.to_nat off - length l)
    ++ data
    ++ skipn (Z.to_nat off + length data) l.

Arguments guint : simpl never.
Arguments guint16 : simpl never.
Arguments guint8 : simpl never.
Arguments to_int : simpl never.
Arguments byte_val : simpl never.
Arguments byte_at : simpl never.
Arguments slice : simpl never.
Arguments memcpy_at : simpl never.

(** ** Constants of the source and of zlib.h *)

Definition GZBUFSIZE : Z := 4096.
Definition MAX_READ_BUF_SIZE : Z := 2 ^ 30.
Definition ZLIB_WINSIZE : Z := 32768.
Definition SPAN : Z := 1048576.

Definition Z_OK : Z := 0.
Definition Z_STREAM_END : Z := 1.
Definition Z_NEED_DICT : Z := 2.
Definition Z_STREAM_ERROR : Z := -2.
Definition Z_DATA_ERROR : Z := -3.
Definition Z_MEM_ERROR : Z := -4.

(** ** Data model *)

(** values for wtap_reader compression *)
Inductive compression_t : Type :=
| UNKNOWN | UNCOMPRESSED | ZLIB | GZIP_AFTER_HEADER | ZSTD | LZ4.

Definition compression_eqb (a b : compression_t) : bool :=
  match a, b with
  | UNKNOWN, UNKNOWN | UNCOMPRESSED, UNCOMPRESSED | ZLIB, ZLIB
  | GZIP_AFTER_HEADER, GZIP_AFTER_HEADER | ZSTD, ZSTD | LZ4, LZ4 => true
  | _, _ => false
  end.

Inductive whence_t : Type := SEEK_SET | SEEK_CUR | SEEK_END.

(** struct wtap_reader_buf *)
Record wtap_reader_buf : Type := mk_buf {
  buf : list byte;   (* buffer *)
  next : Z;          (* next byte to deliver from buffer (offset from buf) *)
  avail : Z          (* number of bytes available to deliver at next *)
}.

(** struct fast_seek_point; the zlib part of the union is only meaningful
    when [fsp_compression] is [ZLIB]. *)
Record fast_seek_point : Type := mk_point {
  fsp_out : Z;       (* corresponding offset in uncompressed data *)
  fsp_in : Z;        (* offset in input file of first full byte *)
  fsp_compression : compression_t;
  zlib_bits : Z;
  zlib_window : list byte;
  zlib_adler : Z;
  zlib_total_out : Z
}.

(** struct zlib_cur_seek_point *)
Record zlib_cur_seek_point : Type := mk_cur {
  cur_window : list byte;
  cur_pos : Z;
  cur_have : Z
}.

(** Result of a system call: a value, or -1 with errno set. *)
Inductive io_result (A : Type) : Type :=
| IoOk (a : A)
| IoErr (errno : Z).
Arguments IoErr {A} errno.

(** What one call of zlib's inflate() did. *)
Record inflate_result (ZS : Type) : Type := mk_inflate_result {
  ir_ret : Z;                 (* return value *)
  ir_consumed : Z;            (* bytes taken from next_in *)
  ir_produced : list byte;    (* bytes stored at next_out *)
  ir_msg : option String.string;     (* strm->msg *)
  ir_data_type : Z;           (* strm->data_type *)
  ir_state : ZS
}.

(** What one call of ZSTD_decompressStream() / LZ4F_decompress() did. *)
Record stream_result (DS : Type) : Type := mk_stream_result {
  sr_error : option String.string;   (* Some name when the *_isError test holds *)
  sr_finished : bool;         (* return value is 0 *)
  sr_consumed : Z;            (* input.pos / inBufSize on return *)
  sr_produced : list byte;    (* output bytes; output.pos / outBufSize *)
  sr_state : DS
}.

(** The external collaborators: error codes of wtap.h and errno.h (not in
    this file), the OS file primitives, the allocator and the
    decompression libraries. *)
Class Env : Type := {
  WTAP_ERR_SHORT_READ : Z;
  WTAP_ERR_DECOMPRESS : Z;
  ENOMEM : Z;
  EINVAL : Z;
  (* OS *)
  fd_t : Type;
  ws_open : String.string -> option fd_t;
  ws_read : fd_t -> Z -> io_result (list byte) * fd_t;
  ws_lseek64 : fd_t -> Z -> whence_t -> io_result Z * fd_t;
  st_blksize : fd_t -> option Z;
  g_try_malloc : Z -> option (list byte);
  (* zlib *)
  z_state : Type;
  inflateInit2 : Z -> option z_state;
  inflate : z_state -> list byte -> Z -> inflate_result z_state;
  inflateReset : z_state -> z_state;
  inflatePrime : z_state -> Z -> Z -> z_state;
  inflateSetDictionary : z_state -> list byte -> z_state;
  crc32 : Z -> list byte -> Z;
  crc32_init : Z;
  (* zstd *)
  ZSTD_DCtx : Type;
  ZSTD_DStreamInSize : Z;
  ZSTD_DStreamOutSize : Z;
  ZSTD_createDCtx : option ZSTD_DCtx;
  ZSTD_initDStream : ZSTD_DCtx -> option String.string * ZSTD_DCtx;
  ZSTD_decompressStream : ZSTD_DCtx -> list byte -> Z -> stream_result ZSTD_DCtx;
  (* lz4 *)
  LZ4F_dctx : Type;
  LZ4F_createDecompressionContext : option LZ4F_dctx;
  LZ4F_resetDecompressionContext : LZ4F_dctx -> LZ4F_dctx;
  LZ4F_decompress : LZ4F_dctx -> list byte -> Z -> stream_result LZ4F_dctx
}.

(** What the reader relies on: the error codes differ from 0 ("no error")
    and a failed read leaves a non-zero errno. *)
Class EnvOk (E : Env) : Prop := {
  short_read_nz : WTAP_ERR_SHORT_READ <> 0;
  decompress_nz : WTAP_ERR_DECOMPRESS <> 0;
  enomem_nz : ENOMEM <> 0;
  read_errno_nz : forall fd n e fd', ws_read fd n = (IoErr e, fd') -> e <> 0;
  zstd_in_size_pos : 0 < ZSTD_DStreamInSize
}.

Section Reader.

Context {E : Env}.

(** z_stream, as far as this file looks into it.  next_in/avail_in and
    next_out/avail_out are set anew by every zlib_read call and are kept
    as locals of its loop. *)
Record z_stream : Type := mk_strm {
  adler : Z;
  total_out : Z;
  data_type : Z;
  msg : option String.string;
  internal : z_state
}.

(** struct wtap_reader *)
Record wtap_reader : Type := mk_reader {
  fd : fd_t;                 (* file descriptor *)
  raw_pos : Z;               (* current position in file *)
  pos : Z;                   (* current position in uncompressed data *)
  size : Z;                  (* buffer size *)
  in_ : wtap_reader_buf;     (* input buffer, containing compressed data *)
  out : wtap_reader_buf;     (* output buffer, containing uncompressed data *)
  eof : bool;                (* TRUE if end of input file reached *)
  start : Z;                 (* where the gzip data started, for rewinding *)
  raw : Z;                   (* where the raw data started, for seeking *)
  compression : compression_t;
  is_compressed : bool;
  skip : Z;                  (* amount to skip *)
  seek_pending : bool;       (* TRUE if seek request pending *)
  err : Z;                   (* error code *)
  err_info : option String.string;  (* additional error information string *)
  strm : z_stream;
  dont_check_crc : bool;
  fast_seek : option (list fast_seek_point);
  fast_seek_cur : option zlib_cur_seek_point;
  zstd_dctx : ZSTD_DCtx;
  lz4_dctx : LZ4F_dctx
}.

(** Field assignments. *)
Definition set_fd v s := mk_reader v (raw_pos s) (pos s) (size s) (in_ s) (out s) (eof s) (start s) (raw s) (compression s) (is_compressed s) (skip s) (seek_pending s) (err s) (err_info s) (strm s) (dont_check_crc s) (fast_seek s) (fast_seek_cur s) (zstd_dctx s) (lz4_dctx s).
Definition set_raw_pos v s := mk_reader (fd s) v (pos s) (size s) (in_ s) (out s) (eof s) (start s) (raw s) (compression s) (is_compressed s) (skip s) (seek_pending s) (err s) (err_info s) (strm s) (dont_check_crc s) (fast_seek s) (fast_seek_cur s) (zstd_dctx s) (lz4_dctx s).
Definition set_pos v s := mk_reader (fd s) (raw_pos s) v (size s) (in_ s) (out s) (eof s) (start s) (raw s) (compression s) (is_compressed s) (skip s) (seek_pending s) (err s) (err_info s) (strm s) (dont_check_crc s) (fast_seek s) (fast_seek_cur s) (zstd_dctx s) (lz4_dctx s).
Definition set_in v s := mk_reader (fd s) (raw_pos s) (pos s) (size s) v (out s) (eof s) (start s) (raw s) (compression s) (is_compressed s) (skip s) (seek_pending s) (err s) (err_info s) (strm s) (dont_check_crc s) (fast_seek s) (fast_seek_cur s) (zstd_dctx s) (lz4_dctx s).
Definition set_out v s := mk_reader (fd s) (raw_pos s) (pos s) (size s) (in_ s) v (eof s) (start s) (raw s) (compression s) (is_compressed s) (skip s) (seek_pending s) (err s) (err_info s) (strm s) (dont_check_crc s) (fast_seek s) (fast_seek_cur s) (zstd_dctx s) (lz4_dctx s).
Definition set_eof v s := mk_reader (fd s) (raw_pos s) (pos s) (size s) (in_ s) (out s) v (start s) (raw s) (compression s) (is_compressed s) (skip s) (seek_pending s) (err s) (err_info s) (strm s) (dont_check_crc s) (fast_seek s) (fast_seek_cur s) (zstd_dctx s) (lz4_dctx s).
Definition set_raw v s := mk_reader (fd s) (raw_pos s) (pos s) (size s) (in_ s) (out s) (eof s) (start s) v (compression s) (is_compressed s) (skip s) (seek_pending s) (err s) (err_info s) (strm s) (dont_check_crc s) (fast_seek s) (fast_seek_cur s) (zstd_dctx s) (lz4_dctx s).
Definition set_compression v s := mk_reader (fd s) (raw_pos s) (pos s) (size s) (in_ s) (out s) (eof s) (start s) (raw s) v (is_compressed s) (skip s) (seek_pending s) (err s) (err_info s) (strm s) (dont_check_crc s) (fast_seek s) (fast_seek_cur s) (zstd_dctx s) (lz4_dctx s).
Definition set_is_compressed v s := mk_reader (fd s) (raw_pos s) (pos s) (size s) (in_ s) (out s) (eof s) (start s) (raw s) (compression s) v (skip s) (seek_pending s) (err s) (err_info s) (strm s) (dont_check_crc s) (fast_seek s) (fast_seek_cur s) (zstd_dctx s) (lz4_dctx s).
Definition set_skip v s := mk_reader (fd s) (raw_pos s) (pos s) (size s) (in_ s) (out s) (eof s) (start s) (raw s) (compression s) (is_compressed s) v (seek_pending s) (err s) (err_info s) (strm s) (dont_check_crc s) (fast_seek s) (fast_seek_cur s) (zstd_dctx s) (lz4_dctx s).
Definition set_seek_pending v s := mk_reader (fd s) (raw_pos s) (pos s) (size s) (in_ s) (out s) (eof s) (start s) (raw s) (compression s) (is_compressed s) (skip s) v (err s) (err_info s) (strm s) (dont_check_crc s) (fast_seek s) (fast_seek_cur s) (zstd_dctx s) (lz4_dctx s).
Definition set_error v i s := mk_reader (fd s) (raw_pos s) (pos s) (size s) (in_ s) (out s) (eof s) (start s) (raw s) (compression s) (is_compressed s) (skip s) (seek_pending s) v i (strm s) (dont_check_crc s) (fast_seek s) (fast_seek_cur s) (zstd_dctx s) (lz4_dctx s).
Definition set_strm v s := mk_reader (fd s) (raw_pos s) (pos s) (size s) (in_ s) (out s) (eof s) (start s) (raw s) (compression s) (is_compressed s) (skip s) (seek_pending s) (err s) (err_info s) v (dont_check_crc s) (fast_seek s) (fast_seek_cur s) (zstd_dctx s) (lz4_dctx s).
Definition set_dont_check_crc v s := mk_reader (fd s) (raw_pos s) (pos s) (size s) (in_ s) (out s) (eof s) (start s) (raw s) (compression s) (is_compressed s) (skip s) (seek_pending s) (err s) (err_info s) (strm s) v (fast_seek s) (fast_seek_cur s) (zstd_dctx s) (lz4_dctx s).
Definition set_fast_seek v s := mk_reader (fd s) (raw_pos s) (pos s) (size s) (in_ s) (out s) (eof s) (start s) (raw s) (compression s) (is_compressed s) (skip s) (seek_pending s) (err s) (err_info s) (strm s) (dont_check_crc s) v (fast_seek_cur s) (zstd_dctx s) (lz4_dctx s).
Definition set_fast_seek_cur v s := mk_reader (fd s) (raw_pos s) (pos s) (size s) (in_ s) (out s) (eof s) (start s) (raw s) (compression s) (is_compressed s) (skip s) (seek_pending s) (err s) (err_info s) (strm s) (dont_check_crc s) (fast_seek s) v (zstd_dctx s) (lz4_dctx s).
Definition set_zstd_dctx v s := mk_reader (fd s) (raw_pos s) (pos s) (size s) (in_ s) (out s) (eof s) (start s) (raw s) (compression s) (is_compressed s) (skip s) (seek_pending s) (err s) (err_info s) (strm s) (dont_check_crc s) (fast_seek s) (fast_seek_cur s) v (lz4_dctx s).
Definition set_lz4_dctx v s := mk_reader (fd s) (raw_pos s) (pos s) (size s) (in_ s) (out s) (eof s) (start s) (raw s) (compression s) (is_compressed s) (skip s) (seek_pending s) (err s) (err_info s) (strm s) (dont_check_crc s) (fast_seek s) (fast_seek_cur s) (zstd_dctx s) v.

(** ** The monad of the reader's functions

    Every function works on the one [wtap_reader] it is handed.  [Done a s]
    is a normal return of [a]; [Fail s] is a return of -1 from a function
    whose result is a status; [Stuck] stands for a run that gives no
    result: a loop that has used up its fuel, a failed [assert], or
    undefined behaviour (a NULL or out-of-bounds access). *)
Inductive outcome (A : Type) : Type :=
| Done (a : A) (s : wtap_reader)
| Fail (s : wtap_reader)
| Stuck.
Arguments Fail {A} s.
Arguments Stuck {A}.

Definition M (A : Type) : Type := wtap_reader -> outcome A.

Definition ret {A} (a : A) : M A := fun s => Done a s.
Definition fail {A} : M A := fun s => Fail s.
Definition stuck {A} : M A := fun _ => Stuck.
Definition bind {A B} (m : M A) (f : A -> M B) : M B :=
  fun s => match m s with
           | Done a s' => f a s'
           | Fail s' => Fail s'
           | Stuck => Stuck
           end.
Definition get : M wtap_reader := fun s => Done s s.
Definition modify (f : wtap_reader -> wtap_reader) : M unit := fun s => Done tt (f s).

(** [m == -1] tested by the caller: the status becomes a value. *)
Definition attempt {A} (m : M A) : M (option A) :=
  fun s => match m s with
           | Done a s' => Done (Some a) s'
           | Fail s' => Done None s'
           | Stuck => Stuck
           end.

End Reader.

Arguments Done {E A} a s.
Arguments Fail {E A} s.
Arguments Stuck {E A}.

Declare Scope reader_scope.
Delimit Scope reader_scope with reader.
Notation "x <- m ;; k" := (bind m (fun x => k))
  (at level 61, m at next level, right associativity) : reader_scope.
Notation "m ;; k" := (bind m (fun _ => k))
  (at level 61, right associativity) : reader_scope.
Local Open Scope reader_scope.

Section Functions.

Context {E : Env}.

(** ** Buffer pair *)

(** Current read offset within a buffer. *)
Definition offset_in_buffer (b : wtap_reader_buf) : Z := guint (next b).

(** Number of bytes of data that are in a buffer. *)
Definition bytes_in_buffer (b : wtap_reader_buf) : Z := guint (next b + avail b).

(** Reset a buffer, discarding all data in the buffer. *)
Definition buf_reset (b : wtap_reader_buf) : wtap_reader_buf := mk_buf (buf b) 0 0.

(** [&state->in] or [&state->out]. *)
Inductive which_buf : Type := In_buf | Out_buf.

Definition get_buf (w : which_buf) (s : wtap_reader) : wtap_reader_buf :=
  match w with In_buf => in_ s | Out_buf => out s end.

Definition set_buf (w : which_buf) (b : wtap_reader_buf) (s : wtap_reader) : wtap_reader :=
  match w with In_buf => set_in b s | Out_buf => set_out b s end.

(** [buf->next += n; buf->avail -= n]. *)
Definition buf_advance (n : Z) (b : wtap_reader_buf) : wtap_reader_buf :=
  mk_buf (buf b) (next b + n) (guint (avail b - n)).

Definition buf_read (w : which_buf) : M unit := fun s =>
  let b := get_buf w s in
  let space_left := guint (size s - bytes_in_buffer b) in
  let b1 := if space_left =? 0 then buf_reset b else b in
  let read_ptr := if space_left =? 0 then 0 else next b + avail b in
  let to_read := if space_left =? 0 then size s else space_left in
  match ws_read (fd s) to_read with
  | (IoErr e, fd') => Fail (set_error e None (set_buf w b1 (set_fd fd' s)))
  | (IoOk data, fd') =>
      let r := Z.of_nat (length data) in
      let s1 := set_fd fd' s in
      let s2 := if r =? 0 then set_eof true s1 else s1 in
      let s3 := set_raw_pos (raw_pos s2 + r) s2 in
      Done tt (set_buf w (mk_buf (memcpy_at (buf b1) read_ptr data) (next b1)
                                 (guint (avail b1 + r))) s3)
  end.

Definition fill_in_buffer : M unit := fun s =>
  if negb (err s =? 0) then Fail s
  else if negb (eof s) then buf_read In_buf s
  else Done tt s.

(** ** Fast-seek index *)

(** [pdata[len - 1]], when there is one. *)
Definition array_last (arr : list fast_seek_point) : option fast_seek_point :=
  nth_error arr (length arr - 1)%nat.

(** The loop of fast_seek_find; [None] when the fuel runs out or an index
    leaves the array. *)
Fixpoint fast_seek_find_loop (fuel : nat) (arr : list fast_seek_point) (p low max : Z)
    (smallest : option fast_seek_point) : option (option fast_seek_point) :=
  match fuel with
  | O => None
  | S fuel' =>
      if low <? max then
        let i := guint (low + max) / 2 in
        match nth_error arr (Z.to_nat i) with
        | None => None
        | Some item =>
            if p <? fsp_out item then fast_seek_find_loop fuel' arr p low i smallest
            else if fsp_out item <? p then
              fast_seek_find_loop fuel' arr p (guint (i + 1)) max (Some item)
            else Some (Some item)
        end
      else Some smallest
  end.

Definition fast_seek_find (file : wtap_reader) (p : Z) : option (option fast_seek_point) :=
  match fast_seek file with
  | None => Some None
  | Some arr =>
      fast_seek_find_loop (S (length arr)) arr p 0 (guint (Z.of_nat (length arr))) None
  end.

Definition fast_seek_header (in_pos out_pos : Z) (c : compression_t) : M unit := fun s =>
  match fast_seek s with
  | None => Stuck
  | Some arr =>
      let item := if Z.of_nat (length arr) =? 0 then None else array_last arr in
      let add :=
        Done tt (set_fast_seek (Some (arr ++ [mk_point out_pos in_pos c 0 [] 0 0])) s) in
      match item with
      | None => add
      | Some it => if fsp_out it <? out_pos then add else Done tt s
      end
  end.

Definition fast_seek_reset : M unit := fun s =>
  match compression s, fast_seek_cur s with
  | ZLIB, Some cur =>
      Done tt (set_fast_seek_cur (Some (mk_cur (cur_window cur) (cur_pos cur) 0)) s)
  | _, _ => Done tt s
  end.

(** ** Reading the gzip header and trailer *)

(** Get next byte from input, or -1 if end or error. *)
Definition GZ_GETC : M Z :=
  s <- get ;;
  r <- (if avail (in_ s) =? 0 then attempt fill_in_buffer else ret (Some tt)) ;;
  match r with
  | None => ret (-1)
  | Some _ =>
      s <- get ;;
      if avail (in_ s) =? 0 then ret (-1)
      else modify (set_in (buf_advance 1 (in_ s))) ;;
           ret (byte_at (buf (in_ s)) (next (in_ s)))
  end.

(** The [if (state->err == 0) { state->err = WTAP_ERR_SHORT_READ; ... }
    return -1;] that follows a failed GZ_GETC. *)
Definition short_read : forall A, M A := fun A s =>
  if err s =? 0 then Fail (set_error WTAP_ERR_SHORT_READ None s) else Fail s.
Arguments short_read {A}.

Definition gz_next1 : M Z :=
  ch <- GZ_GETC ;;
  if ch =? -1 then short_read else ret (guint8 ch).

Definition gz_next2 : M Z :=
  c0 <- GZ_GETC ;;
  ch <- GZ_GETC ;;
  let val := guint16 c0 in
  if ch =? -1 then short_read
  else ret (guint16 (val + Z.shiftl (guint16 ch) 8)).

Definition gz_next4 : M Z :=
  c0 <- GZ_GETC ;;
  c1 <- GZ_GETC ;;
  c2 <- GZ_GETC ;;
  ch <- GZ_GETC ;;
  let val := guint c0 in
  let val := guint (val + guint (Z.shiftl (guint c1) 8)) in
  let val := guint (val + guint (Z.shiftl (guint c2) 16)) in
  if ch =? -1 then short_read
  else ret (guint (val + guint (Z.shiftl (guint ch) 24))).

Fixpoint gz_skipn (n : nat) : M unit :=
  match n with
  | O => ret tt
  | S n' => ch <- GZ_GETC ;; if ch =? -1 then short_read else gz_skipn n'
  end.

Fixpoint gz_skipzstr (fuel : nat) : M unit :=
  match fuel with
  | O => stuck
  | S fuel' =>
      ch <- GZ_GETC ;;
      if 0 <? ch then gz_skipzstr fuel'
      else if ch =? -1 then short_read
      else ret tt
  end.

(** ** The deflate driver *)

Definition zlib_fast_seek_add (point : zlib_cur_seek_point) (bits in_pos out_pos : Z)
  : M unit := fun s =>
  match fast_seek s with
  | None => Stuck
  | Some arr =>
      match array_last arr with
      | None => Stuck
      | Some item =>
          if fsp_out item + SPAN <? out_pos then
            let window :=
              if negb (cur_pos point =? 0) then
                let left := guint (ZLIB_WINSIZE - cur_pos point) in
                memcpy_at (memcpy_at [] 0 (slice (cur_window point) (cur_pos point) left))
                          left (slice (cur_window point) 0 (cur_pos point))
              else memcpy_at [] 0 (slice (cur_window point) 0 ZLIB_WINSIZE) in
            let val := mk_point out_pos in_pos ZLIB bits window
                                (guint (adler (strm s))) (guint (total_out (strm s))) in
            Done tt (set_fast_seek (Some (arr ++ [val])) s)
          else Done tt s
      end
  end.

(** The rolling window after [ready] more bytes were produced at
    [outbuf + buf2]. *)
Definition window_update (cur : zlib_cur_seek_point) (outbuf : list byte) (buf2 ready : Z)
  : zlib_cur_seek_point :=
  if ready <? ZLIB_WINSIZE then
    let left := guint (ZLIB_WINSIZE - cur_pos cur) in
    let cur1 :=
      if left <=? ready then
        let w := memcpy_at (cur_window cur) (cur_pos cur) (slice outbuf buf2 left) in
        let w := if negb (ready =? left)
                 then memcpy_at w 0 (slice outbuf (buf2 + left) (guint (ready - left)))
                 else w in
        mk_cur w (guint (ready - left)) (guint (cur_have cur + ready))
      else
        mk_cur (memcpy_at (cur_window cur) (cur_pos cur) (slice outbuf buf2 ready))
               (guint (cur_pos cur + ready)) (guint (cur_have cur + ready)) in
    if ZLIB_WINSIZE <=? cur_have cur1
    then mk_cur (cur_window cur1) (cur_pos cur1) ZLIB_WINSIZE
    else cur1
  else
    mk_cur (memcpy_at (cur_window cur) 0
                      (slice outbuf (buf2 + guint (ready - ZLIB_WINSIZE)) ZLIB_WINSIZE))
           0 ZLIB_WINSIZE.

(** What inflateReset() does to the fields of z_stream that this file
    reads. *)
Definition strm_reset (st : z_stream) : z_stream :=
  mk_strm (adler st) 0 (data_type st) None (inflateReset (internal st)).

Definition set_adler (a : Z) (st : z_stream) : z_stream :=
  mk_strm a (total_out st) (data_type st) (msg st) (internal st).

(** The do-while loop of zlib_read.  [ret_] is the local [ret],
    [avail_out] is [strm->avail_out]; [strm->next_out] always equals
    [buf2], an offset into the output buffer.  The result is the final
    [(ret, strm->avail_out)]. *)
Fixpoint zlib_read_loop (fuel : nat) (count ret_ avail_out buf2 count2 : Z) : M (Z * Z) :=
  match fuel with
  | O => stuck
  | S fuel' =>
    s <- get ;;
    r <- (if avail (in_ s) =? 0 then attempt fill_in_buffer else ret (Some tt)) ;;
    match r with
    | None => ret (ret_, avail_out)
    | Some _ =>
      s <- get ;;
      if avail (in_ s) =? 0 then
        modify (set_error WTAP_ERR_SHORT_READ None) ;; ret (ret_, avail_out)
      else
        let res := inflate (internal (strm s))
                           (slice (buf (in_ s)) (next (in_ s)) (avail (in_ s))) avail_out in
        let produced := Z.of_nat (length (ir_produced res)) in
        let avail_out' := guint (avail_out - produced) in
        let avail_in' := guint (avail (in_ s) - ir_consumed res) in
        let rc := ir_ret res in
        modify (fun s =>
          set_in (mk_buf (buf (in_ s)) (next (in_ s) + ir_consumed res) avail_in')
            (set_out (mk_buf (memcpy_at (buf (out s)) buf2 (ir_produced res))
                             (next (out s)) (avail (out s)))
               (set_strm (mk_strm (adler (strm s)) (total_out (strm s) + produced)
                                  (ir_data_type res) (ir_msg res) (ir_state res)) s))) ;;
        if rc =? Z_STREAM_ERROR then
          modify (set_error WTAP_ERR_DECOMPRESS (ir_msg res)) ;; ret (rc, avail_out')
        else if rc =? Z_NEED_DICT then
          modify (set_error WTAP_ERR_DECOMPRESS (Some "preset dictionary needed"%string)) ;;
          ret (rc, avail_out')
        else if rc =? Z_MEM_ERROR then
          modify (set_error ENOMEM None) ;; ret (rc, avail_out')
        else if rc =? Z_DATA_ERROR then
          modify (set_error WTAP_ERR_DECOMPRESS (ir_msg res)) ;; ret (rc, avail_out')
        else
          let ready := guint (count2 - avail_out') in
          modify (fun s =>
            set_strm (set_adler (crc32 (adler (strm s)) (slice (buf (out s)) buf2 ready))
                                (strm s)) s) ;;
          s <- get ;;
          match fast_seek_cur s with
          | None => ret tt
          | Some cur =>
              let cur' := window_update cur (buf (out s)) buf2 ready in
              let dt := data_type (strm s) in
              modify (set_fast_seek_cur (Some cur')) ;;
              if (ZLIB_WINSIZE <=? cur_have cur') && negb (rc =? Z_STREAM_END)
                 && negb (Z.land dt 128 =? 0) && (Z.land dt 64 =? 0)
              then zlib_fast_seek_add cur' (Z.land dt 7) (raw_pos s - avail_in')
                                      (pos s + guint (count - avail_out'))
              else ret tt
          end ;;
          if negb (avail_out' =? 0) && negb (rc =? Z_STREAM_END)
          then zlib_read_loop fuel' count rc avail_out' (buf2 + count2 - avail_out') avail_out'
          else ret (rc, avail_out')
    end
  end.

(** Check gzip trailer if at end of deflate stream: the body of
    [if (ret == Z_STREAM_END) { ... }]. *)
Definition zlib_read_trailer : M unit :=
  r <- attempt (crc <- gz_next4 ;; len <- gz_next4 ;; ret (crc, len)) ;;
  match r with
  | Some (crc, len) =>
      s <- get ;;
      if negb (crc =? adler (strm s)) && negb (dont_check_crc s) then
        modify (set_error WTAP_ERR_DECOMPRESS (Some "bad CRC"%string))
      else if negb (len =? Z.land (total_out (strm s)) 0xffffffff) then
        modify (set_error WTAP_ERR_DECOMPRESS (Some "length field wrong"%string))
      else ret tt
  | None => ret tt
  end ;;
  modify (fun s => set_fast_seek_cur None (set_compression UNKNOWN s)).

(** zlib_read(state, state->out.buf, count) *)
Definition zlib_read (fuel : nat) (count : Z) : M unit :=
  r <- zlib_read_loop fuel count 0 count 0 count ;;
  let rc := fst r in
  let avail_out := snd r in
  modify (fun s => set_out (mk_buf (buf (out s)) 0 (guint (count - avail_out))) s) ;;
  if rc =? Z_STREAM_END then zlib_read_trailer else ret tt.

(** ** Format detector *)

Definition magic4 (b : list byte) (m0 m1 m2 m3 : Z) : bool :=
  (byte_at b 0 =? m0) && (byte_at b 1 =? m1) && (byte_at b 2 =? m2) && (byte_at b 3 =? m3).

(** gz_head from "set up for decompression" on: the bytes of the gzip
    header after ID1 ID2 were read. *)
Definition gz_head_setup : M unit :=
  modify (fun s => set_is_compressed true (set_compression ZLIB
            (set_strm (set_adler crc32_init (strm_reset (strm s))) s))) ;;
  s <- get ;;
  match fast_seek s with
  | Some _ =>
      modify (set_fast_seek_cur (Some (mk_cur [] 0 0))) ;;
      fast_seek_header (raw_pos s - avail (in_ s)) (pos s) GZIP_AFTER_HEADER
  | None => ret tt
  end.

(** gz_head once ID1 ID2 = 1F 8B were seen. *)
Definition gz_head_gzip (fuel : nat) : M unit :=
  s <- get ;;
  modify (set_in (buf_advance 1 (in_ s))) ;;
  (* compression method (CM) *)
  cm <- gz_next1 ;;
  if negb (cm =? 8) then
    modify (set_error WTAP_ERR_DECOMPRESS (Some "unknown compression method"%string)) ;; fail
  else
  (* flags (FLG) *)
  flags <- gz_next1 ;;
  if negb (Z.land flags 0xe0 =? 0) then
    modify (set_error WTAP_ERR_DECOMPRESS (Some "reserved flag bits set"%string)) ;; fail
  else
  gz_skipn 4 ;;       (* modification time (MTIME) *)
  gz_skipn 1 ;;       (* extra flags (XFL) *)
  gz_skipn 1 ;;       (* operating system (OS) *)
  (if negb (Z.land flags 4 =? 0)
   then len <- gz_next2 ;; gz_skipn (Z.to_nat len)
   else ret tt) ;;
  (if negb (Z.land flags 8 =? 0) then gz_skipzstr fuel else ret tt) ;;
  (if negb (Z.land flags 16 =? 0) then gz_skipzstr fuel else ret tt) ;;
  (if negb (Z.land flags 2 =? 0) then hcrc <- gz_next2 ;; ret tt else ret tt) ;;
  gz_head_setup.

(** gz_head from the zstd magic test on. *)
Definition gz_head_other : M unit :=
  s <- get ;;
  if (4 <=? avail (in_ s)) && magic4 (buf (in_ s)) 0x28 0xb5 0x2f 0xfd then
    let r := ZSTD_initDStream (zstd_dctx s) in
    match fst r with
    | Some name =>
        modify (fun s => set_error WTAP_ERR_DECOMPRESS (Some name) (set_zstd_dctx (snd r) s)) ;;
        fail
    | None =>
        modify (fun s => set_is_compressed true (set_compression ZSTD
                           (set_zstd_dctx (snd r) s)))
    end
  else if (4 <=? avail (in_ s)) && magic4 (buf (in_ s)) 0x04 0x22 0x4d 0x18 then
    modify (fun s => set_is_compressed true (set_compression LZ4
              (set_lz4_dctx (LZ4F_resetDecompressionContext (lz4_dctx s)) s)))
  else
    match fast_seek s with
    | Some _ =>
        fast_seek_header (raw_pos s - avail (in_ s) - avail (out s)) (pos s) UNCOMPRESSED
    | None => ret tt
    end ;;
    modify (fun s =>
      let s1 := set_out (mk_buf (buf (out s)) 0 (avail (out s))) (set_raw (pos s) s) in
      let already_read := bytes_in_buffer (in_ s1) in
      let s2 :=
        if negb (already_read =? 0) then
          set_in (buf_reset (in_ s1))
            (set_out (mk_buf (memcpy_at (buf (out s1)) 0 (slice (buf (in_ s1)) 0 already_read))
                             0 already_read) s1)
        else s1 in
      set_compression UNCOMPRESSED s2).

Definition gz_head (fuel : nat) : M unit :=
  s <- get ;;
  (* get some data in the input buffer *)
  have_data <- (if avail (in_ s) =? 0
                then fill_in_buffer ;; s <- get ;; ret (negb (avail (in_ s) =? 0))
                else ret true) ;;
  if negb have_data then ret tt
  else
    s <- get ;;
    (* look for the gzip magic header bytes 31 and 139 *)
    if byte_at (buf (in_ s)) (next (in_ s)) =? 31 then
      modify (set_in (buf_advance 1 (in_ s))) ;;
      s <- get ;;
      (if avail (in_ s) =? 0 then fill_in_buffer else ret tt) ;;
      s <- get ;;
      if negb (avail (in_ s) =? 0) then
        if byte_at (buf (in_ s)) (next (in_ s)) =? 139 then gz_head_gzip fuel
        else
          (* Not a gzip file.  "Unget" the first character *)
          modify (set_in (mk_buf (buf (in_ s)) (next (in_ s) - 1) (guint (avail (in_ s) + 1)))) ;;
          gz_head_other
      else gz_head_other
    else gz_head_other.

(** ** Stream state machine *)

(** The zstd and lz4 branches of fill_out_buffer share their shape. *)
Definition stream_step {DS : Type} (decompress : list byte -> Z -> stream_result DS)
    (store : DS -> wtap_reader -> wtap_reader) : M unit :=
  s <- get ;;
  if negb (avail (out s) =? 0) then stuck   (* assert(state->out.avail == 0) *)
  else
    (if avail (in_ s) =? 0 then fill_in_buffer else ret tt) ;;
    s <- get ;;
    let res := decompress (slice (buf (in_ s)) (next (in_ s)) (avail (in_ s)))
                          (guint (size s * 2)) in
    match sr_error res with
    | Some name =>
        modify (fun s => set_error WTAP_ERR_DECOMPRESS (Some name) (store (sr_state res) s)) ;;
        fail
    | None =>
        modify (fun s =>
          set_out (mk_buf (memcpy_at (buf (out s)) 0 (sr_produced res)) 0
                          (guint (Z.of_nat (length (sr_produced res)))))
            (set_in (mk_buf (buf (in_ s)) (next (in_ s) + sr_consumed res)
                            (guint (avail (in_ s) - guint (sr_consumed res))))
               (store (sr_state res) s))) ;;
        if sr_finished res then modify (set_compression UNKNOWN) else ret tt
    end.

Definition fill_out_buffer (fuel : nat) : M unit :=
  s <- get ;;
  got_data <- (if compression_eqb (compression s) UNKNOWN
               then gz_head fuel ;; s <- get ;; ret (negb (avail (out s) =? 0))
               else ret false) ;;
  if got_data then ret tt       (* got some data from gz_head() *)
  else
    s <- get ;;
    match compression s with
    | UNCOMPRESSED => buf_read Out_buf
    | ZLIB => zlib_read fuel (guint (size s * 2))
    | ZSTD => stream_step (ZSTD_decompressStream (zstd_dctx s)) set_zstd_dctx
    | LZ4 => stream_step (LZ4F_decompress (lz4_dctx s)) set_lz4_dctx
    | UNKNOWN | GZIP_AFTER_HEADER => ret tt
    end.

(** [out.avail -= n; out.next += n; pos += n]: [n] bytes of the output
    buffer are consumed. *)
Definition consume (n : Z) (s : wtap_reader) : wtap_reader :=
  set_pos (pos s + n) (set_out (buf_advance n (out s)) s).

Fixpoint gz_skip (fuel : nat) (len : Z) : M unit :=
  match fuel with
  | O => stuck
  | S fuel' =>
      if len =? 0 then ret tt
      else
        s <- get ;;
        if negb (avail (out s) =? 0) then
          let n := if len <? avail (out s) then guint len else avail (out s) in
          modify (consume n) ;; gz_skip fuel' (len - n)
        else if negb (err s =? 0) then fail
        else if eof s && (avail (in_ s) =? 0) then ret tt
        else fill_out_buffer fuel' ;; gz_skip fuel' len
  end.

Definition gz_reset (s : wtap_reader) : wtap_reader :=
  set_in (buf_reset (in_ s))
    (set_pos 0
       (set_error 0 None
          (set_seek_pending false
             (set_compression UNKNOWN
                (set_eof false
                   (set_out (buf_reset (out s)) s)))))).

(** ** Opening *)

(** The buffer size chosen by file_fdopen. *)
Definition buffer_want (fd0 : fd_t) : Z :=
  let want := GZBUFSIZE in
  let want :=
    match st_blksize fd0 with
    | Some blk => if blk <=? MAX_READ_BUF_SIZE then guint blk else MAX_READ_BUF_SIZE
    | None => want
    end in
  let bump (zstd_buf_size want : Z) :=
    if want <? zstd_buf_size then
      if zstd_buf_size <=? MAX_READ_BUF_SIZE then guint zstd_buf_size else MAX_READ_BUF_SIZE
    else want in
  bump ZSTD_DStreamOutSize (bump ZSTD_DStreamInSize want).

(** file_fdopen; [None] is the NULL return.  The reader structure itself
    is a value here, so only the allocations of the buffers and of the
    decoder contexts can fail. *)
Definition file_fdopen (fd0 : fd_t) : option wtap_reader :=
  let r := ws_lseek64 fd0 0 SEEK_CUR in
  let fd1 := snd r in
  let start0 := match fst r with IoOk p => p | IoErr _ => 0 end in
  let want := buffer_want fd1 in
  match g_try_malloc want, g_try_malloc (guint (want * 2)) with
  | Some inbuf, Some outbuf =>
      match inflateInit2 (-15), ZSTD_createDCtx, LZ4F_createDecompressionContext with
      | Some zs, Some zd, Some ld =>
          Some (gz_reset
                  (mk_reader fd1 start0 0 want (mk_buf inbuf 0 0) (mk_buf outbuf 0 0)
                             false start0 0 UNKNOWN false 0 false 0 None
                             (mk_strm 0 0 0 None zs) false None None zd ld))
      | _, _, _ => None
      end
  | _, _ => None
  end.

(** strrchr(path, c): the part of [path] from the last [c] on. *)
Fixpoint strrchr (path : String.string) (c : ascii) : option String.string :=
  match path with
  | String.EmptyString => None
  | String.String a rest =>
      match strrchr rest c with
      | Some suffix => Some suffix
      | None => if Ascii.eqb a c then Some path else None
      end
  end.

Definition g_ascii_tolower (a : ascii) : ascii :=
  let n := nat_of_ascii a in
  if ((65 <=? n) && (n <=? 90))%nat then ascii_of_nat (n + 32) else a.

(** g_ascii_strcasecmp(a, b) == 0 *)
Fixpoint g_ascii_strcasecmp_is0 (a b : String.string) : bool :=
  match a, b with
  | String.EmptyString, String.EmptyString => true
  | String.String x a', String.String y b' =>
      Ascii.eqb (g_ascii_tolower x) (g_ascii_tolower y) && g_ascii_strcasecmp_is0 a' b'
  | _, _ => false
  end.

Definition file_open (path : String.string) : option wtap_reader :=
  match ws_open path with
  | None => None
  | Some fd0 =>
      match file_fdopen fd0 with
      | None => None
      | Some ft =>
          match strrchr path "."%char with
          | Some suffixp =>
              if g_ascii_strcasecmp_is0 suffixp ".caz"%string
              then Some (set_dont_check_crc true ft)
              else Some ft
          | None => Some ft
          end
      end
  end.

Definition file_set_random_access (seek : option (list fast_seek_point)) (stream : wtap_reader)
  : wtap_reader := set_fast_seek seek stream.

(** ** Seek

    file_seek returns a [gint64] and may store into [*err]; the model
    returns the pair of the result and of what was stored, if anything. *)

(** The "fast seek" branch: [here] was found and is to be used. *)
Definition file_seek_fast (here : fast_seek_point) (offset : Z) : M (Z * option Z) :=
  s <- get ;;
  let off_off2 :=
    match fsp_compression here with
    | ZLIB => (fsp_in here - (if negb (zlib_bits here =? 0) then 1 else 0), fsp_out here)
    | GZIP_AFTER_HEADER => (fsp_in here, fsp_out here)
    | _ => (fsp_in here + ((pos s + offset) - fsp_out here), pos s + offset)
    end in
  let off := fst off_off2 in
  let off2 := snd off_off2 in
  match ws_lseek64 (fd s) off SEEK_SET with
  | (IoErr e, fd') => modify (set_fd fd') ;; ret (-1, Some e)
  | (IoOk _, fd') =>
      modify (set_fd fd') ;;
      fast_seek_reset ;;
      modify (fun s =>
        set_in (buf_reset (in_ s))
          (set_error 0 None
             (set_seek_pending false
                (set_eof false
                   (set_out (buf_reset (out s))
                      (set_raw_pos off s)))))) ;;
      failed <-
        match fsp_compression here with
        | ZLIB =>
            modify (fun s =>
              set_strm (mk_strm (zlib_adler here) (zlib_total_out here)
                                (data_type (strm s)) None
                                (inflateReset (internal (strm s)))) s) ;;
            primed <-
              (if negb (zlib_bits here =? 0) then
                 c <- GZ_GETC ;;
                 if c =? -1 then
                   s <- get ;;
                   ret (Some (if err s =? 0 then WTAP_ERR_SHORT_READ else err s))
                 else
                   modify (fun s =>
                     set_strm (mk_strm (adler (strm s)) (total_out (strm s))
                                 (data_type (strm s)) (msg (strm s))
                                 (inflatePrime (internal (strm s)) (zlib_bits here)
                                    (Z.shiftr c (8 - zlib_bits here)))) s) ;;
                   ret None
               else ret None) ;;
            match primed with
            | Some e => ret (Some e)
            | None =>
                modify (fun s =>
                  set_compression ZLIB
                    (set_strm (mk_strm (adler (strm s)) (total_out (strm s))
                                 (data_type (strm s)) (msg (strm s))
                                 (inflateSetDictionary (internal (strm s))
                                    (slice (zlib_window here) 0 ZLIB_WINSIZE))) s)) ;;
                ret None
            end
        | GZIP_AFTER_HEADER =>
            modify (fun s =>
              set_compression ZLIB (set_strm (set_adler crc32_init (strm_reset (strm s))) s)) ;;
            ret None
        | c => modify (set_compression c) ;; ret None
        end ;;
      match failed with
      | Some e => ret (-1, Some e)
      | None =>
          s <- get ;;
          let offset' := (pos s + offset) - off2 in
          modify (set_pos off2) ;;
          (if negb (offset' =? 0)
           then modify (fun s => set_skip offset' (set_seek_pending true s))
           else ret tt) ;;
          ret (off2 + offset', None)
      end
  end.

(** file_seek from the "uncompressed file, within the raw area" test on. *)
Definition file_seek_slow (offset : Z) : M (Z * option Z) :=
  s <- get ;;
  if compression_eqb (compression s) UNCOMPRESSED && (raw s <=? pos s + offset)
     && ((offset <? 0) || (avail (out s) <=? offset))
     && (match fast_seek s with Some _ => true | None => false end)
  then
    match ws_lseek64 (fd s) (offset - avail (out s)) SEEK_CUR with
    | (IoErr e, fd') => modify (set_fd fd') ;; ret (-1, Some e)
    | (IoOk _, fd') =>
        modify (fun s =>
          set_pos (pos s + offset)
            (set_in (buf_reset (in_ s))
               (set_error 0 None
                  (set_seek_pending false
                     (set_eof false
                        (set_out (buf_reset (out s))
                           (set_raw_pos (raw_pos s + (offset - avail (out s)))
                              (set_fd fd' s)))))))) ;;
        s <- get ;; ret (pos s, None)
    end
  else
    rewound <-
      (if offset <? 0 then
         (* rewind, then skip to offset *)
         let offset := offset + pos s in
         if offset <? 0 then ret (inl EINVAL)     (* before start of file! *)
         else
           match ws_lseek64 (fd s) (start s) SEEK_SET with
           | (IoErr e, fd') => modify (set_fd fd') ;; ret (inl e)
           | (IoOk _, fd') =>
               modify (set_fd fd') ;;
               fast_seek_reset ;;
               modify (fun s => gz_reset (set_raw_pos (start s) s)) ;;
               ret (inr offset)
           end
       else ret (inr offset)) ;;
    match rewound with
    | inl e => ret (-1, Some e)
    | inr offset =>
        (* skip what's in output buffer *)
        s <- get ;;
        let n := if offset <? avail (out s) then guint offset else avail (out s) in
        modify (consume n) ;;
        let offset := offset - n in
        (* request skip (if not zero) *)
        (if negb (offset =? 0)
         then modify (fun s => set_skip offset (set_seek_pending true s))
         else ret tt) ;;
        s <- get ;; ret (pos s + offset, None)
    end.

(** file_seek once [offset] is relative to [file->pos]. *)
Definition file_seek_cur (offset : Z) : M (Z * option Z) :=
  modify (set_seek_pending false) ;;
  s <- get ;;
  if offset =? 0 then ret (pos s, None)           (* not moving at all *)
  else
    let far :=
      match fast_seek_find s (pos s + offset) with
      | None => stuck
      | Some (Some here) =>
          if (offset <? 0) || (SPAN <? offset)
             || compression_eqb (fsp_compression here) UNCOMPRESSED
          then file_seek_fast here offset
          else file_seek_slow offset
      | Some None => file_seek_slow offset
      end in
    if offset <? 0 then
      if - offset <=? offset_in_buffer (out s) then
        let adjustment := guint (- offset) in
        modify (fun s =>
          set_pos (pos s - adjustment)
            (set_out (mk_buf (buf (out s)) (next (out s) - adjustment)
                             (guint (avail (out s) + adjustment))) s)) ;;
        s <- get ;; ret (pos s, None)
      else far
    else
      if offset <? avail (out s) then
        modify (fun s =>
          set_pos (pos s + offset)
            (set_out (mk_buf (buf (out s)) (next (out s) + offset)
                             (guint (avail (out s) - guint offset))) s)) ;;
        s <- get ;; ret (pos s, None)
      else far.

Definition file_seek (fuel : nat) (offset : Z) (whence : whence_t) : M (Z * option Z) :=
  (* Normalize offset to a SEEK_CUR specification *)
  match whence with
  | SEEK_END =>
      r <- attempt (gz_skip fuel G_MAXINT64) ;;
      s <- get ;;
      match r with
      | None => ret (-1, Some (err s))
      | Some _ =>
          if offset =? 0 then ret (pos s, None)    (* We are done *)
          else file_seek_cur offset
      end
  | SEEK_SET => s <- get ;; file_seek_cur (offset - pos s)
  | SEEK_CUR =>
      s <- get ;;
      file_seek_cur (if seek_pending s then offset + skip s else offset)
  end.

Definition file_tell (stream : wtap_reader) : Z :=
  pos stream + (if seek_pending stream then skip stream else 0).

Definition file_tell_raw (stream : wtap_reader) : Z := raw_pos stream.

Definition file_iscompressed (stream : wtap_reader) : bool := is_compressed stream.

(** ** Read, peek, getc *)

(** The do-while loop of file_read.  The result pairs the value returned
    with the bytes stored into the caller's buffer so far (none when the
    caller passed NULL, "just throw the bytes away"). *)
Fixpoint file_read_loop (fuel : nat) (buf_null : bool) (len got : Z) (copied : list byte)
  : M (Z * list byte) :=
  match fuel with
  | O => stuck
  | S fuel' =>
      s <- get ;;
      if negb (avail (out s) =? 0) then
        let n := if len <? avail (out s) then len else avail (out s) in
        let copied' := if buf_null then copied
                       else copied ++ slice (buf (out s)) (next (out s)) n in
        let len' := guint (len - n) in
        let got' := guint (got + n) in
        modify (consume n) ;;
        if negb (len' =? 0) then file_read_loop fuel' buf_null len' got' copied'
        else ret (to_int got', copied')
      else if negb (err s =? 0) then ret (-1, copied)
      else if eof s && (avail (in_ s) =? 0) then ret (to_int got, copied)
      else
        r <- attempt (fill_out_buffer fuel') ;;
        match r with
        | None => ret (-1, copied)
        | Some _ =>
            if negb (len =? 0) then file_read_loop fuel' buf_null len got copied
            else ret (to_int got, copied)
        end
  end.

(** process a skip request *)
Definition process_skip (fuel : nat) : M (option unit) :=
  s <- get ;;
  if seek_pending s then
    modify (set_seek_pending false) ;;
    attempt (gz_skip fuel (skip s))
  else ret (Some tt).

Definition file_read (fuel : nat) (buf_null : bool) (len : Z) : M (Z * list byte) :=
  (* if len is zero, avoid unnecessary operations *)
  if len =? 0 then ret (0, [])
  else
    r <- process_skip fuel ;;
    match r with
    | None => ret (-1, [])
    | Some _ => file_read_loop fuel buf_null len 0 []
    end.

Fixpoint file_peekc_loop (fuel : nat) : M Z :=
  match fuel with
  | O => stuck
  | S fuel' =>
      s <- get ;;
      if negb (avail (out s) =? 0) then ret (byte_at (buf (out s)) (next (out s)))
      else if negb (err s =? 0) then ret (-1)
      else if eof s && (avail (in_ s) =? 0) then ret (-1)
      else
        r <- attempt (fill_out_buffer fuel') ;;
        match r with
        | None => ret (-1)
        | Some _ => file_peekc_loop fuel'
        end
  end.

Definition file_peekc (fuel : nat) : M Z :=
  s <- get ;;
  (* check that we're reading and that there's no error *)
  if negb (err s =? 0) then ret (-1)
  (* try output buffer (no need to check for skip request) *)
  else if negb (avail (out s) =? 0) then ret (byte_at (buf (out s)) (next (out s)))
  else
    r <- process_skip fuel ;;
    match r with
    | None => ret (-1)
    | Some _ => file_peekc_loop fuel
    end.

Definition file_getc (fuel : nat) : M Z :=
  s <- get ;;
  (* check that we're reading and that there's no error *)
  if negb (err s =? 0) then ret (-1)
  (* try output buffer (no need to check for skip request) *)
  else if negb (avail (out s) =? 0) then
    modify (fun s => set_pos (pos s + 1)
                       (set_out (mk_buf (buf (out s)) (next (out s) + 1)
                                        (guint (avail (out s) - 1))) s)) ;;
    ret (byte_at (buf (out s)) (next (out s)))
  else
    r <- file_read fuel false 1 ;;
    if fst r <? 1 then ret (-1) else ret (byte_val (nth 0 (snd r) x00)).

(** ** Lines *)

(** memchr(p, c, n) on the [n] bytes [l] at [p]: the index of the first
    byte equal to [c]. *)
Fixpoint memchr (l : list byte) (c : Z) : option Z :=
  match l with
  | [] => None
  | b :: rest =>
      if byte_val b =? c then Some 0
      else match memchr rest c with
           | Some i => Some (i + 1)
           | None => None
           end
  end.

(** What "assure that something is in the output buffer" comes to in the
    loop of file_getsp: [return NULL], [break], or go on and copy. *)
Inductive getsp_fill : Type := Getsp_null | Getsp_break | Getsp_copy.

(** The do-while loop of file_getsp.  The result is the string stored
    into the caller's buffer, without its terminator; [None] is the NULL
    return. *)
Fixpoint file_getsp_loop (fuel : nat) (left : Z) (copied : list byte)
  : M (option (list byte)) :=
  match fuel with
  | O => stuck
  | S fuel' =>
      s <- get ;;
      (* assure that something is in the output buffer *)
      r <- (if avail (out s) =? 0 then
              if negb (err s =? 0) then ret Getsp_null
              else
                r <- attempt (fill_out_buffer fuel') ;;
                match r with
                | None => ret Getsp_null       (* error *)
                | Some _ =>
                    s <- get ;;
                    if avail (out s) =? 0 then   (* end of file *)
                      ret (match copied with
                           | [] => Getsp_null     (* got bupkus *)
                           | _ => Getsp_break     (* got something -- return it *)
                           end)
                    else ret Getsp_copy
                end
            else ret Getsp_copy) ;;
      match r with
      | Getsp_null => ret None
      | Getsp_break => ret (Some copied)
      | Getsp_copy =>
          s <- get ;;
          (* look for end-of-line in current output buffer *)
          let n := if left <? avail (out s) then left else avail (out s) in
          let eol := memchr (slice (buf (out s)) (next (out s)) n) 10 in
          let n := match eol with Some i => guint (i + 1) | None => n end in
          (* copy through end-of-line, or remainder if not found *)
          let copied' := copied ++ slice (buf (out s)) (next (out s)) n in
          let left' := guint (left - n) in
          modify (consume n) ;;
          if negb (left' =? 0) && (match eol with None => true | Some _ => false end)
          then file_getsp_loop fuel' left' copied'
          else ret (Some copied')
      end
  end.

Definition file_getsp (fuel : nat) (buf_null : bool) (len : Z) : M (option (list byte)) :=
  (* check parameters *)
  if buf_null || (len <? 1) then ret None
  else
    s <- get ;;
    (* check that there's no error *)
    if negb (err s =? 0) then ret None
    else
      r <- process_skip fuel ;;
      match r with
      | None => ret None
      | Some _ =>
          let left := guint (len - 1) in
          if left =? 0 then ret (Some [])
          else file_getsp_loop fuel left []
      end.

Definition file_gets (fuel : nat) (buf_null : bool) (len : Z) : M (option (list byte)) :=
  file_getsp fuel buf_null len.

(** ** End of file and errors *)

Definition file_eof (file : wtap_reader) : bool :=
  eof file && (avail (in_ file) =? 0) && (avail (out file) =? 0).

Definition file_error (fh : wtap_reader) : Z * option String.string :=
  (err fh, if negb (err fh =? 0) then err_info fh else None).

Definition file_clearerr (stream : wtap_reader) : wtap_reader :=
  set_eof false (set_error 0 None stream).

End Functions.

(** ** A simulated environment

    An instance of [Env] on which the reader runs by computation: the file
    is a list of bytes with a current offset (and a count of the read
    calls made on it, so that touching the fd is observable), reads
    return as many bytes as asked for while there are some, and the
    decompression libraries are stand-ins that follow the calling
    convention of the real ones.  The stand-in for inflate copies its input
    through and treats a zero byte as the end of the deflate stream; the
    stand-in for crc32 sums the bytes. *)

Record sim_fd : Type := mk_sim_fd {
  sim_data : list byte;
  sim_off : Z;
  sim_reads : nat
}.

Definition sim_read (f : sim_fd) (n : Z) : io_result (list byte) * sim_fd :=
  let bytes := firstn (Z.to_nat n) (skipn (Z.to_nat (sim_off f)) (sim_data f)) in
  (IoOk bytes,
   mk_sim_fd (sim_data f) (sim_off f + Z.of_nat (length bytes)) (S (sim_reads f))).

Definition sim_lseek (f : sim_fd) (off : Z) (whence : whence_t) : io_result Z * sim_fd :=
  let target :=
    match whence with
    | SEEK_SET => off
    | SEEK_CUR => sim_off f + off
    | SEEK_END => Z.of_nat (length (sim_data f)) + off
    end in
  if target <? 0 then (IoErr 22, f)
  else (IoOk target, mk_sim_fd (sim_data f) target (sim_reads f)).

Fixpoint sim_inflate_bytes (input : list byte) (room : nat) (acc : list byte) (consumed : Z)
  : Z * Z * list byte :=
  match input with
  | [] => (Z_OK, consumed, rev acc)
  | b :: rest =>
      if byte_val b =? 0 then (Z_STREAM_END, consumed + 1, rev acc)
      else match room with
           | O => (Z_OK, consumed, rev acc)
           | S room' => sim_inflate_bytes rest room' (b :: acc) (consumed + 1)
           end
  end.

Definition sim_inflate (st : unit) (input : list byte) (avail_out : Z) : inflate_result unit :=
  let r := sim_inflate_bytes input (Z.to_nat avail_out) [] 0 in
  mk_inflate_result (fst (fst r)) (snd (fst r)) (snd r) None 0 st.

Definition sim_crc32 (a : Z) (data : list byte) : Z :=
  guint (fold_left (fun acc b => acc + byte_val b) data a).

(** Identity codec standing in for the zstd and lz4 stream decoders. *)
Definition sim_stream (st : unit) (input : list byte) (room : Z) : stream_result unit :=
  let produced := firstn (Z.to_nat room) input in
  mk_stream_result None false (Z.of_nat (length produced)) produced st.

(** The five bytes "ABCDE": an uncompressed file. *)
Definition sim_abcde : list byte := [x41; x42; x43; x44; x45].

(** A gzip member in the stand-in encoding: the ten header bytes
    [1F 8B 08 00 | MTIME | XFL | OS], the stream "hi" closed by a zero
    byte, the checksum [crc] and the length 2. *)
Definition sim_gzip_hi (crc : byte) : list byte :=
  [x1f; x8b; x08; x00; x00; x00; x00; x00; x00; x00;
   x68; x69; x00;
   crc; x00; x00; x00;
   x02; x00; x00; x00].

(** The one file of the simulated file system: "hi.caz", a gzip member
    whose trailer CRC is wrong. *)
Definition sim_open_path (path : String.string) : option sim_fd :=
  if String.eqb path "hi.caz"%string
  then Some (mk_sim_fd (sim_gzip_hi xd2) 0 0)
  else None.

#[export] Instance sim_env : Env := {|
  WTAP_ERR_SHORT_READ := -12;
  WTAP_ERR_DECOMPRESS := -20;
  ENOMEM := 12;
  EINVAL := 22;
  fd_t := sim_fd;
  ws_open := sim_open_path;
  ws_read := sim_read;
  ws_lseek64 := sim_lseek;
  st_blksize := fun _ => Some 16;
  g_try_malloc := fun n => Some (repeat x00 (Z.to_nat n));
  z_state := unit;
  inflateInit2 := fun _ => Some tt;
  inflate := sim_inflate;
  inflateReset := fun st => st;
  inflatePrime := fun st _ _ => st;
  inflateSetDictionary := fun st _ => st;
  crc32 := sim_crc32;
  crc32_init := 0;
  ZSTD_DCtx := unit;
  ZSTD_DStreamInSize := 8;
  ZSTD_DStreamOutSize := 16;
  ZSTD_createDCtx := Some tt;
  ZSTD_initDStream := fun st => (None, st);
  ZSTD_decompressStream := sim_stream;
  LZ4F_dctx := unit;
  LZ4F_createDecompressionContext := Some tt;
  LZ4F_resetDecompressionContext := fun st => st;
  LZ4F_decompress := sim_stream
|}.

(** A reader freshly opened on a file holding [data]. *)
Definition sim_open (data : list byte) : option (@wtap_reader sim_env) :=
  file_fdopen (mk_sim_fd data 0 0).

(** A reader on an empty file, with no buffers: the stand-in where a run
    gives no reader. *)
Definition sim_blank : @wtap_reader sim_env :=
  mk_reader (mk_sim_fd [] 0 0) 0 0 0 (mk_buf [] 0 0) (mk_buf [] 0 0) false 0 0 UNKNOWN
            false 0 false 0 None (mk_strm 0 0 0 None tt) false None None tt tt.

Definition sim_reader (data : list byte) : @wtap_reader sim_env :=
  match sim_open data with
  | Some s => s
  | None => sim_blank
  end.

Definition sim_opened (o : option (@wtap_reader sim_env)) : @wtap_reader sim_env :=
  match o with
  | Some s => s
  | None => sim_blank
  end.

Definition is_open (o : option (@wtap_reader sim_env)) : bool :=
  match o with
  | Some _ => true
  | None => false
  end.

(** The reader a run ends in, and the value it returns. *)
Definition after {A} (o : @outcome sim_env A) : @wtap_reader sim_env :=
  match o with
  | Done _ s => s
  | Fail s => s
  | Stuck => sim_blank
  end.

Definition value {A} (o : @outcome sim_env A) : option A :=
  match o with
  | Done a _ => Some a
  | _ => None
  end.

(** Three checkpoints of an uncompressed file, at offsets 0, 10 and 20. *)
Definition sim_points : list fast_seek_point :=
  [mk_point 0 0 UNCOMPRESSED 0 [] 0 0;
   mk_point 10 10 UNCOMPRESSED 0 [] 0 0;
   mk_point 20 20 UNCOMPRESSED 0 [] 0 0].

Unset Implicit Arguments.

(** * Notions used by the properties *)

(** ** Invariants carried across calls

    [keeps R s0 m s]: when [m] is run from [s] and returns (normally or
    with -1), the resulting reader is related by [R] to the reference
    reader [s0].  [mpres R m] is the special case [s0 = s] for every [s]:
    [m] takes every reader to an [R]-related one. *)

Definition keeps {E : Env} (R : wtap_reader -> wtap_reader -> Prop) {A}
    (s0 : wtap_reader) (m : M A) (s : wtap_reader) : Prop :=
  match m s with
  | Done _ s' => R s0 s'
  | Fail s' => R s0 s'
  | Stuck => True
  end.

Definition mpres {E : Env} (R : wtap_reader -> wtap_reader -> Prop) {A} (m : M A) : Prop :=
  forall s, keeps R s m s.

(** ** A return of -1 comes with a recorded error

    [fails_with m s]: when [m] is run from [s] and returns -1, the reader
    it leaves holds a non-zero error code.  [mfails m] says so for every
    [s]. *)

Definition fails_with {E : Env} {A} (m : M A) (s : wtap_reader) : Prop :=
  match m s with
  | Fail s' => err s' <> 0
  | _ => True
  end.

Definition mfails {E : Env} {A} (m : M A) : Prop := forall s, fails_with m s.

(** ** What the fd delivers

    [fd_yields f bs]: the bytes [bs] are what the fd [f] delivers next,
    however its reads are cut into chunks (a file, or a pipe that hands
    over a byte at a time): every read of [n > 0] bytes succeeds with
    between 1 and [n] bytes that agree with [bs], and leaves an fd that
    delivers what remains of [bs]. *)
#[warnings="-register-all"]
Inductive fd_yields {E : Env} : fd_t -> list byte -> Prop :=
| yields_nil f : fd_yields f []
| yields_read f b bs :
    (forall n, 0 < n ->
       exists chunk f',
         ws_read f n = (IoOk chunk, f') /\
         chunk <> [] /\
         Z.of_nat (length chunk) <= n /\
         firstn (length chunk) (b :: bs) = firstn (length (b :: bs)) chunk /\
         fd_yields f' (skipn (length chunk) (b :: bs))) ->
    fd_yields f (b :: bs).

(** The bytes of the input buffer not yet consumed. *)
Definition pending {E : Env} (s : wtap_reader) : list byte :=
  slice (buf (in_ s)) (next (in_ s)) (avail (in_ s)).

(** The reader has no error, its input buffer is well formed, and the
    bytes that GZ_GETC will hand out next, from the input buffer and then
    from the fd, are [bs]. *)
Definition in_ready {E : Env} (s : wtap_reader) (bs : list byte) : Prop :=
  err s = 0 /\ 0 < size s < 2 ^ 32 /\
  0 <= next (in_ s) /\ 0 <= avail (in_ s) /\ next (in_ s) + avail (in_ s) <= size s /\
  firstn (length (pending s)) bs = firstn (length bs) (pending s) /\
  ((length (pending s) < length bs)%nat ->
   eof s = false /\ fd_yields (fd s) (skipn (length (pending s)) bs)).

(** The error that gz_head records for a gzip header whose CM is not 8. *)
Definition unknown_method_error {E : Env} (s : wtap_reader) : Prop :=
  err s = WTAP_ERR_DECOMPRESS /\
  err_info s = Some "unknown compression method"%string.

(** ** The position that file_seek returns *)

(** [post Q m s]: if [m] returns from [s], its result and final reader
    satisfy [Q]. *)
Definition post {E : Env} {A} (Q : A -> wtap_reader -> Prop) (m : M A)
    (s : wtap_reader) : Prop :=
  match m s with
  | Done a s' => Q a s'
  | Fail _ => True
  | Stuck => True
  end.

(** The deferred skip is left as it is. *)
Definition pend_rel {E : Env} (s s' : wtap_reader) : Prop :=
  seek_pending s' = seek_pending s /\ skip s' = skip s.

(** A non-negative result of file_seek is what file_tell then returns. *)
Definition seek_ok {E : Env} (r : Z * option Z) (s' : wtap_reader) : Prop :=
  0 <= fst r -> file_tell s' = fst r.

(** ** Files and what the input side holds

    [file_like holds]: the predicate [holds f data] describes fds that
    behave as a file positioned in front of the bytes [data], which are
    all that is left of it.  A read of [n > 0] bytes returns at most [n]
    bytes, a prefix of [data] that is empty only when [data] is (end of
    file), and leaves an fd in front of the rest.  A pipe that hands over
    fewer bytes than asked for is covered. *)
Definition file_like {E : Env} (holds : fd_t -> list byte -> Prop) : Prop :=
  forall f data n,
    holds f data -> 0 < n ->
    exists chunk f',
      ws_read f n = (IoOk chunk, f') /\
      Z.of_nat (length chunk) <= n /\
      chunk = firstn (length chunk) data /\
      (data <> [] -> chunk <> []) /\
      holds f' (skipn (length chunk) data).

(** The reader has no error, its input buffer is well formed, and the
    bytes [bs] are exactly what GZ_GETC can still hand out: what is pending
    in the input buffer, then what is left of the file. *)
Definition in_holds {E : Env} (holds : fd_t -> list byte -> Prop)
    (s : wtap_reader) (bs : list byte) : Prop :=
  err s = 0 /\ 0 < size s < 2 ^ 32 /\
  0 <= next (in_ s) /\ 0 <= avail (in_ s) /\ next (in_ s) + avail (in_ s) <= size s /\
  exists tail,
    bs = pending s ++ tail /\ holds (fd s) tail /\ (eof s = true -> tail = []).

(** Everything but the input side (fd, raw position, input buffer, eof
    flag) and the error is as it was. *)
Definition in_only {E : Env} (s s' : wtap_reader) : Prop :=
  pos s' = pos s /\ size s' = size s /\ out s' = out s /\ start s' = start s /\
  raw s' = raw s /\ compression s' = compression s /\
  is_compressed s' = is_compressed s /\ skip s' = skip s /\
  seek_pending s' = seek_pending s /\ strm s' = strm s /\
  dont_check_crc s' = dont_check_crc s /\ fast_seek s' = fast_seek s /\
  fast_seek_cur s' = fast_seek_cur s /\ zstd_dctx s' = zstd_dctx s /\
  lz4_dctx s' = lz4_dctx s.

(** The error that a header or trailer cut short by the end of the input
    leaves. *)
Definition short_read_error {E : Env} (s : wtap_reader) : Prop :=
  err s = WTAP_ERR_SHORT_READ /\ err_info s = None.

(** The simulated fd is a file: it is in front of the bytes of its file
    from its offset on. *)
Definition sim_holds (f : @fd_t sim_env) (data : list byte) : Prop :=
  0 <= sim_off f /\ data = skipn (Z.to_nat (sim_off f)) (sim_data f).

(** Two- and four-byte little-endian values. *)
Definition le16 (b0 b1 : byte) : Z := byte_val b0 + 256 * byte_val b1.

Definition le32 (b0 b1 b2 b3 : byte) : Z :=
  byte_val b0 + 256 * byte_val b1 + 65536 * byte_val b2 + 16777216 * byte_val b3.

(** What is left of [bs] after its first zero byte; [None] when it has
    none. *)
Fixpoint after_zstr (bs : list byte) : option (list byte) :=
  match bs with
  | [] => None
  | b :: rest => if byte_val b =? 0 then Some rest else after_zstr rest
  end.

(** The value that GZ_GETC hands out on the bytes [bs]. *)
Definition getc_val (bs : list byte) : Z :=
  match bs with
  | [] => -1
  | b :: _ => byte_val b
  end.

(** ** The gzip header as a language of byte strings

    A gzip header is read through GZ_GETC, which refills the input buffer
    as it goes.  What the reading functions do depends on the bytes only;
    the parsers below say what, on a plain list of bytes. *)

(** How reading a header fails. *)
Inductive head_error : Type :=
| Head_short      (* the input ends inside the header *)
| Head_method     (* CM is not 8 *)
| Head_flags.     (* a reserved bit of FLG is set *)

Definition parser (A : Type) : Type := list byte -> head_error + (A * list byte).

Definition p_ret {A} (a : A) : parser A := fun bs => inr (a, bs).

Definition p_fail {A} (e : head_error) : parser A := fun _ => inl e.

Definition p_bind {A B} (p : parser A) (q : A -> parser B) : parser B :=
  fun bs => match p bs with
            | inl e => inl e
            | inr (a, rest) => q a rest
            end.

(** gz_next1 *)
Definition p_byte : parser Z := fun bs =>
  match bs with
  | [] => inl Head_short
  | b :: rest => inr (byte_val b, rest)
  end.

(** gz_next2 *)
Definition p_le16 : parser Z := fun bs =>
  match bs with
  | b0 :: b1 :: rest => inr (le16 b0 b1, rest)
  | _ => inl Head_short
  end.

(** gz_next4 *)
Definition p_le32 : parser Z := fun bs =>
  match bs with
  | b0 :: b1 :: b2 :: b3 :: rest => inr (le32 b0 b1 b2 b3, rest)
  | _ => inl Head_short
  end.

(** gz_skipn *)
Definition p_skip (n : nat) : parser unit := fun bs =>
  if (n <=? length bs)%nat then inr (tt, skipn n bs) else inl Head_short.

(** gz_skipzstr *)
Definition p_zstr : parser unit := fun bs =>
  match after_zstr bs with
  | Some rest => inr (tt, rest)
  | None => inl Head_short
  end.

(** The bytes of a gzip header after ID1 ID2, in the order in which
    gz_head reads them. *)
Definition gzip_fields : parser unit :=
  p_bind p_byte (fun cm =>
  if negb (cm =? 8) then p_fail Head_method else
  p_bind p_byte (fun flags =>
  if negb (Z.land flags 0xe0 =? 0) then p_fail Head_flags else
  p_bind (p_skip 4) (fun _ =>
  p_bind (p_skip 1) (fun _ =>
  p_bind (p_skip 1) (fun _ =>
  p_bind (if negb (Z.land flags 4 =? 0)
          then p_bind p_le16 (fun len => p_skip (Z.to_nat len))
          else p_ret tt) (fun _ =>
  p_bind (if negb (Z.land flags 8 =? 0) then p_zstr else p_ret tt) (fun _ =>
  p_bind (if negb (Z.land flags 16 =? 0) then p_zstr else p_ret tt) (fun _ =>
  p_bind (if negb (Z.land flags 2 =? 0)
          then p_bind p_le16 (fun _ => p_ret tt)
          else p_ret tt) (fun _ =>
  p_ret tt))))))))).

(** The error that each failure leaves on the reader. *)
Definition head_error_state {E : Env} (e : head_error) (s : wtap_reader) : Prop :=
  match e with
  | Head_short => short_read_error s
  | Head_method => unknown_method_error s
  | Head_flags =>
      err s = WTAP_ERR_DECOMPRESS /\
      err_info s = Some "reserved flag bits set"%string
  end.

(** The outcome [o] of a reading function run on a reader whose input side
    held [bs] is what the parser result [r] says. *)
Definition agrees {E : Env} (holds : fd_t -> list byte -> Prop) {A}
    (o : outcome A) (r : head_error + (A * list byte)) (bs : list byte) : Prop :=
  match r with
  | inr (a, rest) =>
      (length rest <= length bs)%nat /\
      exists s', o = Done a s' /\ in_holds holds s' rest
  | inl e => exists s', o = Fail s' /\ head_error_state e s'
  end.

(** [m] reads what [p] parses, on inputs of fewer than [n] bytes. *)
Definition refines {E : Env} (holds : fd_t -> list byte -> Prop) (n : nat) {A}
    (m : M A) (p : parser A) : Prop :=
  forall s bs,
    in_holds holds s bs -> (length bs < n)%nat -> agrees holds (m s) (p bs) bs.

(** What reading a gzip header never touches: the output side, the
    positions and the deferred skip. *)
Definition head_frame {E : Env} (s s' : wtap_reader) : Prop :=
  pos s' = pos s /\ size s' = size s /\ out s' = out s /\ start s' = start s /\
  raw s' = raw s /\ skip s' = skip s /\ seek_pending s' = seek_pending s /\
  dont_check_crc s' = dont_check_crc s /\ zstd_dctx s' = zstd_dctx s /\
  lz4_dctx s' = lz4_dctx s.

(** The reader is set up to inflate a fresh deflate stream. *)
Definition inflating {E : Env} (s : wtap_reader) : Prop :=
  compression s = ZLIB /\ is_compressed s = true /\
  adler (strm s) = crc32_init /\ total_out (strm s) = 0 /\ msg (strm s) = None.

(** The layout of a gzip header: ID1 ID2 CM FLG, the six bytes of MTIME,
    XFL and OS, and the optional fields that the bits of FLG announce:
    XLEN and the extra field (bit 2), the zero-terminated file name
    (bit 3), the zero-terminated comment (bit 4), the header CRC (bit 1). *)
Definition gzip_optional (flg : byte) (xlen0 xlen1 : byte)
    (extra name comment hcrc : list byte) : list byte :=
  (if negb (Z.land (byte_val flg) 4 =? 0) then xlen0 :: xlen1 :: extra else [])
  ++ (if negb (Z.land (byte_val flg) 8 =? 0) then name ++ [x00] else [])
  ++ (if negb (Z.land (byte_val flg) 16 =? 0) then comment ++ [x00] else [])
  ++ (if negb (Z.land (byte_val flg) 2 =? 0) then hcrc else []).

Definition gzip_header (flg : byte) (six : list byte) (xlen0 xlen1 : byte)
    (extra name comment hcrc : list byte) : list byte :=
  [x1f; x8b; x08; flg] ++ six ++ gzip_optional flg xlen0 xlen1 extra name comment hcrc.

Definition gzip_header_ok (flg : byte) (six : list byte) (xlen0 xlen1 : byte)
    (extra name comment hcrc : list byte) : Prop :=
  Z.land (byte_val flg) 0xe0 = 0 /\
  length six = 6%nat /\
  Z.of_nat (length extra) = le16 xlen0 xlen1 /\
  Forall (fun b => byte_val b <> 0) name /\
  Forall (fun b => byte_val b <> 0) comment /\
  length hcrc = 2%nat.

(** [p] parses exactly the bytes [c], whatever follows them, with result
    [a], and reports a short input on every proper prefix of [c]. *)
Definition segment {A} (p : parser A) (c : list byte) (a : A) : Prop :=
  (forall r, p (c ++ r) = inr (a, r)) /\
  (forall c' d, c = c' ++ d -> d <> [] -> p c' = inl Head_short).

(** ** Plain files

    [plain_start data]: the file does not start with the magic number of a
    format that gz_head looks for (gzip 1F 8B, zstd 28 B5 2F FD, lz4
    04 22 4D 18). *)
Definition plain_start (data : list byte) : Prop :=
  (forall rest, data <> x1f :: x8b :: rest) /\
  (forall rest, data <> x28 :: xb5 :: x2f :: xfd :: rest) /\
  (forall rest, data <> x04 :: x22 :: x4d :: x18 :: rest).

(** The bytes pending in the output buffer. *)
Definition out_pending {E : Env} (s : wtap_reader) : list byte :=
  slice (buf (out s)) (next (out s)) (avail (out s)).

(** The reader is reading a plain file and [rest] is what it has still to
    deliver: either nothing was read yet (the format is still unknown)
    and the file holds [rest], which has no magic number; or the reader
    is in raw mode and [rest] is what is pending in the output buffer
    followed by what the file still holds.  No error is recorded, no skip
    is pending and the input buffer is empty. *)
Definition plain_holds {E : Env} (holds : fd_t -> list byte -> Prop)
    (s : wtap_reader) (rest : list byte) : Prop :=
  err s = 0 /\ 2 <= size s < 2 ^ 32 /\ seek_pending s = false /\
  is_compressed s = false /\ avail (in_ s) = 0 /\
  exists tail,
    holds (fd s) tail /\ (eof s = true -> tail = []) /\
    ((compression s = UNKNOWN /\ next (in_ s) = 0 /\ avail (out s) = 0 /\
      rest = tail /\ plain_start tail)
     \/
     (compression s = UNCOMPRESSED /\
      0 <= next (out s) /\ 0 <= avail (out s) /\
      next (out s) + avail (out s) <= size s /\
      rest = out_pending s ++ tail)).

(** gz_head has read the first bytes [p] of a plain file that held [data]
    into the input buffer, and found no magic number. *)
Definition head_read {E : Env} (holds : fd_t -> list byte -> Prop)
    (s : wtap_reader) (data p : list byte) : Prop :=
  err s = 0 /\ 2 <= size s < 2 ^ 32 /\ seek_pending s = false /\
  is_compressed s = false /\ avail (out s) = 0 /\
  0 <= next (in_ s) /\ 0 <= avail (in_ s) /\
  next (in_ s) + avail (in_ s) = Z.of_nat (length p) /\
  Z.of_nat (length p) <= size s /\
  (4 <= avail (in_ s) -> next (in_ s) = 0) /\
  slice (buf (in_ s)) 0 (Z.of_nat (length p)) = p /\
  p <> [] /\ data = p ++ skipn (length p) data /\ plain_start data /\
  holds (fd s) (skipn (length p) data) /\
  (eof s = true -> skipn (length p) data = []).

(** Turns of the loop of file_read that delivering [rest] can take: one
    to copy from the output buffer and one to refill it, for each byte at
    most, and one to find the end of the file. *)
Definition plain_fuel {E : Env} (s : wtap_reader) (rest : list byte) : nat :=
  2 * length rest
  + (if avail (out s) =? 0 then (if eof s then 0 else 1) else 0).

(** The number of bytes that a read of [len] bytes delivers when [rest]
    is left. *)
Definition delivered (len : Z) (rest : list byte) : nat :=
  Nat.min (Z.to_nat len) (length rest).

(** ** Lines

    The line that starts [rest], for a caller with room for [left] bytes
    before the terminator: the bytes up to and including the first
    newline, cut after [left] bytes or at the end of [rest]. *)
Fixpoint take_line (left : nat) (rest : list byte) : list byte :=
  match left, rest with
  | S left', b :: rest' =>
      if byte_val b =? 10 then [b] else b :: take_line left' rest'
  | _, _ => []
  end.

(** [line] is that line, said without recursion: it starts [rest], is at
    most [left] bytes long, holds a newline only as its last byte, and
    stops for a reason: the room is used up, [rest] is, or it ends with a
    newline. *)
Definition is_line (left : nat) (rest line : list byte) : Prop :=
  exists rest',
    rest = line ++ rest' /\
    (length line <= left)%nat /\
    (forall pre b post, line = pre ++ b :: post -> byte_val b = 10 -> post = []) /\
    (length line = left \/ rest' = [] \/
     exists pre b, line = pre ++ [b] /\ byte_val b = 10).

(** ** The fast-seek array is sorted strictly by increasing [out] *)

Fixpoint strictly_increasing (l : list Z) : bool :=
  match l with
  | [] => true
  | a :: t => match t with [] => true | b :: _ => a <? b end && strictly_increasing t
  end.

Definition fs_sorted (arr : list fast_seek_point) : Prop :=
  strictly_increasing (map fsp_out arr) = true.

(** The array [b] is the array [a] with entries appended at its end, and
    sorted when [a] is. *)
Definition fs_ext (a b : option (list fast_seek_point)) : Prop :=
  match a with
  | None => b = None
  | Some arr =>
      exists tail, b = Some (arr ++ tail) /\ (fs_sorted arr -> fs_sorted (arr ++ tail))
  end.

(** [out.avail] is a [guint]. *)
Definition out_ok {E : Env} (s : wtap_reader) : Prop := 0 <= avail (out s) < 2 ^ 32.

(** What every operation of the reader does to the fast-seek array, and
    to the range of [out.avail]. *)
Definition api_rel {E : Env} (s s' : wtap_reader) : Prop :=
  fs_ext (fast_seek s) (fast_seek s') /\ (out_ok s -> out_ok s').

Definition fs_sorted_opt (o : option (list fast_seek_point)) : Prop :=
  match o with
  | Some arr => fs_sorted arr
  | None => True
  end.

(** One call of the public reader API. *)
Inductive reader_step {E : Env} : wtap_reader -> wtap_reader -> Prop :=
| step_read fuel buf_null len s r s' :
    file_read fuel buf_null len s = Done r s' -> reader_step s s'
| step_peekc fuel s r s' :
    file_peekc fuel s = Done r s' -> reader_step s s'
| step_getc fuel s r s' :
    file_getc fuel s = Done r s' -> reader_step s s'
| step_seek fuel offset whence s r s' :
    file_seek fuel offset whence s = Done r s' -> reader_step s s'
| step_getsp fuel buf_null len s r s' :
    file_getsp fuel buf_null len s = Done r s' -> reader_step s s'
| step_gets fuel buf_null len s r s' :
    file_gets fuel buf_null len s = Done r s' -> reader_step s s'
| step_clearerr s :
    reader_step s (file_clearerr s).

(** The readers reachable from [s] by calls of the API. *)
Inductive reachable {E : Env} (s : wtap_reader) : wtap_reader -> Prop :=
| reach_refl : reachable s s
| reach_step s1 s2 : reachable s s1 -> reader_step s1 s2 -> reachable s s2.

(** ** Seeking inside the output buffer *)

(** The offset of a seek once it is normalised to a displacement from
    [file->pos], for the two kinds of seek that need no reading. *)
Definition seek_delta {E : Env} (s : wtap_reader) (offset : Z) (whence : whence_t) : Z :=
  match whence with
  | SEEK_SET => offset - pos s
  | SEEK_CUR => if seek_pending s then offset + skip s else offset
  | SEEK_END => offset
  end.

(** Everything but [out.next], [out.avail], [pos] and [seek_pending] is
    the same in [s] and [s']. *)
Definition only_cursor_moved {E : Env} (s s' : wtap_reader) : Prop :=
  fd s' = fd s /\ raw_pos s' = raw_pos s /\ size s' = size s /\
  in_ s' = in_ s /\ buf (out s') = buf (out s) /\ eof s' = eof s /\
  start s' = start s /\ raw s' = raw s /\ compression s' = compression s /\
  is_compressed s' = is_compressed s /\ skip s' = skip s /\
  err s' = err s /\ err_info s' = err_info s /\ strm s' = strm s /\
  dont_check_crc s' = dont_check_crc s /\ fast_seek s' = fast_seek s /\
  fast_seek_cur s' = fast_seek_cur s /\ zstd_dctx s' = zstd_dctx s /\
  lz4_dctx s' = lz4_dctx s.

(** The output buffer's cursor and count are [guint]s, as is their sum. *)
Definition out_cursor_ok {E : Env} (s : wtap_reader) : Prop :=
  0 <= next (out s) /\ 0 <= avail (out s) /\ next (out s) + avail (out s) < 2 ^ 32.

(** ** What filling the output buffer leaves alone *)

Definition fill_rel {E : Env} (s s' : wtap_reader) : Prop :=
  pos s' = pos s /\ skip s' = skip s /\ seek_pending s' = seek_pending s /\
  size s' = size s /\ start s' = start s /\ dont_check_crc s' = dont_check_crc s /\
  (out_ok s -> out_ok s') /\ fs_ext (fast_seek s) (fast_seek s').

(** * The writer half: gzwfile_open .. gzwfile_geterr

    A shallow embedding of the gzip writer of [wiretap/file_wrappers.c]
    (struct wtap_writer, gz_init, gz_comp and the gzwfile API), in a
    name space of its own: the writer's structure has fields of the same
    names as the reader's.

    Memory.  The two buffers are blocks with an allocation status, so
    that a [g_free] of a block that is not live is seen; [next] and
    [strm.next_out] are offsets into the output buffer; [strm.next_in]
    points into the input buffer or into the caller's buffer. *)
Module Writer.

(** Flush values of zlib.h that this file passes to deflate(). *)
Definition Z_NO_FLUSH : Z := 0.
Definition Z_SYNC_FLUSH : Z := 2.
Definition Z_FINISH : Z := 4.

Definition Z_DEFLATED : Z := 8.
Definition Z_DEFAULT_COMPRESSION : Z := -1.
Definition Z_DEFAULT_STRATEGY : Z := 0.

(** What one call of zlib's deflate() did. *)
Record deflate_result (DS : Type) : Type := mk_deflate_result {
  dr_ret : Z;                 (* return value *)
  dr_consumed : Z;            (* bytes taken from next_in *)
  dr_produced : list byte;    (* bytes stored at next_out *)
  dr_state : DS
}.
Arguments mk_deflate_result {DS}.
Arguments dr_ret {DS}.
Arguments dr_consumed {DS}.
Arguments dr_produced {DS}.
Arguments dr_state {DS}.

(** The three allocations of the writer: the allocator is no function of
    the size asked for, and one of them can fail when another succeeds. *)
Inductive alloc_site : Type := Alloc_state | Alloc_in | Alloc_out.

(** The external collaborators of the writer: error codes of wtap.h and
    errno.h, the OS file primitives, the allocator and zlib's deflate. *)
Class Env : Type := {
  WTAP_ERR_INTERNAL : Z;
  WTAP_ERR_SHORT_WRITE : Z;
  ENOMEM : Z;
  (* OS *)
  fd_t : Type;
  ws_open : String.string -> option fd_t;    (* O_WRONLY|O_CREAT|O_TRUNC, 0666 *)
  ws_write : fd_t -> list byte -> io_result Z * fd_t;
  ws_close : fd_t -> option Z;               (* Some errno when it returns -1 *)
  g_try_malloc : alloc_site -> Z -> option (list byte);
  sizeof_wtap_writer : Z;
  (* zlib *)
  d_state : Type;
  deflateInit2 : Z -> Z -> Z -> Z -> Z -> d_state + Z;   (* inr ret: ret != Z_OK *)
  deflate : d_state -> list byte -> Z -> Z -> deflate_result d_state;
  deflateReset : d_state -> d_state
}.

Section Model.

Context {E : Env}.

(** A pointer to a buffer of the writer, with what has become of the
    block: not yet assigned, NULL, allocated with these contents, freed. *)
Inductive block : Type :=
| Unset
| Null
| Live (l : list byte)
| Freed.

(** strm.next_in: not yet assigned, [state->in + off], or a pointer into
    the buffer of the caller of gzwfile_write, in front of [bytes]. *)
Inductive in_ptr : Type :=
| In_unset
| In_buf (off : Z)
| In_user (bytes : list byte).

(** z_stream, as far as this file looks into it. *)
Record z_stream : Type := mk_strm {
  next_in : in_ptr;
  avail_in : Z;
  next_out : Z;              (* offset from state->out *)
  avail_out : Z;
  internal : option d_state  (* set up by deflateInit2 *)
}.

(** struct wtap_writer *)
Record wtap_writer : Type := mk_writer {
  fd : fd_t;                 (* file descriptor *)
  pos : Z;                   (* current position in uncompressed data *)
  size : Z;                  (* buffer size, zero if not allocated yet *)
  want : Z;                  (* requested buffer size, default is GZBUFSIZE *)
  in_ : block;               (* input buffer *)
  out : block;               (* output buffer *)
  next : Z;                  (* next output data to write (offset from out) *)
  level : Z;                 (* compression level *)
  strategy : Z;              (* compression strategy *)
  err : Z;                   (* error code *)
  err_info : option String.string;  (* additional error information string *)
  strm : z_stream
}.

(** Field assignments. *)
Definition set_fd v s := mk_writer v (pos s) (size s) (want s) (in_ s) (out s) (next s) (level s) (strategy s) (err s) (err_info s) (strm s).
Definition set_pos v s := mk_writer (fd s) v (size s) (want s) (in_ s) (out s) (next s) (level s) (strategy s) (err s) (err_info s) (strm s).
Definition set_size v s := mk_writer (fd s) (pos s) v (want s) (in_ s) (out s) (next s) (level s) (strategy s) (err s) (err_info s) (strm s).
Definition set_in v s := mk_writer (fd s) (pos s) (size s) (want s) v (out s) (next s) (level s) (strategy s) (err s) (err_info s) (strm s).
Definition set_out v s := mk_writer (fd s) (pos s) (size s) (want s) (in_ s) v (next s) (level s) (strategy s) (err s) (err_info s) (strm s).
Definition set_next v s := mk_writer (fd s) (pos s) (size s) (want s) (in_ s) (out s) v (level s) (strategy s) (err s) (err_info s) (strm s).
Definition set_err v s := mk_writer (fd s) (pos s) (size s) (want s) (in_ s) (out s) (next s) (level s) (strategy s) v (err_info s) (strm s).
Definition set_err_info v s := mk_writer (fd s) (pos s) (size s) (want s) (in_ s) (out s) (next s) (level s) (strategy s) (err s) v (strm s).
Definition set_strm v s := mk_writer (fd s) (pos s) (size s) (want s) (in_ s) (out s) (next s) (level s) (strategy s) (err s) (err_info s) v.

Definition set_next_in v z := mk_strm v (avail_in z) (next_out z) (avail_out z) (internal z).
Definition set_avail_in v z := mk_strm (next_in z) v (next_out z) (avail_out z) (internal z).
Definition set_next_out v z := mk_strm (next_in z) (avail_in z) v (avail_out z) (internal z).
Definition set_avail_out v z := mk_strm (next_in z) (avail_in z) (next_out z) v (internal z).
Definition set_internal v z := mk_strm (next_in z) (avail_in z) (next_out z) (avail_out z) v.

(** ** The monad of the writer's functions

    As for the reader: [Done a s] is a normal return of [a], [Fail s] a
    return of -1 from a function whose result is a status, [Stuck] a run
    that gives no result: a loop that has used up its fuel, or undefined
    behaviour (an access through a pointer that is not live or out of
    bounds, a [g_free] of a block that is not live). *)
Inductive outcome (A : Type) : Type :=
| Done (a : A) (s : wtap_writer)
| Fail (s : wtap_writer)
| Stuck.
Arguments Done {A} a s.
Arguments Fail {A} s.
Arguments Stuck {A}.

Definition M (A : Type) : Type := wtap_writer -> outcome A.

Definition ret {A} (a : A) : M A := fun s => Done a s.
Definition fail {A} : M A := fun s => Fail s.
Definition stuck {A} : M A := fun _ => Stuck.
Definition bind {A B} (m : M A) (f : A -> M B) : M B :=
  fun s => match m s with
           | Done a s' => f a s'
           | Fail s' => Fail s'
           | Stuck => Stuck
           end.
Definition get : M wtap_writer := fun s => Done s s.
Definition modify (f : wtap_writer -> wtap_writer) : M unit := fun s => Done tt (f s).

(** [m == -1] tested by the caller: the status becomes a value. *)
Definition attempt {A} (m : M A) : M (option A) :=
  fun s => match m s with
           | Done a s' => Done (Some a) s'
           | Fail s' => Done None s'
           | Stuck => Stuck
           end.

End Model.

Arguments Done {E A} a s.
Arguments Fail {E A} s.
Arguments Stuck {E A}.

Declare Scope writer_scope.
Delimit Scope writer_scope with writer.
Notation "x <- m ;; k" := (bind m (fun x => k))
  (at level 61, m at next level, right associativity) : writer_scope.
Notation "m ;; k" := (bind m (fun _ => k))
  (at level 61, right associativity) : writer_scope.
Local Open Scope writer_scope.

Section Functions.

Context {E : Env}.

(** ** Opening *)

(** gzwfile_fdopen; [None] is the NULL return. *)
Definition gzwfile_fdopen (fd0 : fd_t) : option wtap_writer :=
  (* allocate wtap_writer structure to return *)
  match g_try_malloc Alloc_state sizeof_wtap_writer with
  | None => None
  | Some _ =>
      Some (mk_writer fd0
              0                       (* no uncompressed data yet *)
              0                       (* no buffers allocated yet *)
              GZBUFSIZE               (* requested buffer size *)
              Unset Unset 0
              Z_DEFAULT_COMPRESSION Z_DEFAULT_STRATEGY
              Z_OK                    (* clear error *)
              None                    (* clear additional error information *)
              (mk_strm In_unset 0 (* no input data yet *) 0 0 None))
  end.

(** gzwfile_open; when gzwfile_fdopen fails the descriptor is closed
    again, and NULL is returned. *)
Definition gzwfile_open (path : String.string) : option wtap_writer :=
  match ws_open path with
  | None => None
  | Some fd0 => gzwfile_fdopen fd0
  end.

(** ** Allocation *)

Definition alloc (site : alloc_site) (n : Z) : block :=
  match g_try_malloc site n with
  | Some l => Live l
  | None => Null
  end.

Definition is_null (b : block) : bool :=
  match b with Null => true | _ => false end.

(** g_free(p): nothing for NULL; a block that is live is freed; anything
    else is undefined. *)
Definition g_free (b : block) : option block :=
  match b with
  | Null => Some Null
  | Live _ => Some Freed
  | Unset | Freed => None
  end.

(** [g_free(state->out)] and [g_free(state->in)]. *)
Definition free_out : M unit := fun s =>
  match g_free (out s) with
  | Some b => Done tt (set_out b s)
  | None => Stuck
  end.

Definition free_in : M unit := fun s =>
  match g_free (in_ s) with
  | Some b => Done tt (set_in b s)
  | None => Stuck
  end.

(** Initialize state for writing a gzip file. *)
Definition gz_init : M unit :=
  s <- get ;;
  (* allocate input and output buffers *)
  modify (set_in (alloc Alloc_in (want s))) ;;
  modify (set_out (alloc Alloc_out (want s))) ;;
  s <- get ;;
  if is_null (in_ s) || is_null (out s) then
    free_out ;; free_in ;;
    modify (set_err ENOMEM) ;;
    fail
  else
    (* allocate deflate memory, set up for gzip compression *)
    match deflateInit2 (level s) Z_DEFLATED (15 + 16) 8 (strategy s) with
    | inr r =>
        free_out ;; free_in ;;
        (if r =? Z_MEM_ERROR then
           (* This means "not enough memory". *)
           modify (set_err ENOMEM)
         else
           (* This "shouldn't happen". *)
           modify (fun s => set_err_info (Some "Unknown error from deflateInit2()"%string)
                              (set_err WTAP_ERR_INTERNAL s))) ;;
        fail
    | inl d =>
        modify (fun s => set_strm (set_internal (Some d) (strm s)) s) ;;
        (* mark state as initialized *)
        modify (fun s => set_size (want s) s) ;;
        (* initialize write buffer *)
        modify (fun s => set_strm (set_next_out 0 (set_avail_out (size s) (strm s))) s) ;;
        modify (fun s => set_next (next_out (strm s)) s)
    end.

(** ** Compressing *)

(** The [avail_in] bytes at [next_in], when they can be read. *)
Definition input_at (s : wtap_writer) : option (list byte) :=
  let z := strm s in
  if avail_in z =? 0 then Some []
  else
    match next_in z with
    | In_unset => None
    | In_buf off =>
        match in_ s with
        | Live l =>
            if (0 <=? off) && (off + avail_in z <=? Z.of_nat (length l))
            then Some (slice l off (avail_in z))
            else None
        | _ => None
        end
    | In_user bytes =>
        if avail_in z <=? Z.of_nat (length bytes)
        then Some (firstn (Z.to_nat (avail_in z)) bytes)
        else None
    end.

(** [next_in += n]. *)
Definition in_ptr_add (p : in_ptr) (n : Z) : in_ptr :=
  match p with
  | In_unset => In_unset
  | In_buf off => In_buf (off + n)
  | In_user bytes => In_user (skipn (Z.to_nat n) bytes)
  end.

(** [deflate(strm, flush)]: zlib reads at next_in, stores at next_out and
    moves the four fields of the stream.  A deflate that took more than
    avail_in or stored more than avail_out would break its contract; a
    store beyond the end of the output buffer is an overflow. *)
Definition call_deflate (flush : Z) : M Z := fun s =>
  let z := strm s in
  match internal z, input_at s, out s with
  | Some d, Some input, Live lo =>
      let r := deflate d input (avail_out z) flush in
      let n := Z.of_nat (length (dr_produced r)) in
      if (0 <=? dr_consumed r) && (dr_consumed r <=? avail_in z)
         && (n <=? avail_out z)
         && (0 <=? next_out z) && (next_out z + n <=? Z.of_nat (length lo))
      then
        Done (dr_ret r)
          (set_out (Live (memcpy_at lo (next_out z) (dr_produced r)))
             (set_strm (mk_strm (in_ptr_add (next_in z) (dr_consumed r))
                                (guint (avail_in z - dr_consumed r))
                                (next_out z + n)
                                (guint (avail_out z - n))
                                (Some (dr_state r))) s))
      else Stuck
  | _, _, _ => Stuck
  end.

(** [ws_write(state->fd, state->next, (unsigned int)have)] and the two
    tests of what it returned. *)
Definition write_out (have : Z) : M unit := fun s =>
  match out s with
  | Live lo =>
      if (0 <=? next s) && (next s + guint have <=? Z.of_nat (length lo)) then
        match ws_write (fd s) (slice lo (next s) (guint have)) with
        | (IoErr e, fd') => Fail (set_err e (set_fd fd' s))
        | (IoOk got, fd') =>
            if negb (got =? have)
            then Fail (set_err WTAP_ERR_SHORT_WRITE (set_fd fd' s))
            else Done tt (set_fd fd' s)
        end
      else Stuck
  | _ => Stuck
  end.

(** The first half of a turn of the loop of gz_comp: "write out current
    buffer contents if full, or if flushing, but if doing Z_FINISH then
    don't write until we get to Z_STREAM_END"; [r] is [ret], what the last
    deflate() returned. *)
Definition write_if_due (flush r : Z) : M unit :=
  s <- get ;;
  if (avail_out (strm s) =? 0)
     || (negb (flush =? Z_NO_FLUSH)
         && (negb (flush =? Z_FINISH) || (r =? Z_STREAM_END)))
  then
    let have := next_out (strm s) - next s in
    (if negb (have =? 0) then write_out have else ret tt) ;;
    (if avail_out (strm s) =? 0 then
       modify (fun s => set_strm (set_next_out 0 (set_avail_out (size s) (strm s))) s)
     else ret tt) ;;
    modify (fun s => set_next (next_out (strm s)) s)
  else ret tt.

(** The do-while loop of gz_comp. *)
Fixpoint gz_comp_loop (fuel : nat) (flush r : Z) : M unit :=
  match fuel with
  | O => stuck
  | S fuel' =>
      write_if_due flush r ;;
      (* compress *)
      s <- get ;;
      let have := avail_out (strm s) in
      r <- call_deflate flush ;;
      if r =? Z_STREAM_ERROR then
        (* This "shouldn't happen". *)
        modify (fun s => set_err_info (Some "Z_STREAM_ERROR from deflate()"%string)
                           (set_err WTAP_ERR_INTERNAL s)) ;;
        fail
      else
        s <- get ;;
        let have := have - avail_out (strm s) in
        if negb (have =? 0) then gz_comp_loop fuel' flush r
        else ret tt
  end.

(** Compress whatever is at avail_in and next_in and write to the output
    file. *)
Definition gz_comp (fuel : nat) (flush : Z) : M unit :=
  s <- get ;;
  (* allocate memory if this is the first time through *)
  (if size s =? 0 then gz_init else ret tt) ;;
  (* run deflate() on provided input until it produces no more output *)
  gz_comp_loop fuel flush Z_OK ;;
  (* if that completed a deflate stream, allow another to start *)
  (if flush =? Z_FINISH then
     s <- get ;;
     match internal (strm s) with
     | Some d => modify (fun s => set_strm (set_internal (Some (deflateReset d)) (strm s)) s)
     | None => stuck
     end
   else ret tt).

(** ** Writing *)

(** [memcpy(strm->next_in + strm->avail_in, buf, n)]. *)
Definition copy_in (data : list byte) : M unit := fun s =>
  let z := strm s in
  match next_in z, in_ s with
  | In_buf off, Live l =>
      if (0 <=? off + avail_in z)
         && (off + avail_in z + Z.of_nat (length data) <=? Z.of_nat (length l))
      then Done tt (set_in (Live (memcpy_at l (off + avail_in z) data)) s)
      else Stuck
  | _, _ => Stuck
  end.

(** The do-while loop of gzwfile_write, "copy to input buffer, compress
    when full"; [false] is its [return 0]. *)
Fixpoint gzwfile_write_loop (fuel : nat) (buf : list byte) (len : Z) : M bool :=
  match fuel with
  | O => stuck
  | S fuel' =>
      s <- get ;;
      (if avail_in (strm s) =? 0
       then modify (fun s => set_strm (set_next_in (In_buf 0) (strm s)) s)
       else ret tt) ;;
      let n := guint (size s - avail_in (strm s)) in
      let n := if len <? n then len else n in
      copy_in (firstn (Z.to_nat n) buf) ;;
      modify (fun s => set_pos (pos s + n)
                         (set_strm (set_avail_in (guint (avail_in (strm s) + n)) (strm s)) s)) ;;
      let buf := skipn (Z.to_nat n) buf in
      let len := guint (len - n) in
      if negb (len =? 0) then
        r <- attempt (gz_comp fuel' Z_NO_FLUSH) ;;
        match r with
        | None => ret false
        | Some _ => gzwfile_write_loop fuel' buf len
        end
      else ret true
  end.

(** gzwfile_write(state, buf, len); [buf] holds the [len] bytes of the
    caller. *)
Definition gzwfile_write (fuel : nat) (buf : list byte) (len : Z) : M Z :=
  let put := len in
  s <- get ;;
  (* check that there's no error *)
  if negb (err s =? Z_OK) then ret 0
  (* if len is zero, avoid unnecessary operations *)
  else if len =? 0 then ret 0
  else
    (* allocate memory if this is the first time through *)
    r <- attempt (if size s =? 0 then gz_init else ret tt) ;;
    match r with
    | None => ret 0
    | Some _ =>
        s <- get ;;
        (* for small len, copy to input buffer, otherwise compress directly *)
        if len <? size s then
          done <- gzwfile_write_loop fuel buf len ;;
          if done then ret put else ret 0
        else
          (* consume whatever's left in the input buffer *)
          r <- attempt (if negb (avail_in (strm s) =? 0)
                        then gz_comp fuel Z_NO_FLUSH else ret tt) ;;
          match r with
          | None => ret 0
          | Some _ =>
              (* directly compress user buffer to file *)
              modify (fun s => set_pos (pos s + len)
                                 (set_strm (set_next_in (In_user buf)
                                              (set_avail_in len (strm s))) s)) ;;
              r <- attempt (gz_comp fuel Z_NO_FLUSH) ;;
              match r with
              | None => ret 0
              | Some _ => ret put
              end
          end
    end.

(** Flush out what we've written so far. *)
Definition gzwfile_flush (fuel : nat) : M Z :=
  s <- get ;;
  (* check that there's no error *)
  if negb (err s =? Z_OK) then ret (-1)
  else
    (* compress remaining data with Z_SYNC_FLUSH *)
    attempt (gz_comp fuel Z_SYNC_FLUSH) ;;
    s <- get ;;
    if negb (err s =? Z_OK) then ret (-1) else ret 0.

(** Flush out all data written, and close the file.  The writer it
    returns is the structure as it was when it was freed, with the
    descriptor that was closed. *)
Definition gzwfile_close (fuel : nat) : M Z :=
  (* flush, free memory, and close file *)
  r <- attempt (gz_comp fuel Z_FINISH) ;;
  s <- get ;;
  let r := match r with None => err s | Some _ => 0 end in
  (* deflateEnd(&(state->strm)) *)
  modify (fun s => set_strm (set_internal None (strm s)) s) ;;
  free_out ;; free_in ;;
  modify (set_err Z_OK) ;;
  s <- get ;;
  match ws_close (fd s) with
  | Some errno => ret (if r =? 0 then errno else r)
  | None => ret r
  end.

Definition gzwfile_geterr (state : wtap_writer) : Z := err state.

End Functions.

End Writer.

(** ** A simulated environment for the writer

    An instance of [Writer.Env] on which the writer runs by computation:
    the file is the list of the bytes written to it, every write takes
    all it is given, allocations succeed, and the stand-in for deflate
    copies its input through as far as there is room, and closes the
    stream with one zero byte when it is asked to finish and has room
    left. *)

Record sim_wfd : Type := mk_sim_wfd {
  sim_written : list byte
}.

Record sim_deflater : Type := mk_sim_deflater {
  sd_in : list byte;     (* all that was consumed *)
  sd_out : list byte;    (* all that was produced *)
  sd_fin : bool          (* the stream is finished *)
}.

Definition sim_deflate (d : sim_deflater) (input : list byte) (room flush : Z)
  : Writer.deflate_result sim_deflater :=
  if sd_fin d then Writer.mk_deflate_result Z_STREAM_END 0 [] d
  else
    let n := Nat.min (length input) (Z.to_nat room) in
    let body := firstn n input in
    let fin := (flush =? Writer.Z_FINISH) && (n =? length input)%nat
               && (n <? Z.to_nat room)%nat in
    let produced := body ++ (if fin then [x00] else []) in
    Writer.mk_deflate_result (if fin then Z_STREAM_END else Z_OK) (Z.of_nat n) produced
      (mk_sim_deflater (sd_in d ++ body) (sd_out d ++ produced) fin).

#[export] Instance sim_wenv : Writer.Env := {|
  Writer.WTAP_ERR_INTERNAL := -21;
  Writer.WTAP_ERR_SHORT_WRITE := -14;
  Writer.ENOMEM := 12;
  Writer.fd_t := sim_wfd;
  Writer.ws_open := fun _ => Some (mk_sim_wfd []);
  Writer.ws_write := fun f data =>
    (IoOk (Z.of_nat (length data)), mk_sim_wfd (sim_written f ++ data));
  Writer.ws_close := fun _ => None;
  Writer.g_try_malloc := fun _ n => Some (repeat x00 (Z.to_nat n));
  Writer.sizeof_wtap_writer := 128;
  Writer.d_state := sim_deflater;
  Writer.deflateInit2 := fun _ _ _ _ _ => inl (mk_sim_deflater [] [] false);
  Writer.deflate := sim_deflate;
  Writer.deflateReset := fun _ => mk_sim_deflater [] [] false
|}.

(** A writer on a fresh file, and, where a run gives none, a stand-in. *)
Definition sim_wblank : @Writer.wtap_writer sim_wenv :=
  Writer.mk_writer (mk_sim_wfd []) 0 0 0 Writer.Unset Writer.Unset 0 0 0 0 None
    (Writer.mk_strm Writer.In_unset 0 0 0 None).

Definition sim_writer : @Writer.wtap_writer sim_wenv :=
  match Writer.gzwfile_fdopen (mk_sim_wfd []) with
  | Some s => s
  | None => sim_wblank
  end.

Definition wafter {A} (o : @Writer.outcome sim_wenv A) : @Writer.wtap_writer sim_wenv :=
  match o with
  | Writer.Done _ s => s
  | Writer.Fail s => s
  | Writer.Stuck => sim_wblank
  end.

Definition wvalue {A} (o : @Writer.outcome sim_wenv A) : option A :=
  match o with
  | Writer.Done a _ => Some a
  | _ => None
  end.

(** The same environment short of memory: the allocation of the output
    buffer fails. *)
Definition sim_wenv_low : Writer.Env := {|
  Writer.WTAP_ERR_INTERNAL := -21;
  Writer.WTAP_ERR_SHORT_WRITE := -14;
  Writer.ENOMEM := 12;
  Writer.fd_t := sim_wfd;
  Writer.ws_open := fun _ => Some (mk_sim_wfd []);
  Writer.ws_write := fun f data =>
    (IoOk (Z.of_nat (length data)), mk_sim_wfd (sim_written f ++ data));
  Writer.ws_close := fun _ => None;
  Writer.g_try_malloc := fun site n =>
    match site with
    | Writer.Alloc_out => None
    | _ => Some (repeat x00 (Z.to_nat n))
    end;
  Writer.sizeof_wtap_writer := 128;
  Writer.d_state := sim_deflater;
  Writer.deflateInit2 := fun _ _ _ _ _ => inl (mk_sim_deflater [] [] false);
  Writer.deflate := sim_deflate;
  Writer.deflateReset := fun _ => mk_sim_deflater [] [] false
|}.

Definition sim_writer_low : @Writer.wtap_writer sim_wenv_low :=
  @Writer.mk_writer sim_wenv_low (mk_sim_wfd []) 0 0 GZBUFSIZE
    Writer.Unset Writer.Unset 0
    Writer.Z_DEFAULT_COMPRESSION Writer.Z_DEFAULT_STRATEGY Z_OK None
    (@Writer.mk_strm sim_wenv_low Writer.In_unset 0 0 0 None).

(** The simulated writer once "ABC" has been written through it. *)
Definition sim_writer_abc : @Writer.wtap_writer sim_wenv :=
  wafter (Writer.gzwfile_write 10 [x41; x42; x43] 3 sim_writer).

(** The simulated descriptor has had [w] written to it; the simulated
    deflate state has consumed [i] and produced [o]; and what the
    stand-in for deflate can still store without new input. *)
Definition sim_wrote (f : sim_wfd) (w : list byte) : Prop := sim_written f = w.

Definition sim_deflated (d : sim_deflater) (fin : bool) (i o : list byte) : Prop :=
  sd_in d = i /\ sd_out d = o /\ sd_fin d = fin.

Definition sim_budget (d : sim_deflater) (input : list byte) (flush : Z) : nat :=
  length input + (if sd_fin d then 0 else 1).

(** ** Notions used by the properties of the writer *)

(** What the writer relies on: the error codes differ from 0 ("no
    error"), a failed write leaves a non-zero errno, and an allocation of
    [n] bytes, when it succeeds, gives [n] bytes. *)
Class WriterOk (E : Writer.Env) : Prop := {
  internal_nz : Writer.WTAP_ERR_INTERNAL <> 0;
  short_write_nz : Writer.WTAP_ERR_SHORT_WRITE <> 0;
  wenomem_nz : Writer.ENOMEM <> 0;
  write_errno_nz : forall f data e f', Writer.ws_write f data = (IoErr e, f') -> e <> 0;
  malloc_length : forall site n l,
    Writer.g_try_malloc site n = Some l -> length l = Z.to_nat n
}.

(** [sink_like wrote]: the predicate [wrote f w] describes descriptors
    that behave as a file to which the bytes [w] have been written: a
    write that returns [got] has appended the first [got] of the bytes it
    was given. *)
Definition sink_like {E : Writer.Env} (wrote : Writer.fd_t -> list byte -> Prop) : Prop :=
  forall f w data got f',
    wrote f w ->
    Writer.ws_write f data = (IoOk got, f') ->
    0 <= got <= Z.of_nat (length data) /\
    wrote f' (w ++ firstn (Z.to_nat got) data).

(** [deflate_like stream budget]: the predicate [stream d fin i o]
    describes deflate states that have consumed the bytes [i] and
    produced the bytes [o] in all, and have ended the stream or not
    ([fin]).  deflateInit2 gives a stream that has consumed and produced
    nothing.  On a stream that has not ended and with room for output, a
    deflate() that does not return Z_STREAM_ERROR takes a prefix of its
    input, stores at most as much as there is room, and returns
    Z_STREAM_END exactly when it has ended the stream, which it does only
    for Z_FINISH and with all the input taken.  It stops short of taking
    all its input only when it has stored something; storing something
    uses up [budget], so that it cannot go on for ever without new input.
    Asked to finish, it stores something, and fills the room unless it
    ends the stream.  On a stream that has ended, deflate(Z_FINISH)
    without input does nothing. *)
Definition deflate_like {E : Writer.Env}
    (stream : Writer.d_state -> bool -> list byte -> list byte -> Prop)
    (budget : Writer.d_state -> list byte -> Z -> nat) : Prop :=
  (forall lv me wb ml st d,
      Writer.deflateInit2 lv me wb ml st = inl d -> stream d false [] []) /\
  (forall d input room flush,
      let r := Writer.deflate d input room flush in
      0 <= Writer.dr_consumed r <= Z.of_nat (length input) /\
      (0 <= room -> Z.of_nat (length (Writer.dr_produced r)) <= room)) /\
  (forall d i o input room flush,
      stream d false i o -> 0 < room ->
      let r := Writer.deflate d input room flush in
      Writer.dr_ret r <> Z_STREAM_ERROR ->
      stream (Writer.dr_state r) (Writer.dr_ret r =? Z_STREAM_END)
        (i ++ firstn (Z.to_nat (Writer.dr_consumed r)) input)
        (o ++ Writer.dr_produced r) /\
      (Writer.dr_ret r = Z_STREAM_END ->
       flush = Writer.Z_FINISH /\ Writer.dr_consumed r = Z.of_nat (length input)) /\
      (Writer.dr_produced r = [] -> Writer.dr_consumed r = Z.of_nat (length input)) /\
      (Writer.dr_produced r <> [] ->
       (budget (Writer.dr_state r) (skipn (Z.to_nat (Writer.dr_consumed r)) input) flush
        < budget d input flush)%nat) /\
      (flush = Writer.Z_FINISH ->
       Writer.dr_produced r <> [] /\
       (Writer.dr_ret r <> Z_STREAM_END ->
        Z.of_nat (length (Writer.dr_produced r)) = room))) /\
  (forall d i o room,
      stream d true i o -> 0 < room ->
      let r := Writer.deflate d [] room Writer.Z_FINISH in
      Writer.dr_ret r <> Z_STREAM_ERROR ->
      Writer.dr_produced r = [] /\
      stream (Writer.dr_state r) true i o).

(** The writer between two turns of the loop of gz_comp: buffers of
    [size] bytes, a deflate stream that has consumed [i] and produced [o],
    of which [w] is in the file and the rest waits in the output buffer
    between [next] and [strm.next_out]; [p] is the input at
    [strm.next_in]. *)
Definition comp_inv {E : Writer.Env}
    (wrote : Writer.fd_t -> list byte -> Prop)
    (stream : Writer.d_state -> bool -> list byte -> list byte -> Prop)
    (s : Writer.wtap_writer) (fin : bool) (i o w p : list byte) : Prop :=
  0 < Writer.size s < 2 ^ 32 /\
  Writer.input_at s = Some p /\
  Z.of_nat (length p) = Writer.avail_in (Writer.strm s) /\
  Writer.avail_in (Writer.strm s) < 2 ^ 32 /\
  wrote (Writer.fd s) w /\
  0 <= Writer.next s <= Writer.next_out (Writer.strm s) /\
  0 <= Writer.avail_out (Writer.strm s) /\
  Writer.next_out (Writer.strm s) + Writer.avail_out (Writer.strm s) = Writer.size s /\
  exists lo d,
    Writer.out s = Writer.Live lo /\ Z.of_nat (length lo) = Writer.size s /\
    Writer.internal (Writer.strm s) = Some d /\ stream d fin i o /\
    o = w ++ slice lo (Writer.next s) (Writer.next_out (Writer.strm s) - Writer.next s).

(** What gz_comp does not touch. *)
Definition comp_frame {E : Writer.Env} (s s' : Writer.wtap_writer) : Prop :=
  Writer.pos s' = Writer.pos s /\ Writer.size s' = Writer.size s /\
  Writer.want s' = Writer.want s /\ Writer.in_ s' = Writer.in_ s /\
  Writer.level s' = Writer.level s /\ Writer.strategy s' = Writer.strategy s.

(** What a run of gz_comp with [flush] comes to, from a writer whose
    stream was to have consumed [u] after it: a return of 0 with all of
    [u] consumed (and, unless [flush] is Z_NO_FLUSH, all the output in the
    file), or a return of -1 with an error recorded and the buffers still
    allocated. *)
Definition comp_post {E : Writer.Env}
    (wrote : Writer.fd_t -> list byte -> Prop)
    (stream : Writer.d_state -> bool -> list byte -> list byte -> Prop)
    (flush : Z) (s : Writer.wtap_writer) (u : list byte)
    (res : Writer.outcome unit) : Prop :=
  match res with
  | Writer.Done _ s' =>
      exists o' w',
        comp_inv wrote stream s' (flush =? Writer.Z_FINISH) u o' w' [] /\
        0 < Writer.avail_out (Writer.strm s') /\ comp_frame s s' /\
        Writer.err s' = Writer.err s /\
        (flush <> Writer.Z_NO_FLUSH -> w' = o')
  | Writer.Fail s' =>
      Writer.err s' <> 0 /\ comp_frame s s' /\
      exists lo, Writer.out s' = Writer.Live lo
  | Writer.Stuck => False
  end.

(** The test of write_if_due. *)
Definition write_due {E : Writer.Env} (flush r0 : Z) (s : Writer.wtap_writer) : bool :=
  (Writer.avail_out (Writer.strm s) =? 0)
  || (negb (flush =? Writer.Z_NO_FLUSH)
      && (negb (flush =? Writer.Z_FINISH) || (r0 =? Z_STREAM_END))).

(** gz_init succeeds: both buffers are allocated and deflateInit2 returns
    Z_OK. *)
Definition init_ok {E : Writer.Env} (s : Writer.wtap_writer) : Prop :=
  exists li lo d,
    Writer.g_try_malloc Writer.Alloc_in (Writer.want s) = Some li /\
    Writer.g_try_malloc Writer.Alloc_out (Writer.want s) = Some lo /\
    Writer.deflateInit2 (Writer.level s) Writer.Z_DEFLATED (15 + 16) 8 (Writer.strategy s)
    = inl d.

(** Both buffers are allocated. *)
Definition blocks_live {E : Writer.Env} (s : Writer.wtap_writer) : Prop :=
  (exists li, Writer.in_ s = Writer.Live li /\ Z.of_nat (length li) = Writer.size s) /\
  (exists lo, Writer.out s = Writer.Live lo).

(** The writer as gz_comp may find it, with a stream that has consumed
    [i] and the input [p] at [next_in]: nothing allocated yet, or set up
    for the loop. *)
Definition comp_pre {E : Writer.Env}
    (wrote : Writer.fd_t -> list byte -> Prop)
    (stream : Writer.d_state -> bool -> list byte -> list byte -> Prop)
    (s : Writer.wtap_writer) (i p : list byte) : Prop :=
  0 < Writer.want s < 2 ^ 32 /\
  ((Writer.size s = 0 /\ Writer.avail_in (Writer.strm s) = 0 /\
    wrote (Writer.fd s) [] /\ i = [] /\ p = [])
   \/
   (Writer.size s = Writer.want s /\ blocks_live s /\
    exists o w, comp_inv wrote stream s false i o w p)).

(** The file holds all that deflate has produced for the bytes [u]. *)
Definition all_out {E : Writer.Env}
    (wrote : Writer.fd_t -> list byte -> Prop)
    (stream : Writer.d_state -> bool -> list byte -> list byte -> Prop)
    (s : Writer.wtap_writer) (fin : bool) (u : list byte) : Prop :=
  exists d o, stream d fin u o /\ wrote (Writer.fd s) o.

(** What gz_comp comes to, from a writer as [comp_pre] describes it. *)
Definition gz_comp_post {E : Writer.Env}
    (wrote : Writer.fd_t -> list byte -> Prop)
    (stream : Writer.d_state -> bool -> list byte -> list byte -> Prop)
    (flush : Z) (s : Writer.wtap_writer) (u : list byte)
    (res : Writer.outcome unit) : Prop :=
  match res with
  | Writer.Done _ s' =>
      Writer.pos s' = Writer.pos s /\ Writer.want s' = Writer.want s /\
      Writer.err s' = Writer.err s /\ Writer.size s' = Writer.want s /\
      blocks_live s' /\
      (if flush =? Writer.Z_FINISH then all_out wrote stream s' true u
       else exists o' w',
              comp_inv wrote stream s' false u o' w' [] /\
              0 < Writer.avail_out (Writer.strm s') /\
              (flush <> Writer.Z_NO_FLUSH -> w' = o'))
  | Writer.Fail s' =>
      Writer.err s' <> 0 /\ Writer.pos s' = Writer.pos s /\
      (Writer.size s <> 0 \/ init_ok s -> blocks_live s')
  | Writer.Stuck => False
  end.

(** The writer between two calls of its API, with the bytes [u] written
    through it so far: no error, [pos] their count, and either nothing
    allocated yet and nothing written, or buffers and a deflate stream
    that has consumed all of [u] but the bytes that wait at the start of
    the input buffer. *)
Definition wr_inv {E : Writer.Env}
    (wrote : Writer.fd_t -> list byte -> Prop)
    (stream : Writer.d_state -> bool -> list byte -> list byte -> Prop)
    (s : Writer.wtap_writer) (u : list byte) : Prop :=
  Writer.err s = Z_OK /\ Writer.pos s = Z.of_nat (length u) /\
  0 < Writer.want s < 2 ^ 32 /\
  ((Writer.size s = 0 /\ Writer.avail_in (Writer.strm s) = 0 /\ u = [] /\
    wrote (Writer.fd s) [])
   \/
   (Writer.size s = Writer.want s /\
    0 < Writer.avail_out (Writer.strm s) /\
    Writer.avail_in (Writer.strm s) <= Writer.size s /\
    (Writer.avail_in (Writer.strm s) <> 0 ->
     Writer.next_in (Writer.strm s) = Writer.In_buf 0) /\
    (exists li, Writer.in_ s = Writer.Live li /\ Z.of_nat (length li) = Writer.size s) /\
    exists i o w p, comp_inv wrote stream s false i o w p /\ u = i ++ p)).

(** * Properties *)

(** ** Runs on the simulated environment *)

(** A run that returns [a] is [Done a] at the reader it ends in.  (The
    returned value is compared, a term whose type does not mention the
    environment, so that the comparison is a computation on data only.) *)
Lemma run_eq {A} (o : @outcome sim_env A) (a : A) :
  value o = Some a -> o = Done a (after o).
Proof.
  destruct o as [a' s'|s'|]; cbn; intros H; try discriminate.
  injection H as ->. reflexivity.
Defined.

Lemma open_eq (o : option (@wtap_reader sim_env)) :
  is_open o = true -> o = Some (sim_opened o).
Proof. destruct o; cbn; intros H; [reflexivity|discriminate]. Defined.

(** ** Arithmetic of the machine integers *)

Lemma guint_range (x : Z) : 0 <= guint x < 2 ^ 32.
Proof. unfold guint. apply Z.mod_pos_bound. lia. Qed.

Lemma guint_small (x : Z) : 0 <= x < 2 ^ 32 -> guint x = x.
Proof. intros H. unfold guint. apply Z.mod_small. exact H. Qed.

Lemma to_int_nonneg (x : Z) : 0 <= x < 2 ^ 32 -> 0 <= to_int x -> to_int x = x.
Proof.
  unfold to_int. intros Hx H. destruct (x <? 2 ^ 31) eqn:Hlt; [reflexivity|].
  apply Z.ltb_ge in Hlt. lia.
Qed.

Lemma to_int_small (x : Z) : 0 <= x < 2 ^ 31 -> to_int x = x.
Proof.
  unfold to_int. intros Hx. destruct (x <? 2 ^ 31) eqn:Hlt; [reflexivity|].
  apply Z.ltb_ge in Hlt. lia.
Qed.

(** ** Invariants carried across calls *)

Section Preservation.

Context {E : Env}.
Variable R : wtap_reader -> wtap_reader -> Prop.
Local Abbreviation keeps := (keeps R).
Local Abbreviation mpres := (mpres R).
Hypothesis R_refl : forall s, R s s.
Hypothesis R_trans : forall a b c, R a b -> R b c -> R a c.

Lemma keeps_ret {A} s0 (a : A) s : R s0 s -> keeps s0 (ret a) s.
Proof. intros H; exact H. Qed.

Lemma keeps_fail {A} s0 s : R s0 s -> keeps s0 (@fail _ A) s.
Proof. intros H; exact H. Qed.

Lemma keeps_stuck {A} s0 s : keeps s0 (@stuck _ A) s.
Proof. exact I. Qed.

Lemma keeps_modify s0 g s : R s0 (g s) -> keeps s0 (modify g) s.
Proof. intros H; exact H. Qed.

Lemma keeps_bind_get {A} s0 (f : wtap_reader -> M A) s :
  keeps s0 (f s) s -> keeps s0 (bind get f) s.
Proof. intros H; exact H. Qed.

Lemma keeps_bind_modify {A} s0 g (f : unit -> M A) s :
  keeps s0 (f tt) (g s) -> keeps s0 (bind (modify g) f) s.
Proof. intros H; exact H. Qed.

Lemma keeps_bind_ret {A B} s0 (a : A) (f : A -> M B) s :
  keeps s0 (f a) s -> keeps s0 (bind (ret a) f) s.
Proof. intros H; exact H. Qed.

Lemma keeps_bind_fail {A B} s0 (f : A -> M B) s :
  R s0 s -> keeps s0 (bind fail f) s.
Proof. intros H; exact H. Qed.

Lemma keeps_bind_stuck {A B} s0 (f : A -> M B) s : keeps s0 (bind stuck f) s.
Proof. exact I. Qed.

Lemma keeps_bind_assoc {A B C} s0 (m : M A) (f : A -> M B) (g : B -> M C) s :
  keeps s0 (bind m (fun a => bind (f a) g)) s -> keeps s0 (bind (bind m f) g) s.
Proof. unfold keeps, bind. destruct (m s); auto. Qed.

Lemma keeps_call {A} s0 (m : M A) s : mpres m -> R s0 s -> keeps s0 m s.
Proof.
  intros Hm H. specialize (Hm s). unfold keeps in *.
  destruct (m s); eauto.
Qed.

Lemma keeps_bind_call {A B} s0 (m : M A) (f : A -> M B) s :
  mpres m -> R s0 s ->
  (forall a s', R s0 s' -> keeps s0 (f a) s') ->
  keeps s0 (bind m f) s.
Proof.
  intros Hm H Hf. specialize (Hm s). unfold keeps, bind in *.
  destruct (m s) as [a s'| s'|]; [apply Hf| |]; eauto.
Qed.

Lemma keeps_bind_attempt {A B} s0 (m : M A) (f : option A -> M B) s :
  mpres m -> R s0 s ->
  (forall a s', R s0 s' -> keeps s0 (f a) s') ->
  keeps s0 (bind (attempt m) f) s.
Proof.
  intros Hm H Hf. specialize (Hm s). unfold keeps, bind, attempt in *.
  destruct (m s) as [a s'| s'|]; [apply Hf|apply Hf|]; eauto.
Qed.

Lemma mpres_attempt {A} (m : M A) : mpres m -> mpres (attempt m).
Proof.
  intros Hm s. specialize (Hm s). unfold keeps, attempt in *.
  destruct (m s); auto.
Qed.

Lemma mpres_ret {A} (a : A) : mpres (ret a).
Proof. intros s. apply R_refl. Qed.

Lemma mpres_bind {A B} (m : M A) (f : A -> M B) :
  mpres m -> (forall a, mpres (f a)) -> mpres (bind m f).
Proof.
  intros Hm Hf s. specialize (Hm s). unfold keeps, bind in *.
  destruct (m s) as [a s'| s'|]; auto.
  specialize (Hf a s'). unfold keeps in Hf.
  destruct (f a s'); eauto.
Qed.

Lemma mpres_intro {A} (m : M A) :
  (forall s, R s s -> keeps s m s) -> mpres m.
Proof. intros H s. apply H, R_refl. Qed.

End Preservation.

(** One step of symbolic execution of a [keeps] goal.  [Rt] is the
    transitivity of the relation, [step] proves [R s (g s)] for the field
    assignments [g] of the source, and [known] proves [mpres R m] for the
    calls (both are passed as thunks).  The hypothesis [R s0 s] about the current reader [s] is
    carried along. *)
Ltac keeps_one Rt step known :=
  cbv beta zeta; cbn [fst snd];
  lazymatch goal with
  | |- keeps _ _ stuck _ => apply keeps_stuck
  | |- keeps _ _ (bind stuck _) _ => apply keeps_bind_stuck
  | |- keeps _ _ (bind get _) _ => apply keeps_bind_get
  | |- keeps _ _ (bind (ret _) _) _ => apply keeps_bind_ret
  | |- keeps _ _ (bind (bind _ _) _) _ => apply keeps_bind_assoc
  | |- keeps _ _ (bind (if ?c then _ else _) _) _ => destruct c eqn:?
  | |- keeps _ _ (bind (match ?x with _ => _ end) _) _ => destruct x eqn:?
  | |- keeps _ _ (if ?c then _ else _) _ => destruct c eqn:?
  | |- keeps _ _ (match ?x with _ => _ end) _ => destruct x eqn:?
  | H : ?R ?s0 ?s |- keeps ?R ?s0 ?m ?s =>
      lazymatch m with
      | ret _ => apply keeps_ret; exact H
      | fail => apply keeps_fail; exact H
      | bind fail _ => apply keeps_bind_fail; exact H
      | modify ?g => apply keeps_modify; eapply Rt; [exact H | solve [step tt]]
      | bind (modify ?g) _ =>
          apply keeps_bind_modify;
          let Hn := fresh "Hcur" in
          assert (Hn : R s0 (g s)) by (eapply Rt; [exact H | solve [step tt]]);
          clear H
      | bind (attempt _) _ =>
          apply (keeps_bind_attempt _ Rt); [ solve [known tt] | exact H | clear H; intros ? ? ? ]
      | bind _ _ =>
          apply (keeps_bind_call _ Rt); [ solve [known tt] | exact H | clear H; intros ? ? ? ]
      | _ => apply (keeps_call _ Rt); [ solve [known tt] | exact H ]
      end
  end.

(** ** Sorted fast-seek arrays and the binary search *)

Lemma strictly_increasing_head (t : list Z) :
  forall a, strictly_increasing (a :: t) = true -> forall b, In b t -> a < b.
Proof.
  induction t as [|b0 t IH]; intros a Ha b Hb; [destruct Hb|].
  cbn [strictly_increasing] in Ha. apply andb_prop in Ha as [Hab Ht].
  apply Z.ltb_lt in Hab. destruct Hb as [<-|Hb]; [exact Hab|].
  specialize (IH b0 Ht b Hb). lia.
Qed.

Lemma strictly_increasing_tail (a : Z) (t : list Z) :
  strictly_increasing (a :: t) = true -> strictly_increasing t = true.
Proof.
  cbn [strictly_increasing]. intros H. apply andb_prop in H as [_ H]. exact H.
Qed.

Lemma strictly_increasing_nth (l : list Z) :
  strictly_increasing l = true ->
  forall i j a b, (i < j)%nat -> nth_error l i = Some a -> nth_error l j = Some b -> a < b.
Proof.
  induction l as [|x l IH]; intros Hs i j a b Hij Ha Hb.
  - destruct i; discriminate.
  - destruct j as [|j]; [lia|]. cbn in Hb. destruct i as [|i].
    + cbn in Ha. injection Ha as <-.
      eapply strictly_increasing_head; [exact Hs|]. eapply nth_error_In; eassumption.
    + cbn in Ha. apply (IH (strictly_increasing_tail _ _ Hs) i j); auto. lia.
Qed.

Lemma fs_sorted_nth (arr : list fast_seek_point) :
  fs_sorted arr ->
  forall i j a b, (i < j)%nat -> nth_error arr i = Some a -> nth_error arr j = Some b ->
                  fsp_out a < fsp_out b.
Proof.
  intros Hs i j a b Hij Ha Hb.
  apply (strictly_increasing_nth _ Hs i j); auto.
  - rewrite nth_error_map, Ha. reflexivity.
  - rewrite nth_error_map, Hb. reflexivity.
Qed.

Lemma strictly_increasing_snoc (l : list Z) (v : Z) :
  strictly_increasing l = true ->
  (forall x, In x l -> x < v) ->
  strictly_increasing (l ++ [v]) = true.
Proof.
  induction l as [|a l IH]; intros Hs Hv; [reflexivity|].
  cbn [app strictly_increasing]. apply andb_true_intro. split.
  - destruct l as [|b l]; cbn [app].
    + apply Z.ltb_lt, Hv. left; reflexivity.
    + cbn [strictly_increasing] in Hs. apply andb_prop in Hs as [Hab _]. exact Hab.
  - apply IH; [eapply strictly_increasing_tail; eassumption|].
    intros x Hx. apply Hv. right; exact Hx.
Qed.

Lemma array_last_snoc (l : list fast_seek_point) (x : fast_seek_point) :
  array_last (l ++ [x]) = Some x.
Proof.
  unfold array_last. rewrite length_app. cbn [length].
  replace (length l + 1 - 1)%nat with (length l) by lia.
  rewrite nth_error_app2 by lia. rewrite Nat.sub_diag. reflexivity.
Qed.

Lemma array_last_inv (arr : list fast_seek_point) (x : fast_seek_point) :
  array_last arr = Some x -> exists l, arr = l ++ [x].
Proof.
  intros H. destruct arr as [|a arr]; [discriminate|].
  destruct (@exists_last _ (a :: arr)) as [l [y Hl]]; [discriminate|].
  rewrite Hl in H. rewrite array_last_snoc in H. injection H as ->.
  exists l. exact Hl.
Qed.

(** What fast_seek_find is to return on the array [arr] for the target
    [p]: the entry with the largest [out] not above [p], and NULL when
    there is none. *)
Definition find_post (arr : list fast_seek_point) (p : Z) (r : option fast_seek_point)
  : Prop :=
  match r with
  | Some item =>
      In item arr /\ fsp_out item <= p /\
      forall x, In x arr -> fsp_out x <= p -> fsp_out x <= fsp_out item
  | None => forall x, In x arr -> p < fsp_out x
  end.

Lemma fast_seek_find_loop_spec (arr : list fast_seek_point) (p : Z) :
  fs_sorted arr ->
  Z.of_nat (length arr) < 2 ^ 31 ->
  forall fuel low max smallest,
    0 <= low <= max -> max <= Z.of_nat (length arr) ->
    (Z.to_nat (max - low) < fuel)%nat ->
    (forall i x, nth_error arr i = Some x -> Z.of_nat i < low -> fsp_out x < p) ->
    (forall i x, nth_error arr i = Some x -> max <= Z.of_nat i -> p < fsp_out x) ->
    smallest = (if low =? 0 then None else nth_error arr (Z.to_nat (low - 1))) ->
    exists r, fast_seek_find_loop fuel arr p low max smallest = Some r /\ find_post arr p r.
Proof.
  intros Hs Hlen fuel.
  induction fuel as [|fuel IH]; intros low max smallest Hlm Hmax Hfuel Hlow Hhigh Hsm; [lia|].
  cbn [fast_seek_find_loop].
  destruct (low <? max) eqn:Hcmp.
  - apply Z.ltb_lt in Hcmp.
    assert (Hi : guint (low + max) / 2 = (low + max) / 2)
      by (rewrite guint_small by lia; reflexivity).
    rewrite Hi. set (i := (low + max) / 2).
    assert (Hir : low <= i < max) by (subst i; split;
      [apply Z.div_le_lower_bound; lia | apply Z.div_lt_upper_bound; lia]).
    destruct (nth_error arr (Z.to_nat i)) as [item|] eqn:Hitem.
    2:{ apply nth_error_None in Hitem. lia. }
    destruct (p <? fsp_out item) eqn:Hlt.
    + apply Z.ltb_lt in Hlt. apply IH; try lia; auto.
      intros j x Hx Hj.
      destruct (Nat.eq_dec j (Z.to_nat i)) as [->|Hne].
      * rewrite Hitem in Hx. injection Hx as <-. exact Hlt.
      * assert (fsp_out item < fsp_out x); [|lia].
        apply (fs_sorted_nth _ Hs (Z.to_nat i) j); auto. lia.
    + apply Z.ltb_ge in Hlt. destruct (fsp_out item <? p) eqn:Hgt.
      * apply Z.ltb_lt in Hgt. rewrite (guint_small (i + 1)) by lia.
        apply IH; try lia; auto.
        -- intros j x Hx Hj.
           destruct (Nat.eq_dec j (Z.to_nat i)) as [->|Hne].
           ++ rewrite Hitem in Hx. injection Hx as <-. exact Hgt.
           ++ assert (fsp_out x < fsp_out item); [|lia].
              apply (fs_sorted_nth _ Hs j (Z.to_nat i)); auto. lia.
        -- destruct (i + 1 =? 0) eqn:Hz; [apply Z.eqb_eq in Hz; lia|].
           replace (i + 1 - 1) with i by lia. symmetry; exact Hitem.
      * apply Z.ltb_ge in Hgt. exists (Some item). split; [reflexivity|].
        cbn. split; [eapply nth_error_In; eassumption|]. split; [lia|].
        intros x _ Hx. lia.
  - apply Z.ltb_ge in Hcmp. assert (low = max) by lia. subst max.
    exists smallest. split; [reflexivity|]. subst smallest.
    destruct (low =? 0) eqn:Hz.
    + apply Z.eqb_eq in Hz. cbn. intros x Hx.
      apply In_nth_error in Hx as [j Hj]. apply (Hhigh j); auto. lia.
    + apply Z.eqb_neq in Hz.
      destruct (nth_error arr (Z.to_nat (low - 1))) as [item|] eqn:Hitem.
      2:{ apply nth_error_None in Hitem. lia. }
      cbn. split; [eapply nth_error_In; eassumption|].
      split; [assert (fsp_out item < p) by (apply (Hlow _ _ Hitem); lia); lia|].
      intros x Hx Hxp. apply In_nth_error in Hx as [j Hj].
      destruct (Z_lt_le_dec (Z.of_nat j) low) as [Hjl|Hjl].
      * destruct (Nat.eq_dec j (Z.to_nat (low - 1))) as [->|Hne].
        -- rewrite Hitem in Hj. injection Hj as <-. lia.
        -- assert (fsp_out x < fsp_out item); [|lia].
           apply (fs_sorted_nth _ Hs j (Z.to_nat (low - 1))); auto. lia.
      * specialize (Hhigh j x Hj Hjl). lia.
Qed.

(** C4.  On a fast-seek array sorted strictly by increasing [out] (of fewer
    than 2^31 entries, so that the midpoint [low + max] stays within a
    [guint]), [fast_seek_find file p] returns the entry with the largest
    [out] such that [out <= p]; it returns NULL exactly when no array is
    attached or every entry's [out] exceeds [p]. *)
Theorem C4_fast_seek_find_largest_below {E : Env} (file : wtap_reader) (p : Z) :
  (fast_seek file = None -> fast_seek_find file p = Some None) /\
  (forall arr,
      fast_seek file = Some arr ->
      fs_sorted arr ->
      Z.of_nat (length arr) < 2 ^ 31 ->
      exists r,
        fast_seek_find file p = Some r /\
        find_post arr p r /\
        (r = None <-> forall x, In x arr -> p < fsp_out x)).
Proof.
  split.
  - intros H. unfold fast_seek_find. rewrite H. reflexivity.
  - intros arr H Hs Hlen. unfold fast_seek_find. rewrite H.
    rewrite guint_small by lia.
    assert (Hlow : forall i x, nth_error arr i = Some x -> Z.of_nat i < 0 -> fsp_out x < p)
      by (intros i x _ Hi; lia).
    assert (Hhigh : forall i x, nth_error arr i = Some x ->
                                Z.of_nat (length arr) <= Z.of_nat i -> p < fsp_out x).
    { intros i x Hx Hi. assert (i < length arr)%nat; [|lia].
      apply nth_error_Some. rewrite Hx. discriminate. }
    destruct (fast_seek_find_loop_spec arr p Hs Hlen (S (length arr)) 0
                (Z.of_nat (length arr)) None ltac:(lia) ltac:(lia) ltac:(lia)
                Hlow Hhigh eq_refl) as [r [Hr Hpost]].
    { exists r. split; [exact Hr|]. split; [exact Hpost|].
      destruct r as [item|]; cbn in Hpost.
      * split; [discriminate|]. intros Hall. destruct Hpost as [Hin [Hle _]].
        specialize (Hall item Hin). lia.
      * split; auto. }
Qed.

Lemma C4_fast_seek_find_largest_below_witness :
  let file := file_set_random_access (Some sim_points) sim_blank in
  exists r,
    fast_seek_find file 15 = Some r /\
    find_post sim_points 15 r /\
    (r = None <-> forall x, In x sim_points -> 15 < fsp_out x).
Proof.
  intros file.
  destruct (C4_fast_seek_find_largest_below file 15) as [_ H].
  apply (H sim_points).
  - reflexivity.
  - reflexivity.
  - vm_compute. reflexivity.
Defined.

(** ** Filling the output buffer: what it leaves alone *)

Lemma fs_ext_refl (a : option (list fast_seek_point)) : fs_ext a a.
Proof.
  destruct a as [arr|]; cbn; [|reflexivity].
  exists []. rewrite app_nil_r. auto.
Qed.

Lemma fs_ext_trans (a b c : option (list fast_seek_point)) :
  fs_ext a b -> fs_ext b c -> fs_ext a c.
Proof.
  destruct a as [arr|]; cbn.
  - intros [t1 [-> H1]] [t2 [-> H2]]. exists (t1 ++ t2).
    rewrite app_assoc. auto.
  - intros ->. cbn. auto.
Qed.

Lemma fs_sorted_below_last (l : list fast_seek_point) (lst : fast_seek_point) :
  fs_sorted (l ++ [lst]) -> forall x, In x (l ++ [lst]) -> fsp_out x <= fsp_out lst.
Proof.
  intros Hs x Hx. apply in_app_or in Hx as [Hx|[<-|[]]]; [|lia].
  apply In_nth_error in Hx as [i Hi].
  assert (Hlt : (i < length l)%nat) by (apply nth_error_Some; rewrite Hi; discriminate).
  assert (fsp_out x < fsp_out lst); [|lia].
  apply (fs_sorted_nth _ Hs i (length l)); auto.
  - rewrite nth_error_app1 by exact Hlt. exact Hi.
  - rewrite nth_error_app2 by lia. rewrite Nat.sub_diag. reflexivity.
Qed.

(** Appending an entry whose [out] is above that of the last entry keeps
    the array sorted. *)
Lemma fs_sorted_snoc (arr : list fast_seek_point) (v : fast_seek_point) :
  (forall x, array_last arr = Some x -> fsp_out x < fsp_out v) ->
  fs_sorted arr -> fs_sorted (arr ++ [v]).
Proof.
  intros Hlast Hs. unfold fs_sorted. rewrite map_app. cbn [map].
  apply strictly_increasing_snoc; [exact Hs|].
  intros y Hy. apply in_map_iff in Hy as [x [<- Hx]].
  destruct arr as [|a arr]; [destruct Hx|].
  destruct (@exists_last _ (a :: arr)) as [l [lst Hl]]; [discriminate|].
  rewrite Hl in *. specialize (Hlast lst (array_last_snoc l lst)).
  pose proof (fs_sorted_below_last l lst Hs x Hx). lia.
Qed.

Lemma fs_ext_snoc (arr : list fast_seek_point) (v : fast_seek_point) :
  (forall x, array_last arr = Some x -> fsp_out x < fsp_out v) ->
  fs_ext (Some arr) (Some (arr ++ [v])).
Proof.
  intros H. exists [v]. split; [reflexivity|]. apply fs_sorted_snoc, H.
Qed.

Section FillFrame.

Context {E : Env}.

Lemma fill_rel_refl (s : wtap_reader) : fill_rel s s.
Proof. unfold fill_rel. intuition auto using fs_ext_refl. Qed.

Lemma fill_rel_trans (a b c : wtap_reader) : fill_rel a b -> fill_rel b c -> fill_rel a c.
Proof.
  unfold fill_rel. intros (H1 & H2 & H3 & H4 & H5 & H6 & H7 & H8)
                          (G1 & G2 & G3 & G4 & G5 & G6 & G7 & G8).
  split; [congruence|]. split; [congruence|]. split; [congruence|].
  split; [congruence|]. split; [congruence|]. split; [congruence|].
  split; [auto|]. eapply fs_ext_trans; eassumption.
Qed.

End FillFrame.

Create HintDb fill_db.
#[local] Hint Resolve fill_rel_refl : fill_db.

(** Proves [fill_rel s (g s)] for an assignment [g] that leaves the
    fast-seek array alone and stores a [guint] in [out.avail], if
    anything. *)
Ltac fill_step :=
  unfold fill_rel, out_ok, consume, gz_reset, set_buf, buf_reset, buf_advance,
    bytes_in_buffer, offset_in_buffer;
  cbn;
  repeat match goal with
         | |- context [if ?c then _ else _] => destruct c
         | |- context [match ?w with In_buf => _ | Out_buf => _ end] => destruct w
         end;
  cbn;
  intuition (auto using fs_ext_refl;
             try match goal with
                 | |- context [guint ?x] => pose proof (guint_range x)
                 end; try lia).

Ltac fill_known := auto with fill_db.

Ltac fill_go :=
  repeat (keeps_one (@fill_rel_trans _) ltac:(fun _ => fill_step) ltac:(fun _ => fill_known)).

(** Opens the proof of [mpres fill_rel m] for a function given in monadic
    style. *)
Ltac fill_start :=
  apply mpres_intro; [apply fill_rel_refl|];
  let s := fresh "s" in let H := fresh "Hcur" in intros s H.

Section FillFrameLemmas.

Context {E : Env}.

Lemma buf_read_fill (w : which_buf) : mpres fill_rel (buf_read w).
Proof.
  intros s. unfold keeps, buf_read.
  destruct (ws_read _ _) as [[data|e] fd']; fill_step.
Qed.

Lemma fill_in_buffer_fill : mpres fill_rel fill_in_buffer.
Proof.
  intros s. unfold keeps, fill_in_buffer.
  destruct (negb (err s =? 0)); [apply fill_rel_refl|].
  destruct (negb (eof s)); [apply buf_read_fill|apply fill_rel_refl].
Qed.

Lemma short_read_fill {A} : mpres fill_rel (@short_read _ A).
Proof.
  intros s. unfold keeps, short_read. destruct (err s =? 0); fill_step.
Qed.

Lemma fast_seek_reset_fill : mpres fill_rel fast_seek_reset.
Proof.
  intros s. unfold keeps, fast_seek_reset.
  destruct (compression s), (fast_seek_cur s); fill_step.
Qed.

Lemma fast_seek_header_fill (in_pos out_pos : Z) (c : compression_t) :
  mpres fill_rel (fast_seek_header in_pos out_pos c).
Proof.
  intros s. unfold keeps, fast_seek_header.
  destruct (fast_seek s) as [arr|] eqn:Hfs; [|exact I].
  assert (Hadd : forall it, (forall x, array_last arr = Some x -> fsp_out x < fsp_out it) ->
                            fill_rel s (set_fast_seek (Some (arr ++ [it])) s)).
  { intros it Hit. unfold fill_rel, out_ok. cbn. intuition auto.
    rewrite Hfs. apply fs_ext_snoc, Hit. }
  destruct (Z.of_nat (length arr) =? 0) eqn:Hlen.
  - apply Hadd. intros x Hx. destruct arr; [discriminate|]. cbn in Hlen. lia.
  - destruct (array_last arr) as [it|] eqn:Hlast.
    + destruct (fsp_out it <? out_pos) eqn:Hlt; [|apply fill_rel_refl].
      apply Z.ltb_lt in Hlt. apply Hadd. intros x Hx.
      injection Hx as <-. exact Hlt.
    + apply Hadd. intros x Hx. discriminate.
Qed.

Lemma zlib_fast_seek_add_fill (point : zlib_cur_seek_point) (bits in_pos out_pos : Z) :
  mpres fill_rel (zlib_fast_seek_add point bits in_pos out_pos).
Proof.
  intros s. unfold keeps, zlib_fast_seek_add.
  destruct (fast_seek s) as [arr|] eqn:Hfs; [|exact I].
  destruct (array_last arr) as [it|] eqn:Hlast; [|exact I].
  destruct (fsp_out it + SPAN <? out_pos) eqn:Hlt; [|apply fill_rel_refl].
  apply Z.ltb_lt in Hlt.
  match goal with
  | |- context [mk_point ?o ?i ?c ?b ?w ?a ?t] =>
      assert (Hv : fsp_out (mk_point o i c b w a t) = out_pos) by reflexivity;
      generalize dependent (mk_point o i c b w a t); intros v Hv
  end.
  unfold fill_rel, out_ok. cbn. intuition auto.
  rewrite Hfs. apply fs_ext_snoc. intros x Hx. rewrite Hlast in Hx.
  injection Hx as <-. unfold SPAN in Hlt. lia.
Qed.

#[local] Hint Resolve buf_read_fill fill_in_buffer_fill short_read_fill
  fast_seek_reset_fill fast_seek_header_fill zlib_fast_seek_add_fill : fill_db.

Lemma GZ_GETC_fill : mpres fill_rel GZ_GETC.
Proof. fill_start. unfold GZ_GETC. fill_go. Qed.

Lemma fill_ret {A} (a : A) : mpres fill_rel (ret a).
Proof. apply mpres_ret, fill_rel_refl. Qed.

Lemma fill_bind {A B} (m : M A) (f : A -> M B) :
  mpres fill_rel m -> (forall a, mpres fill_rel (f a)) -> mpres fill_rel (bind m f).
Proof. apply mpres_bind. apply fill_rel_trans. Qed.

#[local] Hint Resolve GZ_GETC_fill fill_ret fill_bind : fill_db.

Lemma gz_next1_fill : mpres fill_rel gz_next1.
Proof. fill_start. unfold gz_next1. fill_go. Qed.

Lemma gz_next2_fill : mpres fill_rel gz_next2.
Proof. fill_start. unfold gz_next2. fill_go. Qed.

Lemma gz_next4_fill : mpres fill_rel gz_next4.
Proof. fill_start. unfold gz_next4. fill_go. Qed.

Lemma gz_skipn_fill (n : nat) : mpres fill_rel (gz_skipn n).
Proof.
  induction n as [|n IH]; fill_start; cbn [gz_skipn]; fill_go.
Qed.

Lemma gz_skipzstr_fill (fuel : nat) : mpres fill_rel (gz_skipzstr fuel).
Proof.
  induction fuel as [|fuel IH]; fill_start; cbn [gz_skipzstr]; fill_go.
Qed.

#[local] Hint Resolve gz_next1_fill gz_next2_fill gz_next4_fill gz_skipn_fill
  gz_skipzstr_fill : fill_db.

Lemma zlib_read_loop_fill (fuel : nat) :
  forall count ret_ avail_out buf2 count2,
    mpres fill_rel (zlib_read_loop fuel count ret_ avail_out buf2 count2).
Proof.
  induction fuel as [|fuel IH]; intros; fill_start; cbn [zlib_read_loop]; fill_go.
Qed.

#[local] Hint Resolve zlib_read_loop_fill : fill_db.

Lemma zlib_read_trailer_fill : mpres fill_rel zlib_read_trailer.
Proof. fill_start. unfold zlib_read_trailer. fill_go. Qed.

#[local] Hint Resolve zlib_read_trailer_fill : fill_db.

Lemma zlib_read_fill (fuel : nat) (count : Z) : mpres fill_rel (zlib_read fuel count).
Proof. fill_start. unfold zlib_read. fill_go. Qed.

Lemma gz_head_setup_fill : mpres fill_rel gz_head_setup.
Proof. fill_start. unfold gz_head_setup. fill_go. Qed.

#[local] Hint Resolve zlib_read_fill gz_head_setup_fill : fill_db.

Lemma gz_head_gzip_fill (fuel : nat) : mpres fill_rel (gz_head_gzip fuel).
Proof. fill_start. unfold gz_head_gzip. fill_go. Qed.

Lemma gz_head_other_fill : mpres fill_rel gz_head_other.
Proof. fill_start. unfold gz_head_other. fill_go. Qed.

#[local] Hint Resolve gz_head_gzip_fill gz_head_other_fill : fill_db.

Lemma gz_head_fill (fuel : nat) : mpres fill_rel (gz_head fuel).
Proof. fill_start. unfold gz_head. fill_go. Qed.

Lemma stream_step_zstd_fill (decompress : list byte -> Z -> stream_result ZSTD_DCtx) :
  mpres fill_rel (stream_step decompress set_zstd_dctx).
Proof. fill_start. unfold stream_step. fill_go. Qed.

Lemma stream_step_lz4_fill (decompress : list byte -> Z -> stream_result LZ4F_dctx) :
  mpres fill_rel (stream_step decompress set_lz4_dctx).
Proof. fill_start. unfold stream_step. fill_go. Qed.

#[local] Hint Resolve gz_head_fill stream_step_zstd_fill stream_step_lz4_fill : fill_db.

Lemma fill_out_buffer_fill (fuel : nat) : mpres fill_rel (fill_out_buffer fuel).
Proof.
  fill_start. unfold fill_out_buffer. fill_go.
Qed.

End FillFrameLemmas.

(** ** The fast-seek array under the public operations *)

Section ApiFrame.

Context {E : Env}.

Lemma api_rel_refl (s : wtap_reader) : api_rel s s.
Proof. split; [apply fs_ext_refl|auto]. Qed.

Lemma api_rel_trans (a b c : wtap_reader) : api_rel a b -> api_rel b c -> api_rel a c.
Proof.
  intros [H1 H2] [G1 G2]. split; [eapply fs_ext_trans; eassumption|auto].
Qed.

Lemma fill_rel_api (s s' : wtap_reader) : fill_rel s s' -> api_rel s s'.
Proof. unfold fill_rel, api_rel. tauto. Qed.

Lemma mpres_fill_api {A} (m : M A) : mpres fill_rel m -> mpres api_rel m.
Proof.
  intros H s. specialize (H s). unfold keeps in *.
  destruct (m s); auto using fill_rel_api.
Qed.

End ApiFrame.

Create HintDb api_db.

Ltac api_step :=
  unfold api_rel, out_ok, consume, gz_reset, set_buf, buf_reset, buf_advance; cbn;
  split; [apply fs_ext_refl|];
  intros;
  try match goal with
      | |- context [guint ?x] => pose proof (guint_range x)
      end;
  lia.

Ltac api_known :=
  first [ solve [auto with api_db] | solve [apply mpres_fill_api; auto with fill_db] ].

Ltac api_go :=
  repeat (keeps_one (@api_rel_trans _) ltac:(fun _ => api_step) ltac:(fun _ => api_known)).

Ltac api_start :=
  apply mpres_intro; [apply api_rel_refl|];
  let s := fresh "s" in let H := fresh "Hcur" in intros s H.

Section ApiFrameLemmas.

Context {E : Env}.

#[local] Hint Resolve buf_read_fill fill_in_buffer_fill fast_seek_reset_fill GZ_GETC_fill
  fill_out_buffer_fill : fill_db.

Lemma api_attempt {A} (m : M A) : mpres api_rel m -> mpres api_rel (attempt m).
Proof. apply mpres_attempt. Qed.

#[local] Hint Resolve api_attempt : api_db.

Lemma gz_skip_api (fuel : nat) : forall len, mpres api_rel (gz_skip fuel len).
Proof.
  induction fuel as [|fuel IH]; intros; api_start; cbn [gz_skip]; api_go.
Qed.

#[local] Hint Resolve gz_skip_api : api_db.

Lemma file_read_loop_api (fuel : nat) :
  forall buf_null len got copied,
    mpres api_rel (file_read_loop fuel buf_null len got copied).
Proof.
  induction fuel as [|fuel IH]; intros; api_start; cbn [file_read_loop]; api_go.
Qed.

Lemma process_skip_api (fuel : nat) : mpres api_rel (process_skip fuel).
Proof. api_start. unfold process_skip. api_go. Qed.

#[local] Hint Resolve file_read_loop_api process_skip_api : api_db.

Lemma file_read_api (fuel : nat) (buf_null : bool) (len : Z) :
  mpres api_rel (file_read fuel buf_null len).
Proof. api_start. unfold file_read. api_go. Qed.

Lemma file_peekc_loop_api (fuel : nat) : mpres api_rel (file_peekc_loop fuel).
Proof.
  induction fuel as [|fuel IH]; api_start; cbn [file_peekc_loop]; api_go.
Qed.

#[local] Hint Resolve file_read_api file_peekc_loop_api : api_db.

Lemma file_peekc_api (fuel : nat) : mpres api_rel (file_peekc fuel).
Proof. api_start. unfold file_peekc. api_go. Qed.

Lemma file_getc_api (fuel : nat) : mpres api_rel (file_getc fuel).
Proof. api_start. unfold file_getc. api_go. Qed.

Lemma file_seek_fast_api (here : fast_seek_point) (offset : Z) :
  mpres api_rel (file_seek_fast here offset).
Proof. api_start. unfold file_seek_fast. api_go. Qed.

Lemma file_seek_slow_api (offset : Z) : mpres api_rel (file_seek_slow offset).
Proof. api_start. unfold file_seek_slow. api_go. Qed.

#[local] Hint Resolve file_seek_fast_api file_seek_slow_api : api_db.

Lemma file_seek_cur_api (offset : Z) : mpres api_rel (file_seek_cur offset).
Proof. api_start. unfold file_seek_cur. api_go. Qed.

#[local] Hint Resolve file_seek_cur_api : api_db.

Lemma file_seek_api (fuel : nat) (offset : Z) (whence : whence_t) :
  mpres api_rel (file_seek fuel offset whence).
Proof. api_start. unfold file_seek. api_go. Qed.

Lemma file_getsp_loop_api (fuel : nat) :
  forall left copied, mpres api_rel (file_getsp_loop fuel left copied).
Proof.
  induction fuel as [|fuel IH]; intros; api_start; cbn [file_getsp_loop]; api_go.
Qed.

#[local] Hint Resolve file_getsp_loop_api : api_db.

Lemma file_getsp_api (fuel : nat) (buf_null : bool) (len : Z) :
  mpres api_rel (file_getsp fuel buf_null len).
Proof. api_start. unfold file_getsp. api_go. Qed.

Lemma reader_step_api (s s' : wtap_reader) : reader_step s s' -> api_rel s s'.
Proof.
  intros H. destruct H as [fuel b len s r s' H|fuel s r s' H|fuel s r s' H
                          |fuel offset whence s r s' H
                          |fuel b len s r s' H|fuel b len s r s' H|s].
  - pose proof (file_read_api fuel b len s) as P. unfold keeps in P. rewrite H in P. exact P.
  - pose proof (file_peekc_api fuel s) as P. unfold keeps in P. rewrite H in P. exact P.
  - pose proof (file_getc_api fuel s) as P. unfold keeps in P. rewrite H in P. exact P.
  - pose proof (file_seek_api fuel offset whence s) as P. unfold keeps in P.
    rewrite H in P. exact P.
  - pose proof (file_getsp_api fuel b len s) as P. unfold keeps in P. rewrite H in P. exact P.
  - pose proof (file_getsp_api fuel b len s) as P. unfold file_gets in H.
    unfold keeps in P. rewrite H in P. exact P.
  - split; [apply fs_ext_refl|auto].
Qed.

Lemma fs_ext_sorted (a b : option (list fast_seek_point)) :
  fs_ext a b -> fs_sorted_opt a -> fs_sorted_opt b.
Proof.
  destruct a as [arr|]; cbn.
  - intros [tail [-> H]] Hs. cbn. auto.
  - intros -> _. exact I.
Qed.

End ApiFrameLemmas.

Lemma reachable_api {E : Env} (s s' : wtap_reader) : reachable s s' -> api_rel s s'.
Proof.
  induction 1 as [|s1 s2 _ IH Hstep].
  - apply api_rel_refl.
  - eapply api_rel_trans; [exact IH|]. apply reader_step_api, Hstep.
Qed.

(** C5.  Strict sortedness of the fast-seek array by increasing [out] is
    an invariant.  The two append paths, fast_seek_header and
    zlib_fast_seek_add, leave the array as it is or append one entry at its
    end, and append only when the new entry's [out] is strictly greater
    than the [out] of the current last entry; hence each of them, and every
    sequence of calls of the reader API, takes a strictly increasing array
    to a strictly increasing array. *)
Theorem C5_fast_seek_sorted_invariant {E : Env} :
  (forall in_pos out_pos c s s' arr,
      fast_seek_header in_pos out_pos c s = Done tt s' ->
      fast_seek s = Some arr ->
      fast_seek s' = Some arr \/
      (exists v, fast_seek s' = Some (arr ++ [v]) /\ fsp_out v = out_pos /\
                 forall x, array_last arr = Some x -> fsp_out x < out_pos)) /\
  (forall point bits in_pos out_pos s s' arr,
      zlib_fast_seek_add point bits in_pos out_pos s = Done tt s' ->
      fast_seek s = Some arr ->
      fast_seek s' = Some arr \/
      (exists v, fast_seek s' = Some (arr ++ [v]) /\ fsp_out v = out_pos /\
                 forall x, array_last arr = Some x -> fsp_out x < out_pos)) /\
  (forall in_pos out_pos c s s',
      fast_seek_header in_pos out_pos c s = Done tt s' ->
      fs_sorted_opt (fast_seek s) -> fs_sorted_opt (fast_seek s')) /\
  (forall point bits in_pos out_pos s s',
      zlib_fast_seek_add point bits in_pos out_pos s = Done tt s' ->
      fs_sorted_opt (fast_seek s) -> fs_sorted_opt (fast_seek s')) /\
  (forall s s',
      reachable s s' ->
      fs_sorted_opt (fast_seek s) -> fs_sorted_opt (fast_seek s')).
Proof.
  split; [|split; [|split; [|split]]].
  - intros in_pos out_pos c s s' arr H Hfs. unfold fast_seek_header in H.
    rewrite Hfs in H.
    assert (Hadd : forall it,
               Done tt (set_fast_seek (Some (arr ++ [mk_point out_pos in_pos c 0 [] 0 0])) s)
               = Done tt s' ->
               array_last arr = it ->
               (forall x, it = Some x -> fsp_out x < out_pos) ->
               fast_seek s' = Some arr \/
               (exists v, fast_seek s' = Some (arr ++ [v]) /\ fsp_out v = out_pos /\
                          forall x, array_last arr = Some x -> fsp_out x < out_pos)).
    { intros it Heq Hit Hlt. injection Heq as <-. right.
      exists (mk_point out_pos in_pos c 0 [] 0 0). repeat split.
      intros x Hx. apply Hlt. congruence. }
    destruct (Z.of_nat (length arr) =? 0) eqn:Hlen.
    + apply (Hadd None H).
      * destruct arr; [reflexivity|]. cbn in Hlen. lia.
      * discriminate.
    + destruct (array_last arr) as [it|] eqn:Hlast.
      * destruct (fsp_out it <? out_pos) eqn:Hlt.
        -- apply Z.ltb_lt in Hlt. apply (Hadd (Some it) H eq_refl).
           intros x [= <-]. exact Hlt.
        -- injection H as <-. left. exact Hfs.
      * apply (Hadd None H eq_refl). discriminate.
  - intros point bits in_pos out_pos s s' arr H Hfs. unfold zlib_fast_seek_add in H.
    rewrite Hfs in H. destruct (array_last arr) as [it|] eqn:Hlast; [|discriminate].
    destruct (fsp_out it + SPAN <? out_pos) eqn:Hlt.
    + apply Z.ltb_lt in Hlt.
      match type of H with
      | context [mk_point ?o ?i ?c ?b ?w ?a ?t] =>
          assert (Hv : fsp_out (mk_point o i c b w a t) = out_pos) by reflexivity;
          generalize dependent (mk_point o i c b w a t); intros v H Hv
      end.
      injection H as <-. right.
      exists v. split; [reflexivity|]. split; [exact Hv|].
      intros x [= <-]. unfold SPAN in Hlt. lia.
    + injection H as <-. left. exact Hfs.
  - intros in_pos out_pos c s s' H.
    pose proof (fast_seek_header_fill in_pos out_pos c s) as P.
    unfold keeps in P. rewrite H in P. apply fs_ext_sorted. apply P.
  - intros point bits in_pos out_pos s s' H.
    pose proof (zlib_fast_seek_add_fill point bits in_pos out_pos s) as P.
    unfold keeps in P. rewrite H in P. apply fs_ext_sorted. apply P.
  - intros s s' H. apply fs_ext_sorted. apply (reachable_api s s' H).
Qed.

Lemma C5_fast_seek_sorted_invariant_witness :
  let s := file_set_random_access (Some []) (sim_reader (sim_gzip_hi xd1)) in
  let s1 := after (fast_seek_header 0 0 UNCOMPRESSED s) in
  let s2 := after (zlib_fast_seek_add (mk_cur [] 0 0) 0 2000000 2000000 s1) in
  let s' := after (file_read 10 false 2 s) in
  fs_sorted_opt (fast_seek s1) /\
  fs_sorted_opt (fast_seek s2) /\
  (fast_seek s1 = Some [] \/
   exists v, fast_seek s1 = Some ([] ++ [v]) /\ fsp_out v = 0 /\
             forall x, array_last [] = Some x -> fsp_out x < 0) /\
  (fast_seek s2 = fast_seek s1 \/
   exists v, fast_seek s2 = Some ([mk_point 0 0 UNCOMPRESSED 0 [] 0 0] ++ [v]) /\
             fsp_out v = 2000000 /\
             forall x, array_last [mk_point 0 0 UNCOMPRESSED 0 [] 0 0] = Some x ->
                       fsp_out x < 2000000) /\
  fs_sorted_opt (fast_seek s').
Proof.
  intros s s1 s2 s'. subst s1 s2 s'.
  destruct (@C5_fast_seek_sorted_invariant sim_env) as (P1 & P2 & P3 & P4 & P5).
  assert (H1 : fast_seek_header 0 0 UNCOMPRESSED s
               = Done tt (after (fast_seek_header 0 0 UNCOMPRESSED s)))
    by exact (run_eq (fast_seek_header 0 0 UNCOMPRESSED s) tt
                ltac:(vm_compute; reflexivity)).
  assert (H2 : zlib_fast_seek_add (mk_cur [] 0 0) 0 2000000 2000000
                 (after (fast_seek_header 0 0 UNCOMPRESSED s))
               = Done tt (after (zlib_fast_seek_add (mk_cur [] 0 0) 0 2000000 2000000
                                   (after (fast_seek_header 0 0 UNCOMPRESSED s)))))
    by exact (run_eq (zlib_fast_seek_add (mk_cur [] 0 0) 0 2000000 2000000
                        (after (fast_seek_header 0 0 UNCOMPRESSED s))) tt
                ltac:(vm_compute; reflexivity)).
  assert (S0 : fs_sorted_opt (fast_seek s)) by reflexivity.
  pose proof (P3 _ _ _ _ _ H1 S0) as S1.
  split; [exact S1|]. split; [exact (P4 _ _ _ _ _ _ H2 S1)|].
  split; [exact (P1 _ _ _ _ _ [] H1 eq_refl)|].
  split.
  - destruct (P2 _ _ _ _ _ _ [mk_point 0 0 UNCOMPRESSED 0 [] 0 0] H2
                ltac:(vm_compute; reflexivity)) as [Q|Q].
    + left. rewrite Q. vm_compute. reflexivity.
    + right. exact Q.
  - apply (P5 s (after (file_read 10 false 2 s))); [|exact S0].
    apply (reach_step s s _ (reach_refl s)).
    apply (step_read 10 false 2 s (2, [x68; x69])).
    exact (run_eq (file_read 10 false 2 s) (2, [x68; x69])
             ltac:(vm_compute; reflexivity)).
Defined.

(** ** End of file *)

(** C10.  [file_eof] is true exactly when the internal eof flag is set and
    both the input and the output buffer are empty; it is false as long as
    bytes remain in either buffer.  The flag is what a zero-length read
    leaves behind: a successful [buf_read] sets it exactly when the fd
    returned no bytes (the raw position did not move), and leaves it as it
    was otherwise. *)
Theorem C10_file_eof_flag_and_empty_buffers {E : Env} :
  (forall file,
      file_eof file = true <->
      eof file = true /\ avail (in_ file) = 0 /\ avail (out file) = 0) /\
  (forall file, avail (out file) <> 0 -> file_eof file = false) /\
  (forall file, avail (in_ file) <> 0 -> file_eof file = false) /\
  (forall w s s',
      buf_read w s = Done tt s' ->
      eof s' = (eof s || (raw_pos s' - raw_pos s =? 0))).
Proof.
  split; [|split; [|split]].
  - intros file. unfold file_eof. rewrite !andb_true_iff, !Z.eqb_eq. tauto.
  - intros file H. unfold file_eof. apply Z.eqb_neq in H. rewrite H.
    apply andb_false_r.
  - intros file H. unfold file_eof. apply Z.eqb_neq in H. rewrite H.
    rewrite andb_false_r. reflexivity.
  - intros w s s' H. unfold buf_read in H.
    destruct (ws_read _ _) as [[data|e] fd']; [|discriminate].
    injection H as <-.
    destruct (Z.of_nat (length data) =? 0) eqn:Hz;
      destruct w; cbn;
      replace (raw_pos s + Z.of_nat (length data) - raw_pos s)
        with (Z.of_nat (length data)) by lia;
      rewrite Hz; [rewrite orb_true_r| rewrite orb_true_r
                  | rewrite orb_false_r | rewrite orb_false_r]; reflexivity.
Qed.

Lemma C10_file_eof_flag_and_empty_buffers_witness :
  let s := sim_reader sim_abcde in
  let s1 := after (file_read 10 false 3 s) in
  let s2 := after (file_read 10 false 9 s) in
  let s3 := after (buf_read Out_buf s1) in
  file_eof s1 = false /\
  file_eof s2 = true /\
  (eof s2 = true /\ avail (in_ s2) = 0 /\ avail (out s2) = 0) /\
  eof s3 = (eof s1 || (raw_pos s3 - raw_pos s1 =? 0)).
Proof.
  intros s s1 s2 s3. subst s1 s2 s3.
  destruct (@C10_file_eof_flag_and_empty_buffers sim_env) as (P1 & P2 & P3 & P4).
  split; [apply P2; vm_compute; discriminate|].
  assert (H2 : file_eof (after (file_read 10 false 9 s)) = true)
    by (apply P1; vm_compute; repeat split; reflexivity).
  split; [exact H2|]. split; [apply P1; exact H2|].
  apply (P4 Out_buf).
  exact (run_eq (buf_read Out_buf (after (file_read 10 false 3 s))) tt
           ltac:(vm_compute; reflexivity)).
Defined.

(** ** Seek *)

Lemma file_seek_cur_in_buffer {E : Env} (s : wtap_reader) (delta : Z) :
  out_cursor_ok s ->
  - offset_in_buffer (out s) <= delta < avail (out s) ->
  exists s',
    file_seek_cur delta s = Done (pos s + delta, None) s' /\
    pos s' = pos s + delta /\
    next (out s') = next (out s) + delta /\
    avail (out s') = avail (out s) - delta /\
    seek_pending s' = false /\
    only_cursor_moved s s'.
Proof.
  intros (Hn & Ha & Hsum) Hd.
  unfold offset_in_buffer in Hd. rewrite guint_small in Hd by lia.
  unfold file_seek_cur, bind, modify, get, ret. cbv beta zeta.
  cbn [pos out set_seek_pending].
  destruct (delta =? 0) eqn:H0.
  - apply Z.eqb_eq in H0. subst delta. eexists. split; [rewrite Z.add_0_r; reflexivity|].
    unfold only_cursor_moved. cbn. repeat split; lia.
  - apply Z.eqb_neq in H0. destruct (delta <? 0) eqn:Hneg.
    + apply Z.ltb_lt in Hneg. unfold offset_in_buffer. cbn [out set_seek_pending].
      rewrite (guint_small (next (out s))) by lia.
      destruct (- delta <=? next (out s)) eqn:Hle; [|apply Z.leb_gt in Hle; lia].
      rewrite (guint_small (- delta)) by lia.
      eexists. split; [cbn; f_equal; f_equal; lia|].
      unfold only_cursor_moved. cbn. rewrite guint_small by lia. repeat split; lia.
    + apply Z.ltb_ge in Hneg. cbn [out set_seek_pending].
      destruct (delta <? avail (out s)) eqn:Hlt; [|apply Z.ltb_ge in Hlt; lia].
      eexists. split; [cbn; reflexivity|].
      unfold only_cursor_moved. cbn. rewrite (guint_small delta) by lia.
      rewrite guint_small by lia. repeat split; lia.
Qed.

(** C6 (as amended).  For a SEEK_SET or SEEK_CUR call whose offset,
    normalised to a displacement [delta] from [file->pos] (a pending skip
    folded in), lies within [-offset_in_buffer(out), +out.avail), the seek
    is satisfied inside the output buffer: it returns [pos + delta], moves
    [out.next], [out.avail] and [pos] by [delta], clears [seek_pending],
    and leaves every other field as it was: the fd is neither read nor
    repositioned, and raw_pos, eof, err, the input buffer, the decoder
    state and the fast-seek array are unchanged. *)
Theorem C6_seek_within_output_buffer {E : Env}
    (fuel : nat) (s : wtap_reader) (offset : Z) (whence : whence_t) :
  whence <> SEEK_END ->
  out_cursor_ok s ->
  - offset_in_buffer (out s) <= seek_delta s offset whence < avail (out s) ->
  exists s',
    file_seek fuel offset whence s
    = Done (pos s + seek_delta s offset whence, None) s' /\
    pos s' = pos s + seek_delta s offset whence /\
    next (out s') = next (out s) + seek_delta s offset whence /\
    avail (out s') = avail (out s) - seek_delta s offset whence /\
    seek_pending s' = false /\
    only_cursor_moved s s'.
Proof.
  intros Hw Hok Hd.
  destruct whence; [| |contradiction]; unfold file_seek, bind, get; cbn [seek_delta] in *;
    apply file_seek_cur_in_buffer; assumption.
Qed.

(** ** Skipping and reading *)

Lemma slice_length (l : list byte) (off n : Z) : length (slice l off n) = Z.to_nat n.
Proof.
  unfold slice. rewrite length_firstn, length_app, repeat_length. lia.
Qed.

Lemma byte_val_range (b : byte) : 0 <= byte_val b < 256.
Proof. destruct b; cbv; split; congruence. Qed.

Lemma byte_at_nonneg (l : list byte) (i : Z) : 0 <= byte_at l i.
Proof. unfold byte_at. apply byte_val_range. Qed.

Section Reading.

Context {E : Env}.

Lemma fill_out_buffer_Done (fuel : nat) (s s' : wtap_reader) (u : unit) :
  fill_out_buffer fuel s = Done u s' -> fill_rel s s'.
Proof.
  intros H. pose proof (fill_out_buffer_fill fuel s) as P.
  unfold keeps in P. rewrite H in P. exact P.
Qed.

Lemma fill_out_buffer_Fail (fuel : nat) (s s' : wtap_reader) :
  fill_out_buffer fuel s = Fail s' -> fill_rel s s'.
Proof.
  intros H. pose proof (fill_out_buffer_fill fuel s) as P.
  unfold keeps in P. rewrite H in P. exact P.
Qed.

Lemma out_ok_consume (n : Z) (s : wtap_reader) : out_ok (consume n s).
Proof. unfold out_ok, consume, buf_advance. cbn. apply guint_range. Qed.

(** The reader is at the end of the stream with nothing buffered and no
    error: a skip or a read stops here. *)
Definition drained (s : wtap_reader) : Prop :=
  avail (out s) = 0 /\ err s = 0 /\ eof s = true /\ avail (in_ s) = 0.

(** gz_skip returns 0 after skipping [len] bytes, or after fewer when the
    stream ended first. *)
Lemma gz_skip_spec (fuel : nat) :
  forall len s s',
    gz_skip fuel len s = Done tt s' ->
    out_ok s -> 0 <= len ->
    seek_pending s' = seek_pending s /\ skip s' = skip s /\ out_ok s' /\
    (pos s' = pos s + len \/ (pos s <= pos s' < pos s + len /\ drained s')).
Proof.
  induction fuel as [|fuel IH]; intros len s s' H Hok Hlen; [discriminate|].
  cbn [gz_skip] in H.
  destruct (len =? 0) eqn:H0.
  - injection H as <-. apply Z.eqb_eq in H0. subst len.
    split; [|split; [|split]]; auto. left; lia.
  - apply Z.eqb_neq in H0. unfold bind at 1, get in H. cbv beta in H.
    destruct (negb (avail (out s) =? 0)) eqn:Hav.
    + apply negb_true_iff, Z.eqb_neq in Hav. unfold out_ok in Hok.
      set (n := if len <? avail (out s) then guint len else avail (out s)) in *.
      assert (Hn : 0 < n <= len).
      { subst n. destruct (len <? avail (out s)) eqn:Hlt.
        - apply Z.ltb_lt in Hlt. rewrite guint_small by lia. lia.
        - apply Z.ltb_ge in Hlt. lia. }
      unfold bind, modify in H.
      apply IH in H; [|apply out_ok_consume|lia].
      destruct H as (H1 & H2 & H3 & H4). cbn in H1, H2, H4.
      split; [|split; [|split]]; auto.
      destruct H4 as [H4|[H4 H5]]; [left|right; split; auto]; lia.
    + apply negb_false_iff, Z.eqb_eq in Hav.
      destruct (negb (err s =? 0)) eqn:Herr; [discriminate|].
      apply negb_false_iff, Z.eqb_eq in Herr.
      destruct (eof s && (avail (in_ s) =? 0)) eqn:Heof.
      * injection H as <-. apply andb_prop in Heof as [He Hi]. apply Z.eqb_eq in Hi.
        split; [|split; [|split]]; auto.
        right. unfold drained. repeat split; auto; lia.
      * unfold bind in H.
        destruct (fill_out_buffer fuel s) as [[] s1|s1|] eqn:Hfill; try discriminate.
        apply fill_out_buffer_Done in Hfill.
        destruct Hfill as (F1 & F2 & F3 & _ & _ & _ & F7 & _).
        apply IH in H; [|auto|lia].
        destruct H as (H1 & H2 & H3 & H4). rewrite F1 in H4.
        split; [|split; [|split]]; auto; congruence.
Qed.

(** The loop of file_read: [g] is the final value of [got].  [Q] is any
    property of a reader with a recorded error that a failed
    fill_out_buffer establishes. *)
Lemma file_read_loop_spec (Q : wtap_reader -> Prop) :
  (forall fuel s s', fill_out_buffer fuel s = Fail s' -> Q s') ->
  (forall s, err s <> 0 -> Q s) ->
  forall fuel buf_null len got copied s r data s',
    file_read_loop fuel buf_null len got copied s = Done (r, data) s' ->
    out_ok s -> 0 <= got -> 0 < len -> got + len < 2 ^ 32 ->
    seek_pending s' = seek_pending s /\ skip s' = skip s /\ out_ok s' /\
    exists g,
      got <= g <= got + len /\
      pos s' = pos s + (g - got) /\
      (buf_null = false ->
       Z.of_nat (length data) = Z.of_nat (length copied) + (g - got)) /\
      (r = to_int g \/ (r = -1 /\ Q s')).
Proof.
  intros HQfill HQerr.
  induction fuel as [|fuel IH];
    intros buf_null len got copied s r data s' H Hok Hgot Hlen Hsum; [discriminate|].
  cbn [file_read_loop] in H. unfold bind at 1, get in H. cbv beta in H.
  destruct (negb (avail (out s) =? 0)) eqn:Hav.
  - apply negb_true_iff, Z.eqb_neq in Hav. unfold out_ok in Hok.
    set (n := if len <? avail (out s) then len else avail (out s)) in *.
    assert (Hn : 0 < n <= len).
    { subst n. destruct (len <? avail (out s)) eqn:Hlt.
      - lia.
      - apply Z.ltb_ge in Hlt. lia. }
    cbv zeta in H. unfold bind, modify in H.
    rewrite (guint_small (len - n)) in H by lia.
    rewrite (guint_small (got + n)) in H by lia.
    assert (Hcopy : Z.of_nat (length (copied ++ slice (buf (out s)) (next (out s)) n))
                    = Z.of_nat (length copied) + n).
    { rewrite length_app, slice_length. lia. }
    destruct (negb (len - n =? 0)) eqn:Hrest.
    + apply negb_true_iff, Z.eqb_neq in Hrest.
      apply IH in H; [|apply out_ok_consume|lia|lia|lia].
      destruct H as (H1 & H2 & H3 & g & Hg & Hpos & Hdata & Hr).
      cbn in H1, H2, Hpos.
      split; [exact H1|]. split; [exact H2|]. split; [exact H3|].
      exists g. split; [lia|]. split; [lia|]. split; [|exact Hr].
      intros Hb. specialize (Hdata Hb). rewrite Hb in Hdata. lia.
    + injection H as <- <- <-.
      split; [reflexivity|]. split; [reflexivity|]. split; [apply out_ok_consume|].
      exists (got + n). split; [lia|]. split; [cbn; lia|]. split; [|left; reflexivity].
      intros Hb. rewrite Hb. lia.
  - apply negb_false_iff, Z.eqb_eq in Hav.
    assert (Hsame : forall rr, rr = to_int got \/ (rr = -1 /\ Q s) ->
              seek_pending s = seek_pending s /\ skip s = skip s /\ out_ok s /\
              exists g,
                got <= g <= got + len /\
                pos s = pos s + (g - got) /\
                (buf_null = false ->
                 Z.of_nat (length copied) = Z.of_nat (length copied) + (g - got)) /\
                (rr = to_int g \/ (rr = -1 /\ Q s))).
    { intros rr Hrr. split; [reflexivity|]. split; [reflexivity|]. split; [exact Hok|].
      exists got. split; [lia|]. split; [lia|]. split; [intros _; lia|exact Hrr]. }
    destruct (negb (err s =? 0)) eqn:Herr.
    + injection H as <- <- <-. apply negb_true_iff, Z.eqb_neq in Herr.
      apply Hsame. right. auto.
    + destruct (eof s && (avail (in_ s) =? 0)) eqn:Heof.
      * injection H as <- <- <-. apply Hsame. left. reflexivity.
      * unfold bind, attempt in H.
        destruct (fill_out_buffer fuel s) as [[] s1|s1|] eqn:Hfill; try discriminate.
        -- apply fill_out_buffer_Done in Hfill.
           destruct Hfill as (F1 & F2 & F3 & _ & _ & _ & F7 & _).
           destruct (negb (len =? 0)) eqn:Hl.
           ++ apply IH in H; auto.
              destruct H as (H1 & H2 & H3 & g & Hg & Hpos & Hdata & Hr).
              split; [congruence|]. split; [congruence|]. split; [exact H3|].
              exists g. split; [lia|]. split; [lia|]. split; [exact Hdata|exact Hr].
           ++ apply negb_false_iff, Z.eqb_eq in Hl. lia.
        -- injection H as <- <- <-. pose proof (HQfill _ _ _ Hfill) as HQ.
           apply fill_out_buffer_Fail in Hfill.
           destruct Hfill as (F1 & F2 & F3 & _ & _ & _ & F7 & _).
           split; [exact F3|]. split; [exact F2|]. split; [auto|].
           exists got. split; [lia|]. split; [lia|]. split; [intros _; lia|].
           right. auto.
Qed.

(** On a drained reader the loop of file_read returns at once. *)
Lemma file_read_loop_drained (fuel : nat) (buf_null : bool) (len got : Z)
    (copied : list byte) (s : wtap_reader) :
  drained s ->
  file_read_loop (S fuel) buf_null len got copied s = Done (to_int got, copied) s.
Proof.
  intros (Ha & He & Hf & Hi). cbn [file_read_loop]. unfold bind, get.
  rewrite Ha, He, Hf, Hi. reflexivity.
Qed.

(** The loop of file_peekc returns -1, or the byte at the cursor of a
    non-empty output buffer. *)
Lemma file_peekc_loop_spec (fuel : nat) :
  forall s b s',
    file_peekc_loop fuel s = Done b s' ->
    pos s' = pos s /\ skip s' = skip s /\ seek_pending s' = seek_pending s /\
    (b = -1 \/ (avail (out s') <> 0 /\ b = byte_at (buf (out s')) (next (out s')))).
Proof.
  induction fuel as [|fuel IH]; intros s b s' H; [discriminate|].
  cbn [file_peekc_loop] in H. unfold bind at 1, get in H. cbv beta in H.
  destruct (negb (avail (out s) =? 0)) eqn:Hav.
  - injection H as <- <-. apply negb_true_iff, Z.eqb_neq in Hav. intuition auto.
  - destruct (negb (err s =? 0)); [injection H as <- <-; intuition auto|].
    destruct (eof s && (avail (in_ s) =? 0)); [injection H as <- <-; intuition auto|].
    unfold bind, attempt in H.
    destruct (fill_out_buffer fuel s) as [[] s1|s1|] eqn:Hfill; try discriminate.
    + apply fill_out_buffer_Done in Hfill.
      destruct Hfill as (F1 & F2 & F3 & _).
      apply IH in H. destruct H as (H1 & H2 & H3 & H4).
      split; [congruence|]. split; [congruence|]. split; [congruence|exact H4].
    + injection H as <- <-. apply fill_out_buffer_Fail in Hfill.
      destruct Hfill as (F1 & F2 & F3 & _). intuition auto.
Qed.

Lemma file_peekc_loop_drained (fuel : nat) (s : wtap_reader) :
  drained s -> file_peekc_loop (S fuel) s = Done (-1) s.
Proof.
  intros (Ha & He & Hf & Hi). cbn [file_peekc_loop]. unfold bind, get.
  rewrite Ha, He, Hf, Hi. reflexivity.
Qed.

End Reading.

(** ** file_tell across file_read *)

(** C2 (as amended).  For a file_read that returns a count [r >= 0]:
    when no deferred skip is pending at the call, the value of file_tell
    before the call plus [r] equals the value of file_tell after it.  With
    a deferred skip pending the same holds, except when the stream ends
    inside the range to be skipped: then the read returns 0, the reader is
    at end of file, and file_tell after the call is the end-of-stream
    position, below the value of file_tell before the call. *)
Theorem C2_tell_advances_by_bytes_read {E : Env}
    (fuel : nat) (buf_null : bool) (len : Z) (s : wtap_reader)
    (r : Z) (data : list byte) (s' : wtap_reader) :
  out_ok s ->
  0 <= len < 2 ^ 32 ->
  (seek_pending s = true -> 0 <= skip s) ->
  file_read fuel buf_null len s = Done (r, data) s' ->
  0 <= r ->
  (seek_pending s = false -> file_tell s' = file_tell s + r) /\
  (file_tell s' = file_tell s + r \/
   (seek_pending s = true /\ r = 0 /\ file_eof s' = true /\ file_tell s' < file_tell s)).
Proof.
  intros Hok Hlen Hskip H Hr.
  assert (Hloop : forall s2,
             out_ok s2 -> seek_pending s2 = false ->
             file_read_loop fuel buf_null len 0 [] s2 = Done (r, data) s' ->
             len <> 0 ->
             file_tell s' = pos s2 + r).
  { intros s2 Hok2 Hp2 Hl Hne.
    apply (file_read_loop_spec (fun _ => True)) in Hl; auto; try lia.
    destruct Hl as (H1 & H2 & H3 & g & Hg & Hpos & _ & Hres).
    unfold file_tell. rewrite H1, Hp2, Hpos.
    destruct Hres as [->|[-> _]]; [|lia].
    rewrite to_int_nonneg; [lia|lia|exact Hr]. }
  unfold file_read in H.
  destruct (len =? 0) eqn:H0.
  - injection H as <- <- <-. split; [intros _; lia|left; lia].
  - apply Z.eqb_neq in H0. unfold bind at 1, process_skip in H.
    unfold bind at 1, get in H. cbv beta in H.
    destruct (seek_pending s) eqn:Hp.
    + unfold bind, modify, attempt in H.
      destruct (gz_skip fuel (skip s) (set_seek_pending false s)) as [[] s2|s2|] eqn:Hsk;
        try discriminate.
      2:{ injection H as <- <- <-. lia. }
      apply gz_skip_spec in Hsk; [|exact Hok|auto].
      destruct Hsk as (S1 & S2 & S3 & S4). cbn in S1, S2, S4.
      split; [discriminate|].
      destruct S4 as [S4|[S4 S5]].
      * left. rewrite (Hloop s2 S3 S1 H H0). unfold file_tell. rewrite Hp. lia.
      * right. destruct fuel as [|fuel]; [discriminate|].
        rewrite (file_read_loop_drained fuel buf_null len 0 [] s2 S5) in H.
        injection H as <- <- <-. destruct S5 as (D1 & D2 & D3 & D4).
        split; [reflexivity|]. split; [reflexivity|].
        split; [unfold file_eof; rewrite D1, D3, D4; reflexivity|].
        unfold file_tell. rewrite S1, Hp. lia.
    + unfold bind, ret in H.
      pose proof (Hloop s Hok Hp H H0) as Ht.
      assert (file_tell s' = file_tell s + r)
        by (rewrite Ht; unfold file_tell; rewrite Hp; lia).
      split; [intros _; assumption|left; assumption].
Qed.

Lemma C2_tell_advances_by_bytes_read_witness :
  let s := sim_reader sim_abcde in
  let s' := after (file_read 10 false 3 s) in
  (seek_pending s = false -> file_tell s' = file_tell s + 3) /\
  (file_tell s' = file_tell s + 3 \/
   (seek_pending s = true /\ 3 = 0 /\ file_eof s' = true /\ file_tell s' < file_tell s)).
Proof.
  intros s s'. subst s'.
  apply (C2_tell_advances_by_bytes_read 10 false 3 s 3 [x41; x42; x43]
           (after (file_read 10 false 3 s))).
  - vm_compute. split; congruence.
  - lia.
  - vm_compute. discriminate.
  - exact (run_eq (file_read 10 false 3 s) (3, [x41; x42; x43])
             ltac:(vm_compute; reflexivity)).
  - lia.
Defined.

(** The claim C2 as stated fails after a seek past the end of the file:
    on the five-byte file "ABCDE", after [file_seek(10, SEEK_SET)] the
    value of file_tell is 10; the next [file_read] of one byte returns 0,
    and file_tell is then 5. *)
Lemma C2_counterexample_skip_past_eof :
  let s0 := sim_reader sim_abcde in
  let s := after (file_seek 10 10 SEEK_SET s0) in
  let s' := after (file_read 10 false 1 s) in
  value (file_seek 10 10 SEEK_SET s0) = Some (10, None) /\
  seek_pending s = true /\
  file_tell s = 10 /\
  value (file_read 10 false 1 s) = Some (0, []) /\
  file_tell s' = 5 /\
  file_tell s + 0 <> file_tell s'.
Proof. vm_compute. repeat split; congruence. Qed.

Lemma C6_seek_within_output_buffer_witness :
  let s := after (file_read 10 false 3 (sim_reader sim_abcde)) in
  exists s',
    file_seek 10 1 SEEK_SET s = Done (pos s + seek_delta s 1 SEEK_SET, None) s' /\
    pos s' = pos s + seek_delta s 1 SEEK_SET /\
    next (out s') = next (out s) + seek_delta s 1 SEEK_SET /\
    avail (out s') = avail (out s) - seek_delta s 1 SEEK_SET /\
    seek_pending s' = false /\
    only_cursor_moved s s'.
Proof.
  intros s.
  apply (C6_seek_within_output_buffer 10 s 1 SEEK_SET).
  - discriminate.
  - vm_compute. repeat split; congruence.
  - vm_compute. split; congruence.
Defined.

(** The claim C6 as stated fails for SEEK_END.  On the file "ABCDE", after
    three bytes were read the output buffer holds the whole file
    ([offset_in_buffer = 3], [out.avail = 2]) and the target of
    [file_seek(-1, SEEK_END)], position 4, lies inside it: one byte after
    the current position 3, one byte before the end of the buffered data.
    The call returns 4, yet it has read the fd once more (to find the end
    of the file) and has set the eof flag. *)
Lemma C6_counterexample_seek_end_reads_fd :
  let s := after (file_read 10 false 3 (sim_reader sim_abcde)) in
  let s' := after (file_seek 10 (-1) SEEK_END s) in
  value (file_seek 10 (-1) SEEK_END s) = Some (4, None) /\
  pos s = 3 /\ seek_pending s = false /\
  - offset_in_buffer (out s) <= 4 - pos s < avail (out s) /\
  - offset_in_buffer (out s) <= -1 /\
  sim_reads (fd s) = 1%nat /\ sim_reads (fd s') = 2%nat /\
  eof s = false /\ eof s' = true /\
  fd s' <> fd s /\ eof s' <> eof s.
Proof. vm_compute. repeat split; congruence. Qed.

(** ** The result of file_seek and the file_tell that follows *)

Section Post.

Context {E : Env} {A : Type} (Q : A -> wtap_reader -> Prop).

Lemma post_ret (a : A) (s : wtap_reader) : Q a s -> post Q (ret a) s.
Proof. intros H. exact H. Qed.

Lemma post_stuck (s : wtap_reader) : post Q stuck s.
Proof. exact I. Qed.

Lemma post_bind_get (k : wtap_reader -> M A) (s : wtap_reader) :
  post Q (k s) s -> post Q (bind get k) s.
Proof. intros H. exact H. Qed.

Lemma post_bind_modify (g : wtap_reader -> wtap_reader) (k : unit -> M A)
    (s : wtap_reader) :
  post Q (k tt) (g s) -> post Q (bind (modify g) k) s.
Proof. intros H. exact H. Qed.

Lemma post_bind_ret {B} (b : B) (k : B -> M A) (s : wtap_reader) :
  post Q (k b) s -> post Q (bind (ret b) k) s.
Proof. intros H. exact H. Qed.

Lemma post_bind_assoc {B C} (m : M B) (k : B -> M C) (h : C -> M A) (s : wtap_reader) :
  post Q (bind m (fun b => bind (k b) h)) s -> post Q (bind (bind m k) h) s.
Proof. unfold post, bind. destruct (m s); auto. Qed.

Lemma post_bind_call {B} (R : wtap_reader -> wtap_reader -> Prop) (m : M B)
    (k : B -> M A) (s : wtap_reader) :
  mpres R m ->
  (forall b s', R s s' -> post Q (k b) s') ->
  post Q (bind m k) s.
Proof.
  intros Hm Hk. specialize (Hm s). unfold keeps in Hm. unfold post, bind.
  destruct (m s) as [b s'| |]; [|exact I|exact I]. apply Hk, Hm.
Qed.

Lemma post_bind_attempt {B} (R : wtap_reader -> wtap_reader -> Prop) (m : M B)
    (k : option B -> M A) (s : wtap_reader) :
  mpres R m ->
  (forall b s', R s s' -> post Q (k b) s') ->
  post Q (bind (attempt m) k) s.
Proof.
  intros Hm Hk. specialize (Hm s). unfold keeps in Hm. unfold post, bind, attempt.
  destruct (m s) as [b s'|s'|]; [apply (Hk (Some b)), Hm|apply (Hk None), Hm|exact I].
Qed.

End Post.

Section Pending.

Context {E : Env}.

Lemma pend_rel_refl (s : wtap_reader) : pend_rel s s.
Proof. split; reflexivity. Qed.

Lemma pend_rel_trans (a b c : wtap_reader) : pend_rel a b -> pend_rel b c -> pend_rel a c.
Proof. unfold pend_rel. intros [H1 H2] [G1 G2]. split; congruence. Qed.

Lemma fill_rel_pend (s s' : wtap_reader) : fill_rel s s' -> pend_rel s s'.
Proof. unfold fill_rel, pend_rel. tauto. Qed.

Lemma mpres_fill_pend {A} (m : M A) : mpres fill_rel m -> mpres pend_rel m.
Proof.
  intros H s. specialize (H s). unfold keeps in *.
  destruct (m s); auto using fill_rel_pend.
Qed.

End Pending.

Ltac pend_step := unfold pend_rel, consume; cbn; split; reflexivity.

Ltac pend_known :=
  first [ solve [auto with pend_db] | solve [apply mpres_fill_pend; auto with fill_db] ].

Ltac pend_go :=
  repeat (keeps_one (@pend_rel_trans _) ltac:(fun _ => pend_step) ltac:(fun _ => pend_known)).

(** Booleans of the tests met on the way, as facts. *)
Ltac tests_to_facts :=
  repeat match goal with
    | H : negb _ = true |- _ => apply negb_true_iff in H
    | H : negb _ = false |- _ => apply negb_false_iff in H
    | H : (_ =? _) = true |- _ => apply Z.eqb_eq in H
    | H : (_ =? _) = false |- _ => apply Z.eqb_neq in H
    end.

(** The end of a run: the facts on the deferred skip decide file_tell. *)
Ltac seek_done :=
  unfold seek_ok, file_tell, pend_rel, consume in *; cbn in *; intros;
  repeat match goal with H : _ /\ _ |- _ => destruct H end;
  tests_to_facts;
  repeat match goal with
    | H : seek_pending ?s = _ |- context [seek_pending ?s] => rewrite H
    | H : skip ?s = _ |- context [skip ?s] => rewrite H
    end;
  cbn; try lia.

Ltac post_one known :=
  cbv beta zeta; cbn [fst snd];
  lazymatch goal with
  | |- post _ stuck _ => apply post_stuck
  | |- post _ (bind get _) _ => apply post_bind_get
  | |- post _ (bind (ret _) _) _ => apply post_bind_ret
  | |- post _ (bind (bind _ _) _) _ => apply post_bind_assoc
  | |- post _ (bind (if ?c then _ else _) _) _ => destruct c eqn:?
  | |- post _ (bind (match ?x with _ => _ end) _) _ => destruct x eqn:?
  | |- post _ (if ?c then _ else _) _ => destruct c eqn:?
  | |- post _ (match ?x with _ => _ end) _ => destruct x eqn:?
  | |- post _ (ret _) _ => apply post_ret; solve [seek_done]
  | |- post _ (bind (modify _) _) _ => apply post_bind_modify
  | |- post _ (bind (attempt _) _) _ =>
      apply (post_bind_attempt _ pend_rel); [ solve [pend_known] | intros ? ? ? ]
  | |- post _ (bind _ _) _ =>
      apply (post_bind_call _ pend_rel); [ solve [pend_known] | intros ? ? ? ]
  | |- post _ _ _ => solve [known tt]
  end.

Ltac post_go known := repeat (post_one known).

Create HintDb pend_db.

Section SeekTell.

Context {E : Env}.

#[local] Hint Resolve fill_in_buffer_fill fast_seek_reset_fill GZ_GETC_fill
  fill_out_buffer_fill : fill_db.

Lemma pend_attempt {A} (m : M A) : mpres pend_rel m -> mpres pend_rel (attempt m).
Proof. apply mpres_attempt. Qed.

Lemma gz_skip_pend (fuel : nat) : forall len, mpres pend_rel (gz_skip fuel len).
Proof.
  induction fuel as [|fuel IH]; intros;
    (apply mpres_intro; [apply pend_rel_refl|]; intros ? ?); cbn [gz_skip]; pend_go.
Qed.

#[local] Hint Resolve gz_skip_pend : pend_db.

Lemma file_seek_fast_tell (here : fast_seek_point) (offset : Z) (s : wtap_reader) :
  post seek_ok (file_seek_fast here offset) s.
Proof. unfold file_seek_fast. post_go ltac:(fun _ => fail). Qed.

Lemma file_seek_slow_tell (offset : Z) (s : wtap_reader) :
  seek_pending s = false ->
  post seek_ok (file_seek_slow offset) s.
Proof. intros Hsp. unfold file_seek_slow. post_go ltac:(fun _ => fail). Qed.

Lemma file_seek_cur_tell (offset : Z) (s : wtap_reader) :
  post seek_ok (file_seek_cur offset) s.
Proof.
  unfold file_seek_cur.
  post_go ltac:(fun _ =>
    first [ apply file_seek_fast_tell | apply file_seek_slow_tell; reflexivity ]).
Qed.

(** file_seek returns the position that file_tell then reports, on every
    path but one: [SEEK_END] with offset 0 while a deferred skip of a
    non-zero number of bytes is pending. *)
Lemma file_seek_returns_tell (fuel : nat) (offset : Z) (whence : whence_t)
    (s : wtap_reader) (r : Z) (e : option Z) (s' : wtap_reader) :
  (whence = SEEK_END -> offset = 0 -> seek_pending s = false \/ skip s = 0) ->
  file_seek fuel offset whence s = Done (r, e) s' ->
  0 <= r ->
  file_tell s' = r.
Proof.
  intros Hend H Hr.
  assert (P : post seek_ok (file_seek fuel offset whence) s).
  { unfold file_seek. destruct whence.
    - post_go ltac:(fun _ => apply file_seek_cur_tell).
    - post_go ltac:(fun _ => apply file_seek_cur_tell).
    - specialize (Hend eq_refl).
      post_go ltac:(fun _ => apply file_seek_cur_tell).
      apply post_ret. apply Z.eqb_eq in Heqb0.
      destruct (Hend Heqb0) as [Hp|Hs]; seek_done; destruct (seek_pending s); lia. }
  unfold post in P. rewrite H in P. apply P. exact Hr.
Qed.

End SeekTell.

(** C7, at the input on which the code departs from it.  On the file
    "ABCDE", [file_seek(10, SEEK_SET)] leaves a deferred skip of 10
    pending; [file_seek(0, SEEK_END)] then skips to the end of the file
    and returns 5 from the early "We are done" return, which is taken
    before [seek_pending] is cleared: the file_tell that follows returns
    5 + 10 = 15, not the 5 that the seek returned. *)
Theorem C7_seek_end_leaves_skip_pending :
  let s0 := sim_reader sim_abcde in
  let s1 := after (file_seek 10 10 SEEK_SET s0) in
  let s2 := after (file_seek 10 0 SEEK_END s1) in
  value (file_seek 10 10 SEEK_SET s0) = Some (10, None) /\
  file_tell s1 = 10 /\
  value (file_seek 10 0 SEEK_END s1) = Some (5, None) /\
  seek_pending s2 = true /\ skip s2 = 10 /\ pos s2 = 5 /\
  file_tell s2 = 15.
Proof. vm_compute. repeat split; reflexivity. Qed.

(** ** Peek, then get *)

(** file_getc on a reader whose output buffer is not empty. *)
Lemma file_getc_buffered {E : Env} (fuel : nat) (s : wtap_reader) :
  avail (out s) <> 0 ->
  (err s = 0 ->
   exists s', file_getc fuel s = Done (byte_at (buf (out s)) (next (out s))) s' /\
              file_tell s' = file_tell s + 1) /\
  (err s <> 0 -> file_getc fuel s = Done (-1) s).
Proof.
  intros Hav. unfold file_getc, bind, get, modify, ret. split.
  - intros He. rewrite He. cbn [Z.eqb negb].
    apply Z.eqb_neq in Hav. rewrite Hav. cbn [negb].
    eexists. split; [reflexivity|]. unfold file_tell. cbn.
    destruct (seek_pending s); lia.
  - intros He. apply Z.eqb_neq in He. rewrite He. reflexivity.
Qed.

(** C9 (as amended).  When file_peekc returns a byte [b >= 0], the peek
    leaves the caller-visible position unchanged: file_tell returns the
    same value before and after it.  If no error is recorded on the reader
    after the peek, an immediately following file_getc returns the same
    byte [b] and advances file_tell by exactly one.  If the fill done by
    the peek recorded an error (the deferred trailer check, or an input
    that ends inside a deflate stream), the following file_getc fails
    fast: it returns -1 and leaves the reader as it is. *)
Theorem C9_peek_then_get {E : Env}
    (fuel fuel' : nat) (s : wtap_reader) (b : Z) (s1 : wtap_reader) :
  out_ok s ->
  (seek_pending s = true -> 0 <= skip s) ->
  file_peekc fuel s = Done b s1 ->
  0 <= b ->
  file_tell s1 = file_tell s /\
  (err s1 = 0 ->
   exists s2, file_getc fuel' s1 = Done b s2 /\ file_tell s2 = file_tell s1 + 1) /\
  (err s1 <> 0 -> file_getc fuel' s1 = Done (-1) s1).
Proof.
  intros Hok Hskip H Hb.
  assert (Hget : avail (out s1) <> 0 -> b = byte_at (buf (out s1)) (next (out s1)) ->
                 (err s1 = 0 ->
                  exists s2, file_getc fuel' s1 = Done b s2 /\
                             file_tell s2 = file_tell s1 + 1) /\
                 (err s1 <> 0 -> file_getc fuel' s1 = Done (-1) s1)).
  { intros Hav ->. apply file_getc_buffered, Hav. }
  assert (Hloop : forall s2,
             file_peekc_loop fuel s2 = Done b s1 ->
             seek_pending s2 = false ->
             file_tell s1 = pos s2 /\
             avail (out s1) <> 0 /\ b = byte_at (buf (out s1)) (next (out s1))).
  { intros s2 Hl Hp. apply file_peekc_loop_spec in Hl.
    destruct Hl as (L1 & L2 & L3 & [L4|[L4 L5]]); [lia|].
    split; [|auto]. unfold file_tell. rewrite L3, Hp, L1. lia. }
  unfold file_peekc in H. unfold bind at 1, get in H. cbv beta in H.
  destruct (negb (err s =? 0)) eqn:He; [injection H as <- <-; lia|].
  destruct (negb (avail (out s) =? 0)) eqn:Hav.
  - injection H as <- <-. apply negb_true_iff, Z.eqb_neq in Hav.
    split; [reflexivity|]. apply Hget; auto.
  - unfold bind at 1, process_skip in H. unfold bind at 1, get in H. cbv beta in H.
    destruct (seek_pending s) eqn:Hp.
    + unfold bind, modify, attempt in H.
      destruct (gz_skip fuel (skip s) (set_seek_pending false s)) as [[] s2|s2|] eqn:Hsk;
        try discriminate.
      2:{ injection H as <- <-. lia. }
      apply gz_skip_spec in Hsk; [|exact Hok|auto].
      destruct Hsk as (S1 & S2 & S3 & S4). cbn in S1, S2, S4.
      destruct S4 as [S4|[S4 S5]].
      * destruct (Hloop s2 H S1) as (T1 & T2 & T3).
        split; [|apply Hget; auto].
        rewrite T1, S4. unfold file_tell. rewrite Hp. reflexivity.
      * destruct fuel as [|fuel]; [discriminate|].
        rewrite (file_peekc_loop_drained fuel s2 S5) in H.
        injection H as <- <-. lia.
    + unfold bind, ret in H. destruct (Hloop s H Hp) as (T1 & T2 & T3).
      split; [|apply Hget; auto].
      rewrite T1. unfold file_tell. rewrite Hp. lia.
Qed.

Lemma C9_peek_then_get_witness :
  let s := sim_reader sim_abcde in
  let s1 := after (file_peekc 10 s) in
  file_tell s1 = file_tell s /\
  (err s1 = 0 ->
   exists s2, file_getc 10 s1 = Done 65 s2 /\ file_tell s2 = file_tell s1 + 1) /\
  (err s1 <> 0 -> file_getc 10 s1 = Done (-1) s1).
Proof.
  intros s s1. subst s1.
  apply (C9_peek_then_get 10 10 s 65 (after (file_peekc 10 s))).
  - vm_compute. split; congruence.
  - vm_compute. discriminate.
  - exact (run_eq (file_peekc 10 s) 65 ltac:(vm_compute; reflexivity)).
  - lia.
Defined.

(** The claim C9 as stated fails when the fill done by the peek records a
    deferred error.  On a gzip member whose trailer CRC is wrong,
    file_peekc returns the first decoded byte, 'h' = 104, with the error
    already recorded; the file_getc that follows returns -1, and
    file_tell does not move. *)
Lemma C9_counterexample_deferred_error :
  let s := sim_reader (sim_gzip_hi xd2) in
  let s1 := after (file_peekc 10 s) in
  let s2 := after (file_getc 10 s1) in
  value (file_peekc 10 s) = Some 104 /\
  err s1 = WTAP_ERR_DECOMPRESS /\
  err_info s1 = Some "bad CRC"%string /\
  value (file_getc 10 s1) = Some (-1) /\
  value (file_getc 10 s1) <> Some 104 /\
  file_tell s2 = file_tell s1 /\
  file_tell s2 <> file_tell s1 + 1.
Proof. vm_compute. repeat split; congruence. Qed.

(** ** A return of -1 comes with a recorded error *)

Section FailsWith.

Context {E : Env}.

Lemma fw_fail {A} s : err s <> 0 -> fails_with (@fail _ A) s.
Proof. intros H; exact H. Qed.

Lemma fw_bind_fail {A B} (f : A -> M B) s : err s <> 0 -> fails_with (bind fail f) s.
Proof. intros H; exact H. Qed.

Lemma fw_bind_get {A} (f : wtap_reader -> M A) s :
  fails_with (f s) s -> fails_with (bind get f) s.
Proof. intros H; exact H. Qed.

Lemma fw_bind_modify {A} g (f : unit -> M A) s :
  fails_with (f tt) (g s) -> fails_with (bind (modify g) f) s.
Proof. intros H; exact H. Qed.

Lemma fw_bind_ret {A B} (a : A) (f : A -> M B) s :
  fails_with (f a) s -> fails_with (bind (ret a) f) s.
Proof. intros H; exact H. Qed.

Lemma fw_bind_assoc {A B C} (m : M A) (f : A -> M B) (g : B -> M C) s :
  fails_with (bind m (fun a => bind (f a) g)) s -> fails_with (bind (bind m f) g) s.
Proof. unfold fails_with, bind. destruct (m s); auto. Qed.

Lemma fw_call {A} (m : M A) s : mfails m -> fails_with m s.
Proof. intros H. apply H. Qed.

Lemma fw_bind_call {A B} (m : M A) (f : A -> M B) s :
  mfails m -> (forall a s', fails_with (f a) s') -> fails_with (bind m f) s.
Proof.
  intros Hm Hf. specialize (Hm s). unfold fails_with, bind in *.
  destruct (m s) as [a s'| s'|]; auto. apply Hf.
Qed.

Lemma fw_bind_attempt {A B} (m : M A) (f : option A -> M B) s :
  (forall a s', fails_with (f a) s') -> fails_with (bind (attempt m) f) s.
Proof.
  intros Hf. unfold fails_with, bind, attempt in *.
  destruct (m s) as [a s'| s'|]; auto; apply Hf.
Qed.

Lemma fw_attempt {A} (m : M A) s : fails_with (attempt m) s.
Proof. unfold fails_with, attempt. destruct (m s); exact I. Qed.

Lemma mfails_intro {A} (m : M A) : (forall s, fails_with m s) -> mfails m.
Proof. intros H; exact H. Qed.

End FailsWith.

Create HintDb fails_db.

(** Proves [err s <> 0] at a [fail]: the code was just stored, or was
    just tested. *)
Ltac fails_err :=
  cbn;
  first [ apply decompress_nz | apply short_read_nz | apply enomem_nz
        | match goal with
          | H : negb (err ?s =? 0) = true |- err ?s <> 0 =>
              apply negb_true_iff, Z.eqb_neq in H; exact H
          end ].

Ltac fails_one :=
  cbv beta zeta; cbn [fst snd];
  lazymatch goal with
  | |- fails_with (bind get _) _ => apply fw_bind_get
  | |- fails_with (bind (ret _) _) _ => apply fw_bind_ret
  | |- fails_with (bind (bind _ _) _) _ => apply fw_bind_assoc
  | |- fails_with (bind (modify _) _) _ => apply fw_bind_modify
  | |- fails_with (bind stuck _) _ => exact I
  | |- fails_with (bind fail _) _ => apply fw_bind_fail; fails_err
  | |- fails_with (bind (attempt _) _) _ => apply fw_bind_attempt; intros ? ?
  | |- fails_with (bind (if ?c then _ else _) _) _ => destruct c eqn:?
  | |- fails_with (bind (match ?x with _ => _ end) _) _ => destruct x eqn:?
  | |- fails_with (if ?c then _ else _) _ => destruct c eqn:?
  | |- fails_with (match ?x with _ => _ end) _ => destruct x eqn:?
  | |- fails_with (ret _) _ => exact I
  | |- fails_with (modify _) _ => exact I
  | |- fails_with stuck _ => exact I
  | |- fails_with fail _ => apply fw_fail; fails_err
  | |- fails_with (attempt _) _ => apply fw_attempt
  | |- fails_with (bind _ _) _ =>
      apply fw_bind_call; [ solve [auto with fails_db] | intros ? ? ]
  | |- fails_with _ _ => apply fw_call; solve [auto with fails_db]
  end.

Ltac fails_go := apply mfails_intro; intros ?; repeat fails_one.

Section FailsWithLemmas.

Context {E : Env} {OK : EnvOk E}.

Lemma buf_read_fails (w : which_buf) : mfails (buf_read w).
Proof.
  intros s. unfold fails_with, buf_read.
  destruct (ws_read _ _) as [[data|e] fd'] eqn:Hr; [exact I|].
  apply read_errno_nz in Hr. destruct w; cbn; exact Hr.
Qed.

Lemma fill_in_buffer_fails : mfails fill_in_buffer.
Proof.
  intros s. unfold fails_with, fill_in_buffer.
  destruct (negb (err s =? 0)) eqn:He.
  - apply negb_true_iff, Z.eqb_neq in He. exact He.
  - destruct (negb (eof s)); [apply buf_read_fails|exact I].
Qed.

Lemma short_read_fails {A} : mfails (@short_read _ A).
Proof.
  intros s. unfold fails_with, short_read.
  destruct (err s =? 0) eqn:He.
  - cbn. apply short_read_nz.
  - apply Z.eqb_neq in He. exact He.
Qed.

Lemma fast_seek_header_fails (in_pos out_pos : Z) (c : compression_t) :
  mfails (fast_seek_header in_pos out_pos c).
Proof.
  intros s. unfold fails_with, fast_seek_header.
  destruct (fast_seek s) as [arr|]; [|exact I].
  destruct (Z.of_nat (length arr) =? 0); [exact I|].
  destruct (array_last arr) as [it|]; [|exact I].
  destruct (fsp_out it <? out_pos); exact I.
Qed.

Lemma zlib_fast_seek_add_fails (point : zlib_cur_seek_point) (bits in_pos out_pos : Z) :
  mfails (zlib_fast_seek_add point bits in_pos out_pos).
Proof.
  intros s. unfold fails_with, zlib_fast_seek_add.
  destruct (fast_seek s) as [arr|]; [|exact I].
  destruct (array_last arr) as [it|]; [|exact I].
  destruct (fsp_out it + SPAN <? out_pos); exact I.
Qed.

#[local] Hint Resolve buf_read_fails fill_in_buffer_fails short_read_fails
  fast_seek_header_fails zlib_fast_seek_add_fails : fails_db.

Lemma GZ_GETC_fails : mfails GZ_GETC.
Proof. unfold GZ_GETC. fails_go. Qed.

#[local] Hint Resolve GZ_GETC_fails : fails_db.

Lemma gz_next1_fails : mfails gz_next1.
Proof. unfold gz_next1. fails_go. Qed.

Lemma gz_next2_fails : mfails gz_next2.
Proof. unfold gz_next2. fails_go. Qed.

Lemma gz_next4_fails : mfails gz_next4.
Proof. unfold gz_next4. fails_go. Qed.

Lemma gz_skipn_fails (n : nat) : mfails (gz_skipn n).
Proof. induction n as [|n IH]; cbn [gz_skipn]; fails_go. Qed.

Lemma gz_skipzstr_fails (fuel : nat) : mfails (gz_skipzstr fuel).
Proof. induction fuel as [|fuel IH]; cbn [gz_skipzstr]; fails_go. Qed.

#[local] Hint Resolve gz_next1_fails gz_next2_fails gz_next4_fails gz_skipn_fails
  gz_skipzstr_fails : fails_db.

Lemma zlib_read_loop_fails (fuel : nat) :
  forall count ret_ avail_out buf2 count2,
    mfails (zlib_read_loop fuel count ret_ avail_out buf2 count2).
Proof. induction fuel as [|fuel IH]; intros; cbn [zlib_read_loop]; fails_go. Qed.

Lemma zlib_read_trailer_fails : mfails zlib_read_trailer.
Proof. unfold zlib_read_trailer. fails_go. Qed.

#[local] Hint Resolve zlib_read_loop_fails zlib_read_trailer_fails : fails_db.

Lemma zlib_read_fails (fuel : nat) (count : Z) : mfails (zlib_read fuel count).
Proof. unfold zlib_read. fails_go. Qed.

Lemma gz_head_setup_fails : mfails gz_head_setup.
Proof. unfold gz_head_setup. fails_go. Qed.

#[local] Hint Resolve zlib_read_fails gz_head_setup_fails : fails_db.

Lemma gz_head_gzip_fails (fuel : nat) : mfails (gz_head_gzip fuel).
Proof. unfold gz_head_gzip. fails_go. Qed.

Lemma gz_head_other_fails : mfails gz_head_other.
Proof. unfold gz_head_other. fails_go. Qed.

#[local] Hint Resolve gz_head_gzip_fails gz_head_other_fails : fails_db.

Lemma gz_head_fails (fuel : nat) : mfails (gz_head fuel).
Proof. unfold gz_head. fails_go. Qed.

Lemma stream_step_fails {DS : Type} (decompress : list byte -> Z -> stream_result DS)
    (store : DS -> wtap_reader -> wtap_reader) :
  mfails (stream_step decompress store).
Proof. unfold stream_step. fails_go. Qed.

#[local] Hint Resolve gz_head_fails stream_step_fails : fails_db.

Lemma fill_out_buffer_fails (fuel : nat) : mfails (fill_out_buffer fuel).
Proof. unfold fill_out_buffer. fails_go. Qed.

#[local] Hint Resolve fill_out_buffer_fails : fails_db.

Lemma gz_skip_fails (fuel : nat) : forall len, mfails (gz_skip fuel len).
Proof. induction fuel as [|fuel IH]; intros; cbn [gz_skip]; fails_go. Qed.

End FailsWithLemmas.

(** ** What file_read returns *)

Lemma gz_skip_out_ok {E : Env} (fuel : nat) (len : Z) (s s' : wtap_reader) (u : unit) :
  gz_skip fuel len s = Done u s' -> out_ok s -> out_ok s'.
Proof.
  intros H. pose proof (gz_skip_api fuel len s) as P.
  unfold keeps in P. rewrite H in P. apply P.
Qed.

(** C1 (as amended).  A call file_read(buf, len), with [len] at most
    INT_MAX, returns either -1 or the number of bytes it copied, which is
    at most [len]; it returns -1 only with an error recorded on the
    reader.  It may return -1 after bytes were copied in the same call:
    the loop returns -1 as soon as the output buffer is empty and an error
    is recorded or the refill fails.  When an error was raised after bytes
    were decoded, those bytes stay in the output buffer: a call that asks
    for no more than the output buffer holds returns them, whatever error
    is recorded, and a call made once the output buffer is empty returns
    -1. *)
Theorem C1_file_read_result {E : Env} {OK : EnvOk E} :
  (forall fuel len s r data s',
      out_ok s ->
      0 <= len < 2 ^ 31 ->
      file_read fuel false len s = Done (r, data) s' ->
      (r = -1 \/ r = Z.of_nat (length data)) /\
      Z.of_nat (length data) <= len /\
      (r = -1 -> err s' <> 0)) /\
  (forall fuel len s,
      seek_pending s = false ->
      0 < len <= avail (out s) ->
      avail (out s) < 2 ^ 32 ->
      len < 2 ^ 31 ->
      file_read (S fuel) false len s
      = Done (len, slice (buf (out s)) (next (out s)) len) (consume len s)) /\
  (forall fuel len s,
      seek_pending s = false ->
      len <> 0 ->
      avail (out s) = 0 ->
      err s <> 0 ->
      file_read (S fuel) false len s = Done (-1, []) s).
Proof.
  split; [|split].
  - intros fuel len s r data s' Hok Hlen H.
    unfold file_read in H.
    destruct (len =? 0) eqn:H0.
    { injection H as <- <- <-. cbn. split; [right; reflexivity|]. split; lia. }
    apply Z.eqb_neq in H0.
    assert (Hloop : forall s2,
               out_ok s2 ->
               file_read_loop fuel false len 0 [] s2 = Done (r, data) s' ->
               (r = -1 \/ r = Z.of_nat (length data)) /\
               Z.of_nat (length data) <= len /\
               (r = -1 -> err s' <> 0)).
    { intros s2 Hok2 Hl.
      apply (file_read_loop_spec (fun s => err s <> 0)) in Hl; auto; try lia.
      2:{ intros f sa sb Hf. pose proof (fill_out_buffer_fails f sa) as P.
          unfold fails_with in P. rewrite Hf in P. exact P. }
      destruct Hl as (_ & _ & _ & g & Hg & _ & Hdata & Hres).
      specialize (Hdata eq_refl). cbn [length] in Hdata.
      assert (Hint : to_int g = g) by (apply to_int_small; lia).
      destruct Hres as [->|[-> HQ]].
      - rewrite Hint. split; [right; lia|]. split; [lia|]. intros; lia.
      - split; [left; reflexivity|]. split; [lia|]. intros _. exact HQ. }
    unfold bind at 1, process_skip in H. unfold bind at 1, get in H. cbv beta in H.
    destruct (seek_pending s) eqn:Hp.
    + unfold bind, modify, attempt in H.
      destruct (gz_skip fuel (skip s) (set_seek_pending false s)) as [[] s2|s2|] eqn:Hsk;
        try discriminate.
      * apply (Hloop s2); [|exact H].
        apply (gz_skip_out_ok _ _ _ _ _ Hsk). exact Hok.
      * injection H as <- <- <-. cbn. split; [left; reflexivity|]. split; [lia|].
        intros _. pose proof (gz_skip_fails fuel (skip s) (set_seek_pending false s)) as P.
        unfold fails_with in P. rewrite Hsk in P. exact P.
    + unfold bind, ret in H. apply (Hloop s Hok H).
  - intros fuel len s Hp Hlen Hav Hint.
    unfold file_read. destruct (len =? 0) eqn:H0; [apply Z.eqb_eq in H0; lia|].
    unfold bind at 1, process_skip. unfold bind at 1, get. cbv beta. rewrite Hp.
    unfold ret at 1. cbv beta iota. cbn [file_read_loop].
    unfold bind at 1, get. cbv beta.
    destruct (negb (avail (out s) =? 0)) eqn:Hne.
    2:{ apply negb_false_iff, Z.eqb_eq in Hne. lia. }
    assert (Hn : (if len <? avail (out s) then len else avail (out s)) = len).
    { destruct (len <? avail (out s)) eqn:Hlt; [reflexivity|].
      apply Z.ltb_ge in Hlt. lia. }
    cbv zeta. rewrite Hn. replace (len - len) with 0 by lia.
    rewrite (guint_small 0) by lia. rewrite (guint_small (0 + len)) by lia.
    cbn [Z.eqb negb]. unfold bind, modify, ret. cbn [app Z.add].
    rewrite to_int_small by lia. reflexivity.
  - intros fuel len s Hp Hlen Hav Herr.
    unfold file_read. apply Z.eqb_neq in Hlen. rewrite Hlen.
    unfold bind at 1, process_skip. unfold bind at 1, get. cbv beta. rewrite Hp.
    unfold ret at 1. cbv beta iota. cbn [file_read_loop]. unfold bind, get.
    rewrite Hav. cbn [Z.eqb negb]. apply Z.eqb_neq in Herr. rewrite Herr. reflexivity.
Qed.

Lemma sim_env_ok : EnvOk sim_env.
Proof.
  split; cbn; try discriminate. reflexivity.
Qed.

Lemma C1_file_read_result_witness :
  let s := sim_reader sim_abcde in
  let t := after (file_peekc 10 (sim_reader (sim_gzip_hi xd2))) in
  let u := after (file_read 10 false 2 (sim_reader (sim_gzip_hi xd2))) in
  ((3 = -1 \/ 3 = Z.of_nat (length [x41; x42; x43])) /\
   Z.of_nat (length [x41; x42; x43]) <= 3 /\
   (3 = -1 -> err (after (file_read 10 false 3 s)) <> 0)) /\
  file_read 10 false 2 t = Done (2, slice (buf (out t)) (next (out t)) 2) (consume 2 t) /\
  file_read 10 false 1 u = Done (-1, []) u.
Proof.
  intros s t u.
  destruct (@C1_file_read_result sim_env sim_env_ok) as (P1 & P2 & P3).
  split; [|split].
  - apply (P1 10%nat 3 s 3 [x41; x42; x43] (after (file_read 10 false 3 s))).
    + vm_compute. split; congruence.
    + lia.
    + exact (run_eq (file_read 10 false 3 s) (3, [x41; x42; x43])
               ltac:(vm_compute; reflexivity)).
  - apply (P2 9%nat 2 t).
    + vm_compute. reflexivity.
    + vm_compute. split; congruence.
    + vm_compute. reflexivity.
    + lia.
  - apply (P3 9%nat 1 u).
    + vm_compute. reflexivity.
    + lia.
    + vm_compute. reflexivity.
    + vm_compute. discriminate.
Defined.

(** The claim C1 as stated fails when the error is met after bytes were
    copied in the same call.  On a gzip member whose stream decodes to
    "hi" and whose trailer CRC is wrong, [file_read(buf, 10)] copies the
    two bytes and then returns -1; the in-progress call does not return
    the bytes it copied.  Only a call that asks for no more than the two
    decoded bytes returns them, the next call returning -1. *)
Lemma C1_counterexample_error_after_copy :
  let s := sim_reader (sim_gzip_hi xd2) in
  let s' := after (file_read 10 false 10 s) in
  let t := after (file_read 10 false 2 s) in
  value (file_read 10 false 10 s) = Some (-1, [x68; x69]) /\
  err s' = WTAP_ERR_DECOMPRESS /\
  err_info s' = Some "bad CRC"%string /\
  value (file_read 10 false 2 s) = Some (2, [x68; x69]) /\
  value (file_read 10 false 1 t) = Some (-1, []).
Proof. vm_compute. repeat split; reflexivity. Qed.

(** ** The gzip trailer with CRC checking switched off *)

Lemma strrchr_caz (base : String.string) :
  strrchr (String.append base ".caz"%string) "."%char = Some ".caz"%string.
Proof.
  induction base as [|a base IH]; [reflexivity|].
  cbn [String.append strrchr]. rewrite IH. reflexivity.
Qed.

Lemma file_fdopen_checks_crc {E : Env} (fd0 : fd_t) (ft : wtap_reader) :
  file_fdopen fd0 = Some ft -> dont_check_crc ft = false.
Proof.
  unfold file_fdopen. intros H.
  destruct (g_try_malloc _); [|discriminate].
  destruct (g_try_malloc _); [|discriminate].
  destruct (inflateInit2 _); [|discriminate].
  destruct ZSTD_createDCtx; [|discriminate].
  destruct LZ4F_createDecompressionContext; [|discriminate].
  injection H as <-. reflexivity.
Qed.

Lemma run_Done_fill {E : Env} {A} (m : M A) (s : wtap_reader) (a : A) (s' : wtap_reader) :
  mpres fill_rel m -> m s = Done a s' -> fill_rel s s'.
Proof.
  intros P H. specialize (P s). unfold keeps in P. rewrite H in P. exact P.
Qed.

Lemma bind_modify_Done {E : Env} {A} (m : M A) (f : wtap_reader -> wtap_reader)
    (s s' : wtap_reader) :
  bind m (fun _ => modify f) s = Done tt s' -> exists s1, s' = f s1.
Proof.
  unfold bind, modify. destruct (m s) as [a s1|s1|]; try discriminate.
  intros H. exists s1. congruence.
Qed.

(** C3.  With [dont_check_crc] set, which is what file_open does for a
    name whose suffix is ".caz", a deflate stream that reaches its end
    and whose eight trailer bytes are read is handled as follows: whatever
    the trailer's CRC, no error is set by the CRC comparison; if the
    trailer's length field equals the decoder's total output modulo 2^32
    the error state is left as it was, and otherwise [err] becomes
    WTAP_ERR_DECOMPRESS with the message "length field wrong".  In either
    case, as whenever the stream reaches its end, the compression mode is
    set back to UNKNOWN and the rolling window is released. *)
Theorem C3_caz_trailer_length_still_checked {E : Env} :
  (forall base ft,
      file_open (String.append base ".caz"%string) = Some ft ->
      dont_check_crc ft = true) /\
  (forall fuel count s avail_out s1 crc len s2 s3,
      dont_check_crc s = true ->
      zlib_read_loop fuel count 0 count 0 count s = Done (Z_STREAM_END, avail_out) s1 ->
      gz_next4 (set_out (mk_buf (buf (out s1)) 0 (guint (count - avail_out))) s1)
      = Done crc s2 ->
      gz_next4 s2 = Done len s3 ->
      exists s',
        zlib_read fuel count s = Done tt s' /\
        compression s' = UNKNOWN /\
        fast_seek_cur s' = None /\
        (len = total_out (strm s3) mod 2 ^ 32 ->
         err s' = err s3 /\ err_info s' = err_info s3) /\
        (len <> total_out (strm s3) mod 2 ^ 32 ->
         err s' = WTAP_ERR_DECOMPRESS /\
         err_info s' = Some "length field wrong"%string)) /\
  (forall fuel count s avail_out s1 s',
      zlib_read_loop fuel count 0 count 0 count s = Done (Z_STREAM_END, avail_out) s1 ->
      zlib_read fuel count s = Done tt s' ->
      compression s' = UNKNOWN /\ fast_seek_cur s' = None).
Proof.
  split; [|split].
  - intros base ft H. unfold file_open in H.
    destruct (ws_open _) as [fd0|]; [|discriminate].
    destruct (file_fdopen fd0) as [ft0|]; [|discriminate].
    rewrite strrchr_caz in H.
    replace (g_ascii_strcasecmp_is0 ".caz"%string ".caz"%string) with true in H
      by (vm_compute; reflexivity).
    assert (Hft : ft = set_dont_check_crc true ft0) by congruence.
    rewrite Hft. reflexivity.
  - intros fuel count s avail_out s1 crc len s2 s3 Hcaz Hloop Hcrc Hlen.
    assert (Hcaz3 : dont_check_crc s3 = true).
    { pose proof (run_Done_fill _ _ _ _ (zlib_read_loop_fill fuel _ _ _ _ _) Hloop)
        as (_ & _ & _ & _ & _ & D1 & _).
      pose proof (run_Done_fill _ _ _ _ gz_next4_fill Hcrc) as (_ & _ & _ & _ & _ & D2 & _).
      pose proof (run_Done_fill _ _ _ _ gz_next4_fill Hlen) as (_ & _ & _ & _ & _ & D3 & _).
      cbn in D2. congruence. }
    unfold zlib_read. unfold bind at 1. rewrite Hloop. cbn [fst snd].
    unfold bind at 1, modify at 1. cbn [Z.eqb Z_STREAM_END Pos.eqb].
    unfold zlib_read_trailer. unfold bind at 1, attempt.
    unfold bind at 1. rewrite Hcrc. unfold bind at 1. rewrite Hlen. unfold ret at 1.
    cbv beta iota. unfold bind at 1, get at 1. unfold bind at 1. cbv beta.
    rewrite Hcaz3. rewrite andb_false_r.
    change 0xffffffff with (Z.ones 32). rewrite Z.land_ones by lia.
    destruct (negb (len =? total_out (strm s3) mod 2 ^ 32)) eqn:Hne.
    + apply negb_true_iff, Z.eqb_neq in Hne.
      eexists. split; [reflexivity|]. cbn. repeat split; auto; contradiction.
    + apply negb_false_iff, Z.eqb_eq in Hne.
      eexists. split; [reflexivity|]. cbn. repeat split; auto; contradiction.
  - intros fuel count s avail_out s1 s' Hloop H.
    unfold zlib_read in H. unfold bind at 1 in H. rewrite Hloop in H. cbn [fst snd] in H.
    unfold bind at 1, modify at 1 in H. cbn [Z.eqb Z_STREAM_END Pos.eqb] in H.
    unfold zlib_read_trailer in H. unfold bind at 1 in H.
    match type of H with
    | match ?m ?st with _ => _ end = _ => destruct (m st) as [r sa|sa|] eqn:Hm
    end; try discriminate.
    apply bind_modify_Done in H. destruct H as [sb ->]. cbn. auto.
Qed.

Lemma C3_caz_trailer_length_still_checked_witness :
  let ft := sim_opened (file_open "hi.caz"%string) in
  let s := after (gz_head 10 ft) in
  let s1 := after (zlib_read_loop 10 32 0 32 0 32 s) in
  let s2 := after (gz_next4 (set_out (mk_buf (buf (out s1)) 0 (guint (32 - 30))) s1)) in
  let s3 := after (gz_next4 s2) in
  dont_check_crc ft = true /\
  (exists s',
      zlib_read 10 32 s = Done tt s' /\
      compression s' = UNKNOWN /\
      fast_seek_cur s' = None /\
      (2 = total_out (strm s3) mod 2 ^ 32 ->
       err s' = err s3 /\ err_info s' = err_info s3) /\
      (2 <> total_out (strm s3) mod 2 ^ 32 ->
       err s' = WTAP_ERR_DECOMPRESS /\
       err_info s' = Some "length field wrong"%string)) /\
  (compression (after (zlib_read 10 32 s)) = UNKNOWN /\
   fast_seek_cur (after (zlib_read 10 32 s)) = None).
Proof.
  intros ft s s1 s2 s3.
  destruct (@C3_caz_trailer_length_still_checked sim_env) as (P1 & P2 & P3).
  assert (Hloop : zlib_read_loop 10 32 0 32 0 32 s = Done (Z_STREAM_END, 30) s1)
    by exact (run_eq (zlib_read_loop 10 32 0 32 0 32 s) (Z_STREAM_END, 30)
                ltac:(vm_compute; reflexivity)).
  split; [|split].
  - apply (P1 "hi"%string ft).
    exact (open_eq (file_open "hi.caz"%string) ltac:(vm_compute; reflexivity)).
  - apply (P2 10%nat 32 s 30 s1 210 2 s2 s3).
    + vm_compute. reflexivity.
    + exact Hloop.
    + exact (run_eq (gz_next4 (set_out (mk_buf (buf (out s1)) 0 (guint (32 - 30))) s1))
               210 ltac:(vm_compute; reflexivity)).
    + exact (run_eq (gz_next4 s2) 2 ltac:(vm_compute; reflexivity)).
  - apply (P3 10%nat 32 s 30 s1 (after (zlib_read 10 32 s)) Hloop).
    exact (run_eq (zlib_read 10 32 s) tt ltac:(vm_compute; reflexivity)).
Defined.

(** ** Reading the head of the file *)

Lemma firstn_app_repeat (x : byte) (t : list byte) :
  forall k m1 m2,
    (k <= length t + m1)%nat -> (k <= length t + m2)%nat ->
    firstn k (t ++ repeat x m1) = firstn k (t ++ repeat x m2).
Proof.
  induction t as [|a t IH]; intros k m1 m2 H1 H2.
  - cbn [app length] in *. revert m1 m2 H1 H2.
    induction k as [|k IHk]; intros m1 m2 H1 H2; [reflexivity|].
    destruct m1 as [|m1]; [lia|]. destruct m2 as [|m2]; [lia|].
    cbn. f_equal. apply IHk; lia.
  - destruct k as [|k]; [reflexivity|]. cbn. f_equal.
    cbn [length] in H1, H2. apply IH; lia.
Qed.

Lemma skipn_cons_nth (l : list byte) :
  forall o a t, skipn o l = a :: t -> nth o l x00 = a /\ skipn (S o) l = t.
Proof.
  induction l as [|x l IH]; intros o a t H.
  - destruct o; discriminate.
  - destruct o as [|o].
    + cbn in H. injection H as -> ->. split; reflexivity.
    + cbn [skipn] in H. apply IH in H. exact H.
Qed.

Lemma slice_cons (l : list byte) (off n : Z) :
  0 <= off -> 0 < n ->
  slice l off n = nth (Z.to_nat off) l x00 :: slice l (off + 1) (n - 1).
Proof.
  intros Hoff Hn. unfold slice.
  replace (Z.to_nat n) with (S (Z.to_nat (n - 1))) by lia.
  replace (Z.to_nat (off + 1)) with (S (Z.to_nat off)) by lia.
  set (o := Z.to_nat off). set (k := Z.to_nat (n - 1)).
  destruct (skipn o l) as [|a t] eqn:Hs.
  - assert (Hlen : (length l <= o)%nat).
    { destruct (Nat.le_gt_cases (length l) o) as [Hle|Hgt]; [exact Hle|].
      assert (length (skipn o l) = length l - o)%nat by apply length_skipn.
      rewrite Hs in H. cbn in H. lia. }
    rewrite (nth_overflow l x00 Hlen).
    rewrite (skipn_all2 l (n := S o)) by lia. reflexivity.
  - apply skipn_cons_nth in Hs as [-> ->]. cbn [app firstn]. f_equal.
    apply firstn_app_repeat; lia.
Qed.

Lemma slice_nil (l : list byte) (off : Z) : slice l off 0 = [].
Proof. reflexivity. Qed.

Lemma slice_memcpy_at (l : list byte) (off : Z) (data : list byte) :
  slice (memcpy_at l off data) off (Z.of_nat (length data)) = data.
Proof.
  unfold slice, memcpy_at. rewrite Nat2Z.id. set (o := Z.to_nat off).
  rewrite (app_assoc (firstn o l)).
  assert (Hpre : length (firstn o l ++ repeat x00 (o - length l)) = o).
  { rewrite length_app, length_firstn, repeat_length. lia. }
  rewrite <- Hpre at 1. rewrite skipn_app, skipn_all, Nat.sub_diag. cbn [app skipn].
  rewrite <- app_assoc. rewrite firstn_app, firstn_all, Nat.sub_diag.
  cbn [firstn]. apply app_nil_r.
Qed.

Section Head.

Context {E : Env}.

(** fill_in_buffer on an empty input buffer brings in the next bytes. *)
Lemma fill_in_buffer_ready (s : wtap_reader) (b : byte) (bs : list byte) :
  in_ready s (b :: bs) ->
  avail (in_ s) = 0 ->
  exists s', fill_in_buffer s = Done tt s' /\ in_ready s' (b :: bs) /\ avail (in_ s') <> 0.
Proof.
  intros (He & Hsz & Hn & _ & Hsum & _ & Hfd) Hav.
  assert (Hp : pending s = []) by (unfold pending; rewrite Hav; reflexivity).
  rewrite Hp in Hfd. destruct Hfd as [Heof Hy]; [cbn; lia|]. cbn [length skipn] in Hy.
  unfold fill_in_buffer. rewrite He, Heof. cbn [Z.eqb negb].
  unfold buf_read. cbn [get_buf]. unfold bytes_in_buffer. rewrite Hav.
  rewrite (guint_small (next (in_ s) + 0)) by lia.
  rewrite (guint_small (size s - (next (in_ s) + 0))) by lia.
  inversion Hy as [|f b' bs' Hread Hf]; subst.
  set (space_left := size s - (next (in_ s) + 0)).
  set (to_read := if space_left =? 0 then size s else space_left).
  set (read_ptr := if space_left =? 0 then 0 else next (in_ s) + 0).
  set (b1 := if space_left =? 0 then buf_reset (in_ s) else in_ s).
  assert (Hto : 0 < to_read /\ read_ptr + to_read <= size s /\ 0 <= read_ptr /\
                next b1 = read_ptr /\ avail b1 = 0).
  { subst to_read read_ptr b1 space_left.
    destruct (size s - (next (in_ s) + 0) =? 0) eqn:Hz.
    - cbn. lia.
    - apply Z.eqb_neq in Hz. repeat split; lia. }
  destruct Hto as (T1 & T2 & T3 & T4 & T5).
  destruct (Hread to_read T1) as (chunk & f' & Hr & Hne & Hlen & Hagree & Hy').
  rewrite Hr.
  assert (Hcl : 0 < Z.of_nat (length chunk)) by (destruct chunk; [congruence|cbn; lia]).
  destruct (Z.of_nat (length chunk) =? 0) eqn:Hz; [apply Z.eqb_eq in Hz; lia|].
  eexists. split; [reflexivity|].
  assert (Hpend : pending
                    (set_buf In_buf
                       (mk_buf (memcpy_at (buf b1) read_ptr chunk) (next b1)
                               (guint (avail b1 + Z.of_nat (length chunk))))
                       (set_raw_pos (raw_pos (set_fd f' s) + Z.of_nat (length chunk))
                                    (set_fd f' s))) = chunk).
  { unfold pending. cbn. rewrite T4, T5. rewrite guint_small by lia.
    apply slice_memcpy_at. }
  split.
  - unfold in_ready. rewrite Hpend. cbn.
    rewrite T4, T5. rewrite (guint_small (0 + Z.of_nat (length chunk))) by lia.
    split; [exact He|]. split; [exact Hsz|]. split; [lia|]. split; [lia|].
    split; [lia|]. split; [exact Hagree|]. intros _. split; [exact Heof|exact Hy'].
  - cbn. rewrite T5. rewrite guint_small by lia. lia.
Qed.

(** The byte at the cursor of a non-empty input buffer, and the reader
    once it is consumed. *)
Lemma in_ready_head (s : wtap_reader) (b : byte) (bs : list byte) :
  in_ready s (b :: bs) ->
  avail (in_ s) <> 0 ->
  byte_at (buf (in_ s)) (next (in_ s)) = byte_val b /\
  in_ready (set_in (buf_advance 1 (in_ s)) s) bs.
Proof.
  intros (He & Hsz & Hn & Ha & Hsum & Hagree & Hfd) Hav.
  assert (Hp : pending s = nth (Z.to_nat (next (in_ s))) (buf (in_ s)) x00
                           :: slice (buf (in_ s)) (next (in_ s) + 1) (avail (in_ s) - 1))
    by (unfold pending; apply slice_cons; lia).
  rewrite Hp in Hagree, Hfd. cbn [length firstn] in Hagree. injection Hagree as Hb Hrest.
  split; [unfold byte_at; rewrite Hb; reflexivity|].
  assert (Hp' : pending (set_in (buf_advance 1 (in_ s)) s)
                = slice (buf (in_ s)) (next (in_ s) + 1) (avail (in_ s) - 1)).
  { unfold pending, buf_advance. cbn. rewrite guint_small by lia. reflexivity. }
  unfold in_ready. rewrite Hp'. cbn. rewrite guint_small by lia.
  split; [exact He|]. split; [exact Hsz|]. split; [lia|]. split; [lia|].
  split; [lia|]. split; [exact Hrest|].
  intros Hlt. apply Hfd. cbn [length]. lia.
Qed.

(** GZ_GETC hands out the next byte. *)
Lemma GZ_GETC_ready (s : wtap_reader) (b : byte) (bs : list byte) :
  in_ready s (b :: bs) ->
  exists s', GZ_GETC s = Done (byte_val b) s' /\ in_ready s' bs.
Proof.
  intros Hr. unfold GZ_GETC. unfold bind at 1, get at 1. cbv beta.
  destruct (avail (in_ s) =? 0) eqn:Hav.
  - apply Z.eqb_eq in Hav.
    destruct (fill_in_buffer_ready s b bs Hr Hav) as (s1 & Hf & Hr1 & Hav1).
    unfold bind at 1, attempt. rewrite Hf. unfold bind at 1, get at 1. cbv beta.
    apply Z.eqb_neq in Hav1. rewrite Hav1. apply Z.eqb_neq in Hav1.
    destruct (in_ready_head s1 b bs Hr1 Hav1) as [Hb Hr2].
    unfold bind, modify, ret. rewrite Hb. eexists. split; [reflexivity|exact Hr2].
  - unfold bind at 1, ret at 1. unfold bind at 1, get at 1. cbv beta. rewrite Hav.
    apply Z.eqb_neq in Hav.
    destruct (in_ready_head s b bs Hr Hav) as [Hb Hr2].
    unfold bind, modify, ret. rewrite Hb. eexists. split; [reflexivity|exact Hr2].
Qed.

End Head.

Lemma bind_Done {E : Env} {A B} (m : M A) (k : A -> M B) (s : wtap_reader) (a : A)
    (s' : wtap_reader) :
  m s = Done a s' -> bind m k s = k a s'.
Proof. intros H. unfold bind. rewrite H. reflexivity. Qed.

Lemma bind_ret {E : Env} {A B} (a : A) (k : A -> M B) (s : wtap_reader) :
  bind (ret a) k s = k a s.
Proof. reflexivity. Qed.

Lemma bind_assoc_eq {E : Env} {A B C} (m : M A) (k : A -> M B) (h : B -> M C)
    (s : wtap_reader) :
  bind (bind m k) h s = bind m (fun a => bind (k a) h) s.
Proof. unfold bind. destruct (m s); reflexivity. Qed.

Lemma bind_get {E : Env} {B} (k : wtap_reader -> M B) (s : wtap_reader) :
  bind get k s = k s s.
Proof. reflexivity. Qed.

Lemma bind_modify {E : Env} {B} (f : wtap_reader -> wtap_reader) (k : unit -> M B)
    (s : wtap_reader) :
  bind (modify f) k s = k tt (f s).
Proof. reflexivity. Qed.

Lemma bind_cong {E : Env} {A B} (m m' : M A) (k : A -> M B) (s s' : wtap_reader) :
  m s = m' s' -> bind m k s = bind m' k s'.
Proof. intros H. unfold bind. rewrite H. reflexivity. Qed.

(** The next steps of a run, as far as they are [get], [ret] and
    [modify]. *)
Ltac mnorm :=
  repeat first [ rewrite bind_assoc_eq | rewrite bind_get | rewrite bind_ret
               | rewrite bind_modify ].

Section BadMethod.

Context {E : Env}.

Lemma ensure_input (s : wtap_reader) (b : byte) (bs : list byte) :
  in_ready s (b :: bs) ->
  exists s', (if avail (in_ s) =? 0 then fill_in_buffer else ret tt) s = Done tt s' /\
             in_ready s' (b :: bs) /\ avail (in_ s') <> 0.
Proof.
  intros Hr. destruct (avail (in_ s) =? 0) eqn:Hav.
  - apply Z.eqb_eq in Hav. exact (fill_in_buffer_ready s b bs Hr Hav).
  - apply Z.eqb_neq in Hav. exists s. split; [reflexivity|]. split; assumption.
Qed.

Lemma gz_next1_ready (s : wtap_reader) (b : byte) (bs : list byte) :
  in_ready s (b :: bs) ->
  exists s', gz_next1 s = Done (byte_val b) s' /\ in_ready s' bs.
Proof.
  intros Hr. destruct (GZ_GETC_ready s b bs Hr) as (s' & Hg & Hr').
  exists s'. split; [|exact Hr'].
  unfold gz_next1. rewrite (bind_Done _ _ _ _ _ Hg).
  pose proof (byte_val_range b) as Hb.
  destruct (byte_val b =? -1) eqn:Hm; [apply Z.eqb_eq in Hm; lia|].
  unfold ret, guint8. rewrite Z.mod_small by (change (2 ^ 8) with 256; lia). reflexivity.
Qed.

(** gz_head on a stream that starts 1F 8B cm with cm <> 8. *)
Lemma gz_head_unknown_method (fuel : nat) (s : wtap_reader) (cm : byte) :
  in_ready s [x1f; x8b; cm] ->
  byte_val cm <> 8 ->
  exists s', gz_head fuel s = Fail s' /\
             err s' = WTAP_ERR_DECOMPRESS /\
             err_info s' = Some "unknown compression method"%string.
Proof.
  intros Hr Hcm.
  assert (H1 : exists s1,
             (if avail (in_ s) =? 0
              then fill_in_buffer ;; s <- get ;; ret (negb (avail (in_ s) =? 0))
              else ret true) s = Done true s1 /\
             in_ready s1 [x1f; x8b; cm] /\ avail (in_ s1) <> 0).
  { destruct (avail (in_ s) =? 0) eqn:Hav.
    - apply Z.eqb_eq in Hav.
      destruct (fill_in_buffer_ready s _ _ Hr Hav) as (s1 & Hf & Hr1 & Hav1).
      exists s1. split; [|split; assumption].
      rewrite (bind_Done _ _ _ _ _ Hf). rewrite bind_get. unfold ret.
      apply Z.eqb_neq in Hav1. rewrite Hav1. reflexivity.
    - apply Z.eqb_neq in Hav. exists s. split; [reflexivity|]. split; assumption. }
  destruct H1 as (s1 & H1 & R1 & A1).
  destruct (in_ready_head s1 _ _ R1 A1) as [B1 R2].
  destruct (ensure_input _ _ _ R2) as (s3 & H3 & R3 & A3).
  destruct (in_ready_head s3 _ _ R3 A3) as [B3 R4].
  destruct (gz_next1_ready _ _ _ R4) as (s5 & H5 & R5).
  exists (set_error WTAP_ERR_DECOMPRESS (Some "unknown compression method"%string) s5).
  split; [|split; reflexivity].
  unfold gz_head. rewrite bind_get. rewrite (bind_Done _ _ _ _ _ H1).
  cbn [negb]. rewrite bind_get. rewrite B1.
  change (byte_val x1f =? 31) with true. cbv iota.
  rewrite bind_modify. rewrite bind_get. rewrite (bind_Done _ _ _ _ _ H3).
  rewrite bind_get. apply Z.eqb_neq in A3. rewrite A3. cbn [negb].
  rewrite B3. change (byte_val x8b =? 139) with true. cbv iota.
  unfold gz_head_gzip. rewrite bind_get. rewrite bind_modify.
  rewrite (bind_Done _ _ _ _ _ H5).
  apply Z.eqb_neq in Hcm. rewrite Hcm. cbn [negb].
  rewrite bind_modify. reflexivity.
Qed.

Lemma buffer_want_range {OK : EnvOk E} (fd0 : fd_t) : 0 < buffer_want fd0 < 2 ^ 32.
Proof.
  pose proof zstd_in_size_pos as Hz.
  unfold buffer_want.
  set (want := match st_blksize fd0 with
               | Some blk => if blk <=? MAX_READ_BUF_SIZE then guint blk else MAX_READ_BUF_SIZE
               | None => GZBUFSIZE
               end).
  assert (Hw : 0 <= want < 2 ^ 32).
  { subst want. destruct (st_blksize fd0) as [blk|].
    - destruct (blk <=? MAX_READ_BUF_SIZE); [apply guint_range|].
      unfold MAX_READ_BUF_SIZE. lia.
    - unfold GZBUFSIZE. lia. }
  clearbody want.
  assert (Hbump : forall z w, 0 <= w < 2 ^ 32 -> (0 < z \/ 0 < w) ->
            0 < (if w <? z
                 then if z <=? MAX_READ_BUF_SIZE then guint z else MAX_READ_BUF_SIZE
                 else w) < 2 ^ 32).
  { intros z w Hw' Hpos.
    destruct (w <? z) eqn:Hlt.
    - apply Z.ltb_lt in Hlt.
      destruct (z <=? MAX_READ_BUF_SIZE) eqn:Hle.
      + apply Z.leb_le in Hle. unfold MAX_READ_BUF_SIZE in Hle.
        rewrite guint_small by lia. lia.
      + unfold MAX_READ_BUF_SIZE. lia.
    - apply Z.ltb_ge in Hlt. lia. }
  cbv zeta.
  pose proof (Hbump ZSTD_DStreamInSize want Hw (or_introl Hz)) as H1.
  apply Hbump; [lia|right; lia].
Qed.

(** A reader fresh from file_fdopen is ready to read what its fd delivers. *)
Lemma file_fdopen_ready {OK : EnvOk E} (fd0 : fd_t) (s : wtap_reader) (bs : list byte) :
  file_fdopen fd0 = Some s ->
  fd_yields (fd s) bs ->
  in_ready s bs /\ compression s = UNKNOWN /\ avail (out s) = 0 /\
  seek_pending s = false /\ eof s = false.
Proof.
  unfold file_fdopen. intros H Hy.
  pose proof (buffer_want_range (snd (ws_lseek64 fd0 0 SEEK_CUR))) as Hw.
  destruct (g_try_malloc _); [|discriminate].
  destruct (g_try_malloc _); [|discriminate].
  destruct (inflateInit2 _); [|discriminate].
  destruct ZSTD_createDCtx; [|discriminate].
  destruct LZ4F_createDecompressionContext; [|discriminate].
  injection H as <-. cbn in Hy.
  split; [|repeat split; reflexivity].
  unfold in_ready, pending. cbn.
  split; [reflexivity|]. split; [exact Hw|]. split; [lia|]. split; [lia|].
  split; [lia|]. rewrite slice_nil. cbn [length firstn skipn].
  split; [destruct bs; reflexivity|]. intros _. split; [reflexivity|exact Hy].
Qed.

End BadMethod.

Lemma bind_Fail {E : Env} {A B} (m : M A) (k : A -> M B) (s s' : wtap_reader) :
  m s = Fail s' -> bind m k s = Fail s'.
Proof. intros H. unfold bind. rewrite H. reflexivity. Qed.

(** ** A gzip header with an unknown compression method *)

(** C8.  Take a reader fresh from file_fdopen whose fd delivers the bytes
    1F 8B cm first, in chunks of any size, with cm different from 8.  The
    first call that has to produce data, be it file_read with a non-zero
    length, file_peekc, file_getc, or file_getsp with room for at least
    one character, fails without copying a byte (-1, or NULL for
    file_getsp), and leaves the reader's error code equal to
    WTAP_ERR_DECOMPRESS with the error information "unknown compression
    method". *)
Theorem C8_unknown_compression_method {E : Env} {OK : EnvOk E}
    (fd0 : fd_t) (s : wtap_reader) (cm : byte) (fuel : nat) (len n : Z) :
  file_fdopen fd0 = Some s ->
  fd_yields (fd s) [x1f; x8b; cm] ->
  byte_val cm <> 8 ->
  len <> 0 ->
  1 < n < 2 ^ 31 ->
  (exists s', file_read (S fuel) false len s = Done (-1, []) s' /\
              unknown_method_error s') /\
  (exists s', file_peekc (S fuel) s = Done (-1) s' /\ unknown_method_error s') /\
  (exists s', file_getc (S fuel) s = Done (-1) s' /\ unknown_method_error s') /\
  (exists s', file_getsp (S fuel) false n s = Done None s' /\ unknown_method_error s').
Proof.
  intros Hopen Hy Hcm Hlen Hn.
  destruct (file_fdopen_ready fd0 s _ Hopen Hy) as (Hr & Hc & Hav & Hsp & Heof).
  assert (He : err s = 0) by apply Hr.
  destruct (gz_head_unknown_method fuel s cm Hr Hcm) as (s' & Hh & Herr & Hinfo).
  assert (Hfill : fill_out_buffer fuel s = Fail s').
  { unfold fill_out_buffer. rewrite bind_get. rewrite Hc. cbn [compression_eqb].
    apply bind_Fail. apply bind_Fail. exact Hh. }
  assert (Hread : forall k, k <> 0 -> file_read (S fuel) false k s = Done (-1, []) s').
  { intros k Hk. unfold file_read, process_skip.
    apply Z.eqb_neq in Hk. rewrite Hk.
    cbn [file_read_loop]. unfold bind, get, ret, attempt.
    rewrite Hsp. cbv beta iota. rewrite Hav, He, Heof. cbn [Z.eqb negb andb].
    rewrite Hfill. reflexivity. }
  assert (Hbad : unknown_method_error s') by (split; assumption).
  split; [|split; [|split]]; exists s'; (split; [|exact Hbad]).
  - apply Hread, Hlen.
  - unfold file_peekc, process_skip.
    cbn [file_peekc_loop]. unfold bind, get, ret, attempt.
    rewrite He, Hav. cbn [Z.eqb negb]. rewrite Hsp. cbv beta iota.
    rewrite Hav, He, Heof. cbn [Z.eqb negb andb].
    rewrite Hfill. reflexivity.
  - unfold file_getc. rewrite bind_get. rewrite He, Hav. cbn [Z.eqb negb].
    rewrite (bind_Done _ _ _ _ _ (Hread 1 ltac:(discriminate))). reflexivity.
  - unfold file_getsp, process_skip.
    assert (Hn1 : (n <? 1) = false) by (apply Z.ltb_ge; lia).
    assert (Hleft : (guint (n - 1) =? 0) = false)
      by (apply Z.eqb_neq; rewrite guint_small by lia; lia).
    rewrite Hn1. cbn [orb]. cbv zeta.
    cbn [file_getsp_loop]. unfold bind, get, ret, attempt.
    rewrite He. cbn [Z.eqb negb]. rewrite Hsp. cbv beta iota. rewrite Hleft.
    rewrite Hav, He. cbn [Z.eqb negb].
    rewrite Hfill. reflexivity.
Qed.

(** The simulated fd delivers the bytes of its file from its offset on. *)
Lemma sim_yields (k : nat) :
  forall (bs data : list byte) (off reads : nat),
    (length bs <= k)%nat ->
    firstn (length bs) (skipn off data) = bs ->
    @fd_yields sim_env (mk_sim_fd data (Z.of_nat off) reads) bs.
Proof.
  induction k as [|k IH]; intros bs data off reads Hk Hpre.
  - destruct bs; [constructor|cbn in Hk; lia].
  - destruct bs as [|b bs]; [constructor|]. apply yields_read. intros n Hn.
    set (m := length (b :: bs)) in *.
    set (D := skipn off data) in *.
    set (chunk := firstn (Z.to_nat n) D).
    assert (Hm : (m <= length D)%nat).
    { pose proof (f_equal (@length byte) Hpre) as Hl.
      rewrite length_firstn in Hl. fold m in Hl. lia. }
    assert (Hm1 : (1 <= m)%nat) by (subst m; cbn; lia).
    assert (Hcl : length chunk = Nat.min (Z.to_nat n) (length D))
      by apply length_firstn.
    exists chunk, (mk_sim_fd data (Z.of_nat off + Z.of_nat (length chunk)) (S reads)).
    split; [|split; [|split; [|split]]].
    + cbv [ws_read sim_env sim_read sim_off sim_data sim_reads].
      rewrite Nat2Z.id. reflexivity.
    + intros Hnil. rewrite Hnil in Hcl. cbn in Hcl. lia.
    + lia.
    + rewrite <- Hpre at 1. fold chunk. subst chunk. rewrite !firstn_firstn.
      f_equal. rewrite length_firstn. lia.
    + rewrite <- Nat2Z.inj_add. apply IH.
      * rewrite length_skipn. fold m. lia.
      * rewrite length_skipn. fold m.
        rewrite <- Hpre at 1. rewrite skipn_firstn_comm.
        unfold D. rewrite skipn_skipn.
        replace (length chunk + off)%nat with (off + length chunk)%nat by lia.
        reflexivity.
Qed.

Lemma C8_unknown_compression_method_witness :
  let s := sim_reader [x1f; x8b; x07; x00] in
  (exists s', file_read 3 false 4 s = Done (-1, []) s' /\ unknown_method_error s') /\
  (exists s', file_peekc 3 s = Done (-1) s' /\ unknown_method_error s') /\
  (exists s', file_getc 3 s = Done (-1) s' /\ unknown_method_error s') /\
  (exists s', file_getsp 3 false 80 s = Done None s' /\ unknown_method_error s').
Proof.
  intros s. subst s.
  apply (@C8_unknown_compression_method sim_env sim_env_ok
           (mk_sim_fd [x1f; x8b; x07; x00] 0 0)
           (sim_reader [x1f; x8b; x07; x00]) x07 2%nat 4 80).
  - exact (open_eq (sim_open [x1f; x8b; x07; x00]) ltac:(vm_compute; reflexivity)).
  - replace (fd (sim_reader [x1f; x8b; x07; x00]))
      with (mk_sim_fd [x1f; x8b; x07; x00] (Z.of_nat 0) 0)
      by (vm_compute; reflexivity).
    apply (sim_yields 3); [cbn; lia|reflexivity].
  - vm_compute. congruence.
  - discriminate.
  - lia.
Defined.

(** ** Raw memory: slices and copies, byte by byte *)

Lemma slice_nth (l : list byte) (off n : Z) (i : nat) :
  (i < Z.to_nat n)%nat ->
  nth i (slice l off n) x00 = nth (Z.to_nat off + i) l x00.
Proof.
  intros Hi. unfold slice. rewrite nth_firstn.
  destruct (i <? Z.to_nat n)%nat eqn:Hlt; [|apply Nat.ltb_ge in Hlt; lia].
  destruct (Nat.lt_ge_cases i (length (skipn (Z.to_nat off) l))) as [Hin|Hout].
  - rewrite app_nth1 by exact Hin. apply nth_skipn.
  - rewrite app_nth2 by exact Hout. rewrite nth_repeat.
    rewrite length_skipn in Hout. symmetry. apply nth_overflow. lia.
Qed.

Lemma memcpy_at_nth (l : list byte) (off : Z) (data : list byte) (i : nat) :
  nth i (memcpy_at l off data) x00 =
  if (i <? Z.to_nat off)%nat then nth i l x00
  else if (i <? Z.to_nat off + length data)%nat then nth (i - Z.to_nat off) data x00
  else nth i l x00.
Proof.
  unfold memcpy_at. set (o := Z.to_nat off).
  assert (Hpre : length (firstn o l ++ repeat x00 (o - length l)) = o).
  { rewrite length_app, length_firstn, repeat_length. lia. }
  rewrite (app_assoc (firstn o l)).
  destruct (i <? o)%nat eqn:H1.
  - apply Nat.ltb_lt in H1. rewrite app_nth1 by lia.
    destruct (Nat.lt_ge_cases i (length (firstn o l))) as [Hin|Hout].
    + rewrite app_nth1 by exact Hin. rewrite nth_firstn.
      destruct (i <? o)%nat eqn:H2; [reflexivity|apply Nat.ltb_ge in H2; lia].
    + rewrite app_nth2 by exact Hout. rewrite nth_repeat.
      rewrite length_firstn in Hout. symmetry. apply nth_overflow. lia.
  - apply Nat.ltb_ge in H1. rewrite app_nth2 by lia. rewrite Hpre.
    destruct (i <? o + length data)%nat eqn:H2.
    + apply Nat.ltb_lt in H2. rewrite app_nth1 by lia. reflexivity.
    + apply Nat.ltb_ge in H2. rewrite app_nth2 by lia. rewrite nth_skipn.
      f_equal. lia.
Qed.

(** A slice of a slice. *)
Lemma slice_firstn (l : list byte) (off n k : Z) :
  0 <= k <= n ->
  firstn (Z.to_nat k) (slice l off n) = slice l off k.
Proof.
  intros Hk. apply (nth_ext _ _ x00 x00).
  - rewrite length_firstn, !slice_length. lia.
  - intros i Hi. rewrite length_firstn, slice_length in Hi.
    rewrite nth_firstn.
    destruct (i <? Z.to_nat k)%nat eqn:H; [|apply Nat.ltb_ge in H; lia].
    rewrite !slice_nth by lia. reflexivity.
Qed.

Lemma slice_skipn (l : list byte) (off n k : Z) :
  0 <= off -> 0 <= k <= n ->
  skipn (Z.to_nat k) (slice l off n) = slice l (off + k) (n - k).
Proof.
  intros Hoff Hk. apply (nth_ext _ _ x00 x00).
  - rewrite length_skipn, !slice_length. lia.
  - intros i Hi. rewrite length_skipn, slice_length in Hi.
    rewrite nth_skipn. rewrite !slice_nth by lia. f_equal. lia.
Qed.

Lemma slice_app (l : list byte) (off n1 n2 : Z) :
  0 <= off -> 0 <= n1 -> 0 <= n2 ->
  slice l off (n1 + n2) = slice l off n1 ++ slice l (off + n1) n2.
Proof.
  intros Hoff H1 H2.
  rewrite <- (firstn_skipn (Z.to_nat n1) (slice l off (n1 + n2))).
  rewrite slice_firstn by lia. rewrite slice_skipn by lia.
  do 2 f_equal. lia.
Qed.

(** A copy leaves the bytes before it alone. *)
Lemma slice_memcpy_at_before (l : list byte) (off : Z) (data : list byte) (o n : Z) :
  0 <= o -> 0 <= n -> o + n <= off ->
  slice (memcpy_at l off data) o n = slice l o n.
Proof.
  intros Ho Hn Hle. apply (nth_ext _ _ x00 x00).
  - rewrite !slice_length. reflexivity.
  - intros i Hi. rewrite slice_length in Hi. rewrite !slice_nth by lia.
    rewrite memcpy_at_nth.
    destruct (Z.to_nat o + i <? Z.to_nat off)%nat eqn:H; [reflexivity|].
    apply Nat.ltb_ge in H. lia.
Qed.

Lemma byte_val_inj (a b : byte) : byte_val a = byte_val b -> a = b.
Proof.
  unfold byte_val. intros H. apply N2Z.inj in H.
  pose proof (Byte.of_to_N a) as Ha. pose proof (Byte.of_to_N b) as Hb.
  rewrite H in Ha. congruence.
Qed.

(** * Further properties of the reader *)

(** ** The input side on a file *)

Lemma sim_file_like : @file_like sim_env sim_holds.
Proof.
  intros f data n [Hoff Hdata] Hn.
  exists (firstn (Z.to_nat n) data),
         (mk_sim_fd (sim_data f)
                    (sim_off f + Z.of_nat (length (firstn (Z.to_nat n) data)))
                    (S (sim_reads f))).
  split; [|split; [|split; [|split]]].
  - cbv [ws_read sim_env sim_read]. rewrite <- Hdata. reflexivity.
  - rewrite length_firstn. lia.
  - rewrite length_firstn.
    destruct (Nat.le_ge_cases (Z.to_nat n) (length data)) as [Hle|Hge].
    + rewrite Nat.min_l by exact Hle. reflexivity.
    + rewrite Nat.min_r by exact Hge. rewrite firstn_all. apply firstn_all2. exact Hge.
  - intros Hne Hnil. destruct data as [|b data]; [congruence|].
    destruct (Z.to_nat n) eqn:Hz; [lia|discriminate].
  - split; cbn [sim_off sim_data]; [lia|].
    rewrite Hdata, skipn_skipn. f_equal. lia.
Qed.

Section InputSide.

Context {E : Env} (holds : fd_t -> list byte -> Prop) (Hfile : file_like holds).

(** buf_read into an empty buffer, from a file. *)
Lemma buf_read_holds (w : which_buf) (s : wtap_reader) (tail : list byte) :
  0 < size s < 2 ^ 32 ->
  0 <= next (get_buf w s) <= size s ->
  avail (get_buf w s) = 0 ->
  holds (fd s) tail ->
  exists chunk f' rp,
    chunk = firstn (length chunk) tail /\
    (tail <> [] -> chunk <> []) /\
    holds f' (skipn (length chunk) tail) /\
    0 <= rp /\ rp + Z.of_nat (length chunk) <= size s /\
    (rp = next (get_buf w s) \/ (rp = 0 /\ next (get_buf w s) = size s)) /\
    buf_read w s =
    Done tt (set_buf w (mk_buf (memcpy_at (buf (get_buf w s)) rp chunk) rp
                               (Z.of_nat (length chunk)))
               (set_raw_pos (raw_pos s + Z.of_nat (length chunk))
                  (if Z.of_nat (length chunk) =? 0
                   then set_eof true (set_fd f' s) else set_fd f' s))).
Proof.
  intros Hsz Hn Hav Hh.
  unfold buf_read. unfold bytes_in_buffer. rewrite Hav.
  rewrite (guint_small (next (get_buf w s) + 0)) by lia.
  rewrite (guint_small (size s - (next (get_buf w s) + 0))) by lia.
  set (space_left := size s - (next (get_buf w s) + 0)).
  set (to_read := if space_left =? 0 then size s else space_left).
  set (read_ptr := if space_left =? 0 then 0 else next (get_buf w s) + 0).
  set (b1 := if space_left =? 0 then buf_reset (get_buf w s) else get_buf w s).
  assert (Hto : 0 < to_read /\ read_ptr + to_read <= size s /\ 0 <= read_ptr /\
                next b1 = read_ptr /\ avail b1 = 0 /\ buf b1 = buf (get_buf w s) /\
                (read_ptr = next (get_buf w s) \/
                 (read_ptr = 0 /\ next (get_buf w s) = size s))).
  { subst to_read read_ptr b1 space_left.
    destruct (size s - (next (get_buf w s) + 0) =? 0) eqn:Hz.
    - cbn. repeat split; try reflexivity; lia.
    - apply Z.eqb_neq in Hz. repeat split; try reflexivity; lia. }
  destruct Hto as (T1 & T2 & T3 & T4 & T5 & T6 & T7).
  destruct (Hfile _ _ _ Hh T1) as (chunk & f' & Hr & Hlen & Hpre & Hne & Hh').
  exists chunk, f', read_ptr.
  split; [exact Hpre|]. split; [exact Hne|]. split; [exact Hh'|].
  split; [exact T3|]. split; [lia|]. split; [exact T7|].
  rewrite Hr. cbv zeta. rewrite T4, T5, T6.
  rewrite (guint_small (0 + Z.of_nat (length chunk))) by lia.
  destruct (Z.of_nat (length chunk) =? 0); reflexivity.
Qed.

(** fill_in_buffer on an empty input buffer. *)
Lemma fill_in_buffer_holds (s : wtap_reader) (bs : list byte) :
  in_holds holds s bs ->
  avail (in_ s) = 0 ->
  exists s',
    fill_in_buffer s = Done tt s' /\ in_holds holds s' bs /\
    (bs <> [] -> avail (in_ s') <> 0) /\ (bs = [] -> avail (in_ s') = 0) /\
    next (in_ s') + avail (in_ s') <= size s' /\
    (next (in_ s') = next (in_ s) \/ (next (in_ s') = 0 /\ next (in_ s) = size s)) /\
    in_only s s'.
Proof.
  intros (He & Hsz & Hn & _ & Hsum & tail & Hbs & Hh & Heof) Hav.
  assert (Hp : pending s = []) by (unfold pending; rewrite Hav; reflexivity).
  rewrite Hp in Hbs. cbn [app] in Hbs. subst tail.
  unfold fill_in_buffer. rewrite He. cbn [Z.eqb negb].
  destruct (eof s) eqn:Hf.
  - cbn [negb]. specialize (Heof eq_refl). subst bs.
    exists s. split; [reflexivity|]. split.
    + repeat (split; [assumption || lia|]). exists []. rewrite Hp.
      split; [reflexivity|]. split; [exact Hh|]. auto.
    + split; [congruence|]. split; [auto|]. split; [lia|]. split; [left; reflexivity|].
      unfold in_only. repeat split; reflexivity.
  - cbn [negb].
    destruct (buf_read_holds In_buf s bs Hsz) as
      (chunk & f' & rp & Hpre & Hne & Hh' & Hrp & Hfit & Hwhere & Hrun); auto.
    { cbn [get_buf]. lia. }
    rewrite Hrun. cbn [get_buf set_buf].
    eexists. split; [reflexivity|].
    assert (Hpend : forall t,
               pending (set_in (mk_buf (memcpy_at (buf (in_ s)) rp chunk) rp
                                       (Z.of_nat (length chunk))) t) = chunk).
    { intros t. unfold pending. cbn. apply slice_memcpy_at. }
    split; [|split; [|split; [|split; [|split]]]].
    + unfold in_holds. rewrite Hpend.
      destruct (Z.of_nat (length chunk) =? 0) eqn:Hz; cbn.
      * split; [exact He|]. split; [exact Hsz|]. split; [lia|]. split; [lia|].
        split; [lia|]. exists (skipn (length chunk) bs).
        split; [rewrite Hpre at 1; symmetry; apply firstn_skipn|].
        split; [exact Hh'|]. intros _.
        apply Z.eqb_eq in Hz. destruct chunk; [|cbn in Hz; lia].
        destruct bs as [|b bs]; [reflexivity|]. exfalso. apply Hne; congruence.
      * split; [exact He|]. split; [exact Hsz|]. split; [lia|]. split; [lia|].
        split; [lia|]. exists (skipn (length chunk) bs).
        split; [rewrite Hpre at 1; symmetry; apply firstn_skipn|].
        split; [exact Hh'|]. congruence.
    + intros Hbs. specialize (Hne Hbs). cbn.
      destruct chunk; [congruence|cbn; lia].
    + intros Hbs. subst bs. cbn. rewrite Hpre. rewrite firstn_nil. reflexivity.
    + cbn. destruct (Z.of_nat (length chunk) =? 0); cbn; lia.
    + cbn. cbn [get_buf] in Hwhere.
      destruct (Z.of_nat (length chunk) =? 0); cbn; exact Hwhere.
    + unfold in_only. destruct (Z.of_nat (length chunk) =? 0); cbn; repeat split; reflexivity.
Qed.

(** The byte at the cursor of a non-empty input buffer, and the reader
    once it is consumed. *)
Lemma in_holds_head (s : wtap_reader) (b : byte) (bs : list byte) :
  in_holds holds s (b :: bs) ->
  avail (in_ s) <> 0 ->
  byte_at (buf (in_ s)) (next (in_ s)) = byte_val b /\
  in_holds holds (set_in (buf_advance 1 (in_ s)) s) bs.
Proof.
  intros (He & Hsz & Hn & Ha & Hsum & tail & Hbs & Hh & Heof) Hav.
  assert (Hp : pending s = nth (Z.to_nat (next (in_ s))) (buf (in_ s)) x00
                           :: slice (buf (in_ s)) (next (in_ s) + 1) (avail (in_ s) - 1))
    by (unfold pending; apply slice_cons; lia).
  rewrite Hp in Hbs. cbn [app] in Hbs. injection Hbs as Hb Hrest.
  split; [unfold byte_at; rewrite Hb; reflexivity|].
  unfold in_holds, pending, buf_advance. cbn. rewrite guint_small by lia.
  split; [exact He|]. split; [exact Hsz|]. split; [lia|]. split; [lia|].
  split; [lia|]. exists tail. split; [exact Hrest|]. split; assumption.
Qed.

(** GZ_GETC hands out the next byte, or -1 at the end of the input. *)
Lemma GZ_GETC_holds (s : wtap_reader) (bs : list byte) :
  in_holds holds s bs ->
  exists s', GZ_GETC s = Done (getc_val bs) s' /\ in_holds holds s' (tl bs).
Proof.
  intros Hr. unfold GZ_GETC. rewrite bind_get.
  assert (Hfill : exists s1,
             (if avail (in_ s) =? 0 then attempt fill_in_buffer else ret (Some tt)) s
             = Done (Some tt) s1 /\ in_holds holds s1 bs /\
             (bs <> [] -> avail (in_ s1) <> 0) /\ (bs = [] -> avail (in_ s1) = 0)).
  { destruct (avail (in_ s) =? 0) eqn:Hav.
    - apply Z.eqb_eq in Hav.
      destruct (fill_in_buffer_holds s bs Hr Hav) as (s1 & Hf & Hr1 & Hne & Hnil & _).
      exists s1. unfold attempt. rewrite Hf. auto.
    - apply Z.eqb_neq in Hav. exists s. split; [reflexivity|]. split; [exact Hr|].
      split; [auto|]. intros ->.
      destruct Hr as (_ & _ & _ & Ha & _ & tail & Hbs & _).
      symmetry in Hbs. apply app_eq_nil in Hbs as [Hp _].
      apply (f_equal (@length byte)) in Hp. unfold pending in Hp.
      rewrite slice_length in Hp. cbn in Hp. lia. }
  destruct Hfill as (s1 & Hf & Hr1 & Hne & Hnil).
  rewrite (bind_Done _ _ _ _ _ Hf). cbv beta iota. rewrite bind_get.
  destruct bs as [|b bs].
  - rewrite (Hnil eq_refl). cbn [Z.eqb]. exists s1. split; [reflexivity|exact Hr1].
  - assert (Hav : avail (in_ s1) <> 0) by (apply Hne; discriminate).
    destruct (in_holds_head s1 b bs Hr1 Hav) as [Hb Hr2].
    apply Z.eqb_neq in Hav. rewrite Hav. rewrite bind_modify. unfold ret.
    rewrite Hb. eexists. split; [reflexivity|exact Hr2].
Qed.

(** At the end of the input, the failure that follows a GZ_GETC of -1. *)
Lemma short_read_holds {A} (s : wtap_reader) (bs : list byte) :
  in_holds holds s bs ->
  exists s', @short_read _ A s = Fail s' /\ short_read_error s'.
Proof.
  intros (He & _). unfold short_read. rewrite He. cbn [Z.eqb].
  eexists. split; [reflexivity|]. split; reflexivity.
Qed.

(** gz_next1: the next byte, or a short read at the end of the input. *)
Lemma gz_next1_holds (s : wtap_reader) (bs : list byte) :
  in_holds holds s bs ->
  match bs with
  | b :: rest => exists s', gz_next1 s = Done (byte_val b) s' /\ in_holds holds s' rest
  | [] => exists s', gz_next1 s = Fail s' /\ short_read_error s'
  end.
Proof.
  intros Hr. destruct (GZ_GETC_holds s bs Hr) as (s1 & Hg & Hr1).
  unfold gz_next1. rewrite (bind_Done _ _ _ _ _ Hg).
  destruct bs as [|b rest]; cbn [getc_val tl] in *.
  - cbn [Z.eqb]. apply (short_read_holds s1 [] Hr1).
  - pose proof (byte_val_range b) as Hb.
    destruct (byte_val b =? -1) eqn:Hm; [apply Z.eqb_eq in Hm; lia|].
    exists s1. split; [|exact Hr1].
    unfold ret, guint8. rewrite Z.mod_small by (change (2 ^ 8) with 256; lia). reflexivity.
Qed.

(** gz_next2: a two-byte little-endian value, or a short read when fewer
    than two bytes are left. *)
Lemma gz_next2_holds (s : wtap_reader) (bs : list byte) :
  in_holds holds s bs ->
  match bs with
  | b0 :: b1 :: rest =>
      exists s', gz_next2 s = Done (le16 b0 b1) s' /\ in_holds holds s' rest
  | _ => exists s', gz_next2 s = Fail s' /\ short_read_error s'
  end.
Proof.
  intros Hr. destruct (GZ_GETC_holds s bs Hr) as (s1 & Hg1 & Hr1).
  destruct (GZ_GETC_holds s1 (tl bs) Hr1) as (s2 & Hg2 & Hr2).
  unfold gz_next2. rewrite (bind_Done _ _ _ _ _ Hg1), (bind_Done _ _ _ _ _ Hg2).
  cbv zeta.
  destruct bs as [|b0 [|b1 rest]]; cbn [getc_val tl] in *.
  - cbn [Z.eqb]. apply (short_read_holds s2 [] Hr2).
  - cbn [Z.eqb]. apply (short_read_holds s2 [] Hr2).
  - pose proof (byte_val_range b0) as H0. pose proof (byte_val_range b1) as H1.
    destruct (byte_val b1 =? -1) eqn:Hm; [apply Z.eqb_eq in Hm; lia|].
    exists s2. split; [|exact Hr2].
    unfold ret, guint16, le16. rewrite Z.shiftl_mul_pow2 by lia.
    change (2 ^ 16) with 65536. change (2 ^ 8) with 256.
    rewrite (Z.mod_small (byte_val b0)) by lia.
    rewrite (Z.mod_small (byte_val b1)) by lia.
    rewrite Z.mod_small by lia. f_equal. lia.
Qed.

(** gz_next4: a four-byte little-endian value, or a short read when fewer
    than four bytes are left. *)
Lemma gz_next4_holds (s : wtap_reader) (bs : list byte) :
  in_holds holds s bs ->
  match bs with
  | b0 :: b1 :: b2 :: b3 :: rest =>
      exists s', gz_next4 s = Done (le32 b0 b1 b2 b3) s' /\ in_holds holds s' rest
  | _ => exists s', gz_next4 s = Fail s' /\ short_read_error s'
  end.
Proof.
  intros Hr. destruct (GZ_GETC_holds s bs Hr) as (s1 & Hg1 & Hr1).
  destruct (GZ_GETC_holds s1 (tl bs) Hr1) as (s2 & Hg2 & Hr2).
  destruct (GZ_GETC_holds s2 (tl (tl bs)) Hr2) as (s3 & Hg3 & Hr3).
  destruct (GZ_GETC_holds s3 (tl (tl (tl bs))) Hr3) as (s4 & Hg4 & Hr4).
  unfold gz_next4.
  rewrite (bind_Done _ _ _ _ _ Hg1), (bind_Done _ _ _ _ _ Hg2),
    (bind_Done _ _ _ _ _ Hg3), (bind_Done _ _ _ _ _ Hg4).
  cbv zeta.
  destruct bs as [|b0 [|b1 [|b2 [|b3 rest]]]]; cbn [getc_val tl] in *;
    try (cbn [Z.eqb]; apply (short_read_holds s4 [] Hr4)).
  pose proof (byte_val_range b0) as H0. pose proof (byte_val_range b1) as H1.
  pose proof (byte_val_range b2) as H2. pose proof (byte_val_range b3) as H3.
  destruct (byte_val b3 =? -1) eqn:Hm; [apply Z.eqb_eq in Hm; lia|].
  exists s4. split; [|exact Hr4].
  unfold ret, le32. rewrite !Z.shiftl_mul_pow2 by lia.
  change (2 ^ 8) with 256. change (2 ^ 16) with 65536. change (2 ^ 24) with 16777216.
  rewrite (guint_small (byte_val b0)) by lia.
  rewrite (guint_small (byte_val b1)) by lia.
  rewrite (guint_small (byte_val b2)) by lia.
  rewrite (guint_small (byte_val b3)) by lia.
  rewrite (guint_small (byte_val b1 * 256)) by lia.
  rewrite (guint_small (byte_val b2 * 65536)) by lia.
  rewrite (guint_small (byte_val b3 * 16777216)) by lia.
  rewrite (guint_small (byte_val b0 + byte_val b1 * 256)) by lia.
  rewrite (guint_small (byte_val b0 + byte_val b1 * 256 + byte_val b2 * 65536)) by lia.
  rewrite guint_small by lia. f_equal. lia.
Qed.

(** gz_skipn: [n] bytes are passed over, or a short read when fewer are
    left. *)
Lemma gz_skipn_holds (n : nat) :
  forall s bs,
    in_holds holds s bs ->
    if (n <=? length bs)%nat
    then exists s', gz_skipn n s = Done tt s' /\ in_holds holds s' (skipn n bs)
    else exists s', gz_skipn n s = Fail s' /\ short_read_error s'.
Proof.
  induction n as [|n IH]; intros s bs Hr.
  - cbn. exists s. split; [reflexivity|exact Hr].
  - destruct (GZ_GETC_holds s bs Hr) as (s1 & Hg & Hr1).
    cbn [gz_skipn]. rewrite (bind_Done _ _ _ _ _ Hg).
    destruct bs as [|b rest]; cbn [getc_val tl length skipn] in *.
    + cbn. apply (short_read_holds s1 [] Hr1).
    + pose proof (byte_val_range b) as Hb.
      destruct (byte_val b =? -1) eqn:Hm; [apply Z.eqb_eq in Hm; lia|].
      change (S n <=? S (length rest))%nat with (n <=? length rest)%nat.
      apply IH, Hr1.
Qed.

(** gz_skipzstr: the bytes through the first zero byte are passed over,
    or a short read when there is no zero byte. *)
Lemma gz_skipzstr_holds (fuel : nat) :
  forall s bs,
    in_holds holds s bs ->
    (length bs < fuel)%nat ->
    match after_zstr bs with
    | Some rest => exists s', gz_skipzstr fuel s = Done tt s' /\ in_holds holds s' rest
    | None => exists s', gz_skipzstr fuel s = Fail s' /\ short_read_error s'
    end.
Proof.
  induction fuel as [|fuel IH]; intros s bs Hr Hlen; [lia|].
  destruct (GZ_GETC_holds s bs Hr) as (s1 & Hg & Hr1).
  cbn [gz_skipzstr]. rewrite (bind_Done _ _ _ _ _ Hg).
  destruct bs as [|b rest]; cbn [getc_val tl after_zstr length] in *.
  - cbn. apply (short_read_holds s1 [] Hr1).
  - pose proof (byte_val_range b) as Hb.
    destruct (byte_val b =? 0) eqn:Hz.
    + apply Z.eqb_eq in Hz. rewrite Hz. cbn. exists s1. split; [reflexivity|exact Hr1].
    + apply Z.eqb_neq in Hz.
      destruct (0 <? byte_val b) eqn:Hp; [|apply Z.ltb_ge in Hp; lia].
      apply IH; [exact Hr1|lia].
Qed.

(** *** Reading functions against parsers *)

Lemma refines_ret (n : nat) {A} (a : A) : refines holds n (ret a) (p_ret a).
Proof.
  intros s bs Hr _. unfold agrees, p_ret, ret. split; [lia|].
  exists s. split; [reflexivity|exact Hr].
Qed.

Lemma refines_bind (n : nat) {A B} (m : M A) (p : parser A) (k : A -> M B)
    (q : A -> parser B) :
  refines holds n m p ->
  (forall a, refines holds n (k a) (q a)) ->
  refines holds n (bind m k) (p_bind p q).
Proof.
  intros Hm Hk s bs Hr Hlen. specialize (Hm s bs Hr Hlen).
  unfold agrees, p_bind in *.
  destruct (p bs) as [e|[a rest]].
  - destruct Hm as (s' & Hrun & He). exists s'. split; [|exact He].
    apply bind_Fail, Hrun.
  - destruct Hm as (Hle & s' & Hrun & Hr').
    rewrite (bind_Done _ _ _ _ _ Hrun).
    specialize (Hk a s' rest Hr' ltac:(lia)). unfold agrees in Hk.
    destruct (q a rest) as [e|[b rest']].
    + exact Hk.
    + destruct Hk as (Hle' & Hk). split; [lia|exact Hk].
Qed.

Lemma refines_if (n : nat) {A} (c : bool) (m1 m2 : M A) (p1 p2 : parser A) :
  refines holds n m1 p1 -> refines holds n m2 p2 ->
  refines holds n (if c then m1 else m2) (if c then p1 else p2).
Proof. destruct c; auto. Qed.

Lemma refines_error (n : nat) {A} (e : head_error) (v : Z) (i : option String.string) :
  (forall s, head_error_state e (set_error v i s)) ->
  refines holds n (modify (set_error v i) ;; @fail _ A) (p_fail e).
Proof.
  intros He s bs _ _. unfold agrees, p_fail. rewrite bind_modify.
  eexists. split; [reflexivity|apply He].
Qed.

Lemma refines_gz_next1 (n : nat) : refines holds n gz_next1 p_byte.
Proof.
  intros s bs Hr _. pose proof (gz_next1_holds s bs Hr) as H.
  unfold agrees, p_byte. destruct bs as [|b rest]; [exact H|].
  split; [cbn; lia|exact H].
Qed.

Lemma refines_gz_next2 (n : nat) : refines holds n gz_next2 p_le16.
Proof.
  intros s bs Hr _. pose proof (gz_next2_holds s bs Hr) as H.
  unfold agrees, p_le16. destruct bs as [|b0 [|b1 rest]]; try exact H.
  split; [cbn; lia|exact H].
Qed.

Lemma refines_gz_next4 (n : nat) : refines holds n gz_next4 p_le32.
Proof.
  intros s bs Hr _. pose proof (gz_next4_holds s bs Hr) as H.
  unfold agrees, p_le32. destruct bs as [|b0 [|b1 [|b2 [|b3 rest]]]]; try exact H.
  split; [cbn; lia|exact H].
Qed.

Lemma refines_gz_skipn (n k : nat) : refines holds n (gz_skipn k) (p_skip k).
Proof.
  intros s bs Hr _. pose proof (gz_skipn_holds k s bs Hr) as H.
  unfold agrees, p_skip. destruct (k <=? length bs)%nat; [|exact H].
  split; [rewrite length_skipn; lia|]. destruct H as (s' & H1 & H2).
  exists s'. split; assumption.
Qed.

Lemma refines_gz_skipzstr (n : nat) : refines holds n (gz_skipzstr n) p_zstr.
Proof.
  intros s bs Hr Hlen. pose proof (gz_skipzstr_holds n s bs Hr Hlen) as H.
  unfold agrees, p_zstr. destruct (after_zstr bs) as [rest|] eqn:Hz; [|exact H].
  split; [|exact H].
  clear -Hz. revert rest Hz. induction bs as [|b bs IH]; intros rest Hz; [discriminate|].
  cbn in Hz. destruct (byte_val b =? 0).
  - injection Hz as <-. cbn. lia.
  - apply IH in Hz. cbn. lia.
Qed.

(** gz_head_setup leaves the input side alone. *)
Lemma refines_gz_head_setup (n : nat) : refines holds n gz_head_setup (p_ret tt).
Proof.
  intros s bs Hr _. unfold agrees, p_ret. split; [lia|].
  unfold gz_head_setup. rewrite bind_modify, bind_get.
  set (s0 := set_is_compressed true _).
  destruct (fast_seek s0) as [arr|] eqn:Hfs.
  - rewrite bind_modify. unfold fast_seek_header.
    change (fast_seek (set_fast_seek_cur (Some (mk_cur [] 0 0)) s0)) with (fast_seek s0).
    rewrite Hfs.
    destruct (if Z.of_nat (length arr) =? 0 then None else array_last arr) as [it|].
    + destruct (fsp_out it <? pos s0); (eexists; split; [reflexivity|exact Hr]).
    + eexists; split; [reflexivity|exact Hr].
  - eexists. split; [reflexivity|exact Hr].
Qed.

Ltac refines_go :=
  repeat first
    [ apply refines_ret
    | apply refines_gz_next1
    | apply refines_gz_next2
    | apply refines_gz_next4
    | apply refines_gz_skipn
    | apply refines_gz_skipzstr
    | apply refines_gz_head_setup
    | apply refines_if
    | apply refines_error; intros;
      unfold head_error_state, unknown_method_error; cbn; split; reflexivity
    | apply refines_bind; [|intros ?] ].

Lemma ensure_input_holds (s : wtap_reader) (b : byte) (bs : list byte) :
  in_holds holds s (b :: bs) ->
  exists s', (if avail (in_ s) =? 0 then fill_in_buffer else ret tt) s = Done tt s' /\
             in_holds holds s' (b :: bs) /\ avail (in_ s') <> 0 /\ in_only s s'.
Proof.
  intros Hr. destruct (avail (in_ s) =? 0) eqn:Hav.
  - apply Z.eqb_eq in Hav.
    destruct (fill_in_buffer_holds s _ Hr Hav) as (s' & Hf & Hr' & Hne & _ & _ & _ & Hio).
    exists s'. split; [exact Hf|]. split; [exact Hr'|]. split; [|exact Hio].
    apply Hne. discriminate.
  - apply Z.eqb_neq in Hav. exists s. split; [reflexivity|]. split; [assumption|].
    split; [assumption|]. unfold in_only. repeat split; reflexivity.
Qed.

(** gz_head once ID1 ID2 were seen reads what [gzip_fields] parses. *)
Lemma gz_head_gzip_agrees (fuel : nat) (s : wtap_reader) (b : byte) (bs : list byte) :
  in_holds holds s (b :: bs) ->
  avail (in_ s) <> 0 ->
  (length bs < fuel)%nat ->
  agrees holds (gz_head_gzip fuel s) (gzip_fields bs) bs.
Proof.
  intros Hr Hav Hlen. destruct (in_holds_head s b bs Hr Hav) as [_ Hr2].
  unfold gz_head_gzip. rewrite bind_get, bind_modify. cbv beta.
  refine ((_ : refines holds fuel _ gzip_fields) _ bs Hr2 Hlen).
  unfold gzip_fields. refines_go.
Qed.

(** gz_head on an input that starts with ID1 ID2 = 1F 8B goes on to read
    the rest of a gzip header. *)
Lemma gz_head_magic (fuel : nat) (s : wtap_reader) (bs : list byte) :
  in_holds holds s (x1f :: x8b :: bs) ->
  exists s3,
    gz_head fuel s = gz_head_gzip fuel s3 /\
    in_holds holds s3 (x8b :: bs) /\ avail (in_ s3) <> 0 /\ head_frame s s3.
Proof.
  intros Hr.
  assert (H1 : exists s1,
             (if avail (in_ s) =? 0
              then fill_in_buffer ;; s <- get ;; ret (negb (avail (in_ s) =? 0))
              else ret true) s = Done true s1 /\
             in_holds holds s1 (x1f :: x8b :: bs) /\ avail (in_ s1) <> 0 /\
             in_only s s1).
  { destruct (ensure_input_holds s _ _ Hr) as (s1 & Hf & Hr1 & Hav1 & Hio).
    exists s1. split; [|split; [|split]]; try assumption.
    destruct (avail (in_ s) =? 0).
    - rewrite (bind_Done _ _ _ _ _ Hf). rewrite bind_get. unfold ret.
      apply Z.eqb_neq in Hav1. rewrite Hav1. reflexivity.
    - unfold ret in *. congruence. }
  destruct H1 as (s1 & H1 & R1 & A1 & I1).
  destruct (in_holds_head s1 _ _ R1 A1) as [B1 R2].
  destruct (ensure_input_holds _ _ _ R2) as (s3 & H3 & R3 & A3 & I3).
  destruct (in_holds_head s3 _ _ R3 A3) as [B3 _].
  exists s3. split; [|split; [exact R3|split; [exact A3|]]].
  - unfold gz_head. rewrite bind_get. rewrite (bind_Done _ _ _ _ _ H1).
    cbn [negb]. rewrite bind_get. rewrite B1.
    change (byte_val x1f =? 31) with true. cbv iota.
    rewrite bind_modify. rewrite bind_get. rewrite (bind_Done _ _ _ _ _ H3).
    rewrite bind_get. apply Z.eqb_neq in A3. rewrite A3. cbn [negb].
    rewrite B3. change (byte_val x8b =? 139) with true. cbv iota. reflexivity.
  - unfold in_only in I1, I3. cbn in I3. unfold head_frame.
    intuition congruence.
Qed.

End InputSide.

(** ** What reading a gzip header leaves alone, and what it sets up *)

Section HeadFrame.

Context {E : Env}.

Lemma in_only_refl (s : wtap_reader) : in_only s s.
Proof. unfold in_only. repeat split; reflexivity. Qed.

Lemma in_only_trans (a b c : wtap_reader) : in_only a b -> in_only b c -> in_only a c.
Proof. unfold in_only. intuition congruence. Qed.

Lemma head_frame_refl (s : wtap_reader) : head_frame s s.
Proof. unfold head_frame. repeat split; reflexivity. Qed.

Lemma head_frame_trans (a b c : wtap_reader) :
  head_frame a b -> head_frame b c -> head_frame a c.
Proof. unfold head_frame. intuition congruence. Qed.

Lemma in_only_head_frame (s s' : wtap_reader) : in_only s s' -> head_frame s s'.
Proof. unfold in_only, head_frame. tauto. Qed.

Lemma mpres_in_only_head_frame {A} (m : M A) : mpres in_only m -> mpres head_frame m.
Proof.
  intros H s. specialize (H s). unfold keeps in *.
  destruct (m s); auto using in_only_head_frame.
Qed.

End HeadFrame.

Ltac in_step :=
  unfold in_only, set_buf, buf_reset, buf_advance; cbn;
  repeat match goal with
         | |- context [if ?c then _ else _] => destruct c
         end;
  cbn; repeat split; reflexivity.

Ltac in_known := solve [auto with in_db].

Ltac in_go :=
  repeat (keeps_one (@in_only_trans _) ltac:(fun _ => in_step) ltac:(fun _ => in_known)).

Ltac in_start :=
  apply mpres_intro; [apply in_only_refl|];
  let s := fresh "s" in let H := fresh "Hcur" in intros s H.

Ltac head_step :=
  unfold head_frame; cbn; repeat split; reflexivity.

Ltac head_known :=
  first [ solve [auto with head_db]
        | solve [apply mpres_in_only_head_frame; auto with in_db] ].

Ltac head_go :=
  repeat (keeps_one (@head_frame_trans _) ltac:(fun _ => head_step)
                    ltac:(fun _ => head_known)).

Ltac head_start :=
  apply mpres_intro; [apply head_frame_refl|];
  let s := fresh "s" in let H := fresh "Hcur" in intros s H.

Create HintDb in_db.
Create HintDb head_db.

Section HeadFrameLemmas.

Context {E : Env}.

Lemma buf_read_in_only : mpres in_only (buf_read In_buf).
Proof.
  intros s. unfold keeps, buf_read.
  destruct (ws_read _ _) as [[data|e] fd']; in_step.
Qed.

Lemma fill_in_buffer_in_only : mpres in_only fill_in_buffer.
Proof.
  intros s. unfold keeps, fill_in_buffer.
  destruct (negb (err s =? 0)); [apply in_only_refl|].
  destruct (negb (eof s)); [apply buf_read_in_only|apply in_only_refl].
Qed.

Lemma short_read_in_only {A} : mpres in_only (@short_read _ A).
Proof.
  intros s. unfold keeps, short_read. destruct (err s =? 0); in_step.
Qed.

Lemma in_only_attempt {A} (m : M A) : mpres in_only m -> mpres in_only (attempt m).
Proof. apply mpres_attempt. Qed.

#[local] Hint Resolve fill_in_buffer_in_only short_read_in_only in_only_attempt : in_db.

Lemma GZ_GETC_in_only : mpres in_only GZ_GETC.
Proof. in_start. unfold GZ_GETC. in_go. Qed.

#[local] Hint Resolve GZ_GETC_in_only : in_db.

Lemma gz_next1_in_only : mpres in_only gz_next1.
Proof. in_start. unfold gz_next1. in_go. Qed.

Lemma gz_next2_in_only : mpres in_only gz_next2.
Proof. in_start. unfold gz_next2. in_go. Qed.

Lemma gz_next4_in_only : mpres in_only gz_next4.
Proof. in_start. unfold gz_next4. in_go. Qed.

Lemma gz_skipn_in_only (n : nat) : mpres in_only (gz_skipn n).
Proof. induction n as [|n IH]; in_start; cbn [gz_skipn]; in_go. Qed.

Lemma gz_skipzstr_in_only (fuel : nat) : mpres in_only (gz_skipzstr fuel).
Proof. induction fuel as [|fuel IH]; in_start; cbn [gz_skipzstr]; in_go. Qed.

#[local] Hint Resolve gz_next1_in_only gz_next2_in_only gz_next4_in_only gz_skipn_in_only
  gz_skipzstr_in_only : in_db.

Lemma fast_seek_header_head_frame (in_pos out_pos : Z) (c : compression_t) :
  mpres head_frame (fast_seek_header in_pos out_pos c).
Proof.
  intros s. unfold keeps, fast_seek_header.
  destruct (fast_seek s) as [arr|]; [|exact I].
  destruct (if Z.of_nat (length arr) =? 0 then None else array_last arr) as [it|].
  - destruct (fsp_out it <? out_pos); head_step.
  - head_step.
Qed.

#[local] Hint Resolve fast_seek_header_head_frame : head_db.

Lemma gz_head_setup_head_frame : mpres head_frame gz_head_setup.
Proof. head_start. unfold gz_head_setup. head_go. Qed.

#[local] Hint Resolve gz_head_setup_head_frame : head_db.

Lemma gz_head_gzip_head_frame (fuel : nat) : mpres head_frame (gz_head_gzip fuel).
Proof. head_start. unfold gz_head_gzip. head_go. Qed.

(** A gzip header that was read leaves the reader set up to inflate. *)
Lemma gz_head_setup_inflating (s : wtap_reader) :
  post (fun _ s' => inflating s') gz_head_setup s.
Proof.
  unfold post, gz_head_setup. rewrite bind_modify, bind_get.
  set (s0 := set_is_compressed true _).
  assert (H0 : inflating s0) by (unfold inflating; cbn; repeat split; reflexivity).
  destruct (fast_seek s0) as [arr|] eqn:Hfs; [|exact H0].
  rewrite bind_modify. unfold fast_seek_header.
  change (fast_seek (set_fast_seek_cur (Some (mk_cur [] 0 0)) s0)) with (fast_seek s0).
  rewrite Hfs.
  destruct (if Z.of_nat (length arr) =? 0 then None else array_last arr) as [it|].
  - destruct (fsp_out it <? pos s0); exact H0.
  - exact H0.
Qed.

End HeadFrameLemmas.

(** ** The byte strings that are gzip headers *)

Lemma segment_ret {A} (a : A) : segment (p_ret a) [] a.
Proof.
  split; [reflexivity|]. intros c' d H Hd. symmetry in H.
  apply app_eq_nil in H as [_ H]. congruence.
Qed.

Lemma segment_bind {A B} (p : parser A) (q : A -> parser B) (c1 c2 : list byte)
    (a : A) (b : B) :
  segment p c1 a -> segment (q a) c2 b -> segment (p_bind p q) (c1 ++ c2) b.
Proof.
  intros [P1 P2] [Q1 Q2]. split.
  - intros r. unfold p_bind. rewrite <- app_assoc, P1. apply Q1.
  - intros c' d H Hd. unfold p_bind.
    apply app_eq_app in H as [l [[H1 H2]|[H1 H2]]].
    + destruct l as [|x l].
      * rewrite app_nil_r in H1. subst c'. cbn in H2. subst d.
        rewrite <- (app_nil_r c1) at 1. rewrite P1.
        destruct c2 as [|y c2]; [congruence|].
        apply (Q2 [] (y :: c2)); [reflexivity|discriminate].
      * rewrite (P2 c' (x :: l)); [reflexivity|exact H1|discriminate].
    + subst c'. rewrite P1. apply (Q2 l d); assumption.
Qed.

Lemma segment_byte (b : byte) : segment p_byte [b] (byte_val b).
Proof.
  split; [reflexivity|]. intros c' d H Hd.
  destruct c' as [|x c']; [reflexivity|].
  injection H as _ H. symmetry in H. apply app_eq_nil in H as [_ H]. congruence.
Qed.

Lemma segment_skip (c : list byte) : segment (p_skip (length c)) c tt.
Proof.
  split.
  - intros r. unfold p_skip. rewrite length_app.
    destruct (length c <=? length c + length r)%nat eqn:H; [|apply Nat.leb_gt in H; lia].
    rewrite skipn_app, skipn_all, Nat.sub_diag. reflexivity.
  - intros c' d H Hd. unfold p_skip. subst c. rewrite length_app.
    destruct d as [|x d]; [congruence|]. cbn [length].
    destruct (length c' + S (length d) <=? length c')%nat eqn:H; [|reflexivity].
    apply Nat.leb_le in H. lia.
Qed.

Lemma segment_le16 (b0 b1 : byte) : segment p_le16 [b0; b1] (le16 b0 b1).
Proof.
  split; [reflexivity|]. intros c' d H Hd.
  destruct c' as [|x [|y c']]; try reflexivity.
  injection H as _ _ H. symmetry in H. apply app_eq_nil in H as [_ H]. congruence.
Qed.

Lemma segment_zstr (name : list byte) :
  Forall (fun b => byte_val b <> 0) name ->
  segment p_zstr (name ++ [x00]) tt.
Proof.
  intros Hn. split.
  - intros r. unfold p_zstr. rewrite <- app_assoc. cbn [app].
    induction Hn as [|b name Hb Hn IH]; [reflexivity|].
    cbn [app after_zstr]. apply Z.eqb_neq in Hb. rewrite Hb. exact IH.
  - intros c' d H Hd. unfold p_zstr.
    assert (Hc : Forall (fun b => byte_val b <> 0) c').
    { apply app_eq_app in H as [l [[H1 H2]|[H1 H2]]].
      - subst name. apply Forall_app in Hn. apply Hn.
      - destruct l as [|x l].
        + rewrite app_nil_r in H1. subst c'. exact Hn.
        + injection H2 as _ H2. symmetry in H2. apply app_eq_nil in H2 as [_ H2].
          congruence. }
    clear H. induction Hc as [|b c' Hb Hc IH]; [reflexivity|].
    cbn [after_zstr]. apply Z.eqb_neq in Hb. rewrite Hb.
    destruct (after_zstr c'); [discriminate IH|reflexivity].
Qed.

Lemma segment_if {A} (c : bool) (p1 p2 : parser A) (c1 c2 : list byte) (a : A) :
  segment p1 c1 a -> segment p2 c2 a ->
  segment (if c then p1 else p2) (if c then c1 else c2) a.
Proof. destruct c; auto. Qed.

(** [gzip_fields] parses exactly the headers of the layout, and reports
    a short input on each of their proper prefixes. *)
Lemma gzip_fields_segment (flg : byte) (six : list byte) (xlen0 xlen1 : byte)
    (extra name comment hcrc : list byte) :
  gzip_header_ok flg six xlen0 xlen1 extra name comment hcrc ->
  segment gzip_fields
          (skipn 2 (gzip_header flg six xlen0 xlen1 extra name comment hcrc)) tt.
Proof.
  intros (Hflg & Hsix & Hextra & Hname & Hcomment & Hhcrc).
  destruct six as [|a0 [|a1 [|a2 [|a3 [|a4 [|a5 [|]]]]]]]; try discriminate.
  destruct hcrc as [|h0 [|h1 [|]]]; try discriminate.
  unfold gzip_header, gzip_optional, gzip_fields. cbn [app skipn].
  apply (segment_bind p_byte _ [x08] _ _ _ (segment_byte x08)).
  change (byte_val x08 =? 8) with true. cbn [negb].
  apply (segment_bind p_byte _ [flg] _ _ _ (segment_byte flg)).
  rewrite Hflg. cbn [Z.eqb negb].
  apply (segment_bind (p_skip 4) _ [a0; a1; a2; a3] _ _ _ (segment_skip [a0; a1; a2; a3])).
  apply (segment_bind (p_skip 1) _ [a4] _ _ _ (segment_skip [a4])).
  apply (segment_bind (p_skip 1) _ [a5] _ _ _ (segment_skip [a5])).
  eapply segment_bind.
  { apply segment_if; [|apply segment_ret].
    apply (segment_bind p_le16 _ [xlen0; xlen1] _ _ _ (segment_le16 xlen0 xlen1)).
    replace (Z.to_nat (le16 xlen0 xlen1)) with (length extra) by lia.
    apply segment_skip. }
  eapply segment_bind.
  { apply segment_if; [apply segment_zstr, Hname|apply segment_ret]. }
  eapply segment_bind.
  { apply segment_if; [apply segment_zstr, Hcomment|apply segment_ret]. }
  rewrite <- (app_nil_r (if negb (Z.land (byte_val flg) 2 =? 0) then [h0; h1] else [])).
  eapply segment_bind; [|apply segment_ret].
  apply segment_if; [|apply segment_ret].
  rewrite <- (app_nil_r [h0; h1]).
  apply (segment_bind p_le16 _ [h0; h1] [] _ _ (segment_le16 h0 h1)). apply segment_ret.
Qed.

Lemma mpres_any {E : Env} {A} (m : M A) : mpres (fun _ _ => True) m.
Proof. intros s. unfold keeps. destruct (m s); exact I. Qed.

(** One step of a proof of [post Q m s] in which only the tail of [m]
    matters for [Q]. *)
Ltac post_any tail :=
  cbv beta zeta; cbn [fst snd];
  lazymatch goal with
  | |- post _ stuck _ => apply post_stuck
  | |- post _ fail _ => exact I
  | |- post _ (bind get _) _ => apply post_bind_get
  | |- post _ (bind (ret _) _) _ => apply post_bind_ret
  | |- post _ (bind (bind _ _) _) _ => apply post_bind_assoc
  | |- post _ (bind (if ?c then _ else _) _) _ => destruct c eqn:?
  | |- post _ (bind (match ?x with _ => _ end) _) _ => destruct x eqn:?
  | |- post _ (if ?c then _ else _) _ => destruct c eqn:?
  | |- post _ (match ?x with _ => _ end) _ => destruct x eqn:?
  | |- post _ (bind (modify _) _) _ => apply post_bind_modify
  | |- post _ (bind (attempt _) _) _ =>
      apply (post_bind_attempt _ (fun _ _ => True)); [ apply mpres_any | intros ? ? _ ]
  | |- post _ (bind _ _) _ =>
      apply (post_bind_call _ (fun _ _ => True)); [ apply mpres_any | intros ? ? _ ]
  | |- post _ _ _ => solve [tail tt]
  end.

Lemma gz_head_gzip_inflating {E : Env} (fuel : nat) (s : wtap_reader) :
  post (fun _ s' => inflating s') (gz_head_gzip fuel) s.
Proof.
  unfold gz_head_gzip.
  repeat (post_any ltac:(fun _ => apply gz_head_setup_inflating)).
Qed.

(** A reader fresh from the simulated file_fdopen holds the file. *)
Lemma sim_reader_holds (data : list byte) : in_holds sim_holds (sim_reader data) data.
Proof.
  unfold in_holds, pending.
  split; [vm_compute; reflexivity|].
  split; [vm_compute; split; reflexivity|].
  split; [vm_compute; congruence|].
  split; [vm_compute; congruence|].
  split; [vm_compute; congruence|].
  exists data. split; [vm_compute; reflexivity|].
  split; [unfold sim_holds; split; vm_compute; [congruence|reflexivity]|].
  vm_compute. discriminate.
Qed.

(** ** Little-endian fields *)

(** X1.  gz_next1, gz_next2 and gz_next4 read the next one, two and four
    bytes of the input as a little-endian value, however the reads of the
    file are cut into chunks and whatever is left in the input buffer, and
    move the input side past them; when fewer bytes are left before the
    end of the file they fail with WTAP_ERR_SHORT_READ and no error
    information. *)
Theorem X1_little_endian_fields {E : Env} (holds : fd_t -> list byte -> Prop)
    (s : wtap_reader) (bs : list byte) :
  file_like holds ->
  in_holds holds s bs ->
  (forall b0 rest, bs = b0 :: rest ->
     exists s', gz_next1 s = Done (byte_val b0) s' /\ in_holds holds s' rest) /\
  (bs = [] -> exists s', gz_next1 s = Fail s' /\ short_read_error s') /\
  (forall b0 b1 rest, bs = b0 :: b1 :: rest ->
     exists s', gz_next2 s = Done (byte_val b0 + 256 * byte_val b1) s' /\
                in_holds holds s' rest) /\
  ((length bs < 2)%nat -> exists s', gz_next2 s = Fail s' /\ short_read_error s') /\
  (forall b0 b1 b2 b3 rest, bs = b0 :: b1 :: b2 :: b3 :: rest ->
     exists s',
       gz_next4 s = Done (byte_val b0 + 256 * byte_val b1 + 65536 * byte_val b2
                          + 16777216 * byte_val b3) s' /\
       in_holds holds s' rest) /\
  ((length bs < 4)%nat -> exists s', gz_next4 s = Fail s' /\ short_read_error s').
Proof.
  intros Hfile Hr.
  pose proof (gz_next1_holds holds Hfile s bs Hr) as H1.
  pose proof (gz_next2_holds holds Hfile s bs Hr) as H2.
  pose proof (gz_next4_holds holds Hfile s bs Hr) as H4.
  split; [|split; [|split; [|split; [|split]]]].
  - intros b0 rest ->. exact H1.
  - intros ->. exact H1.
  - intros b0 b1 rest ->. exact H2.
  - intros Hlen. destruct bs as [|b0 [|b1 rest]]; try exact H2. cbn in Hlen. lia.
  - intros b0 b1 b2 b3 rest ->. exact H4.
  - intros Hlen. destruct bs as [|b0 [|b1 [|b2 [|b3 rest]]]]; try exact H4.
    cbn in Hlen. lia.
Qed.

Lemma X1_little_endian_fields_witness :
  exists s',
    gz_next4 (sim_reader [x78; x56; x34; x12; xff])
    = Done (byte_val x78 + 256 * byte_val x56 + 65536 * byte_val x34
            + 16777216 * byte_val x12) s' /\
    in_holds sim_holds s' [xff].
Proof.
  destruct (X1_little_endian_fields sim_holds (sim_reader [x78; x56; x34; x12; xff])
              [x78; x56; x34; x12; xff] sim_file_like (sim_reader_holds _))
    as (_ & _ & _ & _ & H4 & _).
  exact (H4 x78 x56 x34 x12 [xff] eq_refl).
Defined.

(** ** Skipping header fields *)

(** X2.  gz_skipn(n) moves the input side past the next [n] bytes, and
    gz_skipzstr past the bytes up to and including the first zero byte,
    however the reads of the file are cut into chunks; when the file ends
    before [n] bytes, or before a zero byte, they fail with
    WTAP_ERR_SHORT_READ. *)
Theorem X2_skipping_fields {E : Env} (holds : fd_t -> list byte -> Prop)
    (s : wtap_reader) (bs : list byte) :
  file_like holds ->
  in_holds holds s bs ->
  (forall n, (n <= length bs)%nat ->
     exists s', gz_skipn n s = Done tt s' /\ in_holds holds s' (skipn n bs)) /\
  (forall n, (length bs < n)%nat ->
     exists s', gz_skipn n s = Fail s' /\ short_read_error s') /\
  (forall fuel str rest,
     bs = str ++ x00 :: rest ->
     Forall (fun b => byte_val b <> 0) str ->
     (length bs < fuel)%nat ->
     exists s', gz_skipzstr fuel s = Done tt s' /\ in_holds holds s' rest) /\
  (forall fuel,
     Forall (fun b => byte_val b <> 0) bs ->
     (length bs < fuel)%nat ->
     exists s', gz_skipzstr fuel s = Fail s' /\ short_read_error s').
Proof.
  intros Hfile Hr. split; [|split; [|split]].
  - intros n Hn. pose proof (gz_skipn_holds holds Hfile n s bs Hr) as H.
    apply Nat.leb_le in Hn. rewrite Hn in H. exact H.
  - intros n Hn. pose proof (gz_skipn_holds holds Hfile n s bs Hr) as H.
    apply Nat.leb_gt in Hn. rewrite Hn in H. exact H.
  - intros fuel str rest Hbs Hstr Hlen.
    pose proof (gz_skipzstr_holds holds Hfile fuel s bs Hr Hlen) as H.
    destruct (segment_zstr str Hstr) as [Hex _]. specialize (Hex rest).
    unfold p_zstr in Hex. rewrite <- app_assoc in Hex. cbn [app] in Hex.
    rewrite <- Hbs in Hex. destruct (after_zstr bs) as [r|]; [|discriminate].
    injection Hex as ->. exact H.
  - intros fuel Hall Hlen.
    pose proof (gz_skipzstr_holds holds Hfile fuel s bs Hr Hlen) as H.
    assert (Hnone : after_zstr bs = None).
    { clear -Hall. induction Hall as [|b bs Hb Hall IH]; [reflexivity|].
      cbn. apply Z.eqb_neq in Hb. rewrite Hb. exact IH. }
    rewrite Hnone in H. exact H.
Qed.

Lemma X2_skipping_fields_witness :
  exists s',
    gz_skipzstr 8 (sim_reader [x61; x62; x00; x63]) = Done tt s' /\
    in_holds sim_holds s' [x63].
Proof.
  destruct (X2_skipping_fields sim_holds (sim_reader [x61; x62; x00; x63])
              [x61; x62; x00; x63] sim_file_like (sim_reader_holds _))
    as (_ & _ & Hz & _).
  apply (Hz 8%nat [x61; x62] [x63]).
  - reflexivity.
  - repeat constructor; vm_compute; congruence.
  - cbn. lia.
Defined.

(** ** gzip headers *)

(** X3.  gz_head accepts every gzip header: on an input that starts with
    the bytes ID1 ID2 = 1F 8B, CM = 8, a FLG byte without reserved bits,
    six bytes of MTIME, XFL and OS, and then the optional fields that FLG
    announces (XLEN and that many bytes of extra field, zero-terminated
    name, zero-terminated comment, two bytes of header CRC), it returns 0
    with the input side just past the header, the reader set up to
    inflate (compression ZLIB, is_compressed set, running checksum and
    output count reset), and the output buffer, the positions and the
    deferred skip as they were.  The header CRC is not checked. *)
Theorem X3_gzip_header_accepted {E : Env} (holds : fd_t -> list byte -> Prop)
    (fuel : nat) (s : wtap_reader) (flg : byte) (six : list byte) (xlen0 xlen1 : byte)
    (extra name comment hcrc rest : list byte) :
  file_like holds ->
  gzip_header_ok flg six xlen0 xlen1 extra name comment hcrc ->
  in_holds holds s (gzip_header flg six xlen0 xlen1 extra name comment hcrc ++ rest) ->
  (length (gzip_header flg six xlen0 xlen1 extra name comment hcrc ++ rest) <= fuel)%nat ->
  exists s',
    gz_head fuel s = Done tt s' /\
    in_holds holds s' rest /\ inflating s' /\ head_frame s s'.
Proof.
  intros Hfile Hok Hr Hfuel.
  pose proof (gzip_fields_segment _ _ _ _ _ _ _ _ Hok) as [Hex _].
  set (hdr := gzip_header flg six xlen0 xlen1 extra name comment hcrc) in *.
  set (fields := skipn 2 hdr) in *.
  assert (Hhdr : hdr = x1f :: x8b :: fields) by reflexivity.
  rewrite Hhdr in Hr, Hfuel. cbn [app length] in Hr, Hfuel.
  destruct (gz_head_magic holds Hfile fuel s _ Hr) as (s3 & Hrun & R3 & A3 & F3).
  pose proof (gz_head_gzip_agrees holds Hfile fuel s3 x8b _ R3 A3 ltac:(lia)) as Hag.
  rewrite (Hex rest) in Hag. destruct Hag as (_ & s' & Hrun' & Hr').
  exists s'. split; [congruence|]. split; [exact Hr'|]. split.
  - pose proof (gz_head_gzip_inflating fuel s3) as P. unfold post in P.
    rewrite Hrun' in P. exact P.
  - pose proof (gz_head_gzip_head_frame fuel s3) as P. unfold keeps in P.
    rewrite Hrun' in P. eapply head_frame_trans; eassumption.
Qed.

Lemma X3_gzip_header_accepted_witness :
  exists s',
    gz_head 30 (sim_reader (sim_gzip_hi xd1)) = Done tt s' /\
    in_holds sim_holds s' [x68; x69; x00; xd1; x00; x00; x00; x02; x00; x00; x00] /\
    inflating s' /\ head_frame (sim_reader (sim_gzip_hi xd1)) s'.
Proof.
  apply (X3_gzip_header_accepted sim_holds 30 (sim_reader (sim_gzip_hi xd1))
           x00 [x00; x00; x00; x00; x00; x00] x00 x00 [] [] [] [x00; x00]
           [x68; x69; x00; xd1; x00; x00; x00; x02; x00; x00; x00] sim_file_like).
  - unfold gzip_header_ok. repeat split; try reflexivity; constructor.
  - exact (sim_reader_holds (sim_gzip_hi xd1)).
  - vm_compute. lia.
Defined.

(** X4.  gz_head refuses a gzip header with a reserved flag bit: on an
    input that starts 1F 8B 08 FLG with one of the bits 0xE0 of FLG set, it
    returns -1 with the error WTAP_ERR_DECOMPRESS and the error
    information "reserved flag bits set", having left the output buffer,
    the positions and the deferred skip as they were. *)
Theorem X4_reserved_flag_bits {E : Env} (holds : fd_t -> list byte -> Prop)
    (fuel : nat) (s : wtap_reader) (flg : byte) (rest : list byte) :
  file_like holds ->
  in_holds holds s (x1f :: x8b :: x08 :: flg :: rest) ->
  Z.land (byte_val flg) 0xe0 <> 0 ->
  exists s',
    gz_head fuel s = Fail s' /\
    err s' = WTAP_ERR_DECOMPRESS /\
    err_info s' = Some "reserved flag bits set"%string /\
    head_frame s s'.
Proof.
  intros Hfile Hr Hflg.
  destruct (gz_head_magic holds Hfile fuel s _ Hr) as (s3 & Hrun & R3 & A3 & F3).
  destruct (in_holds_head holds s3 _ _ R3 A3) as [_ R4].
  pose proof (gz_next1_holds holds Hfile _ _ R4) as (s5 & H5 & R5).
  pose proof (gz_next1_holds holds Hfile _ _ R5) as (s6 & H6 & R6).
  assert (Hrun' : gz_head_gzip fuel s3
                  = Fail (set_error WTAP_ERR_DECOMPRESS
                            (Some "reserved flag bits set"%string) s6)).
  { unfold gz_head_gzip. rewrite bind_get, bind_modify.
    rewrite (bind_Done _ _ _ _ _ H5).
    change (byte_val x08 =? 8) with true. cbn [negb].
    rewrite (bind_Done _ _ _ _ _ H6).
    apply Z.eqb_neq in Hflg. rewrite Hflg. cbn [negb].
    rewrite bind_modify. reflexivity. }
  eexists. split; [rewrite Hrun; exact Hrun'|].
  split; [reflexivity|]. split; [reflexivity|].
  pose proof (gz_head_gzip_head_frame fuel s3) as P. unfold keeps in P.
  rewrite Hrun' in P. eapply head_frame_trans; eassumption.
Qed.

Lemma X4_reserved_flag_bits_witness :
  exists s',
    gz_head 3 (sim_reader [x1f; x8b; x08; x20; x00]) = Fail s' /\
    err s' = WTAP_ERR_DECOMPRESS /\
    err_info s' = Some "reserved flag bits set"%string /\
    head_frame (sim_reader [x1f; x8b; x08; x20; x00]) s'.
Proof.
  apply (X4_reserved_flag_bits sim_holds 3 (sim_reader [x1f; x8b; x08; x20; x00])
           x20 [x00] sim_file_like (sim_reader_holds _)).
  vm_compute. congruence.
Defined.

(** X5.  A gzip header cut short by the end of the file is a short read:
    when the file holds only a proper prefix, of at least two bytes, of a
    gzip header (of the layout of X3), gz_head returns -1 with the error
    WTAP_ERR_SHORT_READ and no error information, wherever the cut falls
    and however the reads are cut into chunks. *)
Theorem X5_truncated_gzip_header {E : Env} (holds : fd_t -> list byte -> Prop)
    (fuel : nat) (s : wtap_reader) (flg : byte) (six : list byte) (xlen0 xlen1 : byte)
    (extra name comment hcrc : list byte) (k : nat) :
  file_like holds ->
  gzip_header_ok flg six xlen0 xlen1 extra name comment hcrc ->
  (2 <= k < length (gzip_header flg six xlen0 xlen1 extra name comment hcrc))%nat ->
  in_holds holds s (firstn k (gzip_header flg six xlen0 xlen1 extra name comment hcrc)) ->
  (k <= fuel)%nat ->
  exists s',
    gz_head fuel s = Fail s' /\ short_read_error s' /\ head_frame s s'.
Proof.
  intros Hfile Hok Hk Hr Hfuel.
  pose proof (gzip_fields_segment _ _ _ _ _ _ _ _ Hok) as [_ Hcut].
  set (hdr := gzip_header flg six xlen0 xlen1 extra name comment hcrc) in *.
  set (fields := skipn 2 hdr) in *.
  assert (Hhdr : hdr = x1f :: x8b :: fields) by reflexivity.
  rewrite Hhdr in Hr, Hk. cbn [length] in Hk.
  destruct k as [|[|k]]; try lia. cbn [firstn] in Hr.
  destruct (gz_head_magic holds Hfile fuel s _ Hr) as (s3 & Hrun & R3 & A3 & F3).
  assert (Hlen : (length (firstn k fields) < fuel)%nat)
    by (rewrite length_firstn; lia).
  pose proof (gz_head_gzip_agrees holds Hfile fuel s3 x8b _ R3 A3 Hlen) as Hag.
  rewrite (Hcut (firstn k fields) (skipn k fields)) in Hag.
  - destruct Hag as (s' & Hrun' & Herr). exists s'.
    split; [congruence|]. split; [exact Herr|].
    pose proof (gz_head_gzip_head_frame fuel s3) as P. unfold keeps in P.
    rewrite Hrun' in P. eapply head_frame_trans; eassumption.
  - symmetry. apply firstn_skipn.
  - intros Hnil. apply (f_equal (@length byte)) in Hnil.
    rewrite length_skipn in Hnil. cbn [length] in Hnil. lia.
Qed.

Lemma X5_truncated_gzip_header_witness :
  exists s',
    gz_head 7 (sim_reader [x1f; x8b; x08; x00; x00; x00; x00]) = Fail s' /\
    short_read_error s' /\
    head_frame (sim_reader [x1f; x8b; x08; x00; x00; x00; x00]) s'.
Proof.
  apply (X5_truncated_gzip_header sim_holds 7
           (sim_reader [x1f; x8b; x08; x00; x00; x00; x00])
           x00 [x00; x00; x00; x00; x00; x00] x00 x00 [] [] [] [x00; x00] 7 sim_file_like).
  - unfold gzip_header_ok. repeat split; try reflexivity; constructor.
  - vm_compute. lia.
  - exact (sim_reader_holds _).
  - lia.
Defined.

(** ** Plain files are passed through *)

Lemma magic4_slice (b : list byte) (m0 m1 m2 m3 : byte) (n : Z) :
  magic4 b (byte_val m0) (byte_val m1) (byte_val m2) (byte_val m3) = true ->
  4 <= n ->
  slice b 0 n = m0 :: m1 :: m2 :: m3 :: slice b 4 (n - 4).
Proof.
  unfold magic4, byte_at. intros H Hn.
  apply andb_prop in H as [H H3]. apply andb_prop in H as [H H2].
  apply andb_prop in H as [H0 H1].
  apply Z.eqb_eq, byte_val_inj in H0, H1, H2, H3.
  change (Z.to_nat 0) with 0%nat in H0. change (Z.to_nat 1) with 1%nat in H1.
  change (Z.to_nat 2) with 2%nat in H2. change (Z.to_nat 3) with 3%nat in H3.
  rewrite (slice_cons b 0 n) by lia. rewrite (slice_cons b (0 + 1) (n - 1)) by lia.
  rewrite (slice_cons b (0 + 1 + 1) (n - 1 - 1)) by lia.
  rewrite (slice_cons b (0 + 1 + 1 + 1) (n - 1 - 1 - 1)) by lia.
  change (Z.to_nat 0) with 0%nat. change (Z.to_nat (0 + 1)) with 1%nat.
  change (Z.to_nat (0 + 1 + 1)) with 2%nat. change (Z.to_nat (0 + 1 + 1 + 1)) with 3%nat.
  rewrite H0, H1, H2, H3. do 4 f_equal. f_equal; lia.
Qed.

Section Plain.

Context {E : Env} (holds : fd_t -> list byte -> Prop) (Hfile : file_like holds).

(** No magic number of zstd or lz4 is seen in the first bytes of a plain
    file. *)
Lemma head_read_no_magic (s : wtap_reader) (data p : list byte) :
  head_read holds s data p ->
  (4 <=? avail (in_ s)) && magic4 (buf (in_ s)) 0x28 0xb5 0x2f 0xfd = false /\
  (4 <=? avail (in_ s)) && magic4 (buf (in_ s)) 0x04 0x22 0x4d 0x18 = false.
Proof.
  intros (_ & _ & _ & _ & _ & Hn & Ha & Hsum & _ & Hz & Hp & _ & Hd & Hplain & _).
  destruct Hplain as (_ & Hzstd & Hlz4).
  destruct (4 <=? avail (in_ s)) eqn:H4; [|split; reflexivity].
  apply Z.leb_le in H4. specialize (Hz H4).
  assert (Hlen : 4 <= Z.of_nat (length p)) by lia.
  cbn [andb]. split.
  - destruct (magic4 (buf (in_ s)) 40 181 47 253) eqn:Hm; [|reflexivity].
    exfalso. apply (magic4_slice _ x28 xb5 x2f xfd _ Hm) in Hlen.
    rewrite Hp in Hlen. rewrite Hlen in Hd. cbn [app] in Hd. exact (Hzstd _ Hd).
  - destruct (magic4 (buf (in_ s)) 4 34 77 24) eqn:Hm; [|reflexivity].
    exfalso. apply (magic4_slice _ x04 x22 x4d x18 _ Hm) in Hlen.
    rewrite Hp in Hlen. rewrite Hlen in Hd. cbn [app] in Hd. exact (Hlz4 _ Hd).
Qed.

(** gz_head's last step on a plain file: what was read into the input
    buffer is moved to the output buffer and the reader goes to raw mode. *)
Lemma gz_head_other_plain (s : wtap_reader) (data p : list byte) :
  head_read holds s data p ->
  exists s',
    gz_head_other s = Done tt s' /\ plain_holds holds s' data /\
    avail (out s') <> 0 /\ pos s' = pos s.
Proof.
  intros Hhr. destruct (head_read_no_magic s data p Hhr) as [Hzstd Hlz4].
  destruct Hhr as (He & Hsz & Hsp & Hic & Hao & Hn & Ha & Hsum & Hfit & _ & Hp & Hne
                   & Hd & Hplain & Hh & Heof).
  unfold gz_head_other. rewrite bind_get. rewrite Hzstd, Hlz4.
  assert (Hidx : exists s1,
             match fast_seek s with
             | Some _ =>
                 fast_seek_header (raw_pos s - avail (in_ s) - avail (out s)) (pos s)
                                  UNCOMPRESSED
             | None => ret tt
             end s = Done tt s1 /\
             s1 = set_fast_seek (fast_seek s1) s).
  { destruct (fast_seek s) as [arr|] eqn:Hfs.
    - unfold fast_seek_header. rewrite Hfs.
      destruct (if Z.of_nat (length arr) =? 0 then None else array_last arr) as [it|].
      + destruct (fsp_out it <? pos s).
        * eexists. split; [reflexivity|]. reflexivity.
        * exists s. split; [reflexivity|]. destruct s; reflexivity.
      + eexists. split; [reflexivity|]. reflexivity.
    - exists s. split; [reflexivity|]. destruct s; reflexivity. }
  destruct Hidx as (s1 & Hrun & Hs1).
  rewrite (bind_Done _ _ _ _ _ Hrun). unfold modify.
  assert (Hlen : 0 < Z.of_nat (length p)) by (destruct p; [congruence|cbn; lia]).
  eexists. split; [reflexivity|].
  rewrite Hs1. cbn. unfold bytes_in_buffer. cbn.
  rewrite (guint_small (next (in_ s) + avail (in_ s))) by lia.
  rewrite Hsum.
  destruct (Z.of_nat (length p) =? 0) eqn:Hz; [apply Z.eqb_eq in Hz; lia|].
  cbn. split; [|split; [lia|reflexivity]].
  unfold plain_holds, out_pending. cbn.
  split; [exact He|]. split; [exact Hsz|]. split; [exact Hsp|]. split; [exact Hic|].
  split; [reflexivity|].
  exists (skipn (length p) data). split; [exact Hh|]. split; [exact Heof|].
  right. split; [reflexivity|]. split; [lia|]. split; [lia|]. split; [lia|].
  rewrite Hp. rewrite slice_memcpy_at. exact Hd.
Qed.

(** fill_in_buffer on an empty input buffer with room after its cursor. *)
Lemma fill_in_buffer_at (s : wtap_reader) (tail : list byte) :
  err s = 0 -> 0 < size s < 2 ^ 32 ->
  0 <= next (in_ s) < size s -> avail (in_ s) = 0 -> eof s = false ->
  holds (fd s) tail ->
  exists c f1,
    c = firstn (length c) tail /\ (tail <> [] -> c <> []) /\
    holds f1 (skipn (length c) tail) /\
    next (in_ s) + Z.of_nat (length c) <= size s /\
    fill_in_buffer s =
    Done tt (set_in (mk_buf (memcpy_at (buf (in_ s)) (next (in_ s)) c) (next (in_ s))
                            (Z.of_nat (length c)))
               (set_raw_pos (raw_pos s + Z.of_nat (length c))
                  (if Z.of_nat (length c) =? 0
                   then set_eof true (set_fd f1 s) else set_fd f1 s))).
Proof.
  intros He Hsz Hn Hav Heof Hh.
  destruct (buf_read_holds holds Hfile In_buf s tail Hsz) as
    (c & f1 & rp & Hpre & Hne & Hh' & Hrp & Hfit & Hwhere & Hrun); auto.
  { cbn [get_buf]. lia. }
  cbn [get_buf set_buf] in *.
  assert (rp = next (in_ s)) by lia. subst rp.
  exists c, f1. split; [exact Hpre|]. split; [exact Hne|]. split; [exact Hh'|].
  split; [exact Hfit|].
  unfold fill_in_buffer. rewrite He, Heof. cbn [Z.eqb negb]. exact Hrun.
Qed.

Lemma byte_at_memcpy_at (l : list byte) (off : Z) (data : list byte) (i : nat) :
  0 <= off -> (i < length data)%nat ->
  byte_at (memcpy_at l off data) (off + Z.of_nat i) = byte_val (nth i data x00).
Proof.
  intros Hoff Hi. unfold byte_at. rewrite memcpy_at_nth.
  replace (Z.to_nat (off + Z.of_nat i)) with (Z.to_nat off + i)%nat by lia.
  destruct (Z.to_nat off + i <? Z.to_nat off)%nat eqn:H1; [apply Nat.ltb_lt in H1; lia|].
  destruct (Z.to_nat off + i <? Z.to_nat off + length data)%nat eqn:H2;
    [|apply Nat.ltb_ge in H2; lia].
  do 2 f_equal. lia.
Qed.

Lemma firstn_add (l : list byte) (a b : nat) :
  firstn a l ++ firstn b (skipn a l) = firstn (a + b) l.
Proof.
  revert l. induction a as [|a IH]; intros l; [reflexivity|].
  destruct l as [|x l]; [cbn; rewrite firstn_nil; reflexivity|].
  cbn. f_equal. apply IH.
Qed.

(** gz_head on a plain file that is not empty: the first bytes are read,
    no magic number is found, and the last step is left to do. *)
Lemma gz_head_plain (fuel : nat) (s : wtap_reader) (data : list byte) :
  err s = 0 -> 2 <= size s < 2 ^ 32 -> seek_pending s = false ->
  is_compressed s = false -> avail (in_ s) = 0 -> next (in_ s) = 0 ->
  avail (out s) = 0 -> eof s = false ->
  holds (fd s) data -> plain_start data -> data <> [] ->
  exists s1 p,
    gz_head fuel s = gz_head_other s1 /\ head_read holds s1 data p /\ pos s1 = pos s.
Proof.
  intros He Hsz Hsp Hic Hav Hnx Hao Heof Hh Hplain Hne.
  destruct (fill_in_buffer_at s data He ltac:(lia) ltac:(lia) Hav Heof Hh)
    as (c & f1 & Hc & Hcne & Hh1 & Hfit1 & Hrun1).
  specialize (Hcne Hne). rewrite Hnx in *.
  destruct c as [|b c']; [congruence|].
  assert (Hz : (Z.of_nat (length (b :: c')) =? 0) = false)
    by (apply Z.eqb_neq; cbn [length]; lia).
  rewrite Hz in Hrun1.
  set (B1 := memcpy_at (buf (in_ s)) 0 (b :: c')) in *.
  set (s1 := set_in _ _) in Hrun1.
  assert (Hd1 : data = (b :: c') ++ skipn (length (b :: c')) data)
    by (rewrite Hc at 1; symmetry; apply firstn_skipn).
  assert (Hhave : (fill_in_buffer ;; s <- get ;; ret (negb (avail (in_ s) =? 0))) s
                  = Done true s1).
  { rewrite (bind_Done _ _ _ _ _ Hrun1). rewrite bind_get. unfold ret.
    change (avail (in_ s1)) with (Z.of_nat (length (b :: c'))). rewrite Hz. reflexivity. }
  unfold gz_head. rewrite bind_get. rewrite Hav. cbn [Z.eqb].
  rewrite (bind_Done _ _ _ _ _ Hhave). cbn [negb]. rewrite bind_get.
  change (buf (in_ s1)) with B1. change (next (in_ s1)) with 0.
  assert (Hb : byte_at B1 0 = byte_val b)
    by (apply (byte_at_memcpy_at (buf (in_ s)) 0 (b :: c') 0); cbn; lia).
  rewrite Hb.
  assert (Hslice1 : slice B1 0 (Z.of_nat (length (b :: c'))) = b :: c')
    by apply slice_memcpy_at.
  destruct (byte_val b =? 31) eqn:H31.
  - (* the first byte is ID1 *)
    apply Z.eqb_eq in H31. change 31 with (byte_val x1f) in H31.
    apply byte_val_inj in H31. subst b.
    rewrite bind_modify, bind_get.
    change (avail (in_ (set_in (buf_advance 1 (in_ s1)) s1)))
      with (guint (Z.of_nat (length (x1f :: c')) - 1)).
    rewrite (guint_small (Z.of_nat (length (x1f :: c')) - 1))
      by (cbn [length] in *; lia).
    destruct c' as [|b2 c''].
    + (* only one byte was read: read on *)
      change (Z.of_nat (length [x1f]) - 1 =? 0) with true. cbv iota.
      set (s2 := set_in (buf_advance 1 (in_ s1)) s1).
      destruct (fill_in_buffer_at s2 (skipn 1 data) He ltac:(cbn; lia) ltac:(cbn; lia)
                  eq_refl Heof Hh1)
        as (c2 & f2 & Hc2 & Hc2ne & Hh2 & Hfit2 & Hrun2).
      rewrite (bind_Done _ _ _ _ _ Hrun2). rewrite bind_get.
      change (next (in_ s2)) with (0 + 1) in *.
      change (buf (in_ s2)) with B1 in *.
      match goal with
      | |- context [avail (in_ ?t)] =>
          change (avail (in_ t)) with (Z.of_nat (length c2))
      end.
      assert (Hs01 : slice (memcpy_at B1 (0 + 1) c2) 0 1 = [x1f]).
      { rewrite slice_memcpy_at_before by lia.
        change 1 with (Z.of_nat (length [x1f])). exact Hslice1. }
      destruct c2 as [|b2 c2'].
      * (* the file has this one byte *)
        change (Z.of_nat (length (@nil byte)) =? 0) with true. cbn [negb].
        eexists. exists [x1f]. split; [reflexivity|]. split; [|reflexivity].
        unfold head_read. cbn.
        split; [exact He|]. split; [exact Hsz|]. split; [exact Hsp|]. split; [exact Hic|].
        split; [exact Hao|]. split; [lia|]. split; [lia|]. split; [reflexivity|].
        split; [lia|]. split; [lia|]. split; [exact Hs01|]. split; [discriminate|].
        split; [exact Hd1|]. split; [exact Hplain|]. split; [exact Hh2|].
        intros _. clear -Hc2ne. destruct data as [|d0 [|d1 data']]; try reflexivity.
        exfalso. apply Hc2ne; [discriminate|reflexivity].
      * assert (Hz2 : (Z.of_nat (length (b2 :: c2')) =? 0) = false)
          by (apply Z.eqb_neq; cbn [length]; lia).
        rewrite Hz2. cbn [negb].
        match goal with
        | |- context [byte_at (buf (in_ ?t)) (next (in_ ?t))] =>
            change (byte_at (buf (in_ t)) (next (in_ t)))
              with (byte_at (memcpy_at B1 (0 + 1) (b2 :: c2')) (0 + 1 + Z.of_nat 0))
        end.
        rewrite (byte_at_memcpy_at B1 (0 + 1) (b2 :: c2') 0) by (cbn; lia).
        cbn [nth].
        assert (Hsk : skipn 1 data
                      = (b2 :: c2') ++ skipn (length (b2 :: c2')) (skipn 1 data))
          by (rewrite Hc2 at 1; symmetry; apply firstn_skipn).
        assert (Hd2 : data = (x1f :: b2 :: c2') ++ skipn (length (x1f :: b2 :: c2')) data).
        { rewrite Hd1 at 1. change (length [x1f]) with 1%nat. rewrite Hsk at 1.
          rewrite skipn_skipn. cbn [app length].
          replace (S (length c2') + 1)%nat with (S (S (length c2'))) by lia.
          reflexivity. }
        destruct (byte_val b2 =? 139) eqn:H139.
        { exfalso. apply Z.eqb_eq in H139. change 139 with (byte_val x8b) in H139.
          apply byte_val_inj in H139. subst b2. destruct Hplain as (Hgz & _).
          exact (Hgz _ Hd2). }
        rewrite bind_modify.
        assert (Hs02 : slice (memcpy_at B1 (0 + 1) (b2 :: c2')) 0
                             (Z.of_nat (length (x1f :: b2 :: c2')))
                       = x1f :: b2 :: c2').
        { replace (Z.of_nat (length (x1f :: b2 :: c2')))
            with (1 + Z.of_nat (length (b2 :: c2'))) by (cbn [length]; lia).
          rewrite slice_app by lia. rewrite Hs01. rewrite slice_memcpy_at. reflexivity. }
        eexists. exists (x1f :: b2 :: c2'). split; [reflexivity|]. split; [|reflexivity].
        change (size s2) with (size s) in Hfit2.
        rewrite skipn_skipn in Hh2.
        replace (length (b2 :: c2') + 1)%nat with (length (x1f :: b2 :: c2')) in Hh2
          by (cbn [length]; lia).
        unfold head_read. cbn -[Z.of_nat length slice memcpy_at guint skipn].
        rewrite (guint_small (Z.of_nat (length (b2 :: c2')) + 1))
          by (cbn [length] in *; lia).
        split; [exact He|]. split; [exact Hsz|]. split; [exact Hsp|]. split; [exact Hic|].
        split; [exact Hao|]. split; [lia|]. split; [lia|].
        split; [cbn [length]; lia|]. split; [cbn [length] in *; lia|].
        split; [reflexivity|]. split; [exact Hs02|]. split; [discriminate|].
        split; [exact Hd2|]. split; [exact Hplain|]. split; [exact Hh2|].
        intros H. congruence.
    + (* at least two bytes were read *)
      assert (Hz1 : (Z.of_nat (length (x1f :: b2 :: c'')) - 1 =? 0) = false)
        by (apply Z.eqb_neq; cbn [length]; lia).
      rewrite Hz1. rewrite bind_ret, bind_get.
      set (s2 := set_in (buf_advance 1 (in_ s1)) s1).
      change (avail (in_ s2)) with (guint (Z.of_nat (length (x1f :: b2 :: c'')) - 1)).
      rewrite (guint_small (Z.of_nat (length (x1f :: b2 :: c'')) - 1))
        by (cbn [length] in *; lia).
      rewrite Hz1. cbn [negb].
      change (byte_at (buf (in_ s2)) (next (in_ s2))) with (byte_at B1 (0 + Z.of_nat 1)).
      unfold B1 at 1.
      rewrite (byte_at_memcpy_at (buf (in_ s)) 0 (x1f :: b2 :: c'') 1) by (cbn; lia).
      cbn [nth].
      destruct (byte_val b2 =? 139) eqn:H139.
      { exfalso. apply Z.eqb_eq in H139. change 139 with (byte_val x8b) in H139.
        apply byte_val_inj in H139. subst b2. destruct Hplain as (Hgz & _).
        exact (Hgz _ Hd1). }
      rewrite bind_modify.
      eexists. exists (x1f :: b2 :: c''). split; [reflexivity|]. split; [|reflexivity].
      unfold head_read. cbn -[Z.of_nat length slice memcpy_at guint skipn].
      rewrite (guint_small (Z.of_nat (length (x1f :: b2 :: c'')) - 1 + 1))
        by (cbn [length] in *; lia).
      split; [exact He|]. split; [exact Hsz|]. split; [exact Hsp|]. split; [exact Hic|].
      split; [exact Hao|]. split; [lia|]. split; [lia|].
      split; [lia|]. split; [lia|].
      split; [reflexivity|]. split; [exact Hslice1|]. split; [discriminate|].
      split; [exact Hd1|]. split; [exact Hplain|]. split; [exact Hh1|].
      intros H. congruence.
  - (* the first byte is not ID1 *)
    exists s1, (b :: c'). split; [reflexivity|]. split; [|reflexivity].
    unfold head_read. cbn -[Z.of_nat length slice memcpy_at guint skipn].
    split; [exact He|]. split; [exact Hsz|]. split; [exact Hsp|]. split; [exact Hic|].
    split; [exact Hao|]. split; [lia|]. split; [lia|].
    split; [lia|]. split; [lia|].
    split; [reflexivity|]. split; [exact Hslice1|]. split; [discriminate|].
    split; [exact Hd1|]. split; [exact Hplain|]. split; [exact Hh1|].
    intros H. congruence.
Qed.

(** fill_out_buffer on a plain file, with nothing pending: the next bytes
    of the file arrive in the output buffer; at the end of the file the
    eof flag is set. *)
Lemma fill_out_buffer_plain (fuel : nat) (s : wtap_reader) (rest : list byte) :
  plain_holds holds s rest ->
  avail (out s) = 0 -> eof s = false ->
  exists s',
    fill_out_buffer fuel s = Done tt s' /\ plain_holds holds s' rest /\
    pos s' = pos s /\
    (rest <> [] -> avail (out s') <> 0) /\
    (rest = [] -> eof s' = true /\ avail (out s') = 0).
Proof.
  intros (He & Hsz & Hsp & Hic & Hai & tail & Hh & Heof' & Hmode) Hao Heof.
  unfold fill_out_buffer. rewrite bind_get.
  destruct Hmode as [(Hc & Hnx & _ & Hrest & Hplain)|(Hc & Hn0 & Ha0 & Hfit & Hrest)].
  - (* format still unknown *)
    subst rest. rewrite Hc. cbn [compression_eqb].
    destruct tail as [|b tail].
    + destruct (fill_in_buffer_at s [] He ltac:(lia) ltac:(lia) Hai Heof Hh)
        as (c & f1 & Hpre & _ & Hh1 & _ & Hrun1).
      rewrite firstn_nil in Hpre. subst c. cbn [length Z.of_nat Z.eqb skipn] in *.
      assert (Hhead : gz_head fuel s
                      = Done tt (set_in (mk_buf (memcpy_at (buf (in_ s)) (next (in_ s)) [])
                                                (next (in_ s)) 0)
                                   (set_raw_pos (raw_pos s + 0)
                                      (set_eof true (set_fd f1 s))))).
      { unfold gz_head. rewrite bind_get. rewrite Hai. cbn [Z.eqb].
        rewrite bind_assoc_eq. rewrite (bind_Done _ _ _ _ _ Hrun1).
        rewrite bind_assoc_eq, bind_get, bind_ret. reflexivity. }
      rewrite bind_assoc_eq. rewrite (bind_Done _ _ _ _ _ Hhead).
      mnorm. cbn. rewrite Hao. cbn. mnorm. cbn.
      rewrite Hc. eexists. split; [reflexivity|].
      split; [|split; [reflexivity|split; [congruence|]]].
      * unfold plain_holds. cbn.
        split; [exact He|]. split; [exact Hsz|]. split; [exact Hsp|]. split; [exact Hic|].
        split; [reflexivity|]. exists []. split; [exact Hh1|]. split; [reflexivity|].
        left. split; [exact Hc|]. split; [exact Hnx|]. split; [exact Hao|].
        split; [reflexivity|exact Hplain].
      * intros _. cbn. split; [reflexivity|exact Hao].
    + destruct (gz_head_plain fuel s (b :: tail) He Hsz Hsp Hic Hai Hnx Hao Heof Hh Hplain
                  ltac:(discriminate)) as (s1 & p & Hhead & Hhr & Hpos1).
      destruct (gz_head_other_plain s1 _ p Hhr) as (s' & Hother & Hpl & Havail & Hpos).
      rewrite bind_assoc_eq. rewrite (bind_cong _ _ _ _ _ Hhead).
      rewrite (bind_Done _ _ _ _ _ Hother). mnorm.
      apply Z.eqb_neq in Havail. rewrite Havail. cbn [negb].
      exists s'. split; [reflexivity|]. split; [exact Hpl|]. split; [congruence|].
      apply Z.eqb_neq in Havail. split; [auto|discriminate].
  - (* raw mode *)
    assert (Hp0 : out_pending s = []) by (unfold out_pending; rewrite Hao; reflexivity).
    rewrite Hp0 in Hrest. cbn [app] in Hrest. subst rest.
    rewrite Hc. cbn [compression_eqb]. rewrite bind_ret. cbv iota. rewrite bind_get.
    rewrite Hc.
    destruct (buf_read_holds holds Hfile Out_buf s tail ltac:(lia)) as
      (c & f1 & rp & Hpre & Hne & Hh1 & Hrp & Hfit1 & _ & Hrun); auto.
    { cbn [get_buf]. lia. }
    cbn [get_buf set_buf] in Hrun. rewrite Hrun.
    eexists. split; [reflexivity|].
    assert (Hd : tail = c ++ skipn (length c) tail)
      by (rewrite Hpre at 1; symmetry; apply firstn_skipn).
    split; [|split; [|split]].
    + unfold plain_holds, out_pending.
      destruct (Z.of_nat (length c) =? 0) eqn:Hz; cbn -[Z.of_nat length slice memcpy_at skipn];
        (split; [exact He|]; split; [exact Hsz|]; split; [exact Hsp|]; split; [exact Hic|];
         split; [exact Hai|]; exists (skipn (length c) tail); split; [exact Hh1|]; split;
         [|right; split; [exact Hc|]; split; [lia|]; split; [lia|]; split; [lia|];
           rewrite slice_memcpy_at; exact Hd]).
      * intros _. apply Z.eqb_eq in Hz. destruct c; [|cbn in Hz; lia].
        destruct tail as [|b tail]; [reflexivity|]. exfalso. apply Hne; congruence.
      * intros H. congruence.
    + destruct (Z.of_nat (length c) =? 0); reflexivity.
    + intros Htail. specialize (Hne Htail).
      destruct (Z.of_nat (length c) =? 0); cbn; destruct c; try congruence; cbn; lia.
    + intros ->. rewrite firstn_nil in Hpre. subst c. cbn. split; reflexivity.
Qed.

Lemma attempt_Done {A} (m : M A) (s : wtap_reader) (a : A) (s' : wtap_reader) :
  m s = Done a s' -> attempt m s = Done (Some a) s'.
Proof. intros H. unfold attempt. rewrite H. reflexivity. Qed.

(** With bytes pending, the reader is in raw mode and [rest] starts with
    them. *)
Lemma plain_pending (s : wtap_reader) (rest : list byte) :
  plain_holds holds s rest ->
  avail (out s) <> 0 ->
  0 < avail (out s) <= size s /\ 0 <= next (out s) /\
  exists tail, rest = out_pending s ++ tail /\
               length (out_pending s) = Z.to_nat (avail (out s)).
Proof.
  intros (_ & _ & _ & _ & _ & tail & _ & _ & Hmode) Hav.
  destruct Hmode as [(_ & _ & Hao & _)|(_ & Hn0 & Ha0 & Hfit & Hrest)]; [congruence|].
  split; [lia|]. split; [exact Hn0|]. exists tail. split; [exact Hrest|].
  unfold out_pending. apply slice_length.
Qed.

(** Consuming [n] of the pending bytes. *)
Lemma plain_consume (s : wtap_reader) (rest : list byte) (n : Z) :
  plain_holds holds s rest ->
  0 < n <= avail (out s) ->
  plain_holds holds (consume n s) (skipn (Z.to_nat n) rest) /\
  slice (buf (out s)) (next (out s)) n = firstn (Z.to_nat n) rest /\
  (Z.to_nat n <= length rest)%nat.
Proof.
  intros Hpl Hn.
  destruct (plain_pending s rest Hpl ltac:(lia)) as (Hav & Hnx & tail' & Hrest' & Hlen).
  destruct Hpl as (He & Hsz & Hsp & Hic & Hai & tail & Hh & Heof & Hmode).
  destruct Hmode as [(_ & _ & Hao & _)|(Hc & Hn0 & Ha0 & Hfit & Hrest)]; [lia|].
  assert (Hskip : skipn (Z.to_nat n) rest
                  = slice (buf (out s)) (next (out s) + n) (avail (out s) - n) ++ tail).
  { rewrite Hrest. rewrite skipn_app. unfold out_pending at 1.
    rewrite slice_skipn by lia. f_equal.
    replace (Z.to_nat n - length (out_pending s))%nat with 0%nat by lia. reflexivity. }
  split; [|split].
  - unfold plain_holds, out_pending, consume, buf_advance.
    cbn -[slice skipn]. rewrite (guint_small (avail (out s) - n)) by lia.
    split; [exact He|]. split; [exact Hsz|]. split; [exact Hsp|]. split; [exact Hic|].
    split; [exact Hai|]. exists tail. split; [exact Hh|]. split; [exact Heof|].
    right. split; [exact Hc|]. split; [lia|]. split; [lia|]. split; [lia|exact Hskip].
  - rewrite Hrest. rewrite firstn_app.
    replace (Z.to_nat n - length (out_pending s))%nat with 0%nat by lia.
    rewrite firstn_O, app_nil_r. unfold out_pending. symmetry. apply slice_firstn. lia.
  - rewrite Hrest, length_app. lia.
Qed.

(** The loop of file_read on a plain file delivers the next bytes of the
    file, as many as asked for or as are left. *)
Lemma file_read_loop_plain (fuel : nat) :
  forall len got copied s rest,
    plain_holds holds s rest ->
    0 < len -> 0 <= got -> got + len < 2 ^ 31 ->
    (plain_fuel s rest < fuel)%nat ->
    exists s',
      file_read_loop fuel false len got copied s
      = Done (got + Z.of_nat (Nat.min (Z.to_nat len) (length rest)),
              copied ++ firstn (Nat.min (Z.to_nat len) (length rest)) rest) s' /\
      plain_holds holds s' (skipn (Nat.min (Z.to_nat len) (length rest)) rest) /\
      pos s' = pos s + Z.of_nat (Nat.min (Z.to_nat len) (length rest)) /\
      ((length rest < Z.to_nat len)%nat -> file_eof s' = true).
Proof.
  induction fuel as [|fuel IH]; intros len got copied s rest Hpl Hlen Hgot Hsum Hfuel;
    [lia|].
  pose proof Hpl as (He & Hsz & Hsp & Hic & Hai & tail & Hh & Heof' & Hmode).
  cbn [file_read_loop]. rewrite bind_get.
  destruct (avail (out s) =? 0) eqn:Hav.
  - (* nothing pending *)
    apply Z.eqb_eq in Hav. cbn [negb]. rewrite He. cbn [Z.eqb negb].
    rewrite Hai. cbn [Z.eqb]. rewrite andb_true_r.
    destruct (eof s) eqn:Heof.
    + (* end of the file *)
      assert (Hrest : rest = []).
      { specialize (Heof' eq_refl). subst tail.
        destruct Hmode as [(_ & _ & _ & Hr & _)|(_ & _ & _ & _ & Hr)]; [exact Hr|].
        rewrite Hr. unfold out_pending. rewrite Hav. reflexivity. }
      subst rest. cbn [length]. rewrite Nat.min_0_r. cbn [firstn skipn Z.of_nat].
      exists s. unfold ret.
      rewrite app_nil_r, Z.add_0_r, to_int_small by lia.
      split; [reflexivity|]. split; [exact Hpl|]. split; [lia|].
      intros _. unfold file_eof. rewrite Heof, Hai, Hav. reflexivity.
    + (* refill *)
      destruct (fill_out_buffer_plain fuel s rest Hpl Hav Heof)
        as (s1 & Hfill & Hpl1 & Hpos1 & Hne1 & Hnil1).
      rewrite (bind_Done _ _ _ _ _ (attempt_Done _ _ _ _ Hfill)). cbv iota.
      destruct (len =? 0) eqn:Hl0; [apply Z.eqb_eq in Hl0; lia|]. cbn [negb].
      assert (Hfuel1 : (plain_fuel s1 rest < fuel)%nat).
      { unfold plain_fuel in *. apply Z.eqb_eq in Hav. rewrite Hav, Heof in Hfuel.
        destruct rest as [|b rest].
        - destruct (Hnil1 eq_refl) as [E1 E2]. rewrite E1, E2. cbn in *. lia.
        - specialize (Hne1 ltac:(discriminate)). apply Z.eqb_neq in Hne1.
          rewrite Hne1. lia. }
      destruct (IH len got copied s1 rest Hpl1 Hlen Hgot Hsum Hfuel1)
        as (s' & Hrun & Hpl' & Hpos' & Heof1).
      exists s'. split; [exact Hrun|]. split; [exact Hpl'|]. split; [lia|exact Heof1].
  - (* copy what is pending *)
    apply Z.eqb_neq in Hav. cbn [negb]. cbv zeta.
    destruct (plain_pending s rest Hpl Hav) as (Hav' & Hnx & _).
    set (n := if len <? avail (out s) then len else avail (out s)).
    assert (Hn : 0 < n <= avail (out s) /\ n <= len).
    { subst n. destruct (len <? avail (out s)) eqn:Hlt.
      - apply Z.ltb_lt in Hlt. lia.
      - apply Z.ltb_ge in Hlt. lia. }
    destruct (plain_consume s rest n Hpl ltac:(lia)) as (Hpl1 & Hslice & Hfit).
    rewrite bind_modify.
    rewrite (guint_small (len - n)) by lia. rewrite (guint_small (got + n)) by lia.
    rewrite Hslice.
    destruct (len - n =? 0) eqn:Hl.
    + (* all that was asked for *)
      apply Z.eqb_eq in Hl. cbn [negb]. unfold ret.
      assert (Hmin : Nat.min (Z.to_nat len) (length rest) = Z.to_nat n) by lia.
      rewrite Hmin. exists (consume n s). rewrite to_int_small by lia.
      rewrite Z2Nat.id by lia.
      split; [reflexivity|]. split; [exact Hpl1|]. split; [reflexivity|]. lia.
    + (* go on *)
      apply Z.eqb_neq in Hl. cbn [negb].
      assert (Hfuel1 : (plain_fuel (consume n s) (skipn (Z.to_nat n) rest) < fuel)%nat).
      { unfold plain_fuel in *. apply Z.eqb_neq in Hav. rewrite Hav in Hfuel.
        rewrite length_skipn.
        destruct (avail (out (consume n s)) =? 0); [destruct (eof (consume n s))|]; lia. }
      destruct (IH (len - n) (got + n) (copied ++ firstn (Z.to_nat n) rest) (consume n s)
                   (skipn (Z.to_nat n) rest) Hpl1 ltac:(lia) ltac:(lia) ltac:(lia) Hfuel1)
        as (s' & Hrun & Hpl' & Hpos' & Heof1).
      assert (Hmin : Nat.min (Z.to_nat len) (length rest)
                     = (Z.to_nat n
                        + Nat.min (Z.to_nat (len - n))
                                  (length (skipn (Z.to_nat n) rest)))%nat)
        by (rewrite length_skipn; lia).
      rewrite Hmin. exists s'. split; [|split; [|split]].
      * rewrite Hrun. f_equal. f_equal; [lia|].
        rewrite <- app_assoc. f_equal. apply firstn_add.
      * rewrite skipn_skipn in Hpl'. rewrite Nat.add_comm. exact Hpl'.
      * rewrite Hpos'. cbn. lia.
      * intros H. apply Heof1. rewrite length_skipn. lia.
Qed.

(** file_read on a plain file. *)
Lemma file_read_plain (fuel : nat) (len : Z) (s : wtap_reader) (rest : list byte) :
  plain_holds holds s rest ->
  0 <= len < 2 ^ 31 ->
  (2 * length rest + 1 < fuel)%nat ->
  exists s',
    file_read fuel false len s
    = Done (Z.of_nat (delivered len rest), firstn (delivered len rest) rest) s' /\
    plain_holds holds s' (skipn (delivered len rest) rest) /\
    file_tell s' = file_tell s + Z.of_nat (delivered len rest) /\
    ((length rest < Z.to_nat len)%nat -> file_eof s' = true).
Proof.
  intros Hpl Hlen Hfuel. unfold delivered, file_read.
  pose proof Hpl as (_ & _ & Hsp & _).
  destruct (len =? 0) eqn:H0.
  - apply Z.eqb_eq in H0. subst len. cbn [Z.to_nat Nat.min firstn skipn Z.of_nat].
    exists s. split; [reflexivity|]. split; [exact Hpl|]. split; [lia|]. lia.
  - apply Z.eqb_neq in H0. unfold process_skip. mnorm. rewrite Hsp. mnorm.
    assert (Hf : (plain_fuel s rest < fuel)%nat).
    { unfold plain_fuel.
      destruct (avail (out s) =? 0); [destruct (eof s)|]; lia. }
    destruct (file_read_loop_plain fuel len 0 [] s rest Hpl ltac:(lia) ltac:(lia)
                ltac:(lia) Hf) as (s' & Hrun & Hpl' & Hpos & Heof).
    exists s'. split; [exact Hrun|]. split; [exact Hpl'|]. split; [|exact Heof].
    destruct Hpl' as (_ & _ & Hsp' & _). unfold file_tell. rewrite Hsp, Hsp'. lia.
Qed.

(** file_getc on a plain file. *)
Lemma file_getc_plain (fuel : nat) (s : wtap_reader) (rest : list byte) :
  plain_holds holds s rest ->
  (2 * length rest + 1 < fuel)%nat ->
  exists s',
    file_getc fuel s = Done (getc_val rest) s' /\
    plain_holds holds s' (tl rest) /\
    file_tell s' = file_tell s + Z.of_nat (length rest - length (tl rest)) /\
    (rest = [] -> file_eof s' = true).
Proof.
  intros Hpl Hfuel. pose proof Hpl as (He & _ & Hsp & _).
  unfold file_getc. mnorm. rewrite He. cbn [Z.eqb negb].
  destruct (avail (out s) =? 0) eqn:Hav.
  - cbn [negb].
    destruct (file_read_plain fuel 1 s rest Hpl ltac:(lia) Hfuel)
      as (s' & Hrun & Hpl' & Htell & Heof).
    rewrite (bind_Done _ _ _ _ _ Hrun). cbn [fst snd].
    destruct rest as [|b rest].
    + change (delivered 1 []) with 0%nat in *. cbn [firstn skipn Z.of_nat] in *.
      exists s'. split; [reflexivity|]. split; [exact Hpl'|].
      split; [rewrite Htell; reflexivity|].
      intros _. apply Heof. vm_compute. constructor.
    + change (delivered 1 (b :: rest)) with 1%nat in *. cbn [firstn skipn] in *.
      exists s'. split; [reflexivity|]. split; [exact Hpl'|].
      split; [|discriminate]. cbn [tl length]. rewrite Htell. lia.
  - apply Z.eqb_neq in Hav. cbn [negb].
    destruct (plain_pending s rest Hpl Hav) as (Hav' & Hnx & _).
    destruct (plain_consume s rest 1 Hpl ltac:(lia)) as (Hpl1 & Hslice & Hfit).
    rewrite (slice_cons _ _ 1) in Hslice by lia.
    destruct rest as [|b rest]; [cbn in Hfit; lia|].
    cbn in Hslice. injection Hslice as Hb.
    exists (consume 1 s). split; [|split; [exact Hpl1|split; [|discriminate]]].
    + unfold ret, byte_at. rewrite Hb. reflexivity.
    + destruct Hpl1 as (_ & _ & Hsp1 & _). unfold file_tell. rewrite Hsp, Hsp1.
      replace (length (b :: rest) - length (tl (b :: rest)))%nat with 1%nat
        by (cbn [tl length]; lia).
      cbn. lia.
Qed.

(** The loop of file_peekc on a plain file with nothing pending. *)
Lemma file_peekc_loop_plain (fuel : nat) (s : wtap_reader) (rest : list byte) :
  plain_holds holds s rest ->
  avail (out s) = 0 ->
  exists s',
    file_peekc_loop (S (S fuel)) s = Done (getc_val rest) s' /\
    plain_holds holds s' rest /\ pos s' = pos s /\
    (rest = [] -> file_eof s' = true).
Proof.
  intros Hpl Hav. pose proof Hpl as (He & _ & _ & _ & Hai & tail & _ & Heof' & Hmode).
  assert (Hdone : forall t : wtap_reader,
             plain_holds holds t rest -> avail (out t) = 0 -> eof t = true ->
             forall f, file_peekc_loop (S f) t = Done (getc_val rest) t /\ rest = [] /\
                       file_eof t = true).
  { intros t Ht Hat Het f. pose proof Ht as (Het0 & _ & _ & _ & Hit & tl' & _ & Ho & Hm).
    specialize (Ho Het). subst tl'.
    assert (rest = []).
    { destruct Hm as [(_ & _ & _ & Hr & _)|(_ & _ & _ & _ & Hr)]; [exact Hr|].
      rewrite Hr. unfold out_pending. rewrite Hat. reflexivity. }
    subst rest. cbn [file_peekc_loop]. mnorm.
    rewrite Hat, Het0, Het, Hit. cbn. split; [reflexivity|]. split; [reflexivity|].
    unfold file_eof. rewrite Het, Hit, Hat. reflexivity. }
  destruct (eof s) eqn:Heof.
  - destruct (Hdone s Hpl Hav Heof (S fuel)) as (Hrun & _ & Hfe).
    exists s. split; [exact Hrun|]. split; [exact Hpl|]. split; [reflexivity|]. auto.
  - destruct (fill_out_buffer_plain (S fuel) s rest Hpl Hav Heof)
      as (s1 & Hfill & Hpl1 & Hpos1 & Hne1 & Hnil1).
    cbn [file_peekc_loop]. mnorm. rewrite Hav, He, Heof. cbn [Z.eqb negb andb].
    rewrite (bind_Done _ _ _ _ _ (attempt_Done _ _ _ _ Hfill)). cbv iota.
    destruct rest as [|b rest].
    + destruct (Hnil1 eq_refl) as [E1 E2].
      destruct (Hdone s1 Hpl1 E2 E1 fuel) as (Hrun & _ & Hfe).
      exists s1. split; [exact Hrun|]. split; [exact Hpl1|]. split; [exact Hpos1|]. auto.
    + specialize (Hne1 ltac:(discriminate)).
      destruct (plain_consume s1 (b :: rest) 1 Hpl1) as (_ & Hslice & _).
      { destruct (plain_pending s1 _ Hpl1 Hne1) as (Hav' & _). lia. }
      rewrite (slice_cons _ _ 1) in Hslice
        by (destruct (plain_pending s1 _ Hpl1 Hne1) as (? & ? & _); lia).
      cbn in Hslice. injection Hslice as Hb.
      mnorm. apply Z.eqb_neq in Hne1. rewrite Hne1. cbn [negb].
      exists s1. split; [|split; [exact Hpl1|split; [exact Hpos1|discriminate]]].
      unfold ret, byte_at. rewrite Hb. reflexivity.
Qed.

(** file_peekc on a plain file. *)
Lemma file_peekc_plain (fuel : nat) (s : wtap_reader) (rest : list byte) :
  plain_holds holds s rest ->
  exists s',
    file_peekc (S (S fuel)) s = Done (getc_val rest) s' /\
    plain_holds holds s' rest /\ file_tell s' = file_tell s /\
    (rest = [] -> file_eof s' = true).
Proof.
  intros Hpl. pose proof Hpl as (He & _ & Hsp & _).
  unfold file_peekc. mnorm. rewrite He. cbn [Z.eqb negb].
  destruct (avail (out s) =? 0) eqn:Hav.
  - apply Z.eqb_eq in Hav. cbn [negb]. unfold process_skip. mnorm. rewrite Hsp. mnorm.
    destruct (file_peekc_loop_plain fuel s rest Hpl Hav) as (s' & Hrun & Hpl' & Hpos & Hfe).
    exists s'. split; [exact Hrun|]. split; [exact Hpl'|]. split; [|exact Hfe].
    destruct Hpl' as (_ & _ & Hsp' & _). unfold file_tell. rewrite Hsp, Hsp'. lia.
  - apply Z.eqb_neq in Hav. cbn [negb].
    destruct (plain_pending s rest Hpl Hav) as (Hav' & Hnx & _).
    destruct (plain_consume s rest 1 Hpl ltac:(lia)) as (_ & Hslice & Hfit).
    rewrite (slice_cons _ _ 1) in Hslice by lia.
    destruct rest as [|b rest]; [cbn in Hfit; lia|].
    cbn in Hslice. injection Hslice as Hb.
    exists s. split; [|split; [exact Hpl|split; [reflexivity|discriminate]]].
    unfold ret, byte_at. rewrite Hb. reflexivity.
Qed.

(** A reader fresh from file_fdopen on a plain file. *)
Lemma file_fdopen_plain {OK : EnvOk E} (fd0 : fd_t) (s : wtap_reader) (data : list byte) :
  file_fdopen fd0 = Some s ->
  2 <= size s ->
  holds (fd s) data ->
  plain_start data ->
  plain_holds holds s data.
Proof.
  unfold file_fdopen. intros H Hsz Hh Hplain.
  pose proof (buffer_want_range (snd (ws_lseek64 fd0 0 SEEK_CUR))) as Hw.
  destruct (g_try_malloc _); [|discriminate].
  destruct (g_try_malloc _); [|discriminate].
  destruct (inflateInit2 _); [|discriminate].
  destruct ZSTD_createDCtx; [|discriminate].
  destruct LZ4F_createDecompressionContext; [|discriminate].
  injection H as <-. cbn in Hh, Hsz.
  unfold plain_holds. cbn.
  split; [reflexivity|]. split; [lia|]. split; [reflexivity|]. split; [reflexivity|].
  split; [reflexivity|]. exists data. split; [exact Hh|]. split; [discriminate|].
  left. repeat split; try reflexivity; apply Hplain.
Qed.

End Plain.

(** A reader fresh from the simulated file_fdopen on a plain file. *)
Lemma sim_reader_plain (data : list byte) :
  plain_start data -> plain_holds sim_holds (sim_reader data) data.
Proof.
  intros Hplain. unfold plain_holds.
  split; [vm_compute; reflexivity|].
  split; [vm_compute; split; congruence|].
  split; [vm_compute; reflexivity|].
  split; [vm_compute; reflexivity|].
  split; [vm_compute; reflexivity|].
  exists data.
  split; [unfold sim_holds; split; vm_compute; [congruence|reflexivity]|].
  split; [vm_compute; discriminate|].
  left. split; [vm_compute; reflexivity|]. split; [vm_compute; reflexivity|].
  split; [vm_compute; reflexivity|]. split; [reflexivity|exact Hplain].
Qed.

Lemma sim_abcde_plain : plain_start sim_abcde.
Proof. repeat split; intros rest H; discriminate H. Qed.

(** X6.  A plain file is passed through.  A reader fresh from file_fdopen
    on a file that does not start with the magic number of gzip, zstd or
    lz4 is a plain reader; and on a plain reader that has the bytes [rest]
    still to deliver, file_read(buf, len) returns min(len, |rest|), stores
    exactly the first min(len, |rest|) bytes of [rest], advances file_tell
    by that count, records no error, never marks the file as compressed,
    and leaves a plain reader with the remaining bytes to deliver; when
    fewer than [len] bytes were left, file_eof is true afterwards.  This
    holds however the reads of the file are cut into chunks. *)
Theorem X6_plain_file_is_passed_through {E : Env} {OK : EnvOk E}
    (holds : fd_t -> list byte -> Prop) :
  file_like holds ->
  (forall fd0 s data,
      file_fdopen fd0 = Some s -> 2 <= size s ->
      holds (fd s) data -> plain_start data ->
      plain_holds holds s data) /\
  (forall fuel len s rest,
      plain_holds holds s rest ->
      0 <= len < 2 ^ 31 ->
      (2 * length rest + 1 < fuel)%nat ->
      exists s',
        file_read fuel false len s
        = Done (Z.of_nat (delivered len rest), firstn (delivered len rest) rest) s' /\
        plain_holds holds s' (skipn (delivered len rest) rest) /\
        file_tell s' = file_tell s + Z.of_nat (delivered len rest) /\
        ((length rest < Z.to_nat len)%nat -> file_eof s' = true)).
Proof.
  intros Hfile. split.
  - intros fd0 s data. exact (file_fdopen_plain holds fd0 s data).
  - intros fuel len s rest. exact (file_read_plain holds Hfile fuel len s rest).
Qed.

Lemma X6_plain_file_is_passed_through_witness :
  exists s',
    file_read 20 false 3 (sim_reader sim_abcde)
    = Done (Z.of_nat (delivered 3 sim_abcde), firstn (delivered 3 sim_abcde) sim_abcde) s' /\
    plain_holds sim_holds s' (skipn (delivered 3 sim_abcde) sim_abcde) /\
    file_tell s' = file_tell (sim_reader sim_abcde) + Z.of_nat (delivered 3 sim_abcde) /\
    ((length sim_abcde < Z.to_nat 3)%nat -> file_eof s' = true).
Proof.
  destruct (@X6_plain_file_is_passed_through sim_env sim_env_ok sim_holds sim_file_like)
    as [_ H].
  apply (H 20%nat 3 (sim_reader sim_abcde) sim_abcde).
  - exact (sim_reader_plain sim_abcde sim_abcde_plain).
  - lia.
  - vm_compute. lia.
Defined.

(** X7.  Bytes of a plain file, one at a time.  On a plain reader that
    has the bytes [b :: rest] still to deliver, file_peekc returns [b]
    and leaves file_tell and what is to deliver as they were, and
    file_getc returns [b], advances file_tell by one and leaves [rest] to
    deliver.  On a plain reader with nothing left to deliver both return
    -1 and file_eof is true afterwards. *)
Theorem X7_plain_file_byte_by_byte {E : Env} (holds : fd_t -> list byte -> Prop)
    (fuel : nat) (s : wtap_reader) (rest : list byte) :
  file_like holds ->
  plain_holds holds s rest ->
  (2 * length rest + 1 < fuel)%nat ->
  (forall b r, rest = b :: r ->
     (exists s', file_peekc fuel s = Done (byte_val b) s' /\
                 plain_holds holds s' (b :: r) /\ file_tell s' = file_tell s) /\
     (exists s', file_getc fuel s = Done (byte_val b) s' /\
                 plain_holds holds s' r /\ file_tell s' = file_tell s + 1)) /\
  (rest = [] ->
     (exists s', file_peekc fuel s = Done (-1) s' /\
                 plain_holds holds s' [] /\ file_eof s' = true) /\
     (exists s', file_getc fuel s = Done (-1) s' /\
                 plain_holds holds s' [] /\ file_eof s' = true)).
Proof.
  intros Hfile Hpl Hfuel.
  destruct fuel as [|[|f]]; try lia.
  destruct (file_peekc_plain holds Hfile f s rest Hpl) as (sp & Hp1 & Hp2 & Hp3 & Hp4).
  destruct (file_getc_plain holds Hfile (S (S f)) s rest Hpl Hfuel)
    as (sg & Hg1 & Hg2 & Hg3 & Hg4).
  split.
  - intros b r ->. cbn [getc_val tl length] in *. split.
    + exists sp. split; [exact Hp1|]. split; assumption.
    + exists sg. split; [exact Hg1|]. split; [exact Hg2|]. rewrite Hg3. lia.
  - intros ->. cbn [getc_val tl] in *. split.
    + exists sp. split; [exact Hp1|]. split; auto.
    + exists sg. split; [exact Hg1|]. split; auto.
Qed.

Lemma X7_plain_file_byte_by_byte_witness :
  (exists s', file_peekc 20 (sim_reader sim_abcde) = Done (byte_val x41) s' /\
              plain_holds sim_holds s' sim_abcde /\
              file_tell s' = file_tell (sim_reader sim_abcde)) /\
  (exists s', file_getc 20 (sim_reader sim_abcde) = Done (byte_val x41) s' /\
              plain_holds sim_holds s' [x42; x43; x44; x45] /\
              file_tell s' = file_tell (sim_reader sim_abcde) + 1).
Proof.
  destruct (X7_plain_file_byte_by_byte sim_holds 20 (sim_reader sim_abcde) sim_abcde
              sim_file_like (sim_reader_plain sim_abcde sim_abcde_plain))
    as [H _].
  - vm_compute. lia.
  - exact (H x41 [x42; x43; x44; x45] eq_refl).
Defined.

(** ** The position after a seek *)

(** X8.  What file_seek returns is what file_tell then reports.  Whenever
    file_seek(offset, whence) returns a position [r >= 0], in any state of
    the reader (compressed or not, with or without a deferred skip
    pending, whichever of the fast, in-buffer, rewinding or deferred
    paths is taken), file_tell returns [r] on the reader it leaves;
    except possibly for SEEK_END with offset 0 issued while a deferred
    skip of a non-zero number of bytes is pending. *)
Theorem X8_seek_result_is_tell {E : Env} (fuel : nat) (offset : Z) (whence : whence_t)
    (s : wtap_reader) (r : Z) (e : option Z) (s' : wtap_reader) :
  (whence = SEEK_END -> offset = 0 -> seek_pending s = false \/ skip s = 0) ->
  file_seek fuel offset whence s = Done (r, e) s' ->
  0 <= r ->
  file_tell s' = r.
Proof. apply file_seek_returns_tell. Qed.

Lemma X8_seek_result_is_tell_witness :
  file_tell (after (file_seek 10 2 SEEK_SET (sim_reader sim_abcde))) = 2.
Proof.
  apply (X8_seek_result_is_tell 10 2 SEEK_SET (sim_reader sim_abcde) 2 None).
  - intros H. discriminate H.
  - apply run_eq. vm_compute. reflexivity.
  - lia.
Defined.

(** ** Lines of a plain file *)

Lemma take_line_nil (left : nat) : take_line left [] = [].
Proof. destruct left; reflexivity. Qed.

Lemma take_line_is_line (left : nat) :
  forall rest, is_line left rest (take_line left rest).
Proof.
  induction left as [|left IH]; intros rest.
  - exists rest. cbn. split; [reflexivity|]. split; [lia|]. split; [|left; reflexivity].
    intros [|? ?] ? ? H; discriminate H.
  - destruct rest as [|b rest].
    + exists []. cbn. split; [reflexivity|]. split; [lia|]. split; [|right; left; reflexivity].
      intros [|? ?] ? ? H; discriminate H.
    + cbn [take_line]. destruct (byte_val b =? 10) eqn:Hb.
      * apply Z.eqb_eq in Hb. exists rest. split; [reflexivity|]. cbn [length].
        split; [lia|]. split.
        -- intros [|p pre] c post H Hc.
           ++ injection H as _ H. symmetry. exact H.
           ++ injection H as _ H. destruct pre; discriminate H.
        -- right; right. exists [], b. split; [reflexivity|exact Hb].
      * apply Z.eqb_neq in Hb.
        destruct (IH rest) as (rest' & Hr & Hlen & Hnl & Hstop).
        exists rest'. split; [cbn; f_equal; exact Hr|]. cbn [length].
        split; [lia|]. split.
        -- intros [|p pre] c post H Hc.
           ++ injection H as H _. subst c. contradiction.
           ++ injection H as _ H. exact (Hnl pre c post H Hc).
        -- destruct Hstop as [H|[H|(pre & c & H & Hc)]].
           ++ left. lia.
           ++ right; left. exact H.
           ++ right; right. exists (b :: pre), c. split; [cbn; f_equal; exact H|exact Hc].
Qed.

(** memchr finds the newline that ends the line. *)
Lemma memchr_firstn_some (l : list byte) :
  forall (n left : nat) (i : Z),
    memchr (firstn n l) 10 = Some i -> (n <= left)%nat ->
    0 <= i < Z.of_nat n /\ (Z.to_nat (i + 1) <= length l)%nat /\
    take_line left l = firstn (Z.to_nat (i + 1)) l.
Proof.
  induction l as [|a l IH]; intros n left i H Hle.
  - rewrite firstn_nil in H. discriminate H.
  - destruct n as [|n]; [discriminate H|].
    destruct left as [|left]; [lia|].
    cbn [firstn memchr] in H. cbn [take_line].
    destruct (byte_val a =? 10).
    + injection H as <-. cbn. split; [lia|]. split; [lia|reflexivity].
    + destruct (memchr (firstn n l) 10) as [j|] eqn:Hm; [|discriminate H].
      injection H as <-.
      destruct (IH n left j Hm ltac:(lia)) as (Hj & Hlen & Htl).
      replace (Z.to_nat (j + 1 + 1)) with (S (Z.to_nat (j + 1))) by lia.
      cbn [firstn length]. split; [lia|]. split; [lia|]. f_equal. exact Htl.
Qed.

(** Without a newline among the first [n] bytes, the line goes on after
    them. *)
Lemma memchr_firstn_none (l : list byte) :
  forall (n left : nat),
    memchr (firstn n l) 10 = None -> (n <= left)%nat -> (n <= length l)%nat ->
    take_line left l = firstn n l ++ take_line (left - n) (skipn n l).
Proof.
  induction l as [|a l IH]; intros [|n] left H Hle Hlen;
    cbn [firstn skipn app length] in *; try lia.
  - rewrite Nat.sub_0_r. reflexivity.
  - rewrite Nat.sub_0_r. reflexivity.
  - destruct left as [|left]; [lia|].
    cbn [memchr] in H. cbn [take_line].
    destruct (byte_val a =? 10); [discriminate H|].
    destruct (memchr (firstn n l) 10) eqn:Hm; [discriminate H|].
    cbn [Nat.sub]. f_equal. apply IH; [exact Hm|lia|lia].
Qed.

Lemma take_line_length (left : nat) :
  forall rest, (length (take_line left rest) <= length rest)%nat.
Proof.
  induction left as [|left IH]; intros [|b rest]; cbn [take_line length]; try lia.
  destruct (byte_val b =? 10); cbn [length]; [lia|]. specialize (IH rest). lia.
Qed.

Lemma take_line_nonempty (left : nat) (rest : list byte) :
  (0 < left)%nat -> rest <> [] -> take_line left rest <> [].
Proof.
  intros Hl Hr. destruct left; [lia|]. destruct rest as [|b rest]; [congruence|].
  cbn [take_line]. destruct (byte_val b =? 10); discriminate.
Qed.

Section PlainLines.

Context {E : Env} (holds : fd_t -> list byte -> Prop) (Hfile : file_like holds).

(** fill_out_buffer on a plain file that is at its end: nothing comes. *)
Lemma fill_out_buffer_plain_eof (fuel : nat) (s : wtap_reader) (rest : list byte) :
  plain_holds holds s rest ->
  avail (out s) = 0 -> eof s = true ->
  exists s',
    fill_out_buffer fuel s = Done tt s' /\ plain_holds holds s' rest /\
    pos s' = pos s /\ rest = [] /\ eof s' = true /\ avail (out s') = 0.
Proof.
  intros (He & Hsz & Hsp & Hic & Hai & tail & Hh & Heof' & Hmode) Hao Heof.
  specialize (Heof' Heof). subst tail.
  unfold fill_out_buffer. rewrite bind_get.
  destruct Hmode as [(Hc & Hnx & _ & Hrest & Hplain)|(Hc & Hn0 & Ha0 & Hfit & Hrest)].
  - subst rest. rewrite Hc. cbn [compression_eqb].
    assert (Hhead : gz_head fuel s = Done tt s).
    { unfold gz_head. rewrite bind_get. rewrite Hai. cbn [Z.eqb].
      rewrite bind_assoc_eq.
      assert (Hfill : fill_in_buffer s = Done tt s).
      { unfold fill_in_buffer. rewrite He, Heof. reflexivity. }
      rewrite (bind_Done _ _ _ _ _ Hfill).
      rewrite bind_assoc_eq, bind_get, bind_ret. rewrite Hai. reflexivity. }
    rewrite bind_assoc_eq. rewrite (bind_Done _ _ _ _ _ Hhead).
    mnorm. rewrite Hao. cbn [Z.eqb negb]. mnorm. rewrite Hc.
    exists s. split; [reflexivity|]. split; [|auto].
    unfold plain_holds.
    split; [exact He|]. split; [exact Hsz|]. split; [exact Hsp|]. split; [exact Hic|].
    split; [exact Hai|]. exists []. split; [exact Hh|]. split; [reflexivity|].
    left. split; [exact Hc|]. split; [exact Hnx|]. split; [exact Hao|].
    split; [reflexivity|exact Hplain].
  - assert (Hp0 : out_pending s = []) by (unfold out_pending; rewrite Hao; reflexivity).
    rewrite Hp0 in Hrest. cbn [app] in Hrest. subst rest.
    rewrite Hc. cbn [compression_eqb]. rewrite bind_ret. cbv iota. rewrite bind_get.
    rewrite Hc.
    destruct (buf_read_holds holds Hfile Out_buf s [] ltac:(lia)) as
      (c & f1 & rp & Hpre & Hne & Hh1 & Hrp & Hfit1 & _ & Hrun); auto.
    { cbn [get_buf]. lia. }
    rewrite firstn_nil in Hpre. subst c.
    cbn [get_buf set_buf length Z.of_nat Z.eqb skipn] in *. rewrite Hrun.
    eexists. split; [reflexivity|]. split; [|cbn; auto].
    unfold plain_holds, out_pending. cbn -[slice memcpy_at].
    split; [exact He|]. split; [exact Hsz|]. split; [exact Hsp|]. split; [exact Hic|].
    split; [exact Hai|]. exists []. split; [exact Hh1|]. split; [reflexivity|].
    right. split; [exact Hc|]. split; [lia|]. split; [lia|]. split; [lia|].
    reflexivity.
Qed.

(** fill_out_buffer on a plain file with nothing pending, at its end or
    not. *)
Lemma fill_out_buffer_plain_any (fuel : nat) (s : wtap_reader) (rest : list byte) :
  plain_holds holds s rest ->
  avail (out s) = 0 ->
  exists s',
    fill_out_buffer fuel s = Done tt s' /\ plain_holds holds s' rest /\
    pos s' = pos s /\
    (rest <> [] -> avail (out s') <> 0) /\
    (rest = [] -> eof s' = true /\ avail (out s') = 0).
Proof.
  intros Hpl Hao. destruct (eof s) eqn:Heof.
  - destruct (fill_out_buffer_plain_eof fuel s rest Hpl Hao Heof)
      as (s' & Hrun & Hpl' & Hpos & Hr & He & Ha).
    exists s'. split; [exact Hrun|]. split; [exact Hpl'|]. split; [exact Hpos|].
    split; [congruence|auto].
  - exact (fill_out_buffer_plain holds Hfile fuel s rest Hpl Hao Heof).
Qed.

Lemma some_nonempty (l : list byte) :
  l <> [] -> match l with [] => None | _ :: _ => Some l end = Some l.
Proof. destruct l; [congruence|reflexivity]. Qed.

(** The loop of file_getsp on a plain file stores the line that starts
    what is left of the file. *)
Lemma file_getsp_loop_plain (fuel : nat) :
  forall left copied s rest,
    plain_holds holds s rest ->
    0 < left < 2 ^ 31 ->
    (plain_fuel s rest < fuel)%nat ->
    exists s',
      file_getsp_loop fuel left copied s
      = Done (match copied ++ take_line (Z.to_nat left) rest with
              | [] => None
              | _ :: _ => Some (copied ++ take_line (Z.to_nat left) rest)
              end) s' /\
      plain_holds holds s' (skipn (length (take_line (Z.to_nat left) rest)) rest) /\
      pos s' = pos s + Z.of_nat (length (take_line (Z.to_nat left) rest)) /\
      (rest = [] -> file_eof s' = true).
Proof.
  induction fuel as [|fuel IH]; intros left copied s rest Hpl Hleft Hfuel; [lia|].
  cbn [file_getsp_loop]. rewrite bind_get.
  match goal with |- context [bind _ ?K s = _] => set (k := K) end.
  assert (Hcopy : forall t,
             plain_holds holds t rest -> avail (out t) <> 0 ->
             (plain_fuel t rest < S fuel)%nat ->
             exists s',
               k Getsp_copy t
               = Done (match copied ++ take_line (Z.to_nat left) rest with
                       | [] => None
                       | _ :: _ => Some (copied ++ take_line (Z.to_nat left) rest)
                       end) s' /\
               plain_holds holds s' (skipn (length (take_line (Z.to_nat left) rest)) rest) /\
               pos s' = pos t + Z.of_nat (length (take_line (Z.to_nat left) rest)) /\
               (rest = [] -> file_eof s' = true)).
  { intros t Ht Hav Hft. subst k. cbv beta iota. rewrite bind_get. cbv zeta.
    destruct (plain_pending holds t rest Ht Hav) as (Hav' & Hnx & _).
    pose proof Ht as (_ & Hsz & _).
    set (n := if left <? avail (out t) then left else avail (out t)).
    assert (Hn : 0 < n <= avail (out t) /\ n <= left).
    { subst n. destruct (left <? avail (out t)) eqn:Hlt.
      - apply Z.ltb_lt in Hlt. lia.
      - apply Z.ltb_ge in Hlt. lia. }
    destruct (plain_consume holds t rest n Ht ltac:(lia)) as (Hpl1 & Hslice & Hfit).
    rewrite Hslice.
    destruct (memchr (firstn (Z.to_nat n) rest) 10) as [i|] eqn:Hm.
    - (* a newline among them *)
      destruct (memchr_firstn_some rest (Z.to_nat n) (Z.to_nat left) i Hm ltac:(lia))
        as (Hi & Hlen & Hline).
      rewrite (guint_small (i + 1)) by lia.
      destruct (plain_consume holds t rest (i + 1) Ht ltac:(lia)) as (Hpl2 & Hslice2 & _).
      rewrite Hslice2. rewrite bind_modify. rewrite andb_false_r.
      rewrite Hline.
      assert (Hl : length (firstn (Z.to_nat (i + 1)) rest) = Z.to_nat (i + 1))
        by (apply firstn_length_le; exact Hlen).
      rewrite Hl. rewrite some_nonempty.
      + exists (consume (i + 1) t). split; [reflexivity|]. split; [exact Hpl2|].
        split; [cbn; lia|]. intros ->. cbn in Hlen. lia.
      + intros H. apply (f_equal (@length byte)) in H. rewrite length_app, Hl in H.
        cbn in H. lia.
    - (* none: copy them all *)
      pose proof (memchr_firstn_none rest (Z.to_nat n) (Z.to_nat left) Hm ltac:(lia) Hfit)
        as Hline.
      rewrite bind_modify. rewrite andb_true_r. rewrite ?Hslice.
      rewrite (guint_small (left - n)) by lia.
      assert (Hl : length (firstn (Z.to_nat n) rest) = Z.to_nat n)
        by (apply firstn_length_le; exact Hfit).
      replace (Z.to_nat left - Z.to_nat n)%nat with (Z.to_nat (left - n)) in Hline by lia.
      destruct (left - n =? 0) eqn:Hl0.
      + apply Z.eqb_eq in Hl0. cbn [negb].
        replace (Z.to_nat (left - n)) with 0%nat in Hline by lia.
        cbn [take_line] in Hline. rewrite app_nil_r in Hline.
        rewrite Hline, Hl. rewrite some_nonempty.
        * exists (consume n t). split; [reflexivity|]. split; [exact Hpl1|].
          split; [cbn; lia|]. intros ->. cbn in Hfit. lia.
        * intros H. apply (f_equal (@length byte)) in H. rewrite length_app, Hl in H.
          cbn in H. lia.
      + apply Z.eqb_neq in Hl0. cbn [negb].
        assert (Hfuel1 : (plain_fuel (consume n t) (skipn (Z.to_nat n) rest) < fuel)%nat).
        { unfold plain_fuel in *. apply Z.eqb_neq in Hav. rewrite Hav in Hft.
          rewrite length_skipn.
          destruct (avail (out (consume n t)) =? 0); [destruct (eof (consume n t))|]; lia. }
        destruct (IH (left - n) (copied ++ firstn (Z.to_nat n) rest) (consume n t)
                     (skipn (Z.to_nat n) rest) Hpl1 ltac:(lia) Hfuel1)
          as (s' & Hrun & Hpl' & Hpos' & _).
        exists s'. rewrite Hline. rewrite length_app, Hl.
        split; [|split; [|split]].
        * rewrite Hrun. rewrite <- app_assoc. reflexivity.
        * rewrite skipn_skipn in Hpl'. rewrite Nat.add_comm in Hpl'. exact Hpl'.
        * rewrite Hpos'. cbn. lia.
        * intros ->. cbn in Hfit. lia. }
  pose proof Hpl as (He & _ & _ & _ & Hai & _).
  destruct (avail (out s) =? 0) eqn:Hav.
  - (* nothing pending: refill *)
    apply Z.eqb_eq in Hav. rewrite He. cbn [Z.eqb negb].
    destruct (fill_out_buffer_plain_any fuel s rest Hpl Hav)
      as (s1 & Hfill & Hpl1 & Hpos1 & Hne1 & Hnil1).
    rewrite bind_assoc_eq.
    rewrite (bind_Done _ _ _ _ _ (attempt_Done _ _ _ _ Hfill)). cbv iota.
    rewrite bind_assoc_eq, bind_get.
    destruct (avail (out s1) =? 0) eqn:Hav1.
    + (* the end of the file *)
      apply Z.eqb_eq in Hav1.
      assert (Hrest : rest = []).
      { destruct rest as [|b rest]; [reflexivity|].
        exfalso. apply Hne1; [discriminate|exact Hav1]. }
      subst rest. destruct (Hnil1 eq_refl) as [Heof1 _].
      rewrite bind_ret. rewrite take_line_nil, app_nil_r. cbn [length skipn Z.of_nat].
      pose proof Hpl1 as (_ & _ & _ & _ & Hai1 & _).
      exists s1. split; [|split; [exact Hpl1|split; [lia|]]].
      * subst k. destruct copied; reflexivity.
      * intros _. unfold file_eof. rewrite Heof1, Hai1, Hav1. reflexivity.
    + apply Z.eqb_neq in Hav1. rewrite bind_ret.
      destruct (Hcopy s1 Hpl1 Hav1) as (s' & Hrun & Hpl' & Hpos' & Hfe).
      { unfold plain_fuel in *. apply Z.eqb_neq in Hav1. rewrite Hav1.
        destruct (avail (out s) =? 0); [destruct (eof s)|]; lia. }
      exists s'. split; [exact Hrun|]. split; [exact Hpl'|]. split; [lia|exact Hfe].
  - apply Z.eqb_neq in Hav. rewrite bind_ret.
    apply Hcopy; [exact Hpl|exact Hav|lia].
Qed.

(** file_getsp on a plain file. *)
Lemma file_getsp_plain (fuel : nat) (len : Z) (s : wtap_reader) (rest : list byte) :
  plain_holds holds s rest ->
  1 < len < 2 ^ 31 ->
  (2 * length rest + 1 < fuel)%nat ->
  exists s',
    file_getsp fuel false len s
    = Done (match take_line (Z.to_nat (len - 1)) rest with
            | [] => None
            | _ :: _ => Some (take_line (Z.to_nat (len - 1)) rest)
            end) s' /\
    plain_holds holds s' (skipn (length (take_line (Z.to_nat (len - 1)) rest)) rest) /\
    file_tell s' = file_tell s + Z.of_nat (length (take_line (Z.to_nat (len - 1)) rest)) /\
    (rest = [] -> file_eof s' = true).
Proof.
  intros Hpl Hlen Hfuel. pose proof Hpl as (He & _ & Hsp & _).
  unfold file_getsp. cbn [orb].
  destruct (len <? 1) eqn:Hl1; [apply Z.ltb_lt in Hl1; lia|].
  rewrite bind_get. rewrite He. cbn [Z.eqb negb].
  unfold process_skip. mnorm. rewrite Hsp. mnorm.
  rewrite (guint_small (len - 1)) by lia.
  destruct (len - 1 =? 0) eqn:Hl0; [apply Z.eqb_eq in Hl0; lia|].
  assert (Hf : (plain_fuel s rest < fuel)%nat).
  { unfold plain_fuel. destruct (avail (out s) =? 0); [destruct (eof s)|]; lia. }
  destruct (file_getsp_loop_plain fuel (len - 1) [] s rest Hpl ltac:(lia) Hf)
    as (s' & Hrun & Hpl' & Hpos & Hfe).
  cbn [app] in Hrun.
  exists s'. split; [exact Hrun|]. split; [exact Hpl'|]. split; [|exact Hfe].
  destruct Hpl' as (_ & _ & Hsp' & _). unfold file_tell. rewrite Hsp, Hsp'. lia.
Qed.

End PlainLines.

(** X9.  Lines of a plain file.  On a plain reader that has the bytes
    [rest] still to deliver, file_gets(buf, len) with len > 1 stores the
    line that starts [rest]: a string [line] that starts [rest], is at
    most len - 1 bytes long, holds a newline only as its last byte, and
    stops because it is len - 1 bytes long, because the file ends, or
    because it ends with a newline.  It advances file_tell by the length
    of the line and leaves the bytes after the line to deliver.  When
    nothing is left to deliver it returns NULL, file_tell stays and
    file_eof is true afterwards; it returns NULL in no other case. *)
Theorem X9_plain_file_lines {E : Env} (holds : fd_t -> list byte -> Prop)
    (fuel : nat) (len : Z) (s : wtap_reader) (rest : list byte) :
  file_like holds ->
  plain_holds holds s rest ->
  1 < len < 2 ^ 31 ->
  (2 * length rest + 1 < fuel)%nat ->
  (rest <> [] ->
     exists line s',
       file_gets fuel false len s = Done (Some line) s' /\
       is_line (Z.to_nat (len - 1)) rest line /\ line <> [] /\
       plain_holds holds s' (skipn (length line) rest) /\
       file_tell s' = file_tell s + Z.of_nat (length line)) /\
  (rest = [] ->
     exists s',
       file_gets fuel false len s = Done None s' /\
       plain_holds holds s' [] /\
       file_tell s' = file_tell s /\ file_eof s' = true).
Proof.
  intros Hfile Hpl Hlen Hfuel.
  destruct (file_getsp_plain holds Hfile fuel len s rest Hpl Hlen Hfuel)
    as (s' & Hrun & Hpl' & Htell & Hfe).
  unfold file_gets. split.
  - intros Hne.
    pose proof (take_line_nonempty (Z.to_nat (len - 1)) rest ltac:(lia) Hne) as Hl.
    rewrite some_nonempty in Hrun by exact Hl.
    exists (take_line (Z.to_nat (len - 1)) rest), s'.
    split; [exact Hrun|]. split; [apply take_line_is_line|].
    split; [exact Hl|]. split; [exact Hpl'|exact Htell].
  - intros ->. rewrite take_line_nil in *. cbn [length skipn Z.of_nat] in *.
    exists s'. split; [exact Hrun|]. split; [exact Hpl'|].
    split; [lia|]. apply Hfe. reflexivity.
Qed.

Lemma X9_plain_file_lines_witness :
  let data := [x41; x42; x0a; x43; x44] in
  exists line s',
    file_gets 20 false 10 (sim_reader data) = Done (Some line) s' /\
    is_line (Z.to_nat (10 - 1)) data line /\ line <> [] /\
    plain_holds sim_holds s' (skipn (length line) data) /\
    file_tell s' = file_tell (sim_reader data) + Z.of_nat (length line).
Proof.
  intros data.
  assert (Hplain : plain_start data)
    by (repeat split; intros rest H; discriminate H).
  destruct (X9_plain_file_lines sim_holds 20 10 (sim_reader data) data
              sim_file_like (sim_reader_plain data Hplain)) as [H _].
  - lia.
  - vm_compute. lia.
  - apply H. discriminate.
Defined.

(** ** Forward seeks on a plain file *)

Section PlainSeek.

Context {E : Env} (holds : fd_t -> list byte -> Prop) (Hfile : file_like holds).


(** Whether a skip is pending is no part of what a plain reader holds. *)
Lemma plain_holds_pending (s : wtap_reader) (rest : list byte) :
  plain_holds holds (set_seek_pending false s) rest ->
  seek_pending s = false ->
  plain_holds holds s rest.
Proof.
  unfold plain_holds, out_pending. cbn. intros H Hsp. rewrite Hsp. exact H.
Qed.





End PlainSeek.



(** ** The gzip trailer *)

Lemma run_Done_in_only {E : Env} {A} (m : M A) (s : wtap_reader) (a : A) (s' : wtap_reader) :
  mpres in_only m -> m s = Done a s' -> in_only s s'.
Proof.
  intros P H. specialize (P s). unfold keeps in P. rewrite H in P. exact P.
Qed.

Lemma run_Fail_in_only {E : Env} {A} (m : M A) (s s' : wtap_reader) :
  mpres in_only m -> m s = Fail s' -> in_only s s'.
Proof.
  intros P H. specialize (P s). unfold keeps in P. rewrite H in P. exact P.
Qed.

(** X15.  The gzip trailer is checked.  At the end of a deflate stream,
    with the eight bytes CRC32 and ISIZE (both little-endian) next in
    the input, zlib_read_trailer reads them, however the reads of the
    file are cut into chunks, and: when the CRC differs from the running
    checksum and CRC checking is on, it records WTAP_ERR_DECOMPRESS with
    "bad CRC"; otherwise, when ISIZE differs from the count of bytes
    produced modulo 2^32, it records WTAP_ERR_DECOMPRESS with "length
    field wrong"; otherwise it records no error and the input side is
    just past the trailer.  When the file ends within the trailer it
    records WTAP_ERR_SHORT_READ.  In every case it returns normally, with
    the compression mode back to UNKNOWN (a further member may follow)
    and the rolling window released. *)
Theorem X15_gzip_trailer_checked {E : Env} (holds : fd_t -> list byte -> Prop)
    (s : wtap_reader) (bs : list byte) :
  file_like holds ->
  in_holds holds s bs ->
  exists s',
    zlib_read_trailer s = Done tt s' /\
    compression s' = UNKNOWN /\ fast_seek_cur s' = None /\
    (forall c0 c1 c2 c3 l0 l1 l2 l3 rest,
        bs = c0 :: c1 :: c2 :: c3 :: l0 :: l1 :: l2 :: l3 :: rest ->
        let crc_ok := (le32 c0 c1 c2 c3 =? adler (strm s)) || dont_check_crc s in
        let len_ok := le32 l0 l1 l2 l3 =? Z.land (total_out (strm s)) 0xffffffff in
        (crc_ok = false ->
         err s' = WTAP_ERR_DECOMPRESS /\ err_info s' = Some "bad CRC"%string) /\
        (crc_ok = true -> len_ok = false ->
         err s' = WTAP_ERR_DECOMPRESS /\ err_info s' = Some "length field wrong"%string) /\
        (crc_ok = true -> len_ok = true -> in_holds holds s' rest)) /\
    ((length bs < 8)%nat -> short_read_error s').
Proof.
  intros Hfile Hin. unfold zlib_read_trailer.
  pose proof (gz_next4_holds holds Hfile s bs Hin) as H1.
  assert (Hkeep : forall t a t', gz_next4 t = Done a t' ->
             strm t' = strm t /\ dont_check_crc t' = dont_check_crc t).
  { intros t a t' Hrun.
    destruct (run_Done_in_only gz_next4 t a t' gz_next4_in_only Hrun)
      as (_ & _ & _ & _ & _ & _ & _ & _ & _ & Hs & Hd & _). auto. }
  assert (Hshort : forall t,
             (crc <- gz_next4 ;; len <- gz_next4 ;; ret (crc, len)) s = Fail t ->
             short_read_error t ->
             (length bs < 8)%nat ->
             exists s',
               (r <- attempt (crc <- gz_next4 ;; len <- gz_next4 ;; ret (crc, len)) ;;
                match r with
                | Some (crc, len) =>
                    s <- get ;;
                    if negb (crc =? adler (strm s)) && negb (dont_check_crc s) then
                      modify (set_error WTAP_ERR_DECOMPRESS (Some "bad CRC"%string))
                    else if negb (len =? Z.land (total_out (strm s)) 0xffffffff) then
                      modify (set_error WTAP_ERR_DECOMPRESS
                                (Some "length field wrong"%string))
                    else ret tt
                | None => ret tt
                end ;;
                modify (fun s => set_fast_seek_cur None (set_compression UNKNOWN s))) s
               = Done tt s' /\
               compression s' = UNKNOWN /\ fast_seek_cur s' = None /\
               (forall c0 c1 c2 c3 l0 l1 l2 l3 rest,
                   bs = c0 :: c1 :: c2 :: c3 :: l0 :: l1 :: l2 :: l3 :: rest ->
                   let crc_ok := (le32 c0 c1 c2 c3 =? adler (strm s)) || dont_check_crc s in
                   let len_ok := le32 l0 l1 l2 l3 =? Z.land (total_out (strm s)) 0xffffffff in
                   (crc_ok = false ->
                    err s' = WTAP_ERR_DECOMPRESS /\ err_info s' = Some "bad CRC"%string) /\
                   (crc_ok = true -> len_ok = false ->
                    err s' = WTAP_ERR_DECOMPRESS /\
                    err_info s' = Some "length field wrong"%string) /\
                   (crc_ok = true -> len_ok = true -> in_holds holds s' rest)) /\
               ((length bs < 8)%nat -> short_read_error s')).
  { intros t Hrun Ht Hlen.
    assert (Ha : attempt (crc <- gz_next4 ;; len <- gz_next4 ;; ret (crc, len)) s
                 = Done None t) by (unfold attempt; rewrite Hrun; reflexivity).
    rewrite (bind_Done _ _ _ _ _ Ha). cbv iota.
    eexists. split; [reflexivity|]. cbn.
    split; [reflexivity|]. split; [reflexivity|]. split; [|intros _; exact Ht].
    intros c0 c1 c2 c3 l0 l1 l2 l3 rest Hbs. rewrite Hbs in Hlen. cbn [length] in Hlen. lia. }
  destruct bs as [|c0 [|c1 [|c2 [|c3 bs']]]];
    try (destruct H1 as (s1 & Hrun & Hsr);
         apply (Hshort s1); [apply bind_Fail; exact Hrun|exact Hsr|cbn [length]; lia]).
  destruct H1 as (s1 & Hrun1 & Hin1).
  pose proof (gz_next4_holds holds Hfile s1 bs' Hin1) as H2.
  destruct (Hkeep _ _ _ Hrun1) as [Hs1 Hd1].
  destruct bs' as [|l0 [|l1 [|l2 [|l3 rest]]]];
    try (destruct H2 as (s2 & Hrun2 & Hsr);
         apply (Hshort s2);
         [rewrite (bind_Done _ _ _ _ _ Hrun1); apply bind_Fail; exact Hrun2
         |exact Hsr|cbn [length]; lia]).
  destruct H2 as (s2 & Hrun2 & Hin2).
  destruct (Hkeep _ _ _ Hrun2) as [Hs2 Hd2].
  clear Hshort.
  assert (Ha : attempt (crc <- gz_next4 ;; len <- gz_next4 ;; ret (crc, len)) s
               = Done (Some (le32 c0 c1 c2 c3, le32 l0 l1 l2 l3)) s2).
  { unfold attempt. rewrite (bind_Done _ _ _ _ _ Hrun1), (bind_Done _ _ _ _ _ Hrun2).
    reflexivity. }
  rewrite (bind_Done _ _ _ _ _ Ha). cbv iota beta.
  rewrite bind_assoc_eq, bind_get. rewrite Hs2, Hs1, Hd2, Hd1.
  destruct (negb (le32 c0 c1 c2 c3 =? adler (strm s)) && negb (dont_check_crc s)) eqn:Hcrc.
  - (* bad CRC *)
    eexists. split; [reflexivity|]. cbn.
    split; [reflexivity|]. split; [reflexivity|]. split; [|cbn [length]; lia].
    intros d0 d1 d2 d3 m0 m1 m2 m3 rest' Hbs. injection Hbs as <- <- <- <- <- <- <- <- <-.
    cbv zeta. rewrite <- negb_orb in Hcrc. apply negb_true_iff in Hcrc. rewrite Hcrc.
    split; [auto|]. split; discriminate.
  - rewrite <- negb_orb in Hcrc. apply negb_false_iff in Hcrc.
    destruct (negb (le32 l0 l1 l2 l3 =? Z.land (total_out (strm s)) 0xffffffff)) eqn:Hlen.
    + (* length field wrong *)
      eexists. split; [reflexivity|]. cbn.
      split; [reflexivity|]. split; [reflexivity|]. split; [|cbn [length]; lia].
      intros d0 d1 d2 d3 m0 m1 m2 m3 rest' Hbs. injection Hbs as <- <- <- <- <- <- <- <- <-.
      cbv zeta. rewrite Hcrc. apply negb_true_iff in Hlen. rewrite Hlen.
      split; [discriminate|]. split; [auto|discriminate].
    + (* the trailer is right *)
      eexists. split; [reflexivity|]. cbn.
      split; [reflexivity|]. split; [reflexivity|]. split; [|cbn [length]; lia].
      intros d0 d1 d2 d3 m0 m1 m2 m3 rest' Hbs. injection Hbs as <- <- <- <- <- <- <- <- <-.
      cbv zeta. rewrite Hcrc. apply negb_false_iff in Hlen. rewrite Hlen.
      split; [discriminate|]. split; [discriminate|]. intros _ _. exact Hin2.
Qed.

Lemma X15_gzip_trailer_checked_witness :
  let bs := [x01; x00; x00; x00; x02; x00; x00; x00] in
  exists s',
    zlib_read_trailer (sim_reader bs) = Done tt s' /\
    compression s' = UNKNOWN /\ fast_seek_cur s' = None /\
    (forall c0 c1 c2 c3 l0 l1 l2 l3 rest,
        bs = c0 :: c1 :: c2 :: c3 :: l0 :: l1 :: l2 :: l3 :: rest ->
        let crc_ok := (le32 c0 c1 c2 c3 =? adler (strm (sim_reader bs)))
                      || dont_check_crc (sim_reader bs) in
        let len_ok := le32 l0 l1 l2 l3
                      =? Z.land (total_out (strm (sim_reader bs))) 0xffffffff in
        (crc_ok = false ->
         err s' = WTAP_ERR_DECOMPRESS /\ err_info s' = Some "bad CRC"%string) /\
        (crc_ok = true -> len_ok = false ->
         err s' = WTAP_ERR_DECOMPRESS /\ err_info s' = Some "length field wrong"%string) /\
        (crc_ok = true -> len_ok = true -> in_holds sim_holds s' rest)) /\
    ((length bs < 8)%nat -> short_read_error s').
Proof.
  intros bs.
  exact (X15_gzip_trailer_checked sim_holds (sim_reader bs) bs sim_file_like
           (sim_reader_holds bs)).
Defined.

(** ** A seek to before the start of the file *)





(** * Properties of the writer *)

Section WriterFacts.

Import Writer.
Local Open Scope writer_scope.

(** ** Runs of the writer's monad *)

Lemma wbind_Done {E : Env} {A B} (m : M A) (k : A -> M B) (s : wtap_writer)
    (a : A) (s' : wtap_writer) :
  m s = Done a s' -> bind m k s = k a s'.
Proof. intros H. unfold bind. rewrite H. reflexivity. Qed.

Lemma wbind_Fail {E : Env} {A B} (m : M A) (k : A -> M B) (s s' : wtap_writer) :
  m s = Fail s' -> bind m k s = Fail s'.
Proof. intros H. unfold bind. rewrite H. reflexivity. Qed.

Lemma wbind_get {E : Env} {B} (k : wtap_writer -> M B) (s : wtap_writer) :
  bind get k s = k s s.
Proof. reflexivity. Qed.

Lemma wbind_modify {E : Env} {B} (f : wtap_writer -> wtap_writer) (k : unit -> M B)
    (s : wtap_writer) :
  bind (modify f) k s = k tt (f s).
Proof. reflexivity. Qed.

Lemma wbind_ret {E : Env} {A B} (a : A) (k : A -> M B) (s : wtap_writer) :
  bind (ret a) k s = k a s.
Proof. reflexivity. Qed.

Lemma wbind_assoc {E : Env} {A B C} (m : M A) (k : A -> M B) (h : B -> M C)
    (s : wtap_writer) :
  bind (bind m k) h s = bind m (fun a => bind (k a) h) s.
Proof. unfold bind. destruct (m s); reflexivity. Qed.

Lemma wattempt_Done {E : Env} {A} (m : M A) (s : wtap_writer) (a : A) (s' : wtap_writer) :
  m s = Done a s' -> attempt m s = Done (Some a) s'.
Proof. intros H. unfold attempt. rewrite H. reflexivity. Qed.

Lemma wattempt_Fail {E : Env} {A} (m : M A) (s s' : wtap_writer) :
  m s = Fail s' -> attempt m s = Done None s'.
Proof. intros H. unfold attempt. rewrite H. reflexivity. Qed.

(** ** Memory *)

Lemma memcpy_at_length (l : list byte) (off : Z) (data : list byte) :
  0 <= off -> off + Z.of_nat (length data) <= Z.of_nat (length l) ->
  length (memcpy_at l off data) = length l.
Proof.
  intros Hoff Hfit. unfold memcpy_at.
  rewrite !length_app, length_firstn, repeat_length, length_skipn. lia.
Qed.

(** The input at [next_in] depends on the input side only. *)
Lemma input_at_ext {E : Env} (s s' : wtap_writer) :
  in_ s' = in_ s ->
  avail_in (strm s') = avail_in (strm s) ->
  next_in (strm s') = next_in (strm s) ->
  input_at s' = input_at s.
Proof. intros H1 H2 H3. unfold input_at. rewrite H1, H2, H3. reflexivity. Qed.

(** What is left of the input when deflate has taken [c] bytes of it. *)
Lemma input_at_advance {E : Env} (s s' : wtap_writer) (p : list byte) (c : Z) :
  input_at s = Some p ->
  Z.of_nat (length p) = avail_in (strm s) ->
  0 <= c <= avail_in (strm s) ->
  in_ s' = in_ s ->
  avail_in (strm s') = avail_in (strm s) - c ->
  next_in (strm s') = in_ptr_add (next_in (strm s)) c ->
  input_at s' = Some (skipn (Z.to_nat c) p).
Proof.
  intros Hin Hlen Hc Hi Ha Hn. unfold input_at in *. rewrite Hi, Ha, Hn.
  destruct (avail_in (strm s) =? 0) eqn:Ha0.
  - apply Z.eqb_eq in Ha0. injection Hin as <-.
    replace (avail_in (strm s) - c) with 0 by lia. cbn [Z.eqb].
    rewrite skipn_nil. reflexivity.
  - apply Z.eqb_neq in Ha0.
    destruct (avail_in (strm s) - c =? 0) eqn:Hd.
    + apply Z.eqb_eq in Hd. rewrite skipn_all2 by lia. reflexivity.
    + apply Z.eqb_neq in Hd.
      destruct (next_in (strm s)) as [|off|bytes]; [discriminate Hin| |].
      * destruct (in_ s) as [| |l|]; try discriminate Hin.
        destruct ((0 <=? off) && (off + avail_in (strm s) <=? Z.of_nat (length l))) eqn:Hb;
          [|discriminate Hin].
        apply andb_true_iff in Hb. destruct Hb as [Hb1 Hb2].
        apply Z.leb_le in Hb1, Hb2. injection Hin as <-. cbn [in_ptr_add].
        replace ((0 <=? off + c)
                 && (off + c + (avail_in (strm s) - c) <=? Z.of_nat (length l)))
          with true
          by (symmetry; apply andb_true_iff; split; apply Z.leb_le; lia).
        rewrite slice_skipn by lia. reflexivity.
      * destruct (avail_in (strm s) <=? Z.of_nat (length bytes)) eqn:Hb;
          [|discriminate Hin].
        apply Z.leb_le in Hb. injection Hin as <-. cbn [in_ptr_add].
        replace (avail_in (strm s) - c <=? Z.of_nat (length (skipn (Z.to_nat c) bytes)))
          with true by (symmetry; apply Z.leb_le; rewrite length_skipn; lia).
        rewrite skipn_firstn_comm. f_equal. f_equal. lia.
Qed.

(** ** One turn of the loop of gz_comp *)

Section Comp.

Context {E : Env} {OK : WriterOk E}
  (wrote : fd_t -> list byte -> Prop)
  (stream : d_state -> bool -> list byte -> list byte -> Prop)
  (budget : d_state -> list byte -> Z -> nat)
  (Hsink : sink_like wrote)
  (Hdeflate : deflate_like stream budget).

(** write_if_due writes all that waits in the output buffer, when a write
    is due, and leaves room for output. *)
Lemma write_if_due_spec (flush r0 : Z) (s : wtap_writer) (fin : bool)
    (i o w p : list byte) :
  comp_inv wrote stream s fin i o w p ->
  match write_if_due flush r0 s with
  | Done _ s1 =>
      exists w1,
        comp_inv wrote stream s1 fin i o w1 p /\
        0 < avail_out (strm s1) /\ comp_frame s s1 /\
        err s1 = err s /\ internal (strm s1) = internal (strm s) /\
        (write_due flush r0 s = true -> w1 = o)
  | Fail s1 => err s1 <> 0 /\ comp_frame s s1 /\ out s1 = out s
  | Stuck => False
  end.
Proof.
  intros (Hsz & Hin & Hlen & Ha32 & Hw & Hnext & Hao & Hsum & lo & d & Hout & Hlo & Hint
          & Hst & Ho).
  unfold write_if_due. rewrite wbind_get. fold (write_due flush r0 s).
  destruct (write_due flush r0 s) eqn:Hdue.
  - (* a write is due *)
    assert (Htail : forall s0,
               wrote (fd s0) o -> in_ s0 = in_ s -> out s0 = out s -> strm s0 = strm s ->
               size s0 = size s -> pos s0 = pos s -> want s0 = want s ->
               level s0 = level s -> strategy s0 = strategy s -> err s0 = err s ->
               match
                 bind (if avail_out (strm s) =? 0
                       then modify (fun s => set_strm (set_next_out 0
                                       (set_avail_out (size s) (strm s))) s)
                       else ret tt)
                      (fun _ => modify (fun s => set_next (next_out (strm s)) s)) s0
               with
               | Done _ s1 =>
                   exists w1,
                     comp_inv wrote stream s1 fin i o w1 p /\
                     0 < avail_out (strm s1) /\ comp_frame s s1 /\
                     err s1 = err s /\ internal (strm s1) = internal (strm s) /\
                     (true = true -> w1 = o)
               | Fail s1 => err s1 <> 0 /\ comp_frame s s1 /\ out s1 = out s
               | Stuck => False
               end).
    { intros s0 Hw0 Hi0 Ho0 Hs0 Hz0 Hp0 Hwa0 Hl0 Hsy0 He0.
      destruct (avail_out (strm s) =? 0) eqn:Hz.
      - apply Z.eqb_eq in Hz. rewrite wbind_modify. unfold modify.
        exists o. split; [|split; [|split; [|split; [|split]]]].
        + unfold comp_inv. cbn. rewrite Hz0, Hs0, Ho0.
          split; [exact Hsz|]. split.
          { rewrite <- Hin. apply input_at_ext; cbn; rewrite ?Hs0; auto. }
          split; [exact Hlen|]. split; [exact Ha32|]. split; [exact Hw0|].
          split; [lia|]. split; [lia|]. split; [lia|].
          exists lo, d. split; [exact Hout|]. split; [exact Hlo|]. split; [exact Hint|].
          split; [exact Hst|]. rewrite ?Z.sub_diag, slice_nil, app_nil_r. reflexivity.
        + cbn. rewrite Hz0. lia.
        + unfold comp_frame. cbn. auto 10.
        + cbn. exact He0.
        + cbn. rewrite Hs0. reflexivity.
        + reflexivity.
      - apply Z.eqb_neq in Hz. rewrite wbind_ret. unfold modify.
        exists o. split; [|split; [|split; [|split; [|split]]]].
        + unfold comp_inv. cbn. rewrite Hz0, Hs0, Ho0.
          split; [exact Hsz|]. split.
          { rewrite <- Hin. apply input_at_ext; cbn; rewrite ?Hs0; auto. }
          split; [exact Hlen|]. split; [exact Ha32|]. split; [exact Hw0|].
          split; [lia|]. split; [lia|]. split; [lia|].
          exists lo, d. split; [exact Hout|]. split; [exact Hlo|]. split; [exact Hint|].
          split; [exact Hst|]. rewrite ?Z.sub_diag, slice_nil, app_nil_r. reflexivity.
        + cbn. rewrite Hs0. lia.
        + unfold comp_frame. cbn. auto 10.
        + cbn. exact He0.
        + cbn. rewrite Hs0. reflexivity.
        + reflexivity. }
    destruct (next_out (strm s) - next s =? 0) eqn:Hh; cbn [negb].
    + (* nothing waits *)
      apply Z.eqb_eq in Hh. rewrite wbind_ret.
      apply Htail; auto.
      rewrite Ho, Hh, slice_nil, app_nil_r. exact Hw.
    + (* write what waits *)
      apply Z.eqb_neq in Hh.
      set (have := next_out (strm s) - next s) in *.
      assert (Hg : guint have = have) by (apply guint_small; lia).
      unfold bind at 1. unfold write_out. rewrite Hout, Hg.
      replace ((0 <=? next s) && (next s + have <=? Z.of_nat (length lo))) with true
        by (symmetry; apply andb_true_iff; split; apply Z.leb_le; lia).
      destruct (ws_write (fd s) (slice lo (next s) have)) as [[got|e] f'] eqn:Hws.
      * destruct (Hsink _ _ _ _ _ Hw Hws) as [Hgot Hw'].
        rewrite slice_length in Hgot.
        destruct (got =? have) eqn:Hgh; cbn [negb].
        -- apply Z.eqb_eq in Hgh. subst got.
           rewrite firstn_all2 in Hw' by (rewrite slice_length; lia).
           rewrite <- Ho in Hw'.
           pose proof (Htail (set_fd f' s) Hw' eq_refl eq_refl eq_refl eq_refl eq_refl
                         eq_refl eq_refl eq_refl eq_refl) as Ht.
           rewrite Hout in Ht. exact Ht.
        -- cbn. split; [apply short_write_nz|].
           split; [unfold comp_frame; cbn; auto 10|exact Hout].
      * cbn. split; [exact (write_errno_nz _ _ _ _ Hws)|].
        split; [unfold comp_frame; cbn; auto 10|exact Hout].
  - (* no write is due *)
    unfold ret. exists w.
    unfold write_due in Hdue. apply orb_false_iff in Hdue. destruct Hdue as [Hz _].
    apply Z.eqb_neq in Hz.
    split; [|split; [lia|split; [|split; [reflexivity|split; [reflexivity|discriminate]]]]].
    + unfold comp_inv. split; [exact Hsz|]. split; [exact Hin|]. split; [exact Hlen|].
      split; [exact Ha32|]. split; [exact Hw|]. split; [exact Hnext|]. split; [exact Hao|].
      split; [exact Hsum|]. exists lo, d. auto.
    + unfold comp_frame. auto 10.
Qed.

(** deflate is called with the input at [next_in] and the room at
    [next_out], and moves both. *)
Lemma call_deflate_spec (flush : Z) (s : wtap_writer) (fin : bool)
    (i o w p : list byte) (d : d_state) :
  comp_inv wrote stream s fin i o w p ->
  internal (strm s) = Some d ->
  0 < avail_out (strm s) ->
  let r := deflate d p (avail_out (strm s)) flush in
  exists s2 lo lo2,
    call_deflate flush s = Done (dr_ret r) s2 /\
    avail_out (strm s2) = avail_out (strm s) - Z.of_nat (length (dr_produced r)) /\
    avail_in (strm s2) = avail_in (strm s) - dr_consumed r /\
    next_out (strm s2) = next_out (strm s) + Z.of_nat (length (dr_produced r)) /\
    internal (strm s2) = Some (dr_state r) /\
    input_at s2 = Some (skipn (Z.to_nat (dr_consumed r)) p) /\
    fd s2 = fd s /\ next s2 = next s /\ err s2 = err s /\ comp_frame s s2 /\
    out s = Live lo /\ out s2 = Live lo2 /\ length lo2 = length lo /\
    slice lo2 (next s) (next_out (strm s2) - next s)
    = slice lo (next s) (next_out (strm s) - next s) ++ dr_produced r.
Proof.
  intros (Hsz & Hin & Hlen & Ha32 & Hw & Hnext & Hao & Hsum & lo & d' & Hout & Hlo & Hint
          & Hst & Ho) Hd Hroom r.
  destruct Hdeflate as (_ & Hrange & _).
  destruct (Hrange d p (avail_out (strm s)) flush) as [Hc Hp].
  fold r in Hc, Hp. specialize (Hp ltac:(lia)).
  unfold call_deflate. rewrite Hd, Hin, Hout. fold r.
  replace ((0 <=? dr_consumed r) && (dr_consumed r <=? avail_in (strm s))
           && (Z.of_nat (length (dr_produced r)) <=? avail_out (strm s))
           && (0 <=? next_out (strm s))
           && (next_out (strm s) + Z.of_nat (length (dr_produced r))
               <=? Z.of_nat (length lo))) with true
    by (symmetry; repeat (apply andb_true_iff; split); apply Z.leb_le; lia).
  eexists. exists lo. eexists. split; [reflexivity|]. cbn.
  rewrite (guint_small (avail_out (strm s) - _)) by lia.
  rewrite (guint_small (avail_in (strm s) - _)) by lia.
  split; [reflexivity|]. split; [reflexivity|]. split; [reflexivity|].
  split; [reflexivity|]. split.
  { apply (input_at_advance s); cbn; auto; lia. }
  split; [reflexivity|]. split; [reflexivity|]. split; [reflexivity|].
  split; [unfold comp_frame; cbn; auto 10|].
  split; [reflexivity|]. split; [reflexivity|].
  split; [apply memcpy_at_length; lia|].
  replace (next_out (strm s) + Z.of_nat (length (dr_produced r)) - next s)
    with ((next_out (strm s) - next s) + Z.of_nat (length (dr_produced r))) by lia.
  rewrite slice_app by lia.
  rewrite slice_memcpy_at_before by lia.
  replace (next s + (next_out (strm s) - next s)) with (next_out (strm s)) by lia.
  rewrite slice_memcpy_at. reflexivity.
Qed.

Lemma comp_frame_refl (s : wtap_writer) : comp_frame s s.
Proof. unfold comp_frame. auto 10. Qed.

Lemma comp_frame_trans (a b c : wtap_writer) :
  comp_frame a b -> comp_frame b c -> comp_frame a c.
Proof.
  unfold comp_frame. intros (A1 & A2 & A3 & A4 & A5 & A6) (B1 & B2 & B3 & B4 & B5 & B6).
  repeat split; congruence.
Qed.

(** One turn of the loop of gz_comp. *)
Lemma gz_comp_loop_turn (f : nat) (flush r0 : Z) (s s1 s2 : wtap_writer) (rr : Z) :
  write_if_due flush r0 s = Done tt s1 ->
  call_deflate flush s1 = Done rr s2 ->
  gz_comp_loop (S f) flush r0 s
  = if rr =? Z_STREAM_ERROR then
      Fail (set_err_info (Some "Z_STREAM_ERROR from deflate()"%string)
              (set_err WTAP_ERR_INTERNAL s2))
    else if negb (avail_out (strm s1) - avail_out (strm s2) =? 0)
         then gz_comp_loop f flush rr s2
         else Done tt s2.
Proof.
  intros Hw Hd. cbn [gz_comp_loop].
  rewrite (wbind_Done _ _ _ _ _ Hw), wbind_get. cbv zeta.
  rewrite (wbind_Done _ _ _ _ _ Hd).
  destruct (rr =? Z_STREAM_ERROR); [reflexivity|].
  rewrite wbind_get.
  destruct (negb (avail_out (strm s1) - avail_out (strm s2) =? 0)); reflexivity.
Qed.

Lemma gz_comp_loop_top_fails (f : nat) (flush r0 : Z) (s s1 : wtap_writer) :
  write_if_due flush r0 s = Fail s1 ->
  gz_comp_loop (S f) flush r0 s = Fail s1.
Proof. intros Hw. cbn [gz_comp_loop]. apply wbind_Fail. exact Hw. Qed.

(** The last turn of a run that finishes the stream: the stream has
    ended, what waits is written, and deflate has nothing to add. *)
Lemma gz_comp_loop_ended (s : wtap_writer) (i o w : list byte) :
  comp_inv wrote stream s true i o w [] ->
  exists res,
    (forall fuel, (0 < fuel)%nat -> gz_comp_loop fuel Z_FINISH Z_STREAM_END s = res) /\
    comp_post wrote stream Z_FINISH s i res.
Proof.
  intros Hinv.
  pose proof (write_if_due_spec Z_FINISH Z_STREAM_END s true i o w [] Hinv) as Hw.
  destruct (write_if_due Z_FINISH Z_STREAM_END s) as [[] s1|s1|] eqn:Hrun; [| |contradiction].
  - destruct Hw as (w1 & Hinv1 & Hroom & Hfr & He & Hint & Hdue).
    specialize (Hdue ltac:(unfold write_due; apply orb_true_r)). subst w1.
    pose proof Hinv1 as (Hsz & Hin & Hlen & Ha32 & Hw1 & Hnext & Hao & Hsum & lo & d & Hout
                         & Hlo & Hd & Hst & Ho).
    destruct (call_deflate_spec Z_FINISH s1 true i o o [] d Hinv1 Hd Hroom)
      as (s2 & lo1 & lo2 & Hcall & Hao2 & Hai2 & Hno2 & Hd2 & Hin2 & Hfd2 & Hnx2 & He2 & Hfr2
          & Hout1 & Hout2 & Hlen2 & Hsl).
    set (r := deflate d [] (avail_out (strm s1)) Z_FINISH) in *.
    assert (lo1 = lo) by congruence. subst lo1.
    destruct (dr_ret r =? Z_STREAM_ERROR) eqn:Herr.
    + eexists. split.
      * intros [|f] Hf; [lia|]. rewrite (gz_comp_loop_turn f _ _ _ _ _ _ Hrun Hcall).
        rewrite Herr. reflexivity.
      * cbn. split; [apply internal_nz|]. split.
        { apply (comp_frame_trans _ _ _ (comp_frame_trans _ _ _ Hfr Hfr2)).
          unfold comp_frame. cbn. auto 10. }
        exists lo2. exact Hout2.
    + apply Z.eqb_neq in Herr.
      destruct Hdeflate as (_ & Hrange & _ & Hended).
      destruct (Hended d i o (avail_out (strm s1)) Hst Hroom Herr) as [Hpr Hst'].
      fold r in Hpr, Hst'.
      destruct (Hrange d [] (avail_out (strm s1)) Z_FINISH) as [Hc _]. fold r in Hc.
      cbn [length Z.of_nat] in Hc.
      rewrite Hpr in *. cbn [length Z.of_nat] in *.
      exists (Done tt s2). split.
      * intros [|f] Hf; [lia|]. rewrite (gz_comp_loop_turn f _ _ _ _ _ _ Hrun Hcall).
        apply Z.eqb_neq in Herr. rewrite Herr.
        replace (avail_out (strm s1) - avail_out (strm s2)) with 0 by lia. reflexivity.
      * cbn. exists o, o. split; [|split; [lia|split; [|split; [congruence|auto]]]].
        -- unfold comp_inv. destruct Hfr2 as (Hp2 & Hz2 & Hw2 & Hi2 & _).
           rewrite Hz2, Hfd2, Hnx2, Hno2, Hai2.
           split; [exact Hsz|]. split.
           { rewrite Hin2. rewrite skipn_nil. reflexivity. }
           split; [cbn; lia|]. split; [lia|]. split; [exact Hw1|]. split; [lia|].
           split; [lia|]. split; [lia|].
           exists lo2, (dr_state r). split; [exact Hout2|]. split; [lia|].
           split; [exact Hd2|]. split; [exact Hst'|].
           rewrite Hno2 in Hsl. rewrite Z.add_0_r in *. rewrite Hsl, app_nil_r.
           exact Ho.
        -- exact (comp_frame_trans _ _ _ Hfr Hfr2).
  - destruct Hw as (He & Hi & Ho).
    exists (Fail s1). split.
    + intros [|f] Hf; [lia|]. apply gz_comp_loop_top_fails. exact Hrun.
    + cbn. split; [exact He|]. split; [exact Hi|].
      destruct Hinv as (_ & _ & _ & _ & _ & _ & _ & _ & lo & _ & Hout & _).
      exists lo. congruence.
Qed.

Lemma comp_post_frame (flush : Z) (s s2 : wtap_writer) (u : list byte)
    (res : outcome unit) :
  comp_frame s s2 -> err s2 = err s ->
  comp_post wrote stream flush s2 u res ->
  comp_post wrote stream flush s u res.
Proof.
  intros Hfr He Hpost. destruct res as [[] s'|s'|]; cbn in *; [| |exact Hpost].
  - destruct Hpost as (o' & w' & Hinv & Hroom & Hfr' & He' & Hall).
    exists o', w'. split; [exact Hinv|]. split; [exact Hroom|].
    split; [exact (comp_frame_trans _ _ _ Hfr Hfr')|]. split; [congruence|exact Hall].
  - destruct Hpost as (He' & Hfr' & Hout). split; [exact He'|]. split; [|exact Hout].
    exact (comp_frame_trans _ _ _ Hfr Hfr').
Qed.

(** The loop of gz_comp on a stream that has not ended: it runs until
    deflate has taken all the input and has no more output to give. *)
Lemma gz_comp_loop_active (flush : Z) :
  flush = Z_NO_FLUSH \/ flush = Z_SYNC_FLUSH \/ flush = Z_FINISH ->
  forall n s i o w p r0 d,
    comp_inv wrote stream s false i o w p ->
    internal (strm s) = Some d ->
    (budget d p flush <= n)%nat ->
    exists res,
      (forall fuel, (n + 1 < fuel)%nat -> gz_comp_loop fuel flush r0 s = res) /\
      comp_post wrote stream flush s (i ++ p) res.
Proof.
  intros Hfl n. induction n as [n IH] using lt_wf_ind.
  intros s i o w p r0 d Hinv Hd Hbud.
  pose proof (write_if_due_spec flush r0 s false i o w p Hinv) as Hw.
  destruct (write_if_due flush r0 s) as [[] s1|s1|] eqn:Hrun; [| |contradiction].
  - destruct Hw as (w1 & Hinv1 & Hroom & Hfr & He & Hint & Hdue).
    rewrite Hd in Hint.
    pose proof Hinv1 as (Hsz & Hin & Hlen & Ha32 & Hw1 & Hnext & Hao & Hsum & lo & d' & Hout
                         & Hlo & Hd' & Hst & Ho).
    assert (d' = d) by congruence. subst d'.
    destruct (call_deflate_spec flush s1 false i o w1 p d Hinv1 Hint Hroom)
      as (s2 & lo1 & lo2 & Hcall & Hao2 & Hai2 & Hno2 & Hd2 & Hin2 & Hfd2 & Hnx2 & He2 & Hfr2
          & Hout1 & Hout2 & Hlen2 & Hsl).
    set (r := deflate d p (avail_out (strm s1)) flush) in *.
    assert (lo1 = lo) by congruence. subst lo1.
    destruct (dr_ret r =? Z_STREAM_ERROR) eqn:Herr.
    + eexists. split.
      * intros [|f] Hf; [lia|]. rewrite (gz_comp_loop_turn f _ _ _ _ _ _ Hrun Hcall).
        rewrite Herr. reflexivity.
      * cbn. split; [apply internal_nz|]. split.
        { apply (comp_frame_trans _ _ _ (comp_frame_trans _ _ _ Hfr Hfr2)).
          unfold comp_frame. cbn. auto 10. }
        exists lo2. exact Hout2.
    + pose proof Herr as Herr'. apply Z.eqb_neq in Herr.
      destruct Hdeflate as (_ & Hrange & Hactive & _).
      destruct (Hactive d i o p (avail_out (strm s1)) flush Hst Hroom Herr)
        as (Hst' & Hend & Hprog & Hless & Hfin).
      destruct (Hrange d p (avail_out (strm s1)) flush) as [Hc Hp].
      fold r in Hst', Hend, Hprog, Hless, Hfin, Hc, Hp. specialize (Hp ltac:(lia)).
      assert (Hinv2 : comp_inv wrote stream s2 (dr_ret r =? Z_STREAM_END)
                        (i ++ firstn (Z.to_nat (dr_consumed r)) p) (o ++ dr_produced r) w1
                        (skipn (Z.to_nat (dr_consumed r)) p)).
      { unfold comp_inv. destruct Hfr2 as (Hp2 & Hz2 & Hw2 & Hi2 & _).
        rewrite Hz2, Hfd2, Hnx2, Hno2, Hai2, Hao2.
        split; [exact Hsz|]. split; [exact Hin2|].
        split; [rewrite length_skipn; lia|]. split; [lia|]. split; [exact Hw1|].
        split; [lia|]. split; [lia|]. split; [lia|].
        exists lo2, (dr_state r). split; [exact Hout2|]. split; [lia|].
        split; [exact Hd2|]. split; [exact Hst'|].
        rewrite Hno2 in Hsl. rewrite Hsl, app_assoc, <- Ho. reflexivity. }
      assert (Hfrs : comp_frame s s2) by exact (comp_frame_trans _ _ _ Hfr Hfr2).
      assert (Hes : err s2 = err s) by congruence.
      destruct (dr_produced r) as [|b pr] eqn:Hpr.
      * (* no more output: the loop ends *)
        specialize (Hprog eq_refl).
        assert (Hnf : flush <> Z_FINISH).
        { intros Hf. destruct (Hfin Hf) as [Hne _]. congruence. }
        assert (Hne : (dr_ret r =? Z_STREAM_END) = false).
        { apply Z.eqb_neq. intros Hr. destruct (Hend Hr) as [Hf _]. contradiction. }
        exists (Done tt s2). split.
        -- intros [|f] Hf; [lia|]. rewrite (gz_comp_loop_turn f _ _ _ _ _ _ Hrun Hcall).
           rewrite Herr'. cbn [length Z.of_nat] in Hao2.
           replace (avail_out (strm s1) - avail_out (strm s2)) with 0 by lia. reflexivity.
        -- cbn. exists (o ++ []), w1.
           apply Z.eqb_neq in Hnf. rewrite Hnf. rewrite Hne in Hinv2.
           rewrite Hprog, Nat2Z.id in Hinv2.
           rewrite firstn_all, skipn_all in Hinv2.
           split; [exact Hinv2|]. split; [cbn [length Z.of_nat] in Hao2; lia|].
           split; [exact Hfrs|]. split; [exact Hes|].
           intros Hnn. rewrite app_nil_r. apply Hdue.
           unfold write_due. apply orb_true_iff. right.
           apply Z.eqb_neq in Hnf.
           destruct Hfl as [Hf|[Hf|Hf]]; [contradiction| |contradiction].
           rewrite Hf. reflexivity.
      * (* output was stored: another turn *)
        specialize (Hless ltac:(discriminate)).
        assert (Hhave : negb (avail_out (strm s1) - avail_out (strm s2) =? 0) = true).
        { apply negb_true_iff, Z.eqb_neq. cbn [length] in Hao2. lia. }
        destruct (dr_ret r =? Z_STREAM_END) eqn:Hre.
        -- (* the stream has ended *)
           apply Z.eqb_eq in Hre. destruct (Hend Hre) as [Hf Hall].
           rewrite Hall, Nat2Z.id in Hinv2. rewrite firstn_all, skipn_all in Hinv2.
           destruct (gz_comp_loop_ended s2 _ _ _ Hinv2) as (res & Hres & Hpost).
           exists res. split.
           ++ intros [|f] Hfu; [lia|]. rewrite (gz_comp_loop_turn f _ _ _ _ _ _ Hrun Hcall).
              rewrite Herr', Hhave. rewrite Hf, Hre. apply Hres. lia.
           ++ rewrite <- Hf in Hpost. exact (comp_post_frame _ _ _ _ _ Hfrs Hes Hpost).
        -- destruct (IH (budget (dr_state r) (skipn (Z.to_nat (dr_consumed r)) p) flush)
                       ltac:(lia) s2 _ _ _ _ (dr_ret r) (dr_state r) Hinv2 Hd2 (Nat.le_refl _))
             as (res & Hres & Hpost).
           exists res. split.
           ++ intros [|f] Hfu; [lia|]. rewrite (gz_comp_loop_turn f _ _ _ _ _ _ Hrun Hcall).
              rewrite Herr', Hhave. apply Hres. lia.
           ++ rewrite <- app_assoc, firstn_skipn in Hpost.
              exact (comp_post_frame _ _ _ _ _ Hfrs Hes Hpost).
  - destruct Hw as (He & Hi & Ho).
    exists (Fail s1). split.
    + intros [|f] Hf; [lia|]. apply gz_comp_loop_top_fails. exact Hrun.
    + cbn. split; [exact He|]. split; [exact Hi|].
      destruct Hinv as (_ & _ & _ & _ & _ & _ & _ & _ & lo & _ & Hout & _).
      exists lo. congruence.
Qed.

(** ** gz_init and gz_comp *)

Lemma gz_init_spec (s : wtap_writer) :
  size s = 0 -> 0 < want s < 2 ^ 32 -> avail_in (strm s) = 0 -> wrote (fd s) [] ->
  match gz_init s with
  | Done _ s1 =>
      comp_inv wrote stream s1 false [] [] [] [] /\
      0 < avail_out (strm s1) /\ size s1 = want s /\ want s1 = want s /\
      pos s1 = pos s /\ err s1 = err s /\ blocks_live s1
  | Fail s1 => err s1 <> 0 /\ pos s1 = pos s /\ ~ init_ok s
  | Stuck => False
  end.
Proof.
  intros Hsz Hwant Hai Hw. destruct Hdeflate as (Hinit & _).
  unfold gz_init. rewrite wbind_get, wbind_modify, wbind_modify, wbind_get.
  cbn [in_ out set_in set_out]. unfold alloc.
  destruct (g_try_malloc Alloc_in (want s)) as [li|] eqn:Hmi;
    destruct (g_try_malloc Alloc_out (want s)) as [lo|] eqn:Hmo; cbn [is_null orb].
  - cbn [level strategy set_out set_in].
    assert (Hno : forall r, deflateInit2 (level s) Z_DEFLATED (15 + 16) 8 (strategy s) = inr r ->
                            ~ init_ok s).
    { intros r Hr (li' & lo' & d' & _ & _ & Hd'). congruence. }
    destruct (deflateInit2 (level s) Z_DEFLATED (15 + 16) 8 (strategy s)) as [d|r] eqn:Hdi.
    + cbn. pose proof (malloc_length _ _ _ Hmi) as Hli.
      pose proof (malloc_length _ _ _ Hmo) as Hlo.
      split; [|split; [lia|split; [reflexivity|split; [reflexivity|split;
        [reflexivity|split; [reflexivity|]]]]]].
      * unfold comp_inv. cbn. unfold input_at. cbn. rewrite Hai. cbn.
        split; [exact Hwant|]. split; [reflexivity|]. split; [reflexivity|].
        split; [lia|]. split; [exact Hw|]. split; [lia|]. split; [lia|]. split; [lia|].
        exists lo, d. split; [reflexivity|]. split; [lia|]. split; [reflexivity|].
        split; [exact (Hinit _ _ _ _ _ _ Hdi)|]. reflexivity.
      * split; [exists li; split; [reflexivity|cbn; lia]|exists lo; reflexivity].
    + unfold bind, free_out, free_in. cbn.
      destruct (r =? Z_MEM_ERROR); cbn.
      * split; [apply wenomem_nz|]. split; [reflexivity|]. exact (Hno r eq_refl).
      * split; [apply internal_nz|]. split; [reflexivity|]. exact (Hno r eq_refl).
  - unfold bind, free_out, free_in. cbn.
    split; [apply wenomem_nz|]. split; [reflexivity|].
    intros (li' & lo' & d' & _ & Hlo' & _). congruence.
  - unfold bind, free_out, free_in. cbn.
    split; [apply wenomem_nz|]. split; [reflexivity|].
    intros (li' & lo' & d' & Hli' & _ & _). congruence.
  - unfold bind, free_out, free_in. cbn.
    split; [apply wenomem_nz|]. split; [reflexivity|].
    intros (li' & lo' & d' & Hli' & _ & _). congruence.
Qed.

(** gz_comp, once the writer is set up. *)
Lemma gz_comp_ready (flush : Z) (s : wtap_writer) (i o w p : list byte) :
  flush = Z_NO_FLUSH \/ flush = Z_SYNC_FLUSH \/ flush = Z_FINISH ->
  comp_inv wrote stream s false i o w p ->
  size s = want s -> blocks_live s ->
  exists fuel0 res,
    (forall fuel, (fuel0 <= fuel)%nat ->
                  bind (gz_comp_loop fuel flush Z_OK)
                       (fun _ =>
                          if flush =? Z_FINISH then
                            bind get (fun s =>
                              match internal (strm s) with
                              | Some d => modify (fun s => set_strm (set_internal
                                            (Some (deflateReset d)) (strm s)) s)
                              | None => stuck
                              end)
                          else ret tt) s = res) /\
    gz_comp_post wrote stream flush s (i ++ p) res.
Proof.
  intros Hfl Hinv Hsz Hlive.
  pose proof Hinv as (_ & _ & _ & _ & _ & _ & _ & _ & lo & d & _ & _ & Hd & _).
  destruct (gz_comp_loop_active flush Hfl (budget d p flush) s i o w p Z_OK d Hinv Hd
              (Nat.le_refl _)) as (res & Hres & Hpost).
  exists (budget d p flush + 2)%nat.
  destruct res as [[] s1|s1|]; cbn in Hpost; [| |contradiction].
  - destruct Hpost as (o' & w' & Hinv1 & Hroom & Hfr & He & Hall).
    destruct Hfr as (Hp1 & Hz1 & Hw1 & Hi1 & _).
    assert (Hlive1 : forall t, in_ t = in_ s1 -> out t = out s1 -> size t = size s1 ->
                               blocks_live t).
    { intros t Hti Hto Htz. destruct Hlive as [(li & Hli & Hll) _].
      pose proof Hinv1 as (_ & _ & _ & _ & _ & _ & _ & _ & lo1 & _ & Hout1 & _).
      split; [exists li; split; [congruence|lia]|exists lo1; congruence]. }
    destruct (flush =? Z_FINISH) eqn:Hff.
    + pose proof Hinv1 as (_ & _ & _ & _ & Hwr & Hnx & _ & _ & lo1 & d1 & _ & _ & Hd1 & Hst1
                           & Ho1).
      eexists. split.
      * intros fuel Hfuel. rewrite (wbind_Done _ _ _ _ _ (Hres fuel ltac:(lia))).
        rewrite wbind_get, Hd1. reflexivity.
      * cbn. rewrite Hff.
        split; [exact Hp1|]. split; [exact Hw1|]. split; [exact He|].
        split; [lia|]. split; [apply Hlive1; reflexivity|].
        exists d1, o'. split; [exact Hst1|].
        rewrite (Hall ltac:(apply Z.eqb_eq in Hff; rewrite Hff; discriminate)) in Hwr.
        exact Hwr.
    + exists (Done tt s1). split.
      * intros fuel Hfuel. rewrite (wbind_Done _ _ _ _ _ (Hres fuel ltac:(lia))).
        reflexivity.
      * cbn. rewrite Hff.
        split; [exact Hp1|]. split; [exact Hw1|]. split; [exact He|].
        split; [lia|]. split; [apply Hlive1; reflexivity|].
        exists o', w'. auto.
  - destruct Hpost as (He & Hi & lo1 & Hout).
    exists (Fail s1). split.
    + intros fuel Hfuel. apply wbind_Fail. apply Hres. lia.
    + cbn. destruct Hi as (Hp1 & Hz1 & Hw1 & Hi1 & _).
      split; [exact He|]. split; [exact Hp1|]. intros _.
      destruct Hlive as [(li & Hli & Hll) _].
      split; [exists li; split; [congruence|lia]|exists lo1; exact Hout].
Qed.

Lemma gz_comp_post_init (flush : Z) (s s1 : wtap_writer) (u : list byte)
    (res : outcome unit) :
  pos s1 = pos s -> want s1 = want s -> err s1 = err s -> size s1 <> 0 ->
  gz_comp_post wrote stream flush s1 u res ->
  gz_comp_post wrote stream flush s u res.
Proof.
  intros Hp Hw He Hz Hpost. destruct res as [[] s'|s'|]; cbn in *; [| |exact Hpost].
  - destruct Hpost as (H1 & H2 & H3 & H4 & H5 & H6).
    split; [congruence|]. split; [congruence|]. split; [congruence|].
    split; [congruence|]. split; [exact H5|exact H6].
  - destruct Hpost as (H1 & H2 & H3).
    split; [exact H1|]. split; [congruence|]. intros _. apply H3. left. exact Hz.
Qed.

(** gz_comp: every byte of the input at [next_in] goes into deflate, in
    order, and every byte that deflate gives goes to the file or waits in
    the output buffer, in order; or an error is recorded. *)
Lemma gz_comp_spec (flush : Z) (s : wtap_writer) (i p : list byte) :
  flush = Z_NO_FLUSH \/ flush = Z_SYNC_FLUSH \/ flush = Z_FINISH ->
  comp_pre wrote stream s i p ->
  exists fuel0 res,
    (forall fuel, (fuel0 <= fuel)%nat -> gz_comp fuel flush s = res) /\
    gz_comp_post wrote stream flush s (i ++ p) res.
Proof.
  intros Hfl (Hwant & Hpre). unfold gz_comp.
  destruct Hpre as [(Hsz & Hai & Hw & -> & ->)|(Hsz & Hlive & o & w & Hinv)].
  - pose proof (gz_init_spec s Hsz Hwant Hai Hw) as Hinit.
    destruct (gz_init s) as [[] s1|s1|] eqn:Hrun; [| |contradiction].
    + destruct Hinit as (Hinv1 & Hroom & Hz1 & Hw1 & Hp1 & He1 & Hlive1).
      destruct (gz_comp_ready flush s1 [] [] [] [] Hfl Hinv1 ltac:(lia) Hlive1)
        as (fuel0 & res & Hres & Hpost).
      exists fuel0, res. split.
      * intros fuel Hfuel. rewrite wbind_get, Hsz. cbn [Z.eqb].
        rewrite (wbind_Done _ _ _ _ _ Hrun).
        apply Hres. exact Hfuel.
      * apply (gz_comp_post_init flush s s1); auto. lia.
    + destruct Hinit as (He & Hp & Hno).
      exists 0%nat, (Fail s1). split.
      * intros fuel _. rewrite wbind_get, Hsz. cbn [Z.eqb].
        apply wbind_Fail. exact Hrun.
      * cbn. split; [exact He|]. split; [exact Hp|].
        intros [H|H]; [lia|contradiction].
  - destruct (gz_comp_ready flush s i o w p Hfl Hinv Hsz Hlive)
      as (fuel0 & res & Hres & Hpost).
    exists fuel0, res. split; [|exact Hpost].
    intros fuel Hfuel. rewrite wbind_get.
    destruct (size s =? 0) eqn:Hz; [apply Z.eqb_eq in Hz; lia|].
    rewrite wbind_ret. apply Hres. exact Hfuel.
Qed.

(** ** The API *)

Lemma wr_inv_comp_pre (s : wtap_writer) (u : list byte) :
  wr_inv wrote stream s u ->
  exists i p, u = i ++ p /\ comp_pre wrote stream s i p.
Proof.
  intros (He & Hp & Hwant & [(Hsz & Hai & -> & Hw)|(Hsz & Hroom & Hai & Hni & Hli & i & o & w
                                                     & p & Hinv & ->)]).
  - exists [], []. split; [reflexivity|]. split; [exact Hwant|]. left. auto.
  - exists i, p. split; [reflexivity|]. split; [exact Hwant|]. right.
    split; [exact Hsz|]. split; [|exists o, w; exact Hinv].
    split; [exact Hli|].
    destruct Hinv as (_ & _ & _ & _ & _ & _ & _ & _ & lo & _ & Hout & _).
    exists lo. exact Hout.
Qed.

Lemma comp_done_wr_inv (flush : Z) (s s' : wtap_writer) (u : list byte) :
  gz_comp_post wrote stream flush s u (Done tt s') ->
  flush <> Z_FINISH ->
  err s = Z_OK -> pos s = Z.of_nat (length u) -> 0 < want s < 2 ^ 32 ->
  wr_inv wrote stream s' u /\
  (flush <> Z_NO_FLUSH -> all_out wrote stream s' false u).
Proof.
  intros Hpost Hnf He Hp Hwant. cbn in Hpost.
  apply Z.eqb_neq in Hnf. rewrite Hnf in Hpost.
  destruct Hpost as (Hp' & Hw' & He' & Hz' & Hlive & o' & w' & Hinv & Hroom & Hall).
  pose proof Hinv as (_ & _ & Hlen & _ & Hwr & _ & _ & _ & lo & d & _ & _ & _ & Hst & _).
  cbn [length Z.of_nat] in Hlen.
  split.
  - split; [congruence|]. split; [congruence|]. split; [congruence|]. right.
    split; [congruence|]. split; [exact Hroom|]. split; [lia|].
    split; [intros H; congruence|]. split; [exact (proj1 Hlive)|].
    exists u, o', w', []. split; [exact Hinv|]. rewrite app_nil_r. reflexivity.
  - intros Hnn. exists d, o'. split; [exact Hst|]. rewrite <- (Hall Hnn). exact Hwr.
Qed.

(** gzwfile_flush. *)
Lemma gzwfile_flush_spec (s : wtap_writer) (u : list byte) :
  wr_inv wrote stream s u ->
  exists fuel0 r s',
    (forall fuel, (fuel0 <= fuel)%nat -> gzwfile_flush fuel s = Done r s') /\
    ((r = 0 /\ wr_inv wrote stream s' u /\ all_out wrote stream s' false u)
     \/ (r = -1 /\ err s' <> 0)).
Proof.
  intros Hinv. pose proof Hinv as (He & Hp & Hwant & _).
  destruct (wr_inv_comp_pre s u Hinv) as (i & p & -> & Hpre).
  destruct (gz_comp_spec Z_SYNC_FLUSH s i p ltac:(auto) Hpre) as (fuel0 & res & Hres & Hpost).
  unfold gzwfile_flush.
  destruct res as [[] s1|s1|]; [| |contradiction].
  - destruct (comp_done_wr_inv _ _ _ _ Hpost ltac:(discriminate) He Hp Hwant)
      as [Hinv1 Hall].
    exists fuel0, 0, s1. split.
    + intros fuel Hfuel. rewrite wbind_get, He, Z.eqb_refl. cbn [negb].
      rewrite (wbind_Done _ _ _ _ _ (wattempt_Done _ _ _ _ (Hres fuel Hfuel))).
      rewrite wbind_get. destruct Hinv1 as (He1 & _). rewrite He1, Z.eqb_refl. reflexivity.
    + left. split; [reflexivity|]. split; [exact Hinv1|]. apply Hall. discriminate.
  - destruct Hpost as (He1 & _).
    exists fuel0, (-1), s1. split.
    + intros fuel Hfuel. rewrite wbind_get, He, Z.eqb_refl. cbn [negb].
      rewrite (wbind_Done _ _ _ _ _ (wattempt_Fail _ _ _ (Hres fuel Hfuel))).
      rewrite wbind_get. apply Z.eqb_neq in He1. unfold Z_OK. rewrite He1. reflexivity.
    + right. split; [reflexivity|exact He1].
Qed.

(** One turn of the loop of gzwfile_write: as many of the caller's bytes
    as fit are appended to those that wait in the input buffer. *)
Lemma gzwfile_write_loop_turn (buf : list byte) (len : Z) (s : wtap_writer)
    (u : list byte) :
  wr_inv wrote stream s u -> size s <> 0 ->
  Z.of_nat (length buf) = len -> 0 < len < 2 ^ 32 ->
  exists t n,
    n = Z.min len (size s - avail_in (strm s)) /\
    (forall f,
        gzwfile_write_loop (S f) buf len s
        = if negb (len - n =? 0) then
            bind (attempt (gz_comp f Z_NO_FLUSH))
                 (fun r => match r with
                           | None => ret false
                           | Some _ => gzwfile_write_loop f (skipn (Z.to_nat n) buf) (len - n)
                           end) t
          else Done true t) /\
    wr_inv wrote stream t (u ++ firstn (Z.to_nat n) buf) /\
    size t = size s /\ avail_in (strm t) = avail_in (strm s) + n.
Proof.
  intros (He & Hp & Hwant & [(Hsz & _)|(Hsz & Hroom & Hai & Hni & (li & Hli & Hll) & i & o & w
                                         & p & Hinv & ->)]) Hnz Hlen Hl; [contradiction|].
  pose proof Hinv as (Hsz' & Hin & Hpl & Ha32 & Hw & Hnext & Hao & Hsum & lo & d & Hout & Hlo
                      & Hd & Hst & Ho).
  remember (avail_in (strm s)) as a eqn:Ea.
  assert (Ha : 0 <= a) by lia.
  assert (Hg : guint (size s - a) = size s - a) by (apply guint_small; lia).
  remember (Z.min len (size s - a)) as n eqn:En.
  assert (Hn : 0 <= n <= len /\ a + n <= size s) by lia.
  assert (Hnn : (if len <? guint (size s - a) then len else guint (size s - a)) = n).
  { rewrite Hg. subst n. destruct (len <? size s - a) eqn:Hlt.
    - apply Z.ltb_lt in Hlt. lia.
    - apply Z.ltb_ge in Hlt. lia. }
  remember (firstn (Z.to_nat n) buf) as data eqn:Edata.
  assert (Hdl : Z.of_nat (length data) = n) by (subst data; rewrite length_firstn; lia).
  (* the input that waits is at the start of the input buffer *)
  assert (Hp0 : p = slice li 0 a).
  { unfold input_at in Hin. rewrite <- Ea in Hin. destruct (a =? 0) eqn:Ha0.
    - apply Z.eqb_eq in Ha0. rewrite Ha0. injection Hin as <-. reflexivity.
    - apply Z.eqb_neq in Ha0. rewrite (Hni Ha0), Hli in Hin.
      destruct ((0 <=? 0) && (0 + a <=? Z.of_nat (length li))); [|discriminate Hin].
      injection Hin as <-. reflexivity. }
  (* the writer once next_in is set *)
  set (sA := if a =? 0 then set_strm (set_next_in (In_buf 0) (strm s)) s else s).
  assert (HsA : next_in (strm sA) = In_buf 0 /\ avail_in (strm sA) = a /\
                next_out (strm sA) = next_out (strm s) /\
                avail_out (strm sA) = avail_out (strm s) /\
                internal (strm sA) = internal (strm s) /\
                fd sA = fd s /\ pos sA = pos s /\ size sA = size s /\ want sA = want s /\
                in_ sA = in_ s /\ out sA = out s /\ next sA = next s /\ err sA = err s).
  { subst sA. destruct (a =? 0) eqn:Ha0.
    - cbn. rewrite <- Ea. repeat split; reflexivity.
    - apply Z.eqb_neq in Ha0. rewrite <- Ea. repeat split; try reflexivity. exact (Hni Ha0). }
  destruct HsA as (A1 & A2 & A3 & A4 & A5 & A6 & A7 & A8 & A9 & A10 & A11 & A12 & A13).
  assert (Hfirst : forall B (k : unit -> M B),
             bind (if a =? 0
                   then modify (fun s => set_strm (set_next_in (In_buf 0) (strm s)) s)
                   else ret tt) k s = k tt sA).
  { intros B k. subst sA. destruct (a =? 0); reflexivity. }
  clearbody sA.
  set (t := set_pos (pos sA + n)
              (set_strm (set_avail_in (guint (a + n)) (strm sA))
                 (set_in (Live (memcpy_at li a data)) sA))).
  exists t, n. rewrite <- Edata. split; [reflexivity|]. split; [|split; [|split]].
  - intros f. cbn [gzwfile_write_loop]. rewrite wbind_get. rewrite <- Ea.
    rewrite Hfirst. cbv zeta. rewrite Hnn. rewrite <- Edata.
    assert (Hcopy : copy_in data sA = Done tt (set_in (Live (memcpy_at li a data)) sA)).
    { unfold copy_in. rewrite A1, A10, Hli, A2.
      replace ((0 <=? 0 + a) && (0 + a + Z.of_nat (length data) <=? Z.of_nat (length li)))
        with true by (symmetry; apply andb_true_iff; split; apply Z.leb_le; lia).
      reflexivity. }
    rewrite (wbind_Done _ _ _ _ _ Hcopy). rewrite wbind_modify.
    cbn [pos strm set_in avail_in]. rewrite A2.
    rewrite (guint_small (len - n)) by lia.
    fold t. destruct (negb (len - n =? 0)); reflexivity.
  - assert (Hll' : length (memcpy_at li a data) = length li)
      by (apply memcpy_at_length; lia).
    assert (Hg2 : guint (a + n) = a + n) by (apply guint_small; lia).
    split; [subst t; cbn; congruence|].
    split; [subst t; cbn; rewrite A7, Hp, !length_app, !Nat2Z.inj_add; lia|].
    split; [subst t; cbn; rewrite A9; exact Hwant|]. right.
    split; [subst t; cbn; congruence|]. split; [subst t; cbn; lia|].
    split; [subst t; cbn; lia|]. split; [intros _; subst t; cbn; exact A1|].
    split; [exists (memcpy_at li a data); split; [reflexivity|subst t; cbn; lia]|].
    exists i, o, w, (p ++ data). split; [|rewrite app_assoc; reflexivity].
    unfold comp_inv. subst t. cbn. rewrite Hg2, A3, A4, A5, A6, A8, A11, A12.
    split; [exact Hsz'|]. split.
    { unfold input_at. cbn. rewrite A1.
      destruct (a + n =? 0) eqn:Hz.
      - apply Z.eqb_eq in Hz. destruct p; [|cbn in Hpl; lia]. destruct data; [|cbn in Hdl; lia].
        reflexivity.
      - replace ((0 <=? 0) && (0 + (a + n) <=? Z.of_nat (length (memcpy_at li a data))))
          with true by (symmetry; apply andb_true_iff; split; apply Z.leb_le; lia).
        f_equal. rewrite slice_app by lia. rewrite slice_memcpy_at_before by lia.
        rewrite Z.add_0_l.
        replace (slice (memcpy_at li a data) a n) with data
          by (rewrite <- Hdl; symmetry; apply slice_memcpy_at).
        rewrite Hp0. reflexivity. }
    split; [rewrite length_app; lia|]. split; [lia|]. split; [exact Hw|].
    split; [exact Hnext|]. split; [exact Hao|]. split; [exact Hsum|].
    exists lo, d. auto.
  - subst t. cbn. exact A8.
  - subst t. cbn. apply guint_small. lia.
Qed.

(** What a successful gz_comp(Z_NO_FLUSH) leaves. *)
Lemma comp_done_no_input (flush : Z) (s s' : wtap_writer) (u : list byte) :
  gz_comp_post wrote stream flush s u (Done tt s') ->
  flush <> Z_FINISH ->
  avail_in (strm s') = 0 /\ size s' <> 0 /\ size s' = want s.
Proof.
  intros Hpost Hnf. cbn in Hpost. apply Z.eqb_neq in Hnf. rewrite Hnf in Hpost.
  destruct Hpost as (_ & _ & _ & Hz & _ & o' & w' & Hinv & _).
  destruct Hinv as (Hsz & _ & Hlen & _). cbn in Hlen. split; [lia|]. split; [lia|exact Hz].
Qed.

(** The loop of gzwfile_write. *)
Lemma gzwfile_write_loop_spec (buf : list byte) (len : Z) (s : wtap_writer)
    (u : list byte) :
  wr_inv wrote stream s u -> size s <> 0 ->
  Z.of_nat (length buf) = len -> 0 < len < size s ->
  exists fuel0 res,
    (forall fuel, (fuel0 <= fuel)%nat -> gzwfile_write_loop fuel buf len s = res) /\
    match res with
    | Done true s' => wr_inv wrote stream s' (u ++ buf)
    | Done false s' => err s' <> 0
    | _ => False
    end.
Proof.
  intros Hinv Hnz Hlen Hl.
  assert (Hsz : size s < 2 ^ 32).
  { destruct Hinv as (_ & _ & Hwant & [(Hz & _)|(Hz & _)]); lia. }
  destruct (gzwfile_write_loop_turn buf len s u Hinv Hnz Hlen ltac:(lia))
    as (t & n & Hn & Hturn & Hinvt & Hzt & Hat).
  assert (Hai : 0 <= avail_in (strm s) <= size s).
  { destruct Hinv as (_ & _ & _ & [(Hz & _)|(_ & _ & Hai & _ & _ & i & o & w & p & Hc & _)]);
      [contradiction|].
    destruct Hc as (_ & _ & Hpl & _). lia. }
  destruct (len - n =? 0) eqn:Hd.
  - (* all of it fits *)
    apply Z.eqb_eq in Hd. exists 1%nat, (Done true t). split.
    + intros [|f] Hf; [lia|]. rewrite Hturn. reflexivity.
    + replace n with len in Hinvt by lia. rewrite <- Hlen, Nat2Z.id, firstn_all in Hinvt.
      exact Hinvt.
  - (* the buffer is full: compress, and go on *)
    apply Z.eqb_neq in Hd.
    pose proof Hinvt as (Het & Hpt & Hwt & _).
    destruct (wr_inv_comp_pre t _ Hinvt) as (i & p & Hu & Hpre).
    destruct (gz_comp_spec Z_NO_FLUSH t i p ltac:(auto) Hpre) as (fuel1 & res & Hres & Hpost).
    rewrite <- Hu in Hpost.
    destruct res as [[] t'|t'|]; [| |contradiction].
    + destruct (comp_done_wr_inv _ _ _ _ Hpost ltac:(discriminate) Het Hpt Hwt)
        as [Hinv' _].
      destruct (comp_done_no_input _ _ _ _ Hpost ltac:(discriminate)) as (Ha' & Hnz' & Hz').
      assert (Hzz : size t' = size s).
      { destruct Hinvt as (_ & _ & _ & [(Hz & _)|(Hz & _)]); lia. }
      destruct (gzwfile_write_loop_turn (skipn (Z.to_nat n) buf) (len - n) t' _ Hinv' Hnz'
                  ltac:(rewrite length_skipn; lia) ltac:(lia))
        as (t2 & n2 & Hn2 & Hturn2 & Hinv2 & _).
      assert (Hn2' : n2 = len - n) by lia.
      exists (fuel1 + 2)%nat, (Done true t2). split.
      * intros [|[|f]] Hf; try lia. rewrite Hturn. cbn [negb].
        rewrite (wbind_Done _ _ _ _ _ (wattempt_Done _ _ _ _ (Hres (S f) ltac:(lia)))).
        rewrite Hturn2. rewrite Hn2', Z.sub_diag. reflexivity.
      * rewrite Hn2' in Hinv2.
        replace (firstn (Z.to_nat (len - n)) (skipn (Z.to_nat n) buf))
          with (skipn (Z.to_nat n) buf) in Hinv2
          by (symmetry; apply firstn_all2; rewrite length_skipn; lia).
        rewrite <- app_assoc, firstn_skipn in Hinv2. exact Hinv2.
    + destruct Hpost as (He' & _).
      exists (fuel1 + 1)%nat, (Done false t'). split; [|exact He'].
      intros [|f] Hf; [lia|]. rewrite Hturn. cbn [negb].
      rewrite (wbind_Done _ _ _ _ _ (wattempt_Fail _ _ _ (Hres f ltac:(lia)))).
      reflexivity.
Qed.

(** "directly compress user buffer to file". *)
Lemma gzwfile_write_direct (buf : list byte) (len : Z) (s : wtap_writer) (u : list byte) :
  wr_inv wrote stream s u -> size s <> 0 -> avail_in (strm s) = 0 ->
  Z.of_nat (length buf) = len -> 0 < len < 2 ^ 32 ->
  exists fuel0 r s',
    (forall fuel, (fuel0 <= fuel)%nat ->
       bind (modify (fun s => set_pos (pos s + len)
                                (set_strm (set_next_in (In_user buf)
                                             (set_avail_in len (strm s))) s)))
            (fun _ => bind (attempt (gz_comp fuel Z_NO_FLUSH))
                           (fun r => match r with
                                     | None => ret 0
                                     | Some _ => ret len
                                     end)) s = Done r s') /\
    ((r = len /\ wr_inv wrote stream s' (u ++ buf)) \/ (r = 0 /\ err s' <> 0)).
Proof.
  intros (He & Hp & Hwant & [(Hsz & _)|(Hsz & Hroom & Hai & Hni & Hli & i & o & w & p & Hinv
                                         & ->)]) Hnz Ha0 Hlen Hl; [contradiction|].
  pose proof Hinv as (Hsz' & Hin & Hpl & Ha32 & Hw & Hnext & Hao & Hsum & lo & d & Hout & Hlo
                      & Hd & Hst & Ho).
  assert (p = []) by (destruct p; [reflexivity|cbn in Hpl; lia]). subst p.
  rewrite app_nil_r in *.
  set (t := set_pos (pos s + len)
              (set_strm (set_next_in (In_user buf) (set_avail_in len (strm s))) s)).
  assert (Hpre : comp_pre wrote stream t i buf).
  { split; [exact Hwant|]. right. split; [exact Hsz|]. split.
    - split; [exact Hli|exists lo; exact Hout].
    - exists o, w. unfold comp_inv. subst t. cbn.
      split; [exact Hsz'|]. split.
      { unfold input_at. cbn.
        destruct (len =? 0) eqn:Hz; [apply Z.eqb_eq in Hz; lia|].
        replace (len <=? Z.of_nat (length buf)) with true by (symmetry; apply Z.leb_le; lia).
        rewrite <- Hlen, Nat2Z.id, firstn_all. reflexivity. }
      split; [exact Hlen|]. split; [lia|]. split; [exact Hw|]. split; [exact Hnext|].
      split; [exact Hao|]. split; [exact Hsum|]. exists lo, d. auto. }
  destruct (gz_comp_spec Z_NO_FLUSH t i buf ltac:(auto) Hpre) as (fuel0 & res & Hres & Hpost).
  destruct res as [[] s'|s'|]; [| |contradiction].
  - destruct (comp_done_wr_inv _ _ _ _ Hpost ltac:(discriminate) He
                ltac:(subst t; cbn; rewrite Hp, length_app; lia) Hwant) as [Hinv' _].
    exists fuel0, len, s'. split; [|left; split; [reflexivity|exact Hinv']].
    intros fuel Hfuel. rewrite wbind_modify. fold t.
    rewrite (wbind_Done _ _ _ _ _ (wattempt_Done _ _ _ _ (Hres fuel Hfuel))). reflexivity.
  - destruct Hpost as (He' & _).
    exists fuel0, 0, s'. split; [|right; split; [reflexivity|exact He']].
    intros fuel Hfuel. rewrite wbind_modify. fold t.
    rewrite (wbind_Done _ _ _ _ _ (wattempt_Fail _ _ _ (Hres fuel Hfuel))). reflexivity.
Qed.

(** gzwfile_write on a writer whose buffers are allocated. *)
Lemma gzwfile_write_ready (buf : list byte) (len : Z) (s : wtap_writer) (u : list byte) :
  wr_inv wrote stream s u -> size s <> 0 ->
  Z.of_nat (length buf) = len -> 0 < len < 2 ^ 32 ->
  exists fuel0 r s',
    (forall fuel, (fuel0 <= fuel)%nat -> gzwfile_write fuel buf len s = Done r s') /\
    ((r = len /\ wr_inv wrote stream s' (u ++ buf)) \/ (r = 0 /\ err s' <> 0)).
Proof.
  intros Hinv Hnz Hlen Hl. pose proof Hinv as (He & Hp & Hwant & _).
  assert (Hstart : forall fuel,
             gzwfile_write fuel buf len s
             = if len <? size s then
                 bind (gzwfile_write_loop fuel buf len)
                      (fun done => if done then ret len else ret 0) s
               else
                 bind (attempt (if negb (avail_in (strm s) =? 0)
                                then gz_comp fuel Z_NO_FLUSH else ret tt))
                      (fun r =>
                         match r with
                         | None => ret 0
                         | Some _ =>
                             bind (modify (fun s => set_pos (pos s + len)
                                     (set_strm (set_next_in (In_user buf)
                                                  (set_avail_in len (strm s))) s)))
                                  (fun _ => bind (attempt (gz_comp fuel Z_NO_FLUSH))
                                                 (fun r => match r with
                                                           | None => ret 0
                                                           | Some _ => ret len
                                                           end))
                         end) s).
  { intros fuel. unfold gzwfile_write. rewrite wbind_get, He, Z.eqb_refl. cbn [negb].
    destruct (len =? 0) eqn:Hz; [apply Z.eqb_eq in Hz; lia|].
    destruct (size s =? 0) eqn:Hz0; [apply Z.eqb_eq in Hz0; contradiction|].
    rewrite (wbind_Done _ _ _ _ _ (wattempt_Done (ret tt) s tt s eq_refl)).
    rewrite wbind_get. destruct (len <? size s); reflexivity. }
  destruct (len <? size s) eqn:Hsmall.
  - apply Z.ltb_lt in Hsmall.
    destruct (gzwfile_write_loop_spec buf len s u Hinv Hnz Hlen ltac:(lia))
      as (fuel0 & res & Hres & Hpost).
    destruct res as [[|] s'|s'|]; try contradiction.
    + exists fuel0, len, s'. split; [|left; split; [reflexivity|exact Hpost]].
      intros fuel Hfuel. rewrite Hstart.
      rewrite (wbind_Done _ _ _ _ _ (Hres fuel Hfuel)). reflexivity.
    + exists fuel0, 0, s'. split; [|right; split; [reflexivity|exact Hpost]].
      intros fuel Hfuel. rewrite Hstart.
      rewrite (wbind_Done _ _ _ _ _ (Hres fuel Hfuel)). reflexivity.
  - destruct (avail_in (strm s) =? 0) eqn:Ha0; cbn [negb] in Hstart.
    + apply Z.eqb_eq in Ha0.
      destruct (gzwfile_write_direct buf len s u Hinv Hnz Ha0 Hlen Hl)
        as (fuel0 & r & s' & Hrun & Hpost).
      exists fuel0, r, s'. split; [|exact Hpost].
      intros fuel Hfuel. rewrite Hstart. exact (Hrun fuel Hfuel).
    + (* consume whatever's left in the input buffer *)
      destruct (wr_inv_comp_pre s u Hinv) as (i & p & Hu & Hpre).
      destruct (gz_comp_spec Z_NO_FLUSH s i p ltac:(auto) Hpre)
        as (fuel1 & res & Hres & Hpost).
      rewrite <- Hu in Hpost.
      destruct res as [[] s1|s1|]; [| |contradiction].
      * destruct (comp_done_wr_inv _ _ _ _ Hpost ltac:(discriminate) He Hp Hwant)
          as [Hinv1 _].
        destruct (comp_done_no_input _ _ _ _ Hpost ltac:(discriminate)) as (Ha1 & Hnz1 & _).
        destruct (gzwfile_write_direct buf len s1 u Hinv1 Hnz1 Ha1 Hlen Hl)
          as (fuel2 & r & s' & Hrun & Hpost').
        exists (Nat.max fuel1 fuel2), r, s'. split; [|exact Hpost'].
        intros fuel Hfuel. rewrite Hstart.
        rewrite (wbind_Done _ _ _ _ _ (wattempt_Done _ _ _ _ (Hres fuel ltac:(lia)))).
        exact (Hrun fuel ltac:(lia)).
      * destruct Hpost as (He1 & _).
        exists fuel1, 0, s1. split; [|right; split; [reflexivity|exact He1]].
        intros fuel Hfuel. rewrite Hstart.
        rewrite (wbind_Done _ _ _ _ _ (wattempt_Fail _ _ _ (Hres fuel Hfuel))). reflexivity.
Qed.

(** gzwfile_write. *)
Lemma gzwfile_write_spec (buf : list byte) (len : Z) (s : wtap_writer) (u : list byte) :
  wr_inv wrote stream s u ->
  Z.of_nat (length buf) = len -> 0 < len < 2 ^ 32 ->
  exists fuel0 r s',
    (forall fuel, (fuel0 <= fuel)%nat -> gzwfile_write fuel buf len s = Done r s') /\
    ((r = len /\ wr_inv wrote stream s' (u ++ buf)) \/ (r = 0 /\ err s' <> 0)).
Proof.
  intros Hinv Hlen Hl. pose proof Hinv as (He & Hp & Hwant & Hcase).
  destruct (Z.eq_dec (size s) 0) as [Hz|Hnz];
    [|exact (gzwfile_write_ready buf len s u Hinv Hnz Hlen Hl)].
  destruct Hcase as [(_ & Hai & -> & Hw)|(Hsz & _)]; [|lia].
  pose proof (gz_init_spec s Hz Hwant Hai Hw) as Hinit.
  destruct (gz_init s) as [[] s1|s1|] eqn:Hrun; [| |contradiction].
  - destruct Hinit as (Hinv1 & Hroom & Hz1 & Hw1 & Hp1 & He1 & Hlive1).
    assert (Hwr1 : wr_inv wrote stream s1 []).
    { split; [congruence|]. split; [congruence|]. split; [congruence|]. right.
      pose proof Hinv1 as (_ & _ & Hpl & _). cbn in Hpl.
      split; [congruence|]. split; [exact Hroom|]. split; [lia|].
      split; [intros H; lia|]. split; [exact (proj1 Hlive1)|].
      exists [], [], [], []. split; [exact Hinv1|reflexivity]. }
    destruct (gzwfile_write_ready buf len s1 [] Hwr1 ltac:(lia) Hlen Hl)
      as (fuel0 & r & s' & Hres & Hpost).
    exists fuel0, r, s'. split; [|exact Hpost].
    intros fuel Hfuel. rewrite <- (Hres fuel Hfuel).
    unfold gzwfile_write. rewrite !wbind_get, He, He1, He, Z.eqb_refl. cbn [negb].
    destruct (len =? 0) eqn:Hl0; [apply Z.eqb_eq in Hl0; lia|].
    rewrite Hz. cbn [Z.eqb].
    rewrite (wbind_Done _ _ _ _ _ (wattempt_Done _ _ _ _ Hrun)).
    destruct (size s1 =? 0) eqn:Hz0; [apply Z.eqb_eq in Hz0; lia|].
    reflexivity.
  - destruct Hinit as (He1 & _).
    exists 0%nat, 0, s1. split; [|right; split; [reflexivity|exact He1]].
    intros fuel _. unfold gzwfile_write. rewrite wbind_get, He, Z.eqb_refl. cbn [negb].
    destruct (len =? 0) eqn:Hl0; [apply Z.eqb_eq in Hl0; lia|].
    rewrite Hz. cbn [Z.eqb].
    rewrite (wbind_Done _ _ _ _ _ (wattempt_Fail _ _ _ Hrun)). reflexivity.
Qed.

(** gzwfile_close. *)
Lemma gzwfile_close_spec (s : wtap_writer) (u : list byte) :
  wr_inv wrote stream s u ->
  (size s = 0 -> init_ok s) ->
  exists fuel0 r s',
    (forall fuel, (fuel0 <= fuel)%nat -> gzwfile_close fuel s = Done r s') /\
    in_ s' = Freed /\ out s' = Freed /\
    (r = 0 -> all_out wrote stream s' true u).
Proof.
  intros Hinv Hinit.
  destruct (wr_inv_comp_pre s u Hinv) as (i & p & -> & Hpre).
  destruct (gz_comp_spec Z_FINISH s i p ltac:(auto) Hpre) as (fuel0 & res & Hres & Hpost).
  assert (Hfree : forall t r0,
             blocks_live t ->
             exists r s',
               bind (modify (fun s => set_strm (set_internal None (strm s)) s))
                    (fun _ => bind free_out (fun _ => bind free_in (fun _ =>
                       bind (modify (set_err Z_OK)) (fun _ => bind get (fun s =>
                         match ws_close (fd s) with
                         | Some errno => ret (if r0 =? 0 then errno else r0)
                         | None => ret r0
                         end))))) t = Done r s' /\
               in_ s' = Freed /\ out s' = Freed /\ fd s' = fd t /\
               (r0 <> 0 -> r <> 0)).
  { intros t r0 [(li & Hli & _) (lo & Hlo)].
    rewrite wbind_modify. unfold bind at 1, free_out. cbn [out set_strm]. rewrite Hlo.
    cbn [g_free]. unfold bind at 1, free_in. cbn [in_ set_out set_strm]. rewrite Hli.
    cbn [g_free]. rewrite wbind_modify, wbind_get. cbn [fd set_err set_in set_out set_strm].
    destruct (ws_close (fd t)) as [errno|].
    - eexists. eexists. split; [reflexivity|]. cbn.
      split; [reflexivity|]. split; [reflexivity|]. split; [reflexivity|].
      intros Hr. apply Z.eqb_neq in Hr. rewrite Hr. apply Z.eqb_neq in Hr. exact Hr.
    - eexists. eexists. split; [reflexivity|]. cbn. auto. }
  destruct res as [[] s1|s1|]; [| |contradiction].
  - cbn in Hpost. change (Z_FINISH =? Z_FINISH) with true in Hpost.
    destruct Hpost as (_ & _ & _ & _ & Hlive & d & o & Hst & Hw).
    destruct (Hfree s1 0 Hlive) as (r & s' & Hrun & Hi & Ho & Hfd & _).
    exists fuel0, r, s'. split; [|split; [exact Hi|split; [exact Ho|]]].
    + intros fuel Hfuel. unfold gzwfile_close.
      rewrite (wbind_Done _ _ _ _ _ (wattempt_Done _ _ _ _ (Hres fuel Hfuel))).
      rewrite wbind_get. exact Hrun.
    + intros _. exists d, o. split; [exact Hst|]. rewrite Hfd. exact Hw.
  - destruct Hpost as (He & _ & Hlive).
    assert (Hl : blocks_live s1).
    { apply Hlive. destruct (Z.eq_dec (size s) 0); [right; auto|left; assumption]. }
    destruct (Hfree s1 (err s1) Hl) as (r & s' & Hrun & Hi & Ho & Hfd & Hr).
    exists fuel0, r, s'. split; [|split; [exact Hi|split; [exact Ho|]]].
    + intros fuel Hfuel. unfold gzwfile_close.
      rewrite (wbind_Done _ _ _ _ _ (wattempt_Fail _ _ _ (Hres fuel Hfuel))).
      rewrite wbind_get. exact Hrun.
    + intros H0. exfalso. exact (Hr He H0).
Qed.

End Comp.

(** gz_init, when it fails having allocated a buffer, leaves a pointer to
    a block it has freed. *)
Lemma gz_init_fails_freed {E : Env} (s : wtap_writer) :
  g_try_malloc Alloc_in (want s) <> None \/ g_try_malloc Alloc_out (want s) <> None ->
  ~ init_ok s ->
  exists s1, gz_init s = Fail s1 /\ (out s1 = Freed \/ (out s1 = Null /\ in_ s1 = Freed)).
Proof.
  intros Hsome Hno. unfold gz_init.
  rewrite wbind_get, wbind_modify, wbind_modify, wbind_get.
  cbn [in_ out set_in set_out level strategy]. unfold alloc.
  destruct (g_try_malloc Alloc_in (want s)) as [li|] eqn:Hmi;
    destruct (g_try_malloc Alloc_out (want s)) as [lo|] eqn:Hmo; cbn [is_null orb].
  - destruct (deflateInit2 (level s) Z_DEFLATED (15 + 16) 8 (strategy s)) as [d|r] eqn:Hdi.
    + exfalso. apply Hno. exists li, lo, d. auto.
    + unfold bind, free_out, free_in. cbn.
      destruct (r =? Z_MEM_ERROR); cbn; eexists; (split; [reflexivity|left; reflexivity]).
  - unfold bind, free_out, free_in. cbn.
    eexists. split; [reflexivity|right; split; reflexivity].
  - unfold bind, free_out, free_in. cbn.
    eexists. split; [reflexivity|left; reflexivity].
  - destruct Hsome as [H|H]; congruence.
Qed.

(** gzwfile_close when gz_init fails in it: what gz_init has freed is
    freed again. *)
Lemma gzwfile_close_frees_twice {E : Env} (fuel : nat) (s : wtap_writer) :
  size s = 0 ->
  g_try_malloc Alloc_in (want s) <> None \/ g_try_malloc Alloc_out (want s) <> None ->
  ~ init_ok s ->
  (exists s1, gz_comp fuel Z_FINISH s = Fail s1 /\ (in_ s1 = Freed \/ out s1 = Freed)) /\
  gzwfile_close fuel s = Stuck.
Proof.
  intros Hsz Hsome Hno.
  destruct (gz_init_fails_freed s Hsome Hno) as (s1 & Hinit & Hfreed).
  assert (Hcomp : gz_comp fuel Z_FINISH s = Fail s1).
  { unfold gz_comp. rewrite wbind_get, Hsz. cbn [Z.eqb]. apply wbind_Fail. exact Hinit. }
  split.
  - exists s1. split; [exact Hcomp|]. tauto.
  - unfold gzwfile_close.
    rewrite (wbind_Done _ _ _ _ _ (wattempt_Fail _ _ _ Hcomp)).
    rewrite wbind_get, wbind_modify. unfold bind at 1, free_out. cbn [out set_strm].
    destruct Hfreed as [Ho|[Ho Hi]]; rewrite Ho; cbn [g_free]; [reflexivity|].
    unfold bind at 1, free_in. cbn [in_ set_out set_strm]. rewrite Hi. reflexivity.
Qed.

(** ** The simulated environment is as the writer needs it *)

Lemma sim_writer_ok : WriterOk sim_wenv.
Proof.
  constructor; cbn; try discriminate.
  intros site n l H. injection H as <-. apply repeat_length.
Qed.

Lemma sim_sink_like : sink_like (E := sim_wenv) sim_wrote.
Proof.
  intros f w data got f' Hw H. cbn in H. injection H as <- <-.
  unfold sim_wrote in *. cbn. rewrite Nat2Z.id, firstn_all, Hw.
  split; [lia|reflexivity].
Qed.

Lemma sim_deflate_like : deflate_like (E := sim_wenv) sim_deflated sim_budget.
Proof.
  split; [|split; [|split]].
  - intros lv me wb ml st d H. cbn in H. injection H as <-. repeat split.
  - intros d input room flush. cbn. unfold sim_deflate.
    destruct (sd_fin d); cbn [dr_consumed dr_produced length Z.of_nat]; [lia|].
    split; [lia|]. intros Hroom. rewrite length_app, length_firstn.
    destruct ((flush =? Z_FINISH)
              && (Nat.min (length input) (Z.to_nat room) =? length input)%nat
              && (Nat.min (length input) (Z.to_nat room) <? Z.to_nat room)%nat) eqn:Hfin;
      cbn [length]; [|lia].
    apply andb_true_iff in Hfin. destruct Hfin as [_ Hlt]. apply Nat.ltb_lt in Hlt. lia.
  - intros d i o input room flush (Hi & Ho & Hf) Hroom. cbn. unfold sim_deflate.
    rewrite Hf. cbn [dr_ret dr_consumed dr_produced dr_state].
    set (n := Nat.min (length input) (Z.to_nat room)).
    set (fin := (flush =? Z_FINISH) && (n =? length input)%nat && (n <? Z.to_nat room)%nat).
    intros _. rewrite Nat2Z.id.
    assert (Hbody : length (firstn n input) = n) by (rewrite length_firstn; lia).
    split; [|split; [|split; [|split]]].
    + unfold sim_deflated. cbn. rewrite Hi, Ho. destruct fin; repeat split.
    + destruct fin eqn:Hfin; [|discriminate].
      intros _. subst fin. apply andb_true_iff in Hfin. destruct Hfin as [Hfin _].
      apply andb_true_iff in Hfin. destruct Hfin as [Hfl Hall].
      apply Z.eqb_eq in Hfl. apply Nat.eqb_eq in Hall. split; [exact Hfl|lia].
    + intros Hnil. apply (f_equal (@length byte)) in Hnil.
      rewrite length_app, Hbody in Hnil. cbn [length] in Hnil. lia.
    + intros Hne. unfold sim_budget. cbn [sd_fin]. rewrite Hf, length_skipn.
      destruct fin eqn:Hfin.
      * lia.
      * rewrite app_nil_r in Hne.
        assert (n <> 0)%nat by (intros H0; apply Hne; rewrite H0; reflexivity). lia.
    + intros Hfl. split.
      * destruct fin eqn:Hfin; [destruct (firstn n input); discriminate|].
        rewrite app_nil_r. intros Hnil. apply (f_equal (@length byte)) in Hnil.
        rewrite Hbody in Hnil. cbn [length] in Hnil.
        subst fin. rewrite Hfl in Hfin. change (Z_FINISH =? Z_FINISH) with true in Hfin.
        cbn [andb] in Hfin. apply andb_false_iff in Hfin.
        destruct Hfin as [H|H]; [apply Nat.eqb_neq in H|apply Nat.ltb_ge in H]; lia.
      * destruct fin eqn:Hfin; [intros H; exfalso; apply H; reflexivity|].
        intros _. rewrite app_nil_r, Hbody.
        subst fin. rewrite Hfl in Hfin. change (Z_FINISH =? Z_FINISH) with true in Hfin.
        cbn [andb] in Hfin. apply andb_false_iff in Hfin.
        destruct Hfin as [H|H]; [apply Nat.eqb_neq in H|apply Nat.ltb_ge in H]; lia.
  - intros d i o room (Hi & Ho & Hf) Hroom. cbn. unfold sim_deflate. rewrite Hf.
    cbn. intros _. split; [reflexivity|]. repeat split; assumption.
Qed.

Lemma sim_writer_inv : wr_inv (E := sim_wenv) sim_wrote sim_deflated sim_writer [].
Proof.
  split; [reflexivity|]. split; [reflexivity|]. split; [cbn; unfold GZBUFSIZE; lia|].
  left. repeat split.
Qed.

Lemma sim_writer_init_ok : init_ok (E := sim_wenv) sim_writer.
Proof. eexists. eexists. eexists. repeat split. Qed.

(** ** Writing, flushing and closing *)

(** X11.  What is written goes into the stream.  gzwfile_write(buf,
    len) with len > 0, on a writer without error through which the bytes
    [u] have been written, gives a result with enough fuel, without
    reading or writing outside its buffers: either it returns len, and
    the writer is then one through which [u ++ buf] has been written
    (its position has advanced by len, deflate has consumed these bytes
    in their order but for those that wait at the start of the input
    buffer, and what deflate has produced is in the file or waits in the
    output buffer, in its order), or it returns 0 and an error is
    recorded.  The first write allocates the buffers. *)
Theorem X11_gzwfile_write_keeps_the_bytes {E : Env} {OK : WriterOk E}
    (wrote : fd_t -> list byte -> Prop)
    (stream : d_state -> bool -> list byte -> list byte -> Prop)
    (budget : d_state -> list byte -> Z -> nat)
    (buf : list byte) (len : Z) (s : wtap_writer) (u : list byte) :
  sink_like wrote -> deflate_like stream budget ->
  wr_inv wrote stream s u ->
  Z.of_nat (length buf) = len -> 0 < len < 2 ^ 32 ->
  exists fuel0 r s',
    (forall fuel, (fuel0 <= fuel)%nat -> gzwfile_write fuel buf len s = Done r s') /\
    ((r = len /\ wr_inv wrote stream s' (u ++ buf))
     \/ (r = 0 /\ gzwfile_geterr s' <> 0)).
Proof.
  intros Hsink Hdeflate Hinv Hlen Hl.
  exact (gzwfile_write_spec wrote stream budget Hsink Hdeflate buf len s u Hinv Hlen Hl).
Qed.

Lemma X11_gzwfile_write_keeps_the_bytes_witness :
  exists fuel0 r s',
    (forall fuel, (fuel0 <= fuel)%nat ->
                  gzwfile_write fuel [x41; x42; x43] 3 sim_writer = Done r s') /\
    ((r = 3 /\ wr_inv sim_wrote sim_deflated s' ([] ++ [x41; x42; x43]))
     \/ (r = 0 /\ gzwfile_geterr s' <> 0)).
Proof.
  apply (X11_gzwfile_write_keeps_the_bytes (OK := sim_writer_ok) sim_wrote sim_deflated
           sim_budget [x41; x42; x43] 3 sim_writer [] sim_sink_like sim_deflate_like
           sim_writer_inv).
  - reflexivity.
  - lia.
Defined.

(** X12.  A flush brings the file up to date.  gzwfile_flush, on a
    writer without error through which the bytes [u] have been written,
    gives a result with enough fuel: either it returns 0, and then
    deflate has consumed exactly [u] and the file holds exactly what
    deflate has produced for it, nothing waiting in either buffer, or it
    returns -1 and an error is recorded. *)
Theorem X12_gzwfile_flush_writes_all {E : Env} {OK : WriterOk E}
    (wrote : fd_t -> list byte -> Prop)
    (stream : d_state -> bool -> list byte -> list byte -> Prop)
    (budget : d_state -> list byte -> Z -> nat)
    (s : wtap_writer) (u : list byte) :
  sink_like wrote -> deflate_like stream budget ->
  wr_inv wrote stream s u ->
  exists fuel0 r s',
    (forall fuel, (fuel0 <= fuel)%nat -> gzwfile_flush fuel s = Done r s') /\
    ((r = 0 /\ wr_inv wrote stream s' u /\ all_out wrote stream s' false u)
     \/ (r = -1 /\ gzwfile_geterr s' <> 0)).
Proof.
  intros Hsink Hdeflate Hinv.
  exact (gzwfile_flush_spec wrote stream budget Hsink Hdeflate s u Hinv).
Qed.

Lemma X12_gzwfile_flush_writes_all_witness :
  exists fuel0 r s',
    (forall fuel, (fuel0 <= fuel)%nat -> gzwfile_flush fuel sim_writer = Done r s') /\
    ((r = 0 /\ wr_inv sim_wrote sim_deflated s' [] /\ all_out sim_wrote sim_deflated s' false [])
     \/ (r = -1 /\ gzwfile_geterr s' <> 0)).
Proof.
  exact (X12_gzwfile_flush_writes_all (OK := sim_writer_ok) sim_wrote sim_deflated
           sim_budget sim_writer [] sim_sink_like sim_deflate_like sim_writer_inv).
Defined.

(** X13.  Closing ends the stream.  gzwfile_close, on a writer without
    error through which the bytes [u] have been written (and, when
    nothing has been allocated yet, when the allocations of gz_init
    succeed), gives a result with enough fuel; it frees each of the two
    buffers exactly once, and when it returns 0 the file holds all of a
    deflate stream that has consumed exactly [u] and has ended. *)
Theorem X13_gzwfile_close_ends_the_stream {E : Env} {OK : WriterOk E}
    (wrote : fd_t -> list byte -> Prop)
    (stream : d_state -> bool -> list byte -> list byte -> Prop)
    (budget : d_state -> list byte -> Z -> nat)
    (s : wtap_writer) (u : list byte) :
  sink_like wrote -> deflate_like stream budget ->
  wr_inv wrote stream s u ->
  (size s = 0 -> init_ok s) ->
  exists fuel0 r s',
    (forall fuel, (fuel0 <= fuel)%nat -> gzwfile_close fuel s = Done r s') /\
    in_ s' = Freed /\ out s' = Freed /\
    (r = 0 -> all_out wrote stream s' true u).
Proof.
  intros Hsink Hdeflate Hinv Hinit.
  exact (gzwfile_close_spec wrote stream budget Hsink Hdeflate s u Hinv Hinit).
Qed.

Lemma sim_writer_abc_inv :
  wr_inv (E := sim_wenv) sim_wrote sim_deflated sim_writer_abc [x41; x42; x43].
Proof.
  split; [reflexivity|]. split; [reflexivity|]. split; [vm_compute; split; reflexivity|].
  right. split; [reflexivity|]. split; [vm_compute; reflexivity|].
  split; [vm_compute; discriminate|]. split; [intros _; reflexivity|].
  split.
  - eexists. split; [reflexivity|]. vm_compute. reflexivity.
  - exists [], [], [], [x41; x42; x43]. split; [|reflexivity].
    split; [vm_compute; split; reflexivity|]. split; [vm_compute; reflexivity|].
    split; [reflexivity|]. split; [vm_compute; reflexivity|]. split; [reflexivity|].
    split; [vm_compute; split; discriminate|]. split; [vm_compute; discriminate|].
    split; [reflexivity|].
    eexists. eexists. split; [reflexivity|]. split; [vm_compute; reflexivity|].
    split; [reflexivity|]. split; [repeat split|]. reflexivity.
Qed.

Lemma X13_gzwfile_close_ends_the_stream_witness :
  exists fuel0 r s',
    (forall fuel, (fuel0 <= fuel)%nat -> gzwfile_close fuel sim_writer_abc = Done r s') /\
    in_ s' = Freed /\ out s' = Freed /\
    (r = 0 -> all_out sim_wrote sim_deflated s' true [x41; x42; x43]).
Proof.
  apply (X13_gzwfile_close_ends_the_stream (OK := sim_writer_ok) sim_wrote sim_deflated
           sim_budget sim_writer_abc [x41; x42; x43] sim_sink_like sim_deflate_like
           sim_writer_abc_inv).
  intros H. vm_compute in H. discriminate H.
Defined.

(** On the simulated environment: "ABC" written and the writer closed,
    gzwfile_close returns 0 and the file holds the stand-in stream of
    "ABC", the three bytes and the zero byte that ends it. *)
Lemma sim_write_close :
  wvalue (gzwfile_close 10 sim_writer_abc) = Some 0 /\
  sim_written (fd (wafter (gzwfile_close 10 sim_writer_abc))) = [x41; x42; x43; x00].
Proof. split; vm_compute; reflexivity. Qed.

(** X14.  Closing after gz_init has failed frees a buffer twice.  On
    a writer with nothing allocated yet (none written through it, or its
    first write failed in gz_init), when gz_init fails in the gz_comp of
    gzwfile_close after one of the two buffers was allocated (the other
    allocation or deflateInit2 failed), gz_init frees that buffer and
    returns -1, and gzwfile_close then passes the same pointer to g_free
    again: a double free, for which there is no result. *)
Theorem X14_gzwfile_close_frees_twice {E : Env} (fuel : nat) (s : wtap_writer) :
  size s = 0 ->
  g_try_malloc Alloc_in (want s) <> None \/ g_try_malloc Alloc_out (want s) <> None ->
  ~ init_ok s ->
  (exists s1, gz_comp fuel Z_FINISH s = Fail s1 /\ (in_ s1 = Freed \/ out s1 = Freed)) /\
  gzwfile_close fuel s = Stuck.
Proof. exact (gzwfile_close_frees_twice fuel s). Qed.

Lemma X14_gzwfile_close_frees_twice_witness :
  (exists s1, gz_comp 10 Z_FINISH sim_writer_low = Fail s1 /\
              (in_ s1 = Freed \/ out s1 = Freed)) /\
  gzwfile_close 10 sim_writer_low = Stuck.
Proof.
  apply (X14_gzwfile_close_frees_twice (E := sim_wenv_low) 10 sim_writer_low).
  - reflexivity.
  - left. discriminate.
  - intros (li & lo & d & _ & H & _). discriminate H.
Defined.

End WriterFacts.
